(** * TinyPedal: fuel estimator, relative/standings builder, fuel calculator

    A shallow embedding of the data-derivation code of TinyPedal
    ([module/module_fuel.py], [module/module_relative.py] and the pit-count
    loop of [ui/fuel_calculator.py]) together with the properties its
    specification states about it, followed by the code around it: the
    update loop of the fuel module, the wheel radius generator of
    [module/module_wheels.py], the update intervals of [module/_base.py],
    the rows of [widget/relative.py], the setting files, preset list and
    [copy_setting] of [setting.py], the lap time fields of
    [ui/fuel_calculator.py] and the text helpers of [widget/cruise.py] and
    [ui/tray_icon.py].

    Conventions.
    - Python [float] values are embedded as rationals [Q]; comparisons are
      the exact ones, equality of numbers is [Qeq] ([==]).
    - Python [int] values are embedded as [Z]; [//] is [Z.div] (floor).
    - Telemetry reads ([api.read. ...]) are the fields of a record handed
      to each tick.
    - A raised exception is a value of [exn]; code that can raise returns
      a [result].
    - A csv file is the list of its lines, a line the list of its fields;
      a file that could be opened for reading is taken to be writable. *)

From Stdlib Require Import ZArith QArith Qround Qminmax List Bool Lia.
From Stdlib Require Import Lqa String Ascii Permutation Sorted OrderedTypeEx.
Import ListNotations.

Local Open Scope Z_scope.

(** ** Python primitives used by the embedded code *)

Module Py.

(** [a < b] on floats. *)
Definition Qltb (a b : Q) : bool := negb (Qle_bool b a).

(** [max(a, b)]: Python keeps the first argument unless the second is
    strictly greater. *)
Definition max (a b : Q) : Q := if Qltb a b then b else a.

(** [min(a, b)]: Python keeps the first argument unless the second is
    strictly smaller. *)
Definition min (a b : Q) : Q := if Qltb b a then b else a.

(** Rounding of an exact value to the nearest integer, ties to even. *)
Definition round_half_even (q : Q) : Z :=
  let f := Qfloor q in
  match Qcompare (q - inject_Z f) (1 # 2) with
  | Lt => f
  | Gt => f + 1
  | Eq => if Z.even f then f else f + 1
  end.

(** [round(x, ndigits=6)]. *)
Definition round6 (q : Q) : Q :=
  Qmake (round_half_even (q * inject_Z 1000000)) 1000000.

(** Normalisation of a slice bound against a sequence of length [len]:
    a negative bound counts from the end, and the result is clamped to
    [0 .. len]. *)
Definition slice_bound (len i : Z) : Z :=
  if i <? 0 then Z.max (i + len) 0 else Z.min i len.

(** [l[lo:hi]], with [None] for an omitted bound. *)
Definition slice {A : Type} (l : list A) (lo hi : option Z) : list A :=
  let len := Z.of_nat (List.length l) in
  let lo' := match lo with Some i => slice_bound len i | None => 0 end in
  let hi' := match hi with Some i => slice_bound len i | None => len end in
  firstn (Z.to_nat (hi' - lo')) (skipn (Z.to_nat lo') l).

(** [l[i]] for a non-negative or negative index; [None] is [IndexError]. *)
Definition index {A : Type} (l : list A) (i : Z) : option A :=
  let len := Z.of_nat (List.length l) in
  if i <? 0
  then (if i + len <? 0 then None else nth_error l (Z.to_nat (i + len)))
  else nth_error l (Z.to_nat i).

(** [list(range(lo, hi))]. *)
Definition range (lo hi : Z) : list Z :=
  map (fun k => lo + Z.of_nat k) (seq 0 (Z.to_nat (hi - lo))).

(** [l.index(x)]: position of the first occurrence. *)
Fixpoint find_index (x : Z) (l : list Z) : option Z :=
  match l with
  | [] => None
  | y :: l' => if x =? y then Some 0
               else option_map Z.succ (find_index x l')
  end.

(** [[x] * n]. *)
Definition repeatZ {A : Type} (x : A) (n : Z) : list A := repeat x (Z.to_nat n).

(** Stable insertion of [x] into a list sorted by [leb]: [x] is placed
    before the elements it is not greater than, so that equal elements
    keep their original order when the list is built from the right. *)
Fixpoint insert_by {A : Type} (leb : A -> A -> bool) (x : A) (l : list A) : list A :=
  match l with
  | [] => [x]
  | y :: l' => if leb x y then x :: y :: l' else y :: insert_by leb x l'
  end.

(** [sorted(l)] for the order [leb]: Python's sort is stable, and a stable
    sort is determined by the order; insertion sort computes it. *)
Definition sorted {A : Type} (leb : A -> A -> bool) (l : list A) : list A :=
  fold_right (insert_by leb) [] l.

(** The order and the strict order a boolean comparison stands for. *)
Definition le_of {A : Type} (leb : A -> A -> bool) (a b : A) : Prop :=
  leb a b = true.

Definition lt_of {A : Type} (leb : A -> A -> bool) (a b : A) : Prop :=
  leb a b = true /\ leb b a = false.

End Py.

(** ** Exceptions *)

Inductive exn : Type :=
| FileNotFoundError
| PermissionError
| IndexError
| ValueError
| TypeError
| CsvError.                 (* csv.Error *)

Inductive result (A : Type) : Type :=
| Ok (a : A)
| Raise (e : exn).
Arguments Ok {A} a.
Arguments Raise {A} e.

(** Sequencing of code that can raise. *)
Definition bind {A B : Type} (r : result A) (k : A -> result B) : result B :=
  match r with
  | Ok a => k a
  | Raise e => Raise e
  end.

(** ** module_fuel.py *)

Module Fuel.

Local Open Scope Q_scope.

(** A row of a consumption curve: the tuple [(distance, used)] or, for the
    terminal row of a completed lap, [(distance, used, laptime)]. *)
Definition row : Type := list Q.

Definition DELTA_ZERO : row := [0; 0].
Definition DELTA_DEFAULT : list row := [DELTA_ZERO].

(** The values read from the data source in one pass of the loop. *)
Record telemetry : Type := {
  tank_capacity : Q;        (* api.read.vehicle.tank_capacity() *)
  fuel : Q;                 (* api.read.vehicle.fuel() *)
  timing_start : Q;         (* api.read.timing.start() *)
  current_laptime : Q;      (* api.read.timing.current_laptime() *)
  lap_distance : Q;         (* api.read.lap.distance() *)
  in_pits : bool;           (* api.read.vehicle.in_pits() *)
  elapsed_at_boundary : Q;  (* api.read.timing.elapsed(), read at line 172 *)
  elapsed_at_check : Q;     (* api.read.timing.elapsed(), read at line 194 *)
  last_laptime : Q          (* api.read.timing.last_laptime() *)
}.

(** [telemetry_fuel]. *)
Definition telemetry_fuel (t : telemetry) : Q * Q :=
  let capacity := Py.max (tank_capacity t) 1 in
  let amount_curr := fuel t in
  (capacity, amount_curr).

(** The variables of the generator [calc_data] that live across ticks and
    take part in lap recording and validation. The variables of the
    position estimate ([pos_synced], [pos_estimate], [gps_last]) and of
    the delta ([delta_fuel]) are not among them: the blocks "Update if
    position value is different" and "Calc delta" set and reset
    [pos_synced], and nothing of the recording reads it. *)
Record state : Type := {
  recording : bool;
  delayed_save : bool;
  validating : Q;
  pit_lap : bool;
  delta_list_last : list row;
  used_last : Q;
  delta_list_curr : list row;
  delta_list_temp : list row;
  amount_start : Q;
  amount_last : Q;
  used_curr : Q;
  used_last_raw : Q;
  last_lap_stime : Q;
  pos_last : Q
}.

(** The state [calc_data] builds before its loop, from what [load_delta]
    returned. *)
Definition init_state (loaded_list : list row) (loaded_used : Q) : state :=
  {| recording := false;
     delayed_save := false;
     validating := 0;
     pit_lap := false;
     delta_list_last := loaded_list;
     used_last := loaded_used;
     delta_list_curr := [DELTA_ZERO];
     delta_list_temp := DELTA_DEFAULT;
     amount_start := 0;
     amount_last := 0;
     used_curr := 0;
     used_last_raw := loaded_used;
     last_lap_stime := -1;
     pos_last := 0 |}.

Section Tick.

Variable telemetry_func : telemetry -> Q * Q.

(** [lap_stime > last_lap_stime != -1]. *)
Definition lap_boundary (s : state) (t : telemetry) : bool :=
  Py.Qltb (last_lap_stime s) (timing_start t)
  && negb (Qeq_bool (last_lap_stime s) (-1)).

(** [pit_lap = bool(pit_lap + api.read.vehicle.in_pits())]. *)
Definition pit_lap_read (s : state) (t : telemetry) : bool :=
  pit_lap s || in_pits t.

(** [len(delta_list_curr) > 1 and not pit_lap], under a lap boundary. *)
Definition lap_completed (s : state) (t : telemetry) : bool :=
  lap_boundary s t
  && (1 <? Z.of_nat (List.length (delta_list_curr s)))%Z
  && negb (pit_lap_read s t).

(** [used_curr] after the block "Realtime fuel consumption". *)
Definition used_consumed (s : state) (t : telemetry) : Q :=
  let amount_curr := snd (telemetry_func t) in
  if Py.Qltb (amount_last s) amount_curr then used_curr s
  else if Py.Qltb amount_curr (amount_last s)
       then used_curr s + (amount_last s - amount_curr)
       else used_curr s.

(** The row appended at a lap boundary ("set end value"). *)
Definition end_row (s : state) (t : telemetry) : row :=
  [ Py.round6 (pos_last s + 10);
    Py.round6 (used_consumed s t);
    Py.round6 (timing_start t - last_lap_stime s) ].

(** One pass of the [while True] loop of [calc_data] with
    [updating = True], restricted to the variables of [state]; the part of
    the loop body left out (position estimate and delta, strategy numbers,
    output record) reads these variables and writes none of them. *)
Definition tick (s : state) (t : telemetry) : state :=
  (* Read telemetry *)
  let amount_curr := snd (telemetry_func t) in
  let lap_stime := timing_start t in
  let laptime_curr := Py.max (current_laptime t) 0 in
  let pos_curr := lap_distance t in
  let pit_lap1 := pit_lap_read s t in
  (* Realtime fuel consumption *)
  let refuel := Py.Qltb (amount_last s) amount_curr in
  let burn := Py.Qltb amount_curr (amount_last s) in
  let amount_last1 := if refuel then amount_curr
                      else if burn then amount_curr else amount_last s in
  let amount_start1 := if refuel then amount_curr else amount_start s in
  let used_curr1 := used_consumed s t in
  (* Lap start & finish detection *)
  let boundary := lap_boundary s t in
  let completed := lap_completed s t in
  let delta_list_temp2 :=
    if completed then delta_list_curr s ++ [end_row s t]
    else delta_list_temp s in
  let validating2 := if completed then elapsed_at_boundary t else validating s in
  let delta_list_curr2 := if boundary then [DELTA_ZERO] else delta_list_curr s in
  let pos_last2 := if boundary then pos_curr else pos_last s in
  let used_last_raw2 := if boundary then used_curr1 else used_last_raw s in
  let used_curr2 := if boundary then 0 else used_curr1 in
  let recording2 := if boundary then Py.Qltb laptime_curr 1 else recording s in
  let pit_lap2 := if boundary then false else pit_lap1 in
  let last_lap_stime2 := lap_stime in
  (* Distance desync check at start of new lap *)
  let desync := Py.Qltb 0 laptime_curr && Py.Qltb laptime_curr 1
                && Py.Qltb 300 pos_curr in
  let pos_curr3 := if desync then 0 else pos_curr in
  let pos_last3 := if desync then 0 else pos_last2 in
  (* Update if position value is different & positive *)
  let moved := Qle_bool 0 pos_curr3 && negb (Qeq_bool pos_curr3 pos_last3) in
  let further := moved && recording2 && Py.Qltb pos_last3 pos_curr3 in
  let delta_list_curr4 :=
    if further
    then delta_list_curr2 ++ [[Py.round6 pos_curr3; Py.round6 used_curr2]]
    else delta_list_curr2 in
  let pos_last4 := if moved then pos_curr3 else pos_last3 in
  (* Validating 1s after passing finish line *)
  let checking := negb (Qeq_bool validating2 0) in
  let timer := elapsed_at_check t - validating2 in
  let accept := checking && Py.Qltb (3 # 10) timer && Qle_bool timer 3
                && Py.Qltb 0 (last_laptime t) in
  let expire := checking && negb accept && Py.Qltb 3 timer in
  {| recording := recording2;
     delayed_save := if accept then true else delayed_save s;
     validating := if accept then 0 else if expire then 0 else validating2;
     pit_lap := pit_lap2;
     delta_list_last := if accept then delta_list_temp2 else delta_list_last s;
     used_last := if accept then used_last_raw2 else used_last s;
     delta_list_curr := delta_list_curr4;
     delta_list_temp := if accept then DELTA_DEFAULT else delta_list_temp2;
     amount_start := amount_start1;
     amount_last := amount_last1;
     used_curr := used_curr2;
     used_last_raw := used_last_raw2;
     last_lap_stime := last_lap_stime2;
     pos_last := pos_last4 |}.

(** What the generator does with the value sent to it: [None] stands for
    [updating = False] (the save check, which leaves the variables as they
    are), [Some t] for [updating = True] with the telemetry read. *)
Definition step (s : state) (sent : option telemetry) : state :=
  match sent with
  | None => s
  | Some t => tick s t
  end.

(** A run of the generator: the states after each value sent. *)
Definition run (s : state) (sents : list (option telemetry)) : state :=
  fold_left step sents s.

End Tick.

(** *** Notions used to state the properties of [calc_data] *)

Section Runs.

Variable telemetry_func : telemetry -> Q * Q.

(** No value sent in the run starts a new lap. *)
Fixpoint no_boundary (s : state) (sents : list (option telemetry)) : bool :=
  match sents with
  | [] => true
  | None :: rest => no_boundary s rest
  | Some t :: rest =>
      negb (lap_boundary s t) && no_boundary (tick telemetry_func s t) rest
  end.

(** The gauge readings of the updating ticks of a run, in order. *)
Definition gauge_readings (sents : list (option telemetry)) : list Q :=
  flat_map (fun sent => match sent with
                        | Some t => [snd (telemetry_func t)]
                        | None => []
                        end) sents.

(** Whether a sample of the current lap has been recorded: the test
    [len(delta_list_curr) > 1] of the code. *)
Definition sampled (s : state) : bool :=
  (1 <? Z.of_nat (List.length (delta_list_curr s)))%Z.

(** Within a lap, once its first sample has been recorded, no tick lowers
    the last checked position [pos_last]: a tick of the run starts a new
    lap, or comes before the first sample of its lap, or leaves [pos_last]
    where it was or further. *)
Fixpoint forward_in_lap (s : state) (sents : list (option telemetry)) : bool :=
  match sents with
  | [] => true
  | None :: rest => forward_in_lap s rest
  | Some t :: rest =>
      (lap_boundary s t
       || negb (sampled s)
       || Qle_bool (pos_last s) (pos_last (tick telemetry_func s t)))
      && forward_in_lap (tick telemetry_func s t) rest
  end.

End Runs.

(** The sum of the positive decrements of a sequence of readings that
    follows the reading [prev]. *)
Fixpoint positive_decrements (prev : Q) (readings : list Q) : Q :=
  match readings with
  | [] => 0
  | r :: rest =>
      (if Py.Qltb r prev then prev - r else 0) + positive_decrements r rest
  end.

(** Time elapsed at tick [t] since the mark [m]. *)
Definition timer (m : Q) (t : telemetry) : Q := elapsed_at_check t - m.

(** The validation window as the specification words it: a pending lap is
    confirmed by a positive last lap time reported more than 0.3 s and at
    most 3 s after the mark, and dropped by a tick later than 3 s. *)
Inductive gate : Type := Pending | Expired | Replaced.

Definition gate_step (m : Q) (g : gate) (sent : option telemetry) : gate :=
  match g, sent with
  | Pending, Some t =>
      if Py.Qltb (3 # 10) (timer m t) && Qle_bool (timer m t) 3
         && Py.Qltb 0 (last_laptime t)
      then Replaced
      else if Py.Qltb 3 (timer m t) then Expired else Pending
  | _, _ => g
  end.

Definition gate_run (m : Q) (g : gate) (sents : list (option telemetry)) : gate :=
  fold_left (gate_step m) sents g.

(** What a state of [calc_data] looks like in each phase of the window
    opened at mark [m] for the curve [pending] and the raw usage [raw],
    when the reference lap was [(old_list, old_used)] before. *)
Definition gate_state (m : Q) (pending : list row) (raw : Q)
    (old_list : list row) (old_used : Q) (g : gate) (s : state) : Prop :=
  match g with
  | Pending =>
      validating s = m /\ delta_list_temp s = pending /\ used_last_raw s = raw
      /\ delta_list_last s = old_list /\ used_last s = old_used
  | Expired =>
      validating s == 0
      /\ delta_list_last s = old_list /\ used_last s = old_used
  | Replaced =>
      validating s == 0
      /\ delta_list_last s = pending /\ used_last s = raw
      /\ delayed_save s = true
  end.

(** The position of a row, its first column. *)
Definition row_pos (r : row) : Q := nth 0 r 0.

(** Positions in non-decreasing order. *)
Fixpoint ascending (l : list row) : Prop :=
  match l with
  | [] => True
  | r :: l' =>
      match l' with
      | [] => True
      | r' :: _ => row_pos r <= row_pos r'
      end /\ ascending l'
  end.

(** The position of the last row recorded in the current lap's list. *)
Definition last_recorded_pos (s : state) : Q :=
  row_pos (last (delta_list_curr s) DELTA_ZERO).

(** The shape of the current lap's list while positions only go forward
    once a sample is recorded: the list is in ascending order and is the
    zero knot alone or, past the zero knot, has its last row at the last
    checked position. *)
Definition curve_ok (s : state) : Prop :=
  ascending (delta_list_curr s)
  /\ (delta_list_curr s = [DELTA_ZERO]
      \/ (sampled s = true
          /\ recording s = true
          /\ last_recorded_pos s == Py.round6 (pos_last s)
          /\ 0 <= pos_last s)).

(** *** Persistence: [save_delta], [load_delta] *)

(** A value of a row as [csv.reader] returns it with
    [quoting=csv.QUOTE_NONNUMERIC]: a float, or a string. *)
Inductive cell : Type :=
| Num (q : Q)
| Text (s : string).

Definition raw_row : Type := list cell.

(** A list of numeric rows as a list of rows of cells. *)
Definition numeric (rows : list row) : list raw_row := map (map Num) rows.

Definition number (c : cell) : option Q :=
  match c with
  | Num q => Some q
  | Text _ => None
  end.

Fixpoint numbers_of_row (r : raw_row) : option row :=
  match r with
  | [] => Some []
  | c :: rest =>
      match number c, numbers_of_row rest with
      | Some q, Some qs => Some (q :: qs)
      | _, _ => None
      end
  end.

(** The rows as numeric rows, when every cell of them is a number. *)
Fixpoint numbers (rows : list raw_row) : option (list row) :=
  match rows with
  | [] => Some []
  | r :: rest =>
      match numbers_of_row r, numbers rest with
      | Some qs, Some qss => Some (qs :: qss)
      | _, _ => None
      end
  end.

(** A field of a line of a csv file: a number as [csv.writer] writes a
    float (Python prints a float so that it reads back as itself), a
    quoted field, or any other unquoted field. *)
Inductive field : Type :=
| Number (q : Q)
| Quoted (s : string)
| Bare (s : string).

(** What [open] finds at a path. *)
Inductive file : Type :=
| Missing                         (* no such file: FileNotFoundError *)
| Denied                          (* no access: PermissionError *)
| Csv (lines : list (list field)) (* lines of fields *)
| Garbled                         (* bytes that are not UTF-8:
                                     UnicodeDecodeError, a ValueError *)
| Malformed.                      (* content the reader rejects, a field
                                     over the size limit say: csv.Error *)

(** The file [csv.writer] makes of numeric rows. *)
Definition Rows (rows : list row) : file := Csv (map (map Number) rows).

Definition store : Type := string -> file.

Definition write (fs : store) (path : string) (f : file) : store :=
  fun p => if String.eqb p path then f else fs p.

(** [f"{filepath}{combo}.{extension}"]. *)
Definition path_of (filepath combo extension : string) : string :=
  (filepath ++ combo ++ "." ++ extension)%string.

(** [validator.py] is not part of the sources at hand: [val.delta_list]
    is taken as a parameter, a function of the rows read that returns a
    list of rows or raises. *)
Record validator : Type := {
  delta_list : list raw_row -> result (list raw_row)
}.

(** Whether [csv.writer], with its default [QUOTE_MINIMAL], quotes a
    string: when it holds the delimiter, the quote character or a line
    break. *)
Definition quoted_by_writer (s : string) : bool :=
  existsb (fun ch => Ascii.eqb ch ","%char
                     || Ascii.eqb ch (ascii_of_nat 34)  (* the quote *)
                     || Ascii.eqb ch (ascii_of_nat 10)  (* line feed *)
                     || Ascii.eqb ch (ascii_of_nat 13)) (* carriage return *)
          (list_ascii_of_string s).

(** The field [csv.writer] writes for a cell. *)
Definition written (c : cell) : field :=
  match c with
  | Num q => Number q
  | Text s => if quoted_by_writer s then Quoted s else Bare s
  end.

(** [save_delta]; a file that can be opened can be written. *)
Definition save_delta (dataset : list raw_row) (fs : store)
    (filepath combo extension : string) : result store :=
  if (10 <=? Z.of_nat (List.length dataset))%Z
  then
    match fs (path_of filepath combo extension) with
    | Denied => Raise PermissionError
    | _ => Ok (write fs (path_of filepath combo extension)
                 (Csv (map (map written) dataset)))
    end
  else Ok fs.

(** [lastlist[-1][column]]. *)
Definition last_row_column {A : Type} (lastlist : list (list A)) (column : Z)
    : result A :=
  match Py.index lastlist (-1) with
  | None => Raise IndexError
  | Some last_row =>
      match Py.index last_row column with
      | None => Raise IndexError
      | Some value => Ok value
      end
  end.

(** [except (FileNotFoundError, IndexError, ValueError, TypeError)]. *)
Definition caught (e : exn) : bool :=
  match e with
  | FileNotFoundError | IndexError | ValueError | TypeError => true
  | PermissionError | CsvError => false
  end.

(** The save check of [calc_data], run when [updating] is false. *)
Definition save_check (s : state) (fs : store)
    (filepath combo extension : string) : result store :=
  if delayed_save s
  then save_delta (numeric (delta_list_last s)) fs filepath combo extension
  else Ok fs.

Section Reader.

(** [float(s)] of a string, as the reader applies it to an unquoted field:
    the number the string spells, or [None] for the [ValueError] of a
    string that spells none. *)
Variable float : string -> option Q.

(** What the reader, with [quoting=csv.QUOTE_NONNUMERIC], makes of a
    field: a quoted field is returned as a string, an unquoted field is
    converted with [float]; an empty unquoted field is the empty
    string. *)
Definition read_field (f : field) : result cell :=
  match f with
  | Number q => Ok (Num q)
  | Quoted s => Ok (Text s)
  | Bare s =>
      if String.eqb s EmptyString then Ok (Text EmptyString)
      else match float s with
           | Some q => Ok (Num q)
           | None => Raise ValueError
           end
  end.

Fixpoint read_line (line : list field) : result raw_row :=
  match line with
  | [] => Ok []
  | f :: rest =>
      bind (read_field f) (fun c =>
      bind (read_line rest) (fun cs => Ok (c :: cs)))
  end.

Fixpoint read_lines (lines : list (list field)) : result (list raw_row) :=
  match lines with
  | [] => Ok []
  | line :: rest =>
      bind (read_line line) (fun r =>
      bind (read_lines rest) (fun rs => Ok (r :: rs)))
  end.

(** [list(csv.reader(open(path), quoting=csv.QUOTE_NONNUMERIC))]. *)
Definition read_rows (fs : store) (path : string) : result (list raw_row) :=
  match fs path with
  | Missing => Raise FileNotFoundError
  | Denied => Raise PermissionError
  | Csv lines => read_lines lines
  | Garbled => Raise ValueError
  | Malformed => Raise CsvError
  end.

(** The body of the [try] of [load_delta]: the store it leaves and the
    triple it binds, or the exception raised. *)
Definition load_delta_try (v : validator) (fs : store)
    (filepath combo extension : string)
    : result (store * (list raw_row * cell * cell)) :=
  bind (read_rows fs (path_of filepath combo extension)) (fun temp_list =>
  let temp_list_size := List.length temp_list in
  (* Validate data *)
  bind (delta_list v temp_list) (fun lastlist =>
  bind (last_row_column lastlist 1) (fun used_last =>
  bind (last_row_column lastlist 2) (fun laptime_last =>
  (* Save data if modified *)
  if negb (Nat.eqb temp_list_size (List.length lastlist))
  then bind (save_delta lastlist fs filepath combo extension) (fun fs' =>
       Ok (fs', (lastlist, used_last, laptime_last)))
  else Ok (fs, (lastlist, used_last, laptime_last)))))).

(** [load_delta]: the store it leaves and [(lastlist, used_last,
    laptime_last)], or the exception that leaves it. *)
Definition load_delta (v : validator) (fs : store)
    (filepath combo extension : string)
    : result (store * (list raw_row * cell * cell)) :=
  match load_delta_try v fs filepath combo extension with
  | Ok r => Ok r
  | Raise e =>
      if caught e
      then Ok (fs, (numeric DELTA_DEFAULT, Num 0, Num 0))
      else Raise e
  end.

(** The start of [calc_data], up to its loop: the state built from what
    [load_delta] returned. [None] stands for a generator that was handed
    a string: it holds the string in [delta_list_last] or [used_last],
    where this embedding holds numbers, and hands it to the functions of
    [calculation.py] at its first tick. *)
Definition calc_data_start (v : validator) (fs : store)
    (filepath combo extension : string) : result (store * option state) :=
  bind (load_delta v fs filepath combo extension)
    (fun '(fs', (delta_list_last, used_last, laptime_last)) =>
       match numbers delta_list_last, number used_last with
       | Some loaded_list, Some loaded_used =>
           Ok (fs', Some (init_state loaded_list loaded_used))
       | _, _ => Ok (fs', None)
       end).

End Reader.

(** Modelled from the spec: [validator.py] is not among the sources;
    corrupt entries, rows without a position and a used amount, are
    filtered out. *)
Definition spec_validator : validator :=
  {| delta_list := fun rows =>
       Ok (filter (fun r => (2 <=? Z.of_nat (List.length r))%Z) rows) |}.

(** A [float] for the scenarios, which spell no number as text: it reads
    no string as a number. *)
Definition no_number : string -> option Q := fun _ => None.

(** A store with no file, one whose fuel file cannot be opened and one
    whose fuel file the reader rejects. *)
Definition empty_store : store := fun _ => Missing.

Definition locked_store : store :=
  write empty_store (path_of "deltabest/" "track - car" "fuel") Denied.

Definition malformed_store : store :=
  write empty_store (path_of "deltabest/" "track - car" "fuel") Malformed.

(** A store whose fuel file is one line of three quoted fields. *)
Definition quoted_store : store :=
  write empty_store (path_of "deltabest/" "track - car" "fuel")
    (Csv [[Quoted "x"; Quoted "y"; Quoted "z"]]).

(** A curve of ten rows, the last one with the lap time. *)
Definition ten_rows : list row :=
  [ [0; 0]; [100; 2 # 10]; [200; 4 # 10]; [300; 6 # 10]; [400; 8 # 10];
    [500; 1]; [600; 12 # 10]; [700; 14 # 10]; [800; 16 # 10];
    [810; 18 # 10; 90] ].

(** A store whose fuel file holds the ten rows and, after the first of
    them, a line of one field. *)
Definition damaged_store : store :=
  write empty_store (path_of "deltabest/" "track - car" "fuel")
    (Csv ([Number 0; Number 0] :: [Number 50]
          :: map (map Number) (tl ten_rows))).

(** A store whose fuel file holds ten rows, the second of them three
    quoted fields, and a line of one field. *)
Definition texted_store : store :=
  write empty_store (path_of "deltabest/" "track - car" "fuel")
    (Csv ([Number 0; Number 0] :: [Quoted "x"; Quoted "y"; Quoted "z"]
          :: [Number 50]
          :: map (map Number) (tl (tl ten_rows)))).

(** *** Scenarios *)

(** A tick with the given lap start time, current lap time, lap distance,
    session clock, last lap time and gauge reading, out of the pits. *)
Definition reading_at (stime laptime pos clock lastlap amount : Q) : telemetry :=
  {| tank_capacity := 100;
     fuel := amount;
     timing_start := stime;
     current_laptime := laptime;
     lap_distance := pos;
     in_pits := false;
     elapsed_at_boundary := clock;
     elapsed_at_check := clock;
     last_laptime := lastlap |}.

(** A lap in which the car reaches 500 m and then rolls back to 400 m. *)
Definition backward_lap : list (option telemetry) :=
  [ Some (reading_at 100 50 1000 150 90 50);
    Some (reading_at 200 0 0 200 90 49);
    Some (reading_at 200 10 500 210 90 48);
    Some (reading_at 200 20 400 220 90 47) ].

(** A lap in which the car reaches 500 m and then 600 m. *)
Definition forward_lap : list (option telemetry) :=
  [ Some (reading_at 100 50 1000 150 90 50);
    Some (reading_at 200 0 0 200 90 49);
    Some (reading_at 200 10 500 210 90 48);
    None;
    Some (reading_at 200 20 600 220 90 47) ].

(** A roll-back from 1000 m to 990 m in the lap the car joined in, then
    the start of a lap read with the distance of the lap before (1000 m,
    then 1002 m half a second into the lap, which the desync check resets
    to 0), in which the car reaches 500 m and then 600 m. *)
Definition rollback_then_clean_lap : list (option telemetry) :=
  [ Some (reading_at 100 50 1000 150 90 50);
    Some (reading_at 100 51 990 151 90 50);
    Some (reading_at 200 0 1000 200 90 49);
    Some (reading_at 200 (1 # 2) 1002 (2005 # 10) 90 49);
    Some (reading_at 200 10 500 210 90 48);
    Some (reading_at 200 20 600 220 90 47) ].

(** The tick that ends either lap, 90 s after its start. *)
Definition lap_end : telemetry := reading_at 290 0 0 290 90 46.

(** After the end of the lap: a tick 0.2 s later, then one 1 s later that
    reports the last lap time 90. *)
Definition after_lap_end : list (option telemetry) :=
  [ Some (reading_at 290 (2 # 10) 10 (2902 # 10) 90 46);
    Some (reading_at 290 1 50 291 90 (459 # 10)) ].

(** A lap with a refuel: the gauge goes 49, 48, 60, 58. *)
Definition refuel_lap : list (option telemetry) :=
  [ Some (reading_at 200 10 500 210 90 48);
    None;
    Some (reading_at 200 20 600 220 90 60);
    Some (reading_at 200 30 700 230 90 58) ].

(** The state at the start of the lap of [forward_lap]. *)
Definition lap_start_state : state :=
  run telemetry_fuel (init_state DELTA_DEFAULT 0)
    [ Some (reading_at 100 50 1000 150 90 50);
      Some (reading_at 200 0 0 200 90 49) ].

End Fuel.

(** ** module_relative.py *)

Module Relative.

(** Running [f] over a list, stopping at the first raise. *)
Fixpoint traverse {A B : Type} (f : A -> result B) (l : list A) : result (list B) :=
  match l with
  | [] => Ok []
  | a :: l' => bind (f a) (fun b => bind (traverse f l') (fun bs => Ok (b :: bs)))
  end.

Definition len {A : Type} (l : list A) : Z := Z.of_nat (List.length l).

(** Lexicographic combination of comparisons, as Python compares tuples. *)
Definition lex (c1 c2 : comparison) : comparison :=
  match c1 with
  | Eq => c2
  | _ => c1
  end.

Definition not_gt (c : comparison) : bool :=
  match c with
  | Gt => false
  | _ => true
  end.

(** What the comparisons of the embedded tuples have in common: swapping
    the arguments flips the outcome, [Lt] is transitive, and elements that
    compare [Eq] compare alike with any third one. *)
Record tuple_order {A : Type} (compare : A -> A -> comparison) : Prop := {
  compare_antisym : forall a b, compare b a = CompOpp (compare a b);
  compare_lt_trans :
    forall a b c, compare a b = Lt -> compare b c = Lt -> compare a c = Lt;
  compare_eq_l : forall a b c, compare a b = Eq -> compare a c = compare b c
}.

(** [a <= b] for a comparison of tuples. *)
Definition leb_of {A : Type} (compare : A -> A -> comparison) (a b : A) : bool :=
  not_gt (compare a b).

(** *** Settings and telemetry *)

(** The settings [update_data] reads. *)
Record settings : Type := {
  show_vehicle_in_garage_for_race : bool;
  additional_players_front : Z;
  additional_players_behind : Z;
  enable_multi_class_split_mode : bool;
  min_top_vehicles : Z;
  max_vehicles_combined_mode : Z;
  max_vehicles_per_split_others : Z;
  max_vehicles_per_split_player : Z
}.

(** The values [update_data] and its generators read from the data source
    in one pass; the functions of an index are the per-vehicle reads. *)
Record snapshot : Type := {
  total_vehicles : Z;           (* api.read.vehicle.total_vehicles() *)
  player_index : Z;             (* api.read.vehicle.player_index() *)
  player_place : Z;             (* api.read.vehicle.place() *)
  track_length : Q;             (* api.read.lap.track_length() *)
  player_distance : Q;          (* api.read.lap.distance() *)
  in_race : bool;               (* api.read.session.in_race() *)
  in_garage : Z -> bool;        (* api.read.vehicle.in_garage(index) *)
  distance : Z -> Q;            (* api.read.lap.distance(index) *)
  class_name : Z -> string;     (* api.read.vehicle.class_name(index) *)
  place : Z -> Z;               (* api.read.vehicle.place(index) *)
  best_laptime : Z -> Q         (* api.read.timing.best_laptime(index) *)
}.

(** The tuple [get_vehicle_class_data] yields for a vehicle. *)
Record vehicle : Type := {
  veh_class : string;   (* 0 vehicle class name *)
  veh_place : Z;        (* 1 overall position/place *)
  veh_index : Z;        (* 2 player index *)
  veh_best : Q          (* 3 best lap time *)
}.

(** The tuple [create_position_in_class] yields for a vehicle. *)
Record class_pos : Type := {
  cp_index : Z;         (* 0 player index *)
  cp_position : Z;      (* 1 position in class *)
  cp_class : string;    (* 2 class name *)
  cp_session_best : Q;  (* 3 session best *)
  cp_class_best : Q;    (* 4 classes best *)
  cp_ahead : Z;         (* 5 player index ahead *)
  cp_behind : Z         (* 6 player index behind *)
}.

(** The functions of [calculation.py] the module calls; that file is not
    part of the sources at hand, so they are taken as parameters. *)
Record calc : Type := {
  circular_relative_distance : Q -> Q -> Q -> Q;
  session_best_laptime : list vehicle -> Z -> Q
}.

(** *** Relative list *)

(** [max_relative_vehicles]. *)
Definition max_relative_vehicles (add_front add_behind min_veh : Z) : Z * Z * Z :=
  let add_front := Z.min (Z.max add_front 0) 60 in
  let add_behind := Z.min (Z.max add_behind 0) 60 in
  let max_vehicles := min_veh + add_front + add_behind in
  (max_vehicles, add_front, add_behind).

(** [get_relative_distance]: the pairs [(rel_dist, index)]. *)
Definition get_relative_distance (c : calc) (api : snapshot)
    (veh_total : Z) (show_garage_in_race : bool) : list (Q * Z) :=
  let race_check := negb show_garage_in_race && in_race api in
  flat_map (fun index =>
              if negb race_check || negb (in_garage api index)
              then [(circular_relative_distance c (track_length api)
                       (player_distance api) (distance api index), index)]
              else [])
           (Py.range 0 veh_total).

(** Order of the tuples [(rel_dist, index)]. *)
Definition dist_compare (a b : Q * Z) : comparison :=
  lex (Qcompare (fst a) (fst b)) (Z.compare (snd a) (snd b)).

(** [sorted(..., reverse=True)]: descending, equal elements in their
    original order. *)
Definition sorted_reverse (l : list (Q * Z)) : list (Q * Z) :=
  Py.sorted (fun a b => leb_of dist_compare b a) l.

(** [create_relative_index]. *)
Definition create_relative_index (rel_dist_list : list (Q * Z))
    (plr_index max_rel_veh add_front add_behind : Z) : list Z :=
  match rel_dist_list with
  | [] => []
  | _ :: _ =>
      (* Extract vehicle index to create new sorted vehicle list *)
      let sorted_veh_list := map snd rel_dist_list in
      (* Locate player index position in list *)
      let plr_pos := match Py.find_index plr_index sorted_veh_list with
                     | Some pos => pos
                     | None => 0
                     end in
      (* Append with -1 if less than max number of vehicles *)
      let num_diff := max_rel_veh - len sorted_veh_list in
      let sorted_veh_list :=
        if 0 <? num_diff then sorted_veh_list ++ Py.repeatZ (-1) num_diff
        else sorted_veh_list in
      (* Slice: max number of front players -> player index position *)
      let front_cut :=
        Py.slice sorted_veh_list
          (Some (Z.max (plr_pos - 3 - add_front) 0)) (Some plr_pos) in
      (* Find number of missing front players *)
      let front_miss := 3 + add_front - len front_cut in
      let front_list :=
        Py.slice sorted_veh_list (Some (len sorted_veh_list - front_miss)) None
        ++ front_cut in
      (* Slice: player index position -> max number of behind players *)
      let behind_cut :=
        Py.slice sorted_veh_list (Some plr_pos)
          (Some (plr_pos + 4 + add_behind)) in
      (* Find number of missing behind players *)
      let behind_miss := 4 + add_behind - len behind_cut in
      let behind_list :=
        behind_cut ++ Py.slice sorted_veh_list None (Some behind_miss) in
      (* Combine index list *)
      front_list ++ behind_list
  end.

(** The relative list [update_data] publishes. *)
Definition relative (c : calc) (cfg : settings) (api : snapshot) : list Z :=
  let '(max_rel_veh, add_front, add_behind) :=
    max_relative_vehicles (additional_players_front cfg)
      (additional_players_behind cfg) 7 in
  let veh_total := Z.max (total_vehicles api) 1 in
  let plr_index := player_index api in
  let rel_dist_list :=
    sorted_reverse
      (get_relative_distance c api veh_total
         (show_vehicle_in_garage_for_race cfg)) in
  create_relative_index rel_dist_list plr_index max_rel_veh add_front add_behind.

(** *** Standings list *)

Definition ALL_PLACES : list Z := Py.range 1 129.

(** [min_top_vehicles_in_class]. *)
Definition min_top_vehicles_in_class (min_top_veh : Z) : Z :=
  Z.min (Z.max min_top_veh 1) 5.

(** [max_vehicles_in_class]. *)
Definition max_vehicles_in_class (max_cls_veh min_top_veh min_add_veh : Z) : Z :=
  Z.max max_cls_veh (min_top_veh + min_add_veh).

(** [max_vehicle_limit_set]: the limits for all, other classes, the
    player's class. *)
Definition max_vehicle_limit_set (min_top_veh max_all max_others max_player : Z)
    : Z * Z * Z :=
  let limit_all := max_vehicles_in_class max_all min_top_veh 2 in
  let limit_other := max_vehicles_in_class max_others min_top_veh 0 in
  let limit_player := max_vehicles_in_class max_player min_top_veh 2 in
  (limit_all, limit_other, limit_player).

(** [get_vehicle_class_data]. *)
Definition get_vehicle_class_data (api : snapshot) (veh_total : Z) : list vehicle :=
  map (fun index =>
         let laptime_best := best_laptime api index in
         {| veh_class := class_name api index;
            veh_place := place api index;
            veh_index := index;
            veh_best := if Py.Qltb 0 laptime_best then laptime_best
                        else inject_Z 99999 |})
      (Py.range 0 veh_total).

(** Order of the tuples of [get_vehicle_class_data]. *)
Definition vehicle_compare (a b : vehicle) : comparison :=
  lex (String.compare (veh_class a) (veh_class b))
   (lex (Z.compare (veh_place a) (veh_place b))
     (lex (Z.compare (veh_index a) (veh_index b))
          (Qcompare (veh_best a) (veh_best b)))).

(** Order of the tuples of [create_position_in_class]. *)
Definition class_pos_compare (a b : class_pos) : comparison :=
  lex (Z.compare (cp_index a) (cp_index b))
   (lex (Z.compare (cp_position a) (cp_position b))
     (lex (String.compare (cp_class a) (cp_class b))
       (lex (Qcompare (cp_session_best a) (cp_session_best b))
         (lex (Qcompare (cp_class_best a) (cp_class_best b))
           (lex (Z.compare (cp_ahead a) (cp_ahead b))
                (Z.compare (cp_behind a) (cp_behind b))))))).

(** Order of the pairs [(place, index)]. *)
Definition place_index_compare (a b : Z * Z) : comparison :=
  lex (Z.compare (fst a) (fst b)) (Z.compare (snd a) (snd b)).

(** Order of the keys [itemgetter(2,4,1)]: class name, class best laptime,
    class position. *)
Definition class_key_compare (a b : class_pos) : comparison :=
  lex (String.compare (cp_class a) (cp_class b))
   (lex (Qcompare (cp_class_best a) (cp_class_best b))
        (Z.compare (cp_position a) (cp_position b))).

(** The loop of [create_position_in_class] over the vehicles left, with
    the values its variables hold on entry. *)
Fixpoint position_loop (laptime_session_best : Q) (initial_class : string)
    (position_in_class : Z) (laptime_class_best : Q) (player_index_ahead : Z)
    (todo : list vehicle) : list class_pos :=
  match todo with
  | [] => []
  | veh_sort :: rest =>
      let same := String.eqb (veh_class veh_sort) initial_class in
      let position_in_class := if same then position_in_class + 1 else 1 in
      let initial_class := if same then initial_class else veh_class veh_sort in
      let leader := position_in_class =? 1 in
      let laptime_class_best :=
        if leader then veh_best veh_sort else laptime_class_best in
      let player_index_ahead := if leader then -1 else player_index_ahead in
      let player_index_behind :=
        match rest with
        | next :: _ =>
            if String.eqb (veh_class next) (veh_class veh_sort)
            then veh_index next else -1
        | [] => -1
        end in
      {| cp_index := veh_index veh_sort;
         cp_position := position_in_class;
         cp_class := veh_class veh_sort;
         cp_session_best := laptime_session_best;
         cp_class_best := laptime_class_best;
         cp_ahead := player_index_ahead;
         cp_behind := player_index_behind |}
      :: position_loop laptime_session_best initial_class position_in_class
           laptime_class_best (veh_index veh_sort) rest
  end.

(** [create_position_in_class]; [sorted_veh_class[0]] raises on an empty
    list. *)
Definition create_position_in_class (c : calc) (sorted_veh_class : list vehicle)
    : result (list class_pos) :=
  let laptime_session_best := session_best_laptime c sorted_veh_class 3 in
  match sorted_veh_class with
  | [] => Raise IndexError
  | first :: _ =>
      Ok (position_loop laptime_session_best (veh_class first) 0
            (inject_Z 99999) (-1) sorted_veh_class)
  end.

(** [len(set(names)) > 1]. *)
Definition more_than_one_class (names : list string) : bool :=
  1 <? len (nodup string_dec names).

(** [create_class_position]; [split_veh_list[0]] raises when there is no
    vehicle. *)
Definition create_class_position (c : calc) (api : snapshot) (veh_total : Z)
    : result (list class_pos * list (Z * Z) * bool) :=
  let raw_veh_class := get_vehicle_class_data api veh_total in
  match raw_veh_class with
  | [] => Raise IndexError
  | _ :: _ =>
      (* Multi-class check *)
      let is_multi_class := more_than_one_class (map veh_class raw_veh_class) in
      (* Create overall vehicle place, player index list *)
      let place_index_list :=
        Py.sorted (leb_of place_index_compare)
          (map (fun v => (veh_place v, veh_index v)) raw_veh_class) in
      (* Create class position list *)
      let raw_veh_class :=
        Py.sorted (leb_of vehicle_compare) raw_veh_class in
      bind (create_position_in_class c raw_veh_class) (fun positions =>
      let class_pos_list :=
        Py.sorted (leb_of class_pos_compare) positions in
      Ok (class_pos_list, place_index_list, is_multi_class))
  end.

(** [create_reference_place]. *)
Definition create_reference_place (min_top_veh veh_total plr_place veh_limit : Z)
    : list Z :=
  if veh_total <=? veh_limit then Py.slice ALL_PLACES None (Some veh_total)
  else if plr_place <=? min_top_veh then Py.slice ALL_PLACES None (Some veh_limit)
  else
    (* Find nearby slice range relative to player *)
    let max_cut_range := veh_limit - min_top_veh in
    let rear_cut_count := (max_cut_range - 1) / 2 in
    let front_cut_count := max_cut_range - rear_cut_count in
    (* Find front slice limit *)
    let front_cut_raw := plr_place - front_cut_count in
    let front_cut_raw :=
      if front_cut_raw <? min_top_veh then min_top_veh else front_cut_raw in
    (* Find rear slice limit *)
    let rear_cut_max := front_cut_raw + max_cut_range in
    let rear_cut_max :=
      if veh_total <? rear_cut_max then veh_total else rear_cut_max in
    let front_cut_max := rear_cut_max - max_cut_range in
    Py.slice ALL_PLACES None (Some min_top_veh)
    ++ Py.slice ALL_PLACES (Some front_cut_max) (Some rear_cut_max).

(** [player_index_from_place_reference]; the index [ref_idx - 1] is in
    range under the guard, so the default of [nth] is never returned. *)
Fixpoint player_index_from_place_reference (ref_place_list : list Z)
    (place_index_list : list (Z * Z)) : list Z :=
  let max_places := len place_index_list in
  match ref_place_list with
  | [] => [-1]
  | ref_idx :: rest =>
      if (0 <? ref_idx) && (ref_idx <=? max_places)
      then snd (nth (Z.to_nat (ref_idx - 1)) place_index_list (0, -1))
           :: player_index_from_place_reference rest place_index_list
      else [-1]
  end.

(** [calc_standings_index]. *)
Definition calc_standings_index (min_top_veh veh_total veh_limit plr_place : Z)
    (place_index_list : list (Z * Z)) : list Z :=
  let ref_place_list :=
    create_reference_place min_top_veh veh_total plr_place veh_limit in
  player_index_from_place_reference ref_place_list place_index_list.

(** The loop of [split_class_list] over the vehicles left. *)
Fixpoint split_loop (class_list : list class_pos) (class_name : string)
    (index_start index_end : Z) (todo : list class_pos)
    : list (list class_pos) :=
  match todo with
  | [] => [Py.slice class_list (Some index_start) (Some index_end)]
  | vehicle :: rest =>
      if String.eqb (cp_class vehicle) class_name
      then split_loop class_list class_name index_start (index_end + 1) rest
      else Py.slice class_list (Some index_start) (Some index_end)
           :: split_loop class_list (cp_class vehicle) index_end
                (index_end + 1) rest
  end.

(** [split_class_list]; [class_list[0]] raises on an empty list. *)
Definition split_class_list (class_list : list class_pos)
    : result (list (list class_pos)) :=
  match class_list with
  | [] => Raise IndexError
  | first :: _ => Ok (split_loop class_list (cp_class first) 0 0 class_list)
  end.

(** [sort_class_collection]; [collection[0]] raises on an empty list. *)
Definition sort_class_collection (collection : list class_pos) : result Q :=
  match collection with
  | [] => Raise IndexError
  | first :: _ => Ok (cp_class_best first)
  end.

(** [sorted(collections, key=sort_class_collection)]: the keys are
    computed first, then the collections are put in the order of their
    keys. *)
Definition sorted_by_class_best (collections : list (list class_pos))
    : result (list (list class_pos)) :=
  bind (traverse (fun collection =>
                    bind (sort_class_collection collection)
                         (fun key => Ok (key, collection)))
                 collections)
       (fun keyed =>
          Ok (map snd (Py.sorted (fun a b => Qle_bool (fst a) (fst b)) keyed))).

(** One pass of the loop of [create_class_standings_index];
    [class_split[1]] raises on an empty class list. *)
Definition class_standings_index (min_top_veh plr_index : Z)
    (veh_limit_other veh_limit_player : Z) (class_list : list class_pos)
    : result (list Z) :=
  match class_list with
  | [] => Raise IndexError
  | _ :: _ =>
      let indices := map cp_index class_list in
      let positions := map cp_position class_list in
      let place_index_list := combine positions indices in
      let veh_total := last positions 0 in
      match Py.find_index plr_index indices with
      | Some local_index =>
          let veh_limit := veh_limit_player in
          let plr_place := nth (Z.to_nat local_index) positions 0 in
          Ok (calc_standings_index min_top_veh veh_total veh_limit plr_place
                place_index_list)
      | None =>
          let veh_limit := veh_limit_other in
          let plr_place := 0 in
          Ok (calc_standings_index min_top_veh veh_total veh_limit plr_place
                place_index_list)
      end
  end.

(** [create_class_standings_index]. *)
Definition create_class_standings_index (min_top_veh plr_index : Z)
    (class_collection : list (list class_pos))
    (veh_limit_other veh_limit_player : Z) : result (list (list Z)) :=
  traverse (class_standings_index min_top_veh plr_index
              veh_limit_other veh_limit_player)
           class_collection.

(** [create_standings_index]. *)
Definition create_standings_index (min_top_veh : Z) (veh_limit : Z * Z * Z)
    (veh_total plr_index plr_place : Z) (class_pos_list : list class_pos)
    (place_index_list : list (Z * Z)) (is_multi_class : bool)
    : result (list Z) :=
  let '(limit_all, limit_other, limit_player) := veh_limit in
  if is_multi_class
  then
    let sorted_class_pos_list :=
      Py.sorted (leb_of class_key_compare) class_pos_list in
    bind (split_class_list sorted_class_pos_list) (fun collections =>
    bind (sorted_by_class_best collections) (fun class_collection =>
    bind (create_class_standings_index min_top_veh plr_index class_collection
            limit_other limit_player) (fun groups =>
    Ok (List.concat groups))))
  else
    Ok (calc_standings_index min_top_veh veh_total limit_all plr_place
          place_index_list).

(** The standings list [update_data] publishes. *)
Definition standings (c : calc) (cfg : settings) (api : snapshot)
    : result (list Z) :=
  let is_split_mode := enable_multi_class_split_mode cfg in
  let min_top_veh := min_top_vehicles_in_class (min_top_vehicles cfg) in
  let veh_limit :=
    max_vehicle_limit_set min_top_veh (max_vehicles_combined_mode cfg)
      (max_vehicles_per_split_others cfg)
      (max_vehicles_per_split_player cfg) in
  let veh_total := Z.max (total_vehicles api) 1 in
  let plr_index := player_index api in
  let plr_place := player_place api in
  bind (create_class_position c api veh_total)
    (fun '(class_pos_list, place_index_list, is_multi_class) =>
       create_standings_index min_top_veh veh_limit veh_total plr_index
         plr_place class_pos_list place_index_list
         (is_split_mode && is_multi_class)).

(** *** Notions used to state the properties of the standings *)

(** The places the data source reports for the [n] vehicles are a
    ranking: every place from 1 to [n] is held by a vehicle. *)
Definition ranked (api : snapshot) (n : Z) : Prop :=
  forall k, 1 <= k <= n -> exists i, 0 <= i < n /\ place api i = k.

(** The groups [split_class_list] yields, read off the list itself rather
    than through slice indices: [current] is the group being built for
    the class [class_name]. *)
Fixpoint class_runs (current : list class_pos) (class_name : string)
    (todo : list class_pos) : list (list class_pos) :=
  match todo with
  | [] => [current]
  | vehicle :: rest =>
      if String.eqb (cp_class vehicle) class_name
      then class_runs (current ++ [vehicle]) class_name rest
      else current :: class_runs [vehicle] (cp_class vehicle) rest
  end.

(** The members of a class list carry the class positions 1, 2, ... in
    this order. *)
Definition numbered (class_list : list class_pos) : Prop :=
  map cp_position class_list = Py.range 1 (len class_list + 1).

(** Whether [update_data] asks for the class-split standings. *)
Definition split_mode (cfg : settings) (api : snapshot) : bool :=
  enable_multi_class_split_mode cfg
  && more_than_one_class
       (map veh_class
          (get_vehicle_class_data api (Z.max (total_vehicles api) 1))).

(** *** Scenarios *)

(** Modelled from the spec: [calculation.py] is not among the sources; the
    relative distance is the circular distance to the player respecting
    the track length wraparound, and the session best laptime is the best
    lap time of the session's vehicles. *)
Definition spec_calc : calc :=
  {| circular_relative_distance := fun track_length plr_dist opt_dist =>
       let rel_dist := (opt_dist - plr_dist)%Q in
       if Py.Qltb (track_length / 2) rel_dist then (rel_dist - track_length)%Q
       else if Py.Qltb rel_dist (- (track_length / 2))
            then (rel_dist + track_length)%Q
            else rel_dist;
     session_best_laptime := fun vehicles _ =>
       fold_right (fun v best => Py.min (veh_best v) best)
                  (inject_Z 99999) vehicles |}.

(** Settings with a combined-mode limit of 4 vehicles, one protected top
    place and no additional relative slots. *)
Definition small_settings (split : bool) : settings :=
  {| show_vehicle_in_garage_for_race := false;
     additional_players_front := 0;
     additional_players_behind := 0;
     enable_multi_class_split_mode := split;
     min_top_vehicles := 1;
     max_vehicles_combined_mode := 4;
     max_vehicles_per_split_others := 2;
     max_vehicles_per_split_player := 3 |}.

(** A field given by the lists of its per-vehicle reads. *)
Definition field (player : Z) (race : bool) (garage : list bool)
    (classes : list string) (places : list Z) : snapshot :=
  {| total_vehicles := len places;
     player_index := player;
     player_place := nth (Z.to_nat player) places 0;
     track_length := 5000;
     player_distance := inject_Z (100 * player);
     in_race := race;
     in_garage := fun i => nth (Z.to_nat i) garage false;
     distance := fun i => inject_Z (100 * i);
     class_name := fun i => nth (Z.to_nat i) classes EmptyString;
     place := fun i => nth (Z.to_nat i) places 0;
     best_laptime := fun i => inject_Z (90 + i) |}.

(** Six vehicles of two classes; the player, index 4, is last overall. *)
Definition six_cars : snapshot :=
  field 4 true [false; false; false; false; false; false]
    ["GT3"; "LMP2"; "GT3"; "LMP2"; "GT3"; "GT3"]%string
    [3; 1; 4; 2; 6; 5].

(** A race in which the only vehicle, the player's, sits in the garage. *)
Definition garage_only : snapshot :=
  field 0 true [true] ["GT3"%string] [1].

(** Five vehicles of one class that all report place 1; the player's is
    the last of them. *)
Definition tied_cars : snapshot :=
  field 4 true [false; false; false; false; false]
    ["GT3"; "GT3"; "GT3"; "GT3"; "GT3"]%string
    [1; 1; 1; 1; 1].

(** A field of 130 vehicles of one class, vehicle [i] in place [i + 1];
    the player's is vehicle 128, in place 129. *)
Definition crowded_field : snapshot :=
  field 128 true (repeat false 130) (repeat "GT3"%string 130) (Py.range 1 131).

End Relative.

(** ** ui/fuel_calculator.py: the pit-count loop of [run_calculation] *)

Module Calculator.

Local Open Scope Q_scope.

(** The functions of [calculation.py] the loop calls; that file is not
    part of the sources at hand, so they are taken as parameters. *)
Record calc : Type := {
  time_type_full_laps_remain : Q -> Q -> Q -> Q;
  total_fuel_needed : Q -> Q -> Q -> Q;
  end_stint_fuel : Q -> Q -> Q -> Q;
  end_stint_pit_counts : Q -> Q -> Q
}.

(** The arguments of [run_calculation] the loop reads, and the unit
    setting [cfg.units["fuel_unit"] == "Gallon"]. *)
Record inputs : Type := {
  output_is_fuel : bool;        (* output_type == "fuel" *)
  unit_is_gallon : bool;
  tank_capacity : Q;
  consumption : Q;
  total_race_seconds : Q;
  race_laps : Q;                (* total_race_laps, as passed in *)
  total_formation_laps : Q;
  average_pit_seconds : Q;
  laptime : Q
}.

(** The variables the loop assigns. The last four are first bound in the
    loop body; they stand at 0 before the first iteration, where nothing
    reads them. *)
Record loop_state : Type := {
  estimate_pit_counts : Q;
  minimum_pit_counts : Z;
  loop_counts : Z;
  total_race_laps : Q;
  total_need_frac : Q;
  total_need_full : Q;
  amount_curr : Q;
  end_stint_fuel_left : Q
}.

Definition loop_init (inp : inputs) : loop_state :=
  {| estimate_pit_counts := 0;
     minimum_pit_counts := 0;
     loop_counts := 10;
     total_race_laps := race_laps inp;
     total_need_frac := 0;
     total_need_full := 0;
     amount_curr := 0;
     end_stint_fuel_left := 0 |}.

(** [minimum_pit_counts < estimate_pit_counts and
     minimum_pit_counts == math.floor(estimate_pit_counts)],
    on the values an iteration leaves. *)
Definition revert_fires (s : loop_state) : bool :=
  Py.Qltb (inject_Z (minimum_pit_counts s)) (estimate_pit_counts s)
  && (minimum_pit_counts s =? Qfloor (estimate_pit_counts s))%Z.

(** [minimum_pit_counts == math.ceil(estimate_pit_counts)], on the values
    an iteration leaves: the [break]. *)
Definition stabilized (s : loop_state) : bool :=
  (minimum_pit_counts s =? Qceiling (estimate_pit_counts s))%Z.

(** One pass through the body of [while loop_counts:], up to the [break]
    test. *)
Definition loop_body (c : calc) (inp : inputs) (s : loop_state) : loop_state :=
  let minimum_pit_counts := Qceiling (estimate_pit_counts s) in
  let total_race_laps :=
    if negb (Qeq_bool (total_race_seconds inp) 0)
    then (* time-type race *)
      let total_pit_seconds :=
        inject_Z minimum_pit_counts * average_pit_seconds inp in
      total_formation_laps inp
      + time_type_full_laps_remain c 0 (laptime inp)
          (total_race_seconds inp - total_pit_seconds)
    else (* lap-type race *)
      total_formation_laps inp + total_race_laps s in
  let total_need_frac :=
    total_fuel_needed c total_race_laps (consumption inp) 0 in
  (* Keep 1 decimal place for Gallon *)
  let total_need_full :=
    if unit_is_gallon inp && output_is_fuel inp
    then inject_Z (Qceiling (total_need_frac * 10)) / 10
    else inject_Z (Qceiling total_need_frac) in
  let amount_refuel := total_need_full - tank_capacity inp in
  let amount_curr := Py.min total_need_full (tank_capacity inp) in
  let end_stint_fuel := end_stint_fuel c amount_curr 0 (consumption inp) in
  let estimate_pit_counts :=
    end_stint_pit_counts c amount_refuel (tank_capacity inp - end_stint_fuel) in
  let loop_counts := (loop_counts s - 1)%Z in
  (* Set one last loop to revert back to last minimum pit counts *)
  let loop_counts :=
    if Py.Qltb (inject_Z minimum_pit_counts) estimate_pit_counts
       && (minimum_pit_counts =? Qfloor estimate_pit_counts)%Z
    then 1%Z else loop_counts in
  {| estimate_pit_counts := estimate_pit_counts;
     minimum_pit_counts := minimum_pit_counts;
     loop_counts := loop_counts;
     total_race_laps := total_race_laps;
     total_need_frac := total_need_frac;
     total_need_full := total_need_full;
     amount_curr := amount_curr;
     end_stint_fuel_left := end_stint_fuel |}.

(** The [while loop_counts:] loop, run for at most [fuel] iterations: the
    variables it leaves and the number of iterations it made, or [None]
    when it is still running after [fuel] iterations. *)
Fixpoint pit_loop (c : calc) (inp : inputs) (fuel : nat) (s : loop_state)
    : option (loop_state * nat) :=
  if (loop_counts s =? 0)%Z then Some (s, O)
  else
    match fuel with
    | O => None
    | S fuel' =>
        let s' := loop_body c inp s in
        if stabilized s' then Some (s', 1%nat)
        else
          match pit_loop c inp fuel' s' with
          | Some (final, n) => Some (final, S n)
          | None => None
          end
    end.

(** The variables after [j] passes through the body, were the loop not to
    stop before. *)
Definition after (c : calc) (inp : inputs) (j : nat) (s : loop_state) : loop_state :=
  Nat.iter j (loop_body c inp) s.

(** The variables after each pass the loop makes from [s], in order, for
    at most [fuel] passes: the loop makes a pass while the counter is not
    0 and stops after a pass that stabilizes. *)
Fixpoint passes (c : calc) (inp : inputs) (fuel : nat) (s : loop_state)
    : list loop_state :=
  if (loop_counts s =? 0)%Z then []
  else
    match fuel with
    | O => []
    | S fuel' =>
        let s' := loop_body c inp s in
        s' :: (if stabilized s' then [] else passes c inp fuel' s')
    end.

(** The "one last loop" rule fires on no two passes in a row of those
    made. *)
Fixpoint no_double_revert (made : list loop_state) : bool :=
  match made with
  | [] => true
  | s :: rest =>
      match rest with
      | [] => true
      | s' :: _ => negb (revert_fires s && revert_fires s')
      end && no_double_revert rest
  end.

(** The rule fires on no pass of those made. *)
Definition never_reverts (made : list loop_state) : bool :=
  forallb (fun s => negb (revert_fires s)) made.

(** Modelled from the spec: [calculation.py] is not among the sources.
    Needed fuel is laps times consumption minus the amount in the tank;
    the end-of-stint amount is what is left when the last full lap of the
    stint is done; the pit count is needed fuel over capacity minus
    end-of-stint amount, the quotient [run_calculation] itself rounds up
    with [math.ceil] and clamps with [max(.., 0)]; full laps remaining in
    a time-limited race are the remaining time over the lap time, rounded
    up. *)
Definition spec_calc : calc :=
  {| time_type_full_laps_remain := fun laps_into laptime seconds_remain =>
       if Qeq_bool laptime 0 then 0
       else inject_Z (Qceiling (laps_into + seconds_remain / laptime));
     total_fuel_needed := fun laps_remain consumption fuel_in_tank =>
       laps_remain * consumption - fuel_in_tank;
     end_stint_fuel := fun fuel_in_tank consumption_into_lap consumption =>
       if Qeq_bool consumption 0 then 0
       else
         let fuel_at_lap_start := fuel_in_tank + consumption_into_lap in
         fuel_at_lap_start
         - inject_Z (Qfloor (fuel_at_lap_start / consumption)) * consumption;
     end_stint_pit_counts := fun fuel_needed fuel_per_stint =>
       if Qeq_bool fuel_per_stint 0 then 0 else fuel_needed / fuel_per_stint |}.

(** A 3-lap race after 2 formation laps, 5 l a lap from a 10 l tank. *)
Definition short_tank_race : inputs :=
  {| output_is_fuel := true;
     unit_is_gallon := false;
     tank_capacity := 10;
     consumption := 5;
     total_race_seconds := 0;
     race_laps := 3;
     total_formation_laps := 2;
     average_pit_seconds := 30;
     laptime := 100 |}.

(** A 60-minute race, 3 l a lap of 100 s from a 50 l tank, 30 s a stop. *)
Definition hour_race : inputs :=
  {| output_is_fuel := true;
     unit_is_gallon := false;
     tank_capacity := 50;
     consumption := 3;
     total_race_seconds := 3600;
     race_laps := 0;
     total_formation_laps := 1;
     average_pit_seconds := 30;
     laptime := 100 |}.

(** A 3-lap race after 18 formation laps, 1 l a lap from a 20 l tank. *)
Definition long_formation_race : inputs :=
  {| output_is_fuel := true;
     unit_is_gallon := false;
     tank_capacity := 20;
     consumption := 1;
     total_race_seconds := 0;
     race_laps := 3;
     total_formation_laps := 18;
     average_pit_seconds := 30;
     laptime := 100 |}.

(** The passes of the runaway race [short_tank_race]: after pass [k] the
    race counts [3 + 2k] laps and the estimate stands at [k + 1/2]. *)
Definition runaway (k : Z) (s : loop_state) : Prop :=
  (1 <= k)%Z
  /\ loop_counts s <> 0%Z
  /\ total_race_laps s == inject_Z (3 + 2 * k)
  /\ estimate_pit_counts s == inject_Z k + (1 # 2).

End Calculator.

(** ** module_fuel.py: the update loop of [Realtime] *)

Module FuelRealtime.

Import Fuel.
Local Open Scope Q_scope.

(** The curve of a completed lap: the zero knot, at least one sample
    [(distance, used)] and the terminal row [(distance, used, laptime)]. *)
Definition complete_curve (l : list row) : Prop :=
  exists samples terminal,
    l = DELTA_ZERO :: samples ++ [terminal]
    /\ samples <> []
    /\ Forall (fun r => List.length r = 2%nat) samples
    /\ List.length terminal = 3%nat.

(** What the lists of every state reached from the initial one look like,
    [loaded_list] being the list [load_delta] returned: the current list
    is the zero knot followed by samples; while the validation window is
    open the pending list is a completed lap; the reference list is the
    loaded one or a completed lap, the latter once a lap was accepted. *)
Definition curves_shaped (loaded_list : list row) (s : state) : Prop :=
  (exists samples, delta_list_curr s = DELTA_ZERO :: samples
                   /\ Forall (fun r => List.length r = 2%nat) samples)
  /\ (validating s == 0 \/ complete_curve (delta_list_temp s))
  /\ (delta_list_last s = loaded_list \/ complete_curve (delta_list_last s))
  /\ (delayed_save s = true -> complete_curve (delta_list_last s)).

(** What the loop of [update_data] keeps between passes: the generator
    [gen_calc_fuel] while [reset] is true, with the [combo_id] it was
    created with ([None] stands for [reset = False], where the generator
    of the last activation is never sent to again), and the files. *)
Record realtime : Type := {
  gen_calc_fuel : option (string * state);
  disk : store
}.

Section UpdateData.

Variable float : string -> option Q.
Variable v : validator.
Variable filepath : string.

(** One pass of the [while] loop of [update_data], up to the update of
    the consumption history: [active] is [api.state]; [combo_id] is what
    [api.read.check.combo_id()] returns in this pass, read when a
    generator is created; [t_first] is the telemetry read by the send of
    the initial run, [t] the telemetry read by the send of "Run
    calculation". The save check writes under the combo the generator was
    created with. [Ok None] stands for a pass that creates a generator on
    a string ([calc_data_start]), which is outside this embedding. *)
Definition update_pass (active : bool) (combo_id : string)
    (t_first t : telemetry) (m : realtime) : result (option realtime) :=
  if active then
    match gen_calc_fuel m with
    | None =>
        (* gen_calc_fuel = calc_data(...); next(...); send(True) *)
        bind (calc_data_start float v (disk m) filepath combo_id "fuel")
          (fun '(fs, started) =>
             match started with
             | Some s0 =>
                 let s1 := tick telemetry_fuel s0 t_first in
                 (* Run calculation *)
                 Ok (Some {| gen_calc_fuel :=
                               Some (combo_id, tick telemetry_fuel s1 t);
                             disk := fs |})
             | None => Ok None
             end)
    | Some (combo, s) =>
        (* Run calculation *)
        Ok (Some {| gen_calc_fuel := Some (combo, tick telemetry_fuel s t);
                    disk := disk m |})
    end
  else
    match gen_calc_fuel m with
    | Some (combo, s) =>
        (* Trigger save check *)
        bind (save_check s (disk m) filepath combo "fuel")
          (fun fs => Ok (Some {| gen_calc_fuel := None; disk := fs |}))
    | None => Ok (Some m)
    end.

End UpdateData.

(** A row of [minfo.history.consumption]. *)
Record lap_entry : Type := {
  lap_number : Z;
  lap_valid : bool;
  lap_time : Q;
  lap_fuel : Q;
  lap_energy : Q;
  lap_drain : Q;
  lap_regen : Q
}.

(** What the update of the consumption history reads from the data source
    and from the other modules' outputs. *)
Record lap_info : Type := {
  completed_laps : Z;           (* api.read.lap.completed_laps() *)
  isValidLap : bool;            (* minfo.delta.isValidLap *)
  lapTimeLast : Q;              (* minfo.delta.lapTimeLast *)
  lapTimeCurrent : Q;           (* minfo.delta.lapTimeCurrent *)
  fuelLastLapConsumption : Q;   (* minfo.fuel.lastLapConsumption *)
  energyLastLapConsumption : Q; (* minfo.energy.lastLapConsumption *)
  batteryDrainLast : Q;         (* minfo.hybrid.batteryDrainLast *)
  batteryRegenLast : Q          (* minfo.hybrid.batteryRegenLast *)
}.

(** [deque.appendleft] on a deque of the given [maxlen] ([None]: not
    bounded): a full deque drops its rightmost element. *)
Definition appendleft {A : Type} (maxlen : option nat) (x : A) (d : list A)
    : list A :=
  match maxlen with
  | None => x :: d
  | Some n => firstn n (x :: d)
  end.

(** "Update consumption history"; [consumption[0]] raises on an empty
    deque. The deque is created in [module_info.py], which is not among
    the sources: its [maxlen] is a parameter. *)
Definition update_history (maxlen : option nat) (consumption : list lap_entry)
    (r : lap_info) : result (list lap_entry) :=
  match consumption with
  | [] => Raise IndexError
  | newest :: _ =>
      if negb (Qeq_bool (lap_time newest) (lapTimeLast r))
         && Py.Qltb (lapTimeCurrent r) (lapTimeLast r)
         && Py.Qltb 2 (lapTimeCurrent r)
      then Ok (appendleft maxlen
                 {| lap_number := completed_laps r - 1;
                    lap_valid := isValidLap r;
                    lap_time := lapTimeLast r;
                    lap_fuel := fuelLastLapConsumption r;
                    lap_energy := energyLastLapConsumption r;
                    lap_drain := batteryDrainLast r;
                    lap_regen := batteryRegenLast r |}
                 consumption)
      else Ok consumption
  end.

(** *** Scenarios *)

(** The tick that starts the lap at 200, read in the pit lane. *)
Definition pit_start : telemetry :=
  {| tank_capacity := 100;
     fuel := 49;
     timing_start := 200;
     current_laptime := 0;
     lap_distance := 0;
     in_pits := true;
     elapsed_at_boundary := 200;
     elapsed_at_check := 200;
     last_laptime := 90 |}.

(** A tick in the pit lane, 30 s into the lap that started at 200. *)
Definition pit_reading : telemetry :=
  {| tank_capacity := 100;
     fuel := 47;
     timing_start := 200;
     current_laptime := 30;
     lap_distance := 700;
     in_pits := true;
     elapsed_at_boundary := 230;
     elapsed_at_check := 230;
     last_laptime := 90 |}.

(** A lap of nine samples, 100 m apart, its end, and the tick one second
    later that reports the lap time. *)
Definition nine_sample_lap : list (option telemetry) :=
  map (fun k => Some (reading_at 200 (inject_Z (10 * k)) (inject_Z (100 * k))
                        (inject_Z (200 + 10 * k)) 90 (49 - inject_Z k * (1 # 10))))
      (Py.range 1 10)
  ++ [ Some lap_end; Some (reading_at 290 1 50 291 90 (459 # 10)) ].

(** A session from its first tick: the end of the lap the car joined
    in, the start of the next lap, and that lap. *)
Definition first_session : list (option telemetry) :=
  [ Some (reading_at 100 50 1000 150 90 50);
    Some (reading_at 200 0 0 200 90 49) ]
  ++ nine_sample_lap.

(** The history before the first lap and the readings three seconds into
    the second lap. *)
Definition empty_history : list lap_entry :=
  [ {| lap_number := 0; lap_valid := false; lap_time := 0; lap_fuel := 0;
       lap_energy := 0; lap_drain := 0; lap_regen := 0 |} ].

Definition after_first_lap : lap_info :=
  {| completed_laps := 1;
     isValidLap := true;
     lapTimeLast := 90;
     lapTimeCurrent := 3;
     fuelLastLapConsumption := 3;
     energyLastLapConsumption := 0;
     batteryDrainLast := 0;
     batteryRegenLast := 0 |}.

End FuelRealtime.

(** ** module_wheels.py *)

Module Wheels.

Local Open Scope Q_scope.

(** [int(x)] of a float: truncation towards zero. *)
Definition int_of (x : Q) : Z :=
  if Qle_bool 0 x then Qfloor x else Qceiling x.

(** [round(x, 3)]. *)
Definition round3 (x : Q) : Q :=
  Qmake (Py.round_half_even (x * inject_Z 1000)) 1000.

(** [sample_slice_indices]: the bounds of [slice(.., ..)]. *)
Definition sample_slice_indices (min_samples : Z) : Z * Z :=
  (int_of (inject_Z min_samples * (25 # 100)),
   int_of (inject_Z min_samples * (75 # 100))).

(** [deque.append] on a deque of the given [maxlen]: a full deque drops
    its leftmost element. *)
Definition deque_append {A : Type} (maxlen : nat) (d : list A) (x : A) : list A :=
  skipn (List.length (d ++ [x]) - maxlen) (d ++ [x]).

(** The functions of [calculation.py] the generator calls; that file is
    not part of the sources at hand, so they are taken as parameters. *)
Record calc : Type := {
  min_vs_avg : list Q -> Q;
  rot2radius : Q -> Q -> Q;
  mean : list Q -> Q
}.

(** The keys of the module's configuration the generator reads and
    [update_data] writes. *)
Record config : Type := {
  last_vehicle_info : string;
  last_wheel_radius_front : Q;
  last_wheel_radius_rear : Q
}.

(** The variables of the generator [calc_wheel_radius] that live across
    its yields; the deques hold their oldest sample first. *)
Record state : Type := {
  radius_front : Q;
  radius_rear : Q;
  min_samples_f : Z;
  min_samples_r : Z;
  samples_slice_f : Z * Z;
  samples_slice_r : Z * Z;
  list_radius_f : list Q;
  list_radius_r : list Q
}.

(** [calc_wheel_radius] up to its loop; the first pass of the loop, run
    by [next], finds [speed = 0] and yields the radii as they are. *)
Definition calc_wheel_radius_start (mcfg : config) (vehicle_id : string) : state :=
  let saved := String.eqb (last_vehicle_info mcfg) vehicle_id in
  let radius_front := if saved then last_wheel_radius_front mcfg else 0 in
  let radius_rear := if saved then last_wheel_radius_rear mcfg else 0 in
  let min_samples_f := if saved then 160%Z else 20%Z in
  let min_samples_r := if saved then 160%Z else 20%Z in
  {| radius_front := radius_front;
     radius_rear := radius_rear;
     min_samples_f := min_samples_f;
     min_samples_r := min_samples_r;
     samples_slice_f := sample_slice_indices min_samples_f;
     samples_slice_r := sample_slice_indices min_samples_r;
     list_radius_f := [];
     list_radius_r := [] |}.

(** The samples averaged for an axle: [sorted(list_radius)[samples_slice]]. *)
Definition sliced_samples (list_radius : list Q) (samples_slice : Z * Z) : list Q :=
  Py.slice (Py.sorted Qle_bool list_radius)
    (Some (fst samples_slice)) (Some (snd samples_slice)).

Section Generator.

Variable c : calc.

(** What one pass of the loop does for an axle, given the rotation of its
    two wheels: the radius, the sample count, the slice and the deque
    after it. *)
Definition axle_pass (speed : Q) (rot_left rot_right : Q)
    (radius : Q) (min_samples : Z) (samples_slice : Z * Z) (list_radius : list Q)
    : Q * Z * (Z * Z) * list Q :=
  (* Get wheel rotation difference *)
  let diff_rot := min_vs_avg c [rot_left; rot_right] in
  (* Record radius value for targeted rotation difference *)
  let list_radius :=
    if Py.Qltb 0 diff_rot && Py.Qltb diff_rot (1 # 10)
    then deque_append 160 list_radius
           (rot2radius c speed (mean c [rot_left; rot_right]))
    else list_radius in
  (* Average wheel radius *)
  if (min_samples <=? Z.of_nat (List.length list_radius))%Z
  then
    let radius := round3 (mean c (sliced_samples list_radius samples_slice)) in
    if (min_samples <? 160)%Z
    then (radius, (min_samples * 2)%Z,
          sample_slice_indices (min_samples * 2), list_radius)
    else (radius, min_samples, samples_slice, list_radius)
  else (radius, min_samples, samples_slice, list_radius).

(** One pass of the [while True] loop of [calc_wheel_radius], from the
    values sent to the generator to its next yield. *)
Definition send (s : state) (sent : Q * (Q * Q * Q * Q)) : state :=
  let '(speed, (rot0, rot1, rot2, rot3)) := sent in
  if Py.Qltb 3 speed
  then
    let '(radius_front, min_samples_f, samples_slice_f, list_radius_f) :=
      axle_pass speed rot0 rot1 (radius_front s) (min_samples_f s)
        (samples_slice_f s) (list_radius_f s) in
    let '(radius_rear, min_samples_r, samples_slice_r, list_radius_r) :=
      axle_pass speed rot2 rot3 (radius_rear s) (min_samples_r s)
        (samples_slice_r s) (list_radius_r s) in
    {| radius_front := radius_front;
       radius_rear := radius_rear;
       min_samples_f := min_samples_f;
       min_samples_r := min_samples_r;
       samples_slice_f := samples_slice_f;
       samples_slice_r := samples_slice_r;
       list_radius_f := list_radius_f;
       list_radius_r := list_radius_r |}
  else s.

(** The value the generator yields. *)
Definition yielded (s : state) : Q * Q := (radius_front s, radius_rear s).

(** A run of the generator: the state after each value sent. *)
Definition run (s : state) (sents : list (Q * (Q * Q * Q * Q))) : state :=
  fold_left send sents s.

End Generator.

(** What [update_data] does to the configuration when the data source
    goes away. *)
Definition save_radius (mcfg : config) (vehicle_id : string)
    (radius_front radius_rear : Q) : config :=
  if negb (Qeq_bool radius_front 0) && negb (Qeq_bool radius_rear 0)
  then {| last_vehicle_info := vehicle_id;
          last_wheel_radius_front := radius_front;
          last_wheel_radius_rear := radius_rear |}
  else mcfg.

(** What an axle of the generator looks like at any time: the sample
    count is one of 20, 40, 80, 160, the slice is the one computed from
    it, and the deque holds fewer samples than the count while the count
    can still double, and at most 160. *)
Definition axle_ok (min_samples : Z) (samples_slice : Z * Z)
    (list_radius : list Q) : Prop :=
  In min_samples [20; 40; 80; 160]%Z
  /\ samples_slice = sample_slice_indices min_samples
  /\ ((min_samples < 160)%Z -> (Z.of_nat (List.length list_radius) < min_samples)%Z)
  /\ (Z.of_nat (List.length list_radius) <= 160)%Z.

(** *** Scenario *)

(** An instance of the parameters, to run the generator on concrete
    values: every pair of rotations counts as a sample, the radius is the
    speed over the mean rotation and the mean is the arithmetic mean. *)
Definition sample_calc : calc :=
  {| min_vs_avg := fun _ => 5 # 100;
     rot2radius := fun speed rotation =>
       if Qeq_bool rotation 0 then 0 else speed / rotation;
     mean := fun data =>
       fold_right Qplus 0 data / inject_Z (Z.of_nat (List.length data)) |}.

(** A configuration that holds the radii of the vehicle "car". *)
Definition saved_config : config :=
  {| last_vehicle_info := "car";
     last_wheel_radius_front := 33 # 100;
     last_wheel_radius_rear := 34 # 100 |}.

(** Values sent at 50 m/s with the wheels turning at 150 rad/s. *)
Definition cruising : Q * (Q * Q * Q * Q) := (50, (150, 150, 150, 150)).

End Wheels.

(** ** module/_base.py *)

Module DataModule.

Local Open Scope Q_scope.

(** [self.active_interval], from the module's [update_interval] and the
    compatibility setting [minimum_update_interval]. *)
Definition active_interval (update_interval minimum_update_interval : Q) : Q :=
  Py.max update_interval minimum_update_interval / 1000.

(** [self.idle_interval]; [max] of three arguments keeps the first of the
    greatest ones. *)
Definition idle_interval
    (update_interval idle_update_interval minimum_update_interval : Q) : Q :=
  Py.max
    (Py.max (active_interval update_interval minimum_update_interval)
            idle_update_interval)
    minimum_update_interval
  / 1000.

End DataModule.

(** ** widget/relative.py: the rows of the relative widget *)

Module RelativeWidget.

(** "Max display players": [self.veh_range]. *)
Definition veh_range (additional_players_front additional_players_behind : Z) : Z :=
  let veh_add_front := Z.min (Z.max additional_players_front 0) 60 in
  let veh_add_behind := Z.min (Z.max additional_players_behind 0) 60 in
  Z.max (7 + veh_add_front + veh_add_behind) 7.

(** What [timerEvent] puts in row [idx]: [Some index] stands for
    [get_data(index, vehicles_data)], [None] for [empty_vehicles_data];
    [relative_idx[idx]] raises out of range. *)
Definition row_source (relative_idx : list Z) (total_veh_idx : Z) (idx : Z)
    : result (option Z) :=
  let total_idx := Relative.len relative_idx in
  if idx <? total_idx
  then
    match Py.index relative_idx idx with
    | None => Raise IndexError
    | Some index =>
        if (0 <=? index) && (index <? total_veh_idx)
        then Ok (Some index)
        else Ok None   (* bypass index out range *)
    end
  else Ok None.

(** The rows [timerEvent] fills when [api.state] holds; [None] when the
    relative list is empty and the rows are left as they are. *)
Definition timer_rows (veh_range : Z) (relative_idx : list Z) (total_veh_idx : Z)
    : result (option (list (option Z))) :=
  match relative_idx with
  | [] => Ok None
  | _ :: _ =>
      bind (Relative.traverse (row_source relative_idx total_veh_idx)
              (Py.range 0 veh_range))
           (fun rows => Ok (Some rows))
  end.

(** A race of two vehicles of one class, the player's first. *)
Definition two_cars : Relative.snapshot :=
  Relative.field 0 true [false; false] ["GT3"; "GT3"]%string [1; 2].

End RelativeWidget.

(** ** widget/cruise.py, ui/tray_icon.py: text helpers *)

Module Text.

Local Open Scope Q_scope.

(** [deg2direction]; [None] stands for the [UnboundLocalError] of a
    [return text] reached with no branch taken. *)
Definition deg2direction (degrees : Q) : option string :=
  if Qle_bool degrees (225 # 10) || Qle_bool (3375 # 10) degrees
  then Some " N"%string
  else if Py.Qltb (225 # 10) degrees && Py.Qltb degrees (675 # 10)
  then Some "NE"%string
  else if Qle_bool (675 # 10) degrees && Qle_bool degrees (1125 # 10)
  then Some " E"%string
  else if Py.Qltb (1125 # 10) degrees && Py.Qltb degrees (1575 # 10)
  then Some "SE"%string
  else if Qle_bool (1575 # 10) degrees && Qle_bool degrees (2025 # 10)
  then Some " S"%string
  else if Py.Qltb (2025 # 10) degrees && Py.Qltb degrees (2475 # 10)
  then Some "SW"%string
  else if Qle_bool (2475 # 10) degrees && Qle_bool degrees (2925 # 10)
  then Some " W"%string
  else if Py.Qltb (2925 # 10) degrees && Py.Qltb degrees (3375 # 10)
  then Some "NW"%string
  else None.

(** [format_preset_name], on a string as the list of its characters;
    [dot] is the character of the literal ["..."]. *)
Definition format_preset_name {A : Type} (dot : A) (filename : list A) : list A :=
  let loaded_preset := Py.slice filename None (Some (-5)%Z) in
  if (16 <? Relative.len loaded_preset)%Z
  then Py.slice loaded_preset None (Some 16%Z) ++ [dot; dot; dot]
  else loaded_preset.

End Text.

(** ** setting.py *)

Module Setting.

(** *** [copy_setting]: dictionaries as shared objects *)

(** A Python value as far as [copy_setting] can tell values apart: one
    without a [copy] method (a number, a string, a bool, [None]), or a
    reference to a dict or list object. *)
Inductive value : Type :=
| Plain (n : Z)
| Ref (r : nat).

(** A dict holds its items in insertion order. *)
Inductive object : Type :=
| Dict (items : list (string * value))
| PyList (elems : list value).

(** The objects alive, by reference. *)
Definition heap : Type := list object.

Definition deref (h : heap) (r : nat) : option object := nth_error h r.

(** A new object: the heap with it and its reference. *)
Definition alloc (h : heap) (o : object) : heap * nat :=
  (h ++ [o], List.length h).

(** [item.copy()]: the shallow copy of a dict or of a list, a new object;
    [None] stands for the [AttributeError] of a value without [copy]. *)
Definition copy_value (h : heap) (item : value) : option (heap * value) :=
  match item with
  | Plain _ => None
  | Ref r =>
      match deref h r with
      | Some o => let '(h', r') := alloc h o in Some (h', Ref r')
      | None => None
      end
  end.

(** [{key: item.copy() for key, item in dict_user.items()}], the items of
    the new dict. *)
Fixpoint copy_items (h : heap) (items : list (string * value))
    : option (heap * list (string * value)) :=
  match items with
  | [] => Some (h, [])
  | (key, item) :: rest =>
      match copy_value h item with
      | None => None
      | Some (h', item') =>
          match copy_items h' rest with
          | None => None
          | Some (h'', rest') => Some (h'', (key, item') :: rest')
          end
      end
  end.

(** [isinstance(item, dict)]. *)
Definition is_dict (h : heap) (item : value) : bool :=
  match item with
  | Plain _ => false
  | Ref r =>
      match deref h r with
      | Some (Dict _) => true
      | _ => false
      end
  end.

(** [copy_setting]: the [for] loop returns in its first pass, so that the
    first item alone decides between the copy of every item and the
    shallow copy of the dict. *)
Definition copy_setting (h : heap) (dict_user : nat) : option (heap * nat) :=
  match deref h dict_user with
  | Some (Dict items) =>
      match items with
      | (_, item) :: _ =>
          if is_dict h item
          then
            match copy_items h items with
            | Some (h', items') => Some (alloc h' (Dict items'))
            | None => None
            end
          else Some (alloc h (Dict items))
      | [] => Some (alloc h (Dict items))
      end
  | _ => None
  end.

(** [d[key]] for the dict at [r]; [None] when there is no such dict or
    key. *)
Definition get_item (h : heap) (r : nat) (key : string) : option value :=
  match deref h r with
  | Some (Dict items) =>
      option_map snd (find (fun kv => String.eqb (fst kv) key) items)
  | _ => None
  end.

(** The items of a dict after [d[key] = v]: the value of an existing key
    is replaced in place, a new key goes last. *)
Fixpoint assign (items : list (string * value)) (key : string) (v : value)
    : list (string * value) :=
  match items with
  | [] => [(key, v)]
  | (k, old) :: rest =>
      if String.eqb k key then (k, v) :: rest
      else (k, old) :: assign rest key v
  end.

(** The heap with the object at [r] replaced. *)
Fixpoint update (h : heap) (r : nat) (o : object) : heap :=
  match h, r with
  | [], _ => []
  | _ :: h', O => o :: h'
  | x :: h', S r' => x :: update h' r' o
  end.

(** [d[key] = v] for the dict at [r]. *)
Definition set_item (h : heap) (r : nat) (key : string) (v : value)
    : option heap :=
  match deref h r with
  | Some (Dict items) => Some (update h r (Dict (assign items key v)))
  | _ => None
  end.

(** [d[section][key]]. *)
Definition get_nested (h : heap) (r : nat) (section key : string) : option value :=
  match get_item h r section with
  | Some (Ref r1) => get_item h r1 key
  | _ => None
  end.

(** [d[section][key] = v]. *)
Definition set_nested (h : heap) (r : nat) (section key : string) (v : value)
    : option heap :=
  match get_item h r section with
  | Some (Ref r1) => set_item h r1 key v
  | _ => None
  end.

(** A dict all of whose items are dicts of plain values, as the default
    setting is. *)
Definition sections_of_plain (h : heap) (items : list (string * value)) : Prop :=
  Forall (fun kv => exists r inner,
                      snd kv = Ref r /\ deref h r = Some (Dict inner)) items.

(** *** Scenarios *)

(** A setting of one section: the dict at 1, its section at 0. *)
Definition sectioned_heap : heap :=
  [ Dict [("show_fuel"%string, Plain 1)];
    Dict [("fuel"%string, Ref 0%nat)] ].

(** A dict whose first item is a number and whose second is a section. *)
Definition plain_first_heap : heap :=
  [ Dict [("show_fuel"%string, Plain 1)];
    Dict [("version"%string, Plain 2); ("fuel"%string, Ref 0%nat)] ].

(** A dict whose first item is a section and whose second is a number. *)
Definition plain_second_heap : heap :=
  [ Dict [("show_fuel"%string, Plain 1)];
    Dict [("fuel"%string, Ref 0%nat); ("version"%string, Plain 2)] ].

(** *** [load_preset_list] *)

(** [c.lower()] for an ASCII character. *)
Definition lower_char (c : ascii) : ascii :=
  let n := nat_of_ascii c in
  if (65 <=? n)%nat && (n <=? 90)%nat then ascii_of_nat (n + 32) else c.

(** [_filename.lower().endswith(".json")], on the characters of the
    file name. *)
Definition is_json_name (filename : list ascii) : bool :=
  let tail := Py.slice filename (Some (-5)%Z) None in
  (5 <=? Relative.len filename)%Z
  && (String.eqb (string_of_list_ascii (map lower_char tail)) ".json").

(** Order of the tuples [(mtime, name)]. *)
Definition preset_compare (a b : Q * list ascii) : comparison :=
  Relative.lex (Qcompare (fst a) (fst b))
    (String.compare (string_of_list_ascii (snd a))
                    (string_of_list_ascii (snd b))).

(** [load_preset_list]: [listing] is what [os.listdir] returns, each
    name with the [os.path.getmtime] of the file; [allowed] stands for
    [val.allowed_filename(rxp.CFG_INVALID_FILENAME, name)], whose files
    are not among the sources. *)
Definition load_preset_list (allowed : list ascii -> bool)
    (listing : list (list ascii * Q)) : list (list ascii) :=
  let raw_cfg_list :=
    flat_map (fun entry =>
                if is_json_name (fst entry)
                then [(snd entry, Py.slice (fst entry) None (Some (-5)%Z))]
                else [])
             listing in
  match raw_cfg_list with
  | [] => [list_ascii_of_string "default"]
  | _ :: _ =>
      (* sort by file modified date *)
      let raw_cfg_list :=
        Py.sorted (fun a b => Relative.leb_of preset_compare b a) raw_cfg_list in
      let cfg_list :=
        map snd (filter (fun entry => allowed (snd entry)) raw_cfg_list) in
      match cfg_list with
      | [] => [list_ascii_of_string "default"]
      | _ :: _ => cfg_list
      end
  end.

(** A folder with two presets and a text file. *)
Definition preset_files : list (list ascii * Q) :=
  [ (list_ascii_of_string "old.json", 1%Q);
    (list_ascii_of_string "notes.txt", 5%Q);
    (list_ascii_of_string "new.JSON", 2%Q) ].

(** *** JSON files *)

Section Files.

(** The type of the setting dictionaries, with the [==] of Python. *)
Variable dict : Type.
Variable dict_eqb : dict -> dict -> bool.

(** What a path holds: no file, a JSON document that loads as a
    dictionary, or something [json.load] raises [ValueError] on. *)
Inductive file : Type :=
| Absent
| Json (d : dict)
| Invalid.

Definition store : Type := string -> file.

Definition write (fs : store) (path : string) (f : file) : store :=
  fun p => if String.eqb p path then f else fs p.

(** What a file holds once [json.dump] has written a dictionary to it:
    [Json d] for a dictionary that JSON renders faithfully. *)
Variable dumped : dict -> file.

(** [save_json_file]. *)
Definition save_json_file (filename filepath : string) (dict_user : dict)
    (fs : store) : store :=
  write fs (filepath ++ filename) (dumped dict_user).

(** [verify_json_file]. *)
Definition verify_json_file (filename filepath : string) (dict_user : dict)
    (fs : store) : bool :=
  match fs (filepath ++ filename)%string with
  | Json d => dict_eqb d dict_user
  | Absent | Invalid => false
  end.

(** Whether a dictionary is read back from its file equal to itself. *)
Definition dump_verifies (dict_user : dict) : bool :=
  match dumped dict_user with
  | Json d => dict_eqb d dict_user
  | Absent | Invalid => false
  end.

(** [shutil.copyfile(src, dst)] under [except (FileNotFoundError,
    OSError)]: nothing happens when there is no source. *)
Definition copyfile (src dst : string) (fs : store) : store :=
  match fs src with
  | Absent => fs
  | f => write fs dst f
  end.

(** [backup_old_json_file]. *)
Definition backup_old_json_file (filename filepath : string) (fs : store) : store :=
  copyfile (filepath ++ filename) (filepath ++ filename ++ ".bak") fs.

(** [restore_old_json_file]. *)
Definition restore_old_json_file (filename filepath : string) (fs : store) : store :=
  copyfile (filepath ++ filename ++ ".bak") (filepath ++ filename) fs.

(** [delete_old_json_file]. *)
Definition delete_old_json_file (filename filepath : string) (fs : store) : store :=
  write fs (filepath ++ filename ++ ".bak") Absent.

(** [backup_invalid_json_file]; [time_stamp] is the formatted local
    time. *)
Definition backup_invalid_json_file (time_stamp filename filepath : string)
    (fs : store) : store :=
  copyfile (filepath ++ filename)
    (filepath
     ++ string_of_list_ascii
          (Py.slice (list_ascii_of_string filename) None (Some (-5)%Z))
     ++ "-backup " ++ time_stamp ++ ".json")
    fs.

(** The saving attempts of [__saving]: the store and the attempts left
    when the loop ends. *)
Fixpoint saving_attempts (attempts : nat) (filename filepath : string)
    (dict_user : dict) (fs : store) : store * nat :=
  match attempts with
  | O => (fs, O)
  | S attempts' =>
      let fs := save_json_file filename filepath dict_user fs in
      if verify_json_file filename filepath dict_user fs
      then (fs, attempts)
      else saving_attempts attempts' filename filepath dict_user fs
  end.

(** [__saving], once the save delay has run out: the store it leaves
    and whether the setting was saved. *)
Definition saving (maximum_saving_attempts : Z) (filename filepath : string)
    (dict_user : dict) (fs : store) : store * bool :=
  let max_attempts := Z.max maximum_saving_attempts 3 in
  (* Start saving attempts *)
  let fs := backup_old_json_file filename filepath fs in
  let '(fs, attempts) :=
    saving_attempts (Z.to_nat max_attempts) filename filepath dict_user fs in
  (* Finalize *)
  let fs := if (0 <? attempts)%nat then fs
            else restore_old_json_file filename filepath fs in
  (delete_old_json_file filename filepath fs, (0 <? attempts)%nat).

(** [load_style_json_file]: the store it leaves and the style it
    returns; the copy [copy_setting] makes of the default is equal to
    the default. *)
Definition load_style_json_file (filename filepath : string) (dict_def : dict)
    (fs : store) : store * dict :=
  match fs (filepath ++ filename)%string with
  | Json style_user => (fs, style_user)
  | Absent =>
      (* Save to file if not found *)
      (save_json_file filename filepath dict_def fs, dict_def)
  | Invalid => (fs, dict_def)
  end.

(** [load_setting_json_file]; [validate] stands for
    [preset_validator.validate], whose file is not among the sources. *)
Definition load_setting_json_file (validate : dict -> dict -> dict)
    (time_stamp filename filepath : string) (dict_def : dict) (fs : store)
    : store * dict :=
  match fs (filepath ++ filename)%string with
  | Json setting_user => (fs, validate setting_user dict_def)
  | Absent | Invalid =>
      (backup_invalid_json_file time_stamp filename filepath fs, dict_def)
  end.

End Files.

Arguments Absent {dict}.
Arguments Json {dict} d.
Arguments Invalid {dict}.

End Setting.

(** ** ui/fuel_calculator.py: the lap time fields *)

Module LapTimeInput.

(** The values of [spinbox_minutes], [spinbox_seconds] and
    [spinbox_mseconds]. *)
Record fields : Type := {
  minutes : Z;
  seconds : Z;
  mseconds : Z
}.

(** A spin box keeps its value within the range given to [setRange]. *)
Definition bound (lo hi v : Z) : Z := Z.max lo (Z.min hi v).

(** Sequencing of slots; [None] stands for a recursion that does not
    end. *)
Definition and_then (r : option fields) (k : fields -> option fields)
    : option fields :=
  match r with
  | Some w => k w
  | None => None
  end.

Section Slots.

(** [update_input], the slot connected to [valueChanged] of the three
    boxes, as far as the three values go. *)
Variable update_input : fields -> option fields.

(** [spinbox.setValue(v)]: the value is bounded to the range of the box
    and, when it differs from the value the box holds, [valueChanged]
    runs the connected slot before [setValue] returns. *)
Definition set_minutes (v : Z) (w : fields) : option fields :=
  let v := bound 0 9999 v in
  if v =? minutes w then Some w
  else update_input {| minutes := v; seconds := seconds w;
                       mseconds := mseconds w |}.

Definition set_seconds (v : Z) (w : fields) : option fields :=
  let v := bound (-1) 60 v in
  if v =? seconds w then Some w
  else update_input {| minutes := minutes w; seconds := v;
                       mseconds := mseconds w |}.

Definition set_mseconds (v : Z) (w : fields) : option fields :=
  let v := bound (-1) 1000 v in
  if v =? mseconds w then Some w
  else update_input {| minutes := minutes w; seconds := seconds w;
                       mseconds := v |}.

(** The first [if] of [carry_over_laptime]. *)
Definition carry_seconds (w : fields) : option fields :=
  if 59 <? seconds w
  then and_then (set_seconds 0 w) (fun w => set_minutes (minutes w + 1) w)
  else if seconds w <? 0
  then
    if 0 <? minutes w
    then and_then (set_seconds 59 w) (fun w => set_minutes (minutes w - 1) w)
    else set_seconds 0 w
  else Some w.

(** The second [if] of [carry_over_laptime]. *)
Definition carry_mseconds (w : fields) : option fields :=
  if 999 <? mseconds w
  then and_then (set_mseconds 0 w) (fun w => set_seconds (seconds w + 1) w)
  else if mseconds w <? 0
  then
    if (0 <? seconds w) || (0 <? minutes w)
    then and_then (set_mseconds 900 w) (fun w => set_seconds (seconds w - 1) w)
    else set_mseconds 0 w
  else Some w.

Definition carry_over_body (w : fields) : option fields :=
  and_then (carry_seconds w) carry_mseconds.

End Slots.

(** [carry_over_laptime], run by [update_input] and, through the
    [setValue] calls it makes, by itself: nested at most [depth] deep. *)
Fixpoint carry_over_laptime (depth : nat) (w : fields) : option fields :=
  match depth with
  | O => None
  | S depth' => carry_over_body (carry_over_laptime depth') w
  end.

(** The values the boxes can hold, by their ranges. *)
Definition in_range (w : fields) : Prop :=
  0 <= minutes w <= 9999 /\ -1 <= seconds w <= 60 /\ -1 <= mseconds w <= 1000.

(** A lap time proper. *)
Definition carried (w : fields) : Prop :=
  0 <= minutes w <= 9999 /\ 0 <= seconds w <= 59 /\ 0 <= mseconds w <= 999.

End LapTimeInput.

(** * Properties *)

(** ** Facts about the Python primitives *)

Section PyFacts.

Local Open Scope Q_scope.

Lemma Qltb_lt (a b : Q) : Py.Qltb a b = true <-> a < b.
Proof.
  unfold Py.Qltb. rewrite negb_true_iff. split; intro H.
  - apply Qnot_le_lt. intro Hle. apply Qle_bool_iff in Hle. congruence.
  - destruct (Qle_bool b a) eqn:E; [|reflexivity].
    apply Qle_bool_iff in E. exfalso. exact (Qlt_not_le _ _ H E).
Qed.

Lemma Qltb_ge (a b : Q) : Py.Qltb a b = false <-> b <= a.
Proof.
  unfold Py.Qltb. rewrite negb_false_iff. apply Qle_bool_iff.
Qed.

Lemma Qeq_bool_false (a b : Q) : Qeq_bool a b = false <-> ~ a == b.
Proof.
  split.
  - apply Qeq_bool_neq.
  - intro H. destruct (Qeq_bool a b) eqn:E; [|reflexivity].
    apply Qeq_bool_iff in E. contradiction.
Qed.

Lemma Qle_bool_false (a b : Q) : Qle_bool a b = false <-> b < a.
Proof.
  rewrite <- Qltb_lt. unfold Py.Qltb. now rewrite negb_true_iff.
Qed.

Lemma py_max_ge_r (a b : Q) : b <= Py.max a b.
Proof.
  unfold Py.max. destruct (Py.Qltb a b) eqn:E.
  - apply Qle_refl.
  - now apply Qltb_ge in E.
Qed.

Lemma py_max_ge_l (a b : Q) : a <= Py.max a b.
Proof.
  unfold Py.max. destruct (Py.Qltb a b) eqn:E.
  - apply Qltb_lt in E. now apply Qlt_le_weak.
  - apply Qle_refl.
Qed.

End PyFacts.

(** ** Rounding *)

Section Rounding.

Local Open Scope Q_scope.

Lemma round_half_even_cases (q : Q) :
  Py.round_half_even q = Qfloor q \/ Py.round_half_even q = (Qfloor q + 1)%Z.
Proof.
  unfold Py.round_half_even.
  destruct (q - inject_Z (Qfloor q) ?= 1 # 2); auto.
  destruct (Z.even (Qfloor q)); auto.
Qed.

Lemma Qfloor_add_Z (q : Q) (n : Z) : Qfloor (q + inject_Z n) = (Qfloor q + n)%Z.
Proof.
  assert (L := Qfloor_le q). assert (U := Qlt_floor q).
  assert (L' := Qfloor_le (q + inject_Z n)).
  assert (U' := Qlt_floor (q + inject_Z n)).
  rewrite inject_Z_plus in U, U'. 
  assert (H1 : inject_Z (Qfloor (q + inject_Z n)) < inject_Z (Qfloor q + n + 1)).
  { rewrite !inject_Z_plus. lra. }
  assert (H2 : inject_Z (Qfloor q + n) < inject_Z (Qfloor (q + inject_Z n) + 1)).
  { rewrite !inject_Z_plus. lra. }
  rewrite <- Zlt_Qlt in H1, H2. lia.
Qed.

Lemma round_half_even_comp (x y : Q) :
  x == y -> Py.round_half_even x = Py.round_half_even y.
Proof.
  intro H. unfold Py.round_half_even. cbv zeta.
  rewrite (Qfloor_comp _ _ H).
  assert (E : x - inject_Z (Qfloor y) == y - inject_Z (Qfloor y)).
  { rewrite H. reflexivity. }
  rewrite (Qcompare_comp _ _ E _ _ (Qeq_refl (1 # 2))). reflexivity.
Qed.

Lemma round_half_even_add_even (q : Q) (n : Z) :
  Z.even n = true ->
  Py.round_half_even (q + inject_Z n) = (Py.round_half_even q + n)%Z.
Proof.
  intro Hn. unfold Py.round_half_even.
  rewrite Qfloor_add_Z.
  assert (E : q + inject_Z n - inject_Z (Qfloor q + n) == q - inject_Z (Qfloor q)).
  { rewrite inject_Z_plus. ring. }
  rewrite E. rewrite Z.even_add, Hn.
  destruct (q - inject_Z (Qfloor q) ?= 1 # 2); try lia.
  destruct (Z.even (Qfloor q)); simpl; lia.
Qed.

Lemma round_half_even_mono (x y : Q) :
  x <= y -> (Py.round_half_even x <= Py.round_half_even y)%Z.
Proof.
  intro Hxy.
  assert (Hf := Qfloor_resp_le _ _ Hxy).
  destruct (Z.eq_dec (Qfloor x) (Qfloor y)) as [Heq | Hne].
  - unfold Py.round_half_even. rewrite <- Heq.
    destruct (x - inject_Z (Qfloor x) ?= 1 # 2) eqn:Ex;
    destruct (y - inject_Z (Qfloor x) ?= 1 # 2) eqn:Ey;
    try (destruct (Z.even (Qfloor x))); try lia;
    try rewrite <- Qeq_alt in Ex; try rewrite <- Qlt_alt in Ex;
    try rewrite <- Qgt_alt in Ex;
    try rewrite <- Qeq_alt in Ey; try rewrite <- Qlt_alt in Ey;
    try rewrite <- Qgt_alt in Ey; exfalso; lra.
  - destruct (round_half_even_cases x) as [-> | ->];
    destruct (round_half_even_cases y) as [-> | ->]; lia.
Qed.

Lemma round6_mono (x y : Q) : x <= y -> Py.round6 x <= Py.round6 y.
Proof.
  intro H. unfold Py.round6, Qle. simpl.
  apply Z.mul_le_mono_nonneg_r; [lia|].
  apply round_half_even_mono.
  apply Qmult_le_compat_r; [exact H | discriminate].
Qed.

Lemma round6_comp (x y : Q) : x == y -> Py.round6 x == Py.round6 y.
Proof.
  intro H. apply Qle_antisym; apply round6_mono; rewrite H; apply Qle_refl.
Qed.

Lemma round6_zero : Py.round6 0 == 0.
Proof. reflexivity. Qed.

Lemma round6_nonneg (x : Q) : 0 <= x -> 0 <= Py.round6 x.
Proof.
  intro H. rewrite <- round6_zero. now apply round6_mono.
Qed.

Lemma round6_add_10 (x : Q) : Py.round6 (x + 10) == Py.round6 x + 10.
Proof.
  assert (E : Py.round_half_even ((x + 10) * inject_Z 1000000)
              = (Py.round_half_even (x * inject_Z 1000000) + 10000000)%Z).
  { rewrite <- round_half_even_add_even by reflexivity.
    assert (E' : (x + 10) * inject_Z 1000000
                 == x * inject_Z 1000000 + inject_Z 10000000).
    { unfold inject_Z. ring. }
    apply round_half_even_comp. exact E'. }
  unfold Py.round6. rewrite E. unfold Qeq, Qplus. simpl. lia.
Qed.

End Rounding.

(** ** The fuel module: gauge, accumulation *)

Section FuelTick.

Import Fuel.
Local Open Scope Q_scope.

Variable telemetry_func : telemetry -> Q * Q.

Local Abbreviation tick := (Fuel.tick telemetry_func).
Local Abbreviation run := (Fuel.run telemetry_func).
Local Abbreviation no_boundary := (Fuel.no_boundary telemetry_func).
Local Abbreviation reading t := (snd (telemetry_func t)).

Lemma Qltb_comp (a a' b b' : Q) :
  a == a' -> b == b' -> Py.Qltb a b = Py.Qltb a' b'.
Proof.
  intros Ha Hb. unfold Py.Qltb. now rewrite Ha, Hb.
Qed.

Lemma amount_last_tick (s : state) (t : telemetry) :
  amount_last (tick s t) == reading t.
Proof.
  unfold Fuel.tick. simpl.
  destruct (Py.Qltb (amount_last s) (reading t)) eqn:E1; [reflexivity|].
  destruct (Py.Qltb (reading t) (amount_last s)) eqn:E2; [reflexivity|].
  apply Qltb_ge in E1, E2. now apply Qle_antisym.
Qed.

Lemma used_consumed_spec (s : state) (t : telemetry) :
  used_consumed telemetry_func s t
  == used_curr s
     + (if Py.Qltb (reading t) (amount_last s)
        then amount_last s - reading t else 0).
Proof.
  unfold used_consumed.
  destruct (Py.Qltb (amount_last s) (reading t)) eqn:E1.
  - apply Qltb_lt in E1.
    destruct (Py.Qltb (reading t) (amount_last s)) eqn:E2.
    + apply Qltb_lt in E2. exfalso. lra.
    + ring.
  - destruct (Py.Qltb (reading t) (amount_last s)); ring.
Qed.

Lemma used_curr_tick_within (s : state) (t : telemetry) :
  lap_boundary s t = false ->
  used_curr (tick s t) = used_consumed telemetry_func s t.
Proof.
  intro H. unfold Fuel.tick. simpl. now rewrite H.
Qed.

Lemma positive_decrements_comp (p p' : Q) (l : list Q) :
  p == p' -> positive_decrements p l == positive_decrements p' l.
Proof.
  intro H. destruct l as [|r l]; simpl; [reflexivity|].
  rewrite (Qltb_comp r r p p' (Qeq_refl r) H).
  destruct (Py.Qltb r p'); rewrite ?H; reflexivity.
Qed.

Lemma run_app (s : state) (l1 l2 : list (option telemetry)) :
  run s (l1 ++ l2) = run (run s l1) l2.
Proof. unfold Fuel.run. apply fold_left_app. Qed.

Lemma no_boundary_app (s : state) (l1 l2 : list (option telemetry)) :
  no_boundary s (l1 ++ l2) = no_boundary s l1 && no_boundary (run s l1) l2.
Proof.
  revert s. induction l1 as [|[t|] l1 IH]; intro s; simpl.
  - reflexivity.
  - rewrite IH. now rewrite andb_assoc.
  - apply IH.
Qed.

Lemma used_curr_run (s : state) (sents : list (option telemetry)) :
  no_boundary s sents = true ->
  used_curr (run s sents)
  == used_curr s
     + positive_decrements (amount_last s) (gauge_readings telemetry_func sents).
Proof.
  revert s. induction sents as [|[t|] sents IH]; intros s H; simpl in *.
  - ring.
  - apply andb_prop in H. destruct H as [Hb Hrest].
    apply negb_true_iff in Hb.
    unfold Fuel.run in *. simpl. rewrite (IH _ Hrest).
    rewrite (used_curr_tick_within _ _ Hb), used_consumed_spec.
    rewrite (positive_decrements_comp _ _ _ (amount_last_tick s t)).
    ring.
  - unfold Fuel.run in *. simpl. now apply IH.
Qed.

(** C10. [telemetry_fuel] returns a capacity of at least 1 (so a positive
    one): a raw reading below 1, zero and negative ones included, is
    replaced by 1 and any other reading is passed on as it is; the amount
    is the raw fuel reading. *)
Theorem telemetry_fuel_capacity_at_least_1 (t : telemetry) :
  1 <= fst (telemetry_fuel t)
  /\ 0 < fst (telemetry_fuel t)
  /\ tank_capacity t <= fst (telemetry_fuel t)
  /\ (fst (telemetry_fuel t) = 1 \/ fst (telemetry_fuel t) = tank_capacity t)
  /\ snd (telemetry_fuel t) = fuel t.
Proof.
  unfold telemetry_fuel. simpl.
  assert (H1 := py_max_ge_r (tank_capacity t) 1).
  assert (H2 := py_max_ge_l (tank_capacity t) 1).
  repeat split; try assumption.
  - lra.
  - unfold Py.max. destruct (Py.Qltb (tank_capacity t) 1); auto.
Qed.

(** C2. Within a lap (no value sent starts a new lap) that begins with
    [used_curr = 0], [used_curr] after the run equals the sum of the
    positive decrements of the gauge readings; and every tick of the run
    whose reading is above [amount_last] sets [amount_start] and
    [amount_last] to that reading and leaves [used_curr] as it was. *)
Theorem used_curr_sums_positive_decrements
    (s : state) (sents : list (option telemetry)) :
  used_curr s == 0 ->
  no_boundary s sents = true ->
  used_curr (run s sents)
  == positive_decrements (amount_last s) (gauge_readings telemetry_func sents)
  /\ (forall pre t post,
         sents = pre ++ Some t :: post ->
         amount_last (run s pre) < reading t ->
         amount_start (tick (run s pre) t) = reading t
         /\ amount_last (tick (run s pre) t) = reading t
         /\ used_curr (tick (run s pre) t) = used_curr (run s pre)).
Proof.
  intros H0 Hnb. split.
  - rewrite (used_curr_run _ _ Hnb), H0. ring.
  - intros pre t post -> Hlt.
    rewrite no_boundary_app in Hnb. apply andb_prop in Hnb.
    destruct Hnb as [_ Hnb]. simpl in Hnb.
    apply andb_prop in Hnb. destruct Hnb as [Hb _].
    apply negb_true_iff in Hb. apply Qltb_lt in Hlt.
    unfold Fuel.tick. simpl. unfold used_consumed.
    rewrite Hlt, Hb. auto.
Qed.

End FuelTick.

(** ** The fuel module: validation of a completed lap *)

Section Validation.

Import Fuel.
Local Open Scope Q_scope.

Variable telemetry_func : telemetry -> Q * Q.

Local Abbreviation tick := (Fuel.tick telemetry_func).
Local Abbreviation run := (Fuel.run telemetry_func).
Local Abbreviation no_boundary := (Fuel.no_boundary telemetry_func).

Variables (m : Q) (pending : list row) (raw : Q).
Variables (old_list : list row) (old_used : Q).

Local Abbreviation gate_state := (Fuel.gate_state m pending raw old_list old_used).

Lemma lap_completed_boundary (s : state) (t : telemetry) :
  lap_completed s t = true -> lap_boundary s t = true.
Proof.
  unfold lap_completed. intro H.
  apply andb_prop in H. destruct H as [H _].
  apply andb_prop in H. now destruct H.
Qed.

Lemma not_boundary_not_completed (s : state) (t : telemetry) :
  lap_boundary s t = false -> lap_completed s t = false.
Proof. unfold lap_completed. now intros ->. Qed.

(** A tick inside the lap moves a state along [gate_step]. *)
Lemma tick_follows_gate (g : gate) (s : state) (t : telemetry) :
  ~ m == 0 ->
  lap_boundary s t = false ->
  gate_state g s ->
  gate_state (gate_step m g (Some t)) (tick s t).
Proof.
  intros Hm Hb Hg.
  assert (Hc := not_boundary_not_completed _ _ Hb).
  destruct g; simpl in Hg |- *.
  - destruct Hg as (Hv & Ht & Hr & Hl & Hu).
    unfold timer.
    assert (Hchk : negb (Qeq_bool m 0) = true).
    { apply negb_true_iff. now apply Qeq_bool_false. }
    destruct (Py.Qltb (3 # 10) (elapsed_at_check t - m)
              && Qle_bool (elapsed_at_check t - m) 3
              && Py.Qltb 0 (last_laptime t)) eqn:Eacc.
    + unfold Fuel.tick. simpl. rewrite Hc, Hb, Hv, Hchk. simpl.
      rewrite Eacc. repeat split; auto; reflexivity.
    + destruct (Py.Qltb 3 (elapsed_at_check t - m)) eqn:Eexp.
      * unfold Fuel.tick. simpl. rewrite Hc, Hb, Hv, Hchk. simpl.
        rewrite Eacc, Eexp. simpl. repeat split; auto; reflexivity.
      * unfold Fuel.tick. simpl. rewrite Hc, Hb, Hv, Hchk. simpl.
        rewrite Eacc, Eexp. simpl. repeat split; auto.
  - destruct Hg as (Hv & Hl & Hu).
    apply Qeq_bool_iff in Hv.
    unfold Fuel.tick. simpl. rewrite Hc, Hv. simpl.
    apply Qeq_bool_iff in Hv. repeat split; auto.
  - destruct Hg as (Hv & Hl & Hu & Hd).
    apply Qeq_bool_iff in Hv.
    unfold Fuel.tick. simpl. rewrite Hc, Hv. simpl.
    apply Qeq_bool_iff in Hv. repeat split; auto.
Qed.

Lemma run_follows_gate (sents : list (option telemetry)) :
  ~ m == 0 ->
  forall (g : gate) (s : state),
  no_boundary s sents = true ->
  gate_state g s ->
  gate_state (gate_run m g sents) (run s sents).
Proof.
  intro Hm. induction sents as [|[t|] sents IH]; intros g s Hnb Hg.
  - exact Hg.
  - simpl in Hnb. apply andb_prop in Hnb. destruct Hnb as [Hb Hnb].
    apply negb_true_iff in Hb.
    unfold Fuel.run, gate_run in *. simpl fold_left.
    apply IH; [exact Hnb|]. now apply tick_follows_gate.
  - unfold Fuel.run, gate_run in *. simpl fold_left.
    replace (gate_step m g None) with g by now destruct g.
    now apply IH.
Qed.

End Validation.

Section ValidationGate.

Import Fuel.
Local Open Scope Q_scope.

Variable m : Q.

Lemma gate_run_expired (sents : list (option telemetry)) :
  gate_run m Expired sents = Expired.
Proof.
  induction sents as [|sent sents IH]; [reflexivity|].
  unfold gate_run in *. simpl. exact IH.
Qed.

Lemma gate_run_replaced (sents : list (option telemetry)) :
  gate_run m Replaced sents = Replaced.
Proof.
  induction sents as [|sent sents IH]; [reflexivity|].
  unfold gate_run in *. simpl. exact IH.
Qed.

Lemma gate_run_cons (g : gate) (sent : option telemetry)
    (sents : list (option telemetry)) :
  gate_run m g (sent :: sents) = gate_run m (gate_step m g sent) sents.
Proof. reflexivity. Qed.

Lemma gate_run_app (g : gate) (l1 l2 : list (option telemetry)) :
  gate_run m g (l1 ++ l2) = gate_run m (gate_run m g l1) l2.
Proof. unfold gate_run. apply fold_left_app. Qed.

(** No positive last lap time within the window: never [Replaced]. *)
Lemma gate_never_replaced (sents : list (option telemetry)) :
  (forall t, In (Some t) sents -> timer m t <= 3 -> last_laptime t <= 0) ->
  gate_run m Pending sents <> Replaced.
Proof.
  induction sents as [|[t|] sents IH]; intro H.
  - discriminate.
  - rewrite gate_run_cons. simpl.
    destruct (Py.Qltb (3 # 10) (timer m t) && Qle_bool (timer m t) 3
              && Py.Qltb 0 (last_laptime t)) eqn:Eacc.
    + exfalso.
      apply andb_prop in Eacc. destruct Eacc as [Eacc Hl].
      apply andb_prop in Eacc. destruct Eacc as [_ Hw].
      apply Qle_bool_iff in Hw. apply Qltb_lt in Hl.
      assert (Hle := H t (or_introl eq_refl) Hw). lra.
    + destruct (Py.Qltb 3 (timer m t)).
      * rewrite gate_run_expired. discriminate.
      * apply IH. intros t' Hin. apply H. now right.
  - rewrite gate_run_cons. simpl. apply IH.
    intros t' Hin. apply H. now right.
Qed.

(** ... and [Expired] once a tick later than 3 s has been seen. *)
Lemma gate_expires (sents : list (option telemetry)) :
  (forall t, In (Some t) sents -> timer m t <= 3 -> last_laptime t <= 0) ->
  (exists t, In (Some t) sents /\ 3 < timer m t) ->
  gate_run m Pending sents = Expired.
Proof.
  induction sents as [|[t|] sents IH]; intros H [tx [Hin Hx]].
  - destruct Hin.
  - rewrite gate_run_cons. simpl.
    destruct (Py.Qltb (3 # 10) (timer m t) && Qle_bool (timer m t) 3
              && Py.Qltb 0 (last_laptime t)) eqn:Eacc.
    + exfalso.
      apply andb_prop in Eacc. destruct Eacc as [Eacc Hl].
      apply andb_prop in Eacc. destruct Eacc as [_ Hw].
      apply Qle_bool_iff in Hw. apply Qltb_lt in Hl.
      assert (Hle := H t (or_introl eq_refl) Hw). lra.
    + destruct (Py.Qltb 3 (timer m t)) eqn:Eexp.
      * apply gate_run_expired.
      * apply IH.
        -- intros t' Hin'. apply H. now right.
        -- exists tx. split; [|exact Hx].
           destruct Hin as [Heq | Hin]; [|exact Hin].
           injection Heq as <-. apply Qltb_ge in Eexp. exfalso. lra.
  - rewrite gate_run_cons. simpl. apply IH.
    + intros t' Hin'. apply H. now right.
    + exists tx. split; [|exact Hx].
      destruct Hin as [Heq | Hin]; [discriminate | exact Hin].
Qed.

(** A positive last lap time inside the window, with no earlier tick past
    the window: [Replaced]. *)
Lemma gate_replaced (pre post : list (option telemetry)) (t : telemetry) :
  (forall t', In (Some t') pre -> timer m t' <= 3) ->
  3 # 10 < timer m t -> timer m t <= 3 -> 0 < last_laptime t ->
  gate_run m Pending (pre ++ Some t :: post) = Replaced.
Proof.
  intros Hpre Hlo Hhi Hlap.
  induction pre as [|[t'|] pre IH]; simpl app.
  - rewrite gate_run_cons. simpl.
    apply Qltb_lt in Hlo, Hlap. apply Qle_bool_iff in Hhi.
    rewrite Hlo, Hhi, Hlap. simpl. apply gate_run_replaced.
  - rewrite gate_run_cons. simpl.
    destruct (Py.Qltb (3 # 10) (timer m t') && Qle_bool (timer m t') 3
              && Py.Qltb 0 (last_laptime t')).
    + apply gate_run_replaced.
    + assert (Hle := Hpre t' (or_introl eq_refl)).
      apply Qltb_ge in Hle. rewrite Hle.
      apply IH. intros t'' Hin. apply Hpre. now right.
  - rewrite gate_run_cons. simpl.
    apply IH. intros t'' Hin. apply Hpre. now right.
Qed.

End ValidationGate.

Section ValidationClaim.

Import Fuel.
Local Open Scope Q_scope.

Variable telemetry_func : telemetry -> Q * Q.

Local Abbreviation tick := (Fuel.tick telemetry_func).
Local Abbreviation run := (Fuel.run telemetry_func).
Local Abbreviation no_boundary := (Fuel.no_boundary telemetry_func).
Local Abbreviation end_row := (Fuel.end_row telemetry_func).
Local Abbreviation used_consumed := (Fuel.used_consumed telemetry_func).

(** The tick that completes a lap opens the window: its own check is the
    first step of the gate. *)
Lemma boundary_tick_opens_gate (s0 : state) (t0 : telemetry) :
  lap_completed s0 t0 = true ->
  ~ elapsed_at_boundary t0 == 0 ->
  gate_state (elapsed_at_boundary t0)
    (delta_list_curr s0 ++ [end_row s0 t0]) (used_consumed s0 t0)
    (delta_list_last s0) (used_last s0)
    (gate_step (elapsed_at_boundary t0) Pending (Some t0)) (tick s0 t0).
Proof.
  intros Hc Hm.
  assert (Hb := lap_completed_boundary _ _ Hc).
  assert (Hchk : negb (Qeq_bool (elapsed_at_boundary t0) 0) = true).
  { apply negb_true_iff. now apply Qeq_bool_false. }
  simpl. unfold timer.
  destruct (Py.Qltb (3 # 10) (elapsed_at_check t0 - elapsed_at_boundary t0)
            && Qle_bool (elapsed_at_check t0 - elapsed_at_boundary t0) 3
            && Py.Qltb 0 (last_laptime t0)) eqn:Eacc.
  - unfold Fuel.tick. simpl. rewrite Hc, Hb, Hchk. simpl. rewrite Eacc.
    repeat split; auto; reflexivity.
  - destruct (Py.Qltb 3 (elapsed_at_check t0 - elapsed_at_boundary t0)) eqn:Eexp.
    + unfold Fuel.tick. simpl. rewrite Hc, Hb, Hchk. simpl.
      rewrite Eacc, Eexp. simpl. repeat split; auto; reflexivity.
    + unfold Fuel.tick. simpl. rewrite Hc, Hb, Hchk. simpl.
      rewrite Eacc, Eexp. simpl. repeat split; auto.
Qed.

(** The states of a run that starts with the completing tick follow the
    gate. *)
Lemma completed_lap_follows_gate (s0 : state) (t0 : telemetry)
    (sents : list (option telemetry)) :
  lap_completed s0 t0 = true ->
  ~ elapsed_at_boundary t0 == 0 ->
  no_boundary (tick s0 t0) sents = true ->
  gate_state (elapsed_at_boundary t0)
    (delta_list_curr s0 ++ [end_row s0 t0]) (used_consumed s0 t0)
    (delta_list_last s0) (used_last s0)
    (gate_run (elapsed_at_boundary t0) Pending (Some t0 :: sents))
    (run s0 (Some t0 :: sents)).
Proof.
  intros Hc Hm Hnb. rewrite gate_run_cons.
  change (run s0 (Some t0 :: sents)) with (run (tick s0 t0) sents).
  apply run_follows_gate; auto.
  now apply boundary_tick_opens_gate.
Qed.

(** C1. A lap is completed at tick [t0] and the mark [m] is set; the
    values sent afterwards start no further lap.  (a) If every tick not
    later than 3 s after the mark reports a last lap time [<= 0], the
    reference lap [(delta_list_last, used_last)] is the old one after
    every prefix of the run, and validation is switched off once a tick
    later than 3 s has occurred.  (b) If a tick more than 0.3 s and at most
    3 s after the mark reports a last lap time [> 0], and the clock of no
    earlier tick is ahead of it, the pending curve and its raw usage are
    the reference lap at the end of the run. *)
Theorem validation_gating (s0 : state) (t0 : telemetry)
    (sents : list (option telemetry)) :
  lap_completed s0 t0 = true ->
  ~ elapsed_at_boundary t0 == 0 ->
  no_boundary (tick s0 t0) sents = true ->
  let m := elapsed_at_boundary t0 in
  let pending := delta_list_curr s0 ++ [end_row s0 t0] in
  let raw := used_consumed s0 t0 in
  let ticks := Some t0 :: sents in
  ((forall t, In (Some t) ticks -> timer m t <= 3 -> last_laptime t <= 0) ->
   (forall pre post, ticks = pre ++ post ->
      delta_list_last (run s0 pre) = delta_list_last s0
      /\ used_last (run s0 pre) = used_last s0)
   /\ ((exists t, In (Some t) ticks /\ 3 < timer m t) ->
       validating (run s0 ticks) == 0))
  /\ (forall pre t post, ticks = pre ++ Some t :: post ->
        (forall t', In (Some t') pre ->
                    elapsed_at_check t' <= elapsed_at_check t) ->
        3 # 10 < timer m t -> timer m t <= 3 -> 0 < last_laptime t ->
        delta_list_last (run s0 ticks) = pending
        /\ used_last (run s0 ticks) = raw
        /\ validating (run s0 ticks) == 0
        /\ delayed_save (run s0 ticks) = true).
Proof.
  intros Hc Hm Hnb m pending raw ticks. split.
  - intro Hno. split.
    + intros pre post Hsplit.
      destruct pre as [|sent pre]; [now split|].
      injection Hsplit as <- ->.
      rewrite no_boundary_app in Hnb. apply andb_prop in Hnb.
      destruct Hnb as [Hnb _].
      assert (G := completed_lap_follows_gate s0 t0 pre Hc Hm Hnb).
      assert (N : gate_run m Pending (Some t0 :: pre) <> Replaced).
      { apply gate_never_replaced. intros t Hin. apply Hno.
        destruct Hin as [Heq | Hin]; [now left | right].
        apply in_or_app. now left. }
      fold m in G. destruct (gate_run m Pending (Some t0 :: pre));
        simpl in G; tauto.
    + intro Hex.
      assert (G := completed_lap_follows_gate s0 t0 sents Hc Hm Hnb).
      fold m in G. fold ticks in G.
      rewrite (gate_expires m ticks Hno Hex) in G. simpl in G. tauto.
  - intros pre t post Hsplit Hclock Hlo Hhi Hlap.
    assert (G := completed_lap_follows_gate s0 t0 sents Hc Hm Hnb).
    fold m in G. fold ticks in G. rewrite Hsplit in G.
    rewrite (gate_replaced m pre post t) in G; auto.
    + rewrite <- Hsplit in G. simpl in G. tauto.
    + intros t' Hin. specialize (Hclock t' Hin).
      unfold timer in *. lra.
Qed.

End ValidationClaim.

Section Curve.

Import Fuel.
Local Open Scope Q_scope.

Variable telemetry_func : telemetry -> Q * Q.

Local Abbreviation tick := (Fuel.tick telemetry_func).
Local Abbreviation run := (Fuel.run telemetry_func).
Local Abbreviation forward_in_lap := (Fuel.forward_in_lap telemetry_func).
Local Abbreviation end_row := (Fuel.end_row telemetry_func).
Local Abbreviation used_consumed := (Fuel.used_consumed telemetry_func).

Lemma ascending_snoc (l : list row) (r : row) :
  ascending l ->
  (l = [] \/ row_pos (last l DELTA_ZERO) <= row_pos r) ->
  ascending (l ++ [r]).
Proof.
  induction l as [|a l IH]; intros Ha Hl.
  - simpl. auto.
  - destruct l as [|b l].
    + simpl. destruct Hl as [Hl | Hl]; [discriminate|]. simpl in Hl. auto.
    + destruct Ha as [Hab Ha]. split; [exact Hab|].
      apply IH; [exact Ha|]. right.
      destruct Hl as [Hl | Hl]; [discriminate | exact Hl].
Qed.

Lemma tick_boundary_resets (s : state) (t : telemetry) :
  lap_boundary s t = true -> delta_list_curr (tick s t) = [DELTA_ZERO].
Proof.
  intro Hb. unfold Fuel.tick. simpl. rewrite Hb.
  destruct (Py.Qltb 0 (Py.max (current_laptime t) 0)
            && Py.Qltb (Py.max (current_laptime t) 0) 1
            && Py.Qltb 300 (lap_distance t));
    rewrite Qeq_bool_refl; rewrite andb_false_r; reflexivity.
Qed.

Lemma tick_keeps_curve (s : state) (t : telemetry) :
  curve_ok s ->
  lap_boundary s t || negb (sampled s)
  || Qle_bool (pos_last s) (pos_last (tick s t)) = true ->
  curve_ok (tick s t).
Proof.
  intros [Hasc Hshape] Hfw.
  destruct (lap_boundary s t) eqn:Hb.
  { unfold curve_ok. rewrite (tick_boundary_resets _ _ Hb).
    split; [simpl; auto | now left]. }
  simpl in Hfw.
  destruct Hshape as [Hz | (Hs & Hrec & Hlast & Hpos)].
  - (* no sample yet: the first one sits at or past the zero knot *)
    clear Hfw. unfold curve_ok, sampled, last_recorded_pos, Fuel.tick.
    simpl. rewrite Hb, Hz.
    set (desync := Py.Qltb 0 (Py.max (current_laptime t) 0)
                   && Py.Qltb (Py.max (current_laptime t) 0) 1
                   && Py.Qltb 300 (lap_distance t)).
    destruct desync.
    + rewrite Qeq_bool_refl, andb_false_r. simpl. split; auto.
    + destruct (Qle_bool 0 (lap_distance t)) eqn:Hnn; simpl.
      2:{ split; auto. }
      destruct (Qeq_bool (lap_distance t) (pos_last s)) eqn:Heq; simpl.
      1:{ split; auto. }
      apply Qle_bool_iff in Hnn.
      destruct (recording s) eqn:Hrec; simpl; [|split; auto].
      destruct (Py.Qltb (pos_last s) (lap_distance t)) eqn:Hlt; simpl;
        [|split; auto].
      split.
      * split; [|auto]. unfold row_pos. simpl. now apply round6_nonneg.
      * right. repeat split; auto.
  - rewrite Hs in Hfw. simpl in Hfw. apply Qle_bool_iff in Hfw.
    revert Hfw. unfold curve_ok, sampled, last_recorded_pos, Fuel.tick.
    simpl. rewrite Hb.
    set (desync := Py.Qltb 0 (Py.max (current_laptime t) 0)
                   && Py.Qltb (Py.max (current_laptime t) 0) 1
                   && Py.Qltb 300 (lap_distance t)).
    destruct desync.
    + rewrite Qeq_bool_refl, andb_false_r. simpl. intro Hfw.
      split; [exact Hasc|]. right.
      assert (E : pos_last s == 0) by lra.
      repeat split; auto.
      * rewrite Hlast. now apply round6_comp.
      * lra.
    + destruct (Qle_bool 0 (lap_distance t)) eqn:Hnn; simpl.
      2:{ intros _. split; [exact Hasc|]. right. repeat split; auto. }
      destruct (Qeq_bool (lap_distance t) (pos_last s)) eqn:Heq; simpl.
      1:{ intros _. split; [exact Hasc|]. right. repeat split; auto. }
      intro Hfw. apply Qle_bool_iff in Hnn. apply Qeq_bool_false in Heq.
      assert (Hlt : pos_last s < lap_distance t).
      { apply Qle_lt_or_eq in Hfw. destruct Hfw as [H | H]; [exact H|].
        exfalso. apply Heq. now symmetry. }
      assert (Hltb := proj2 (Qltb_lt _ _) Hlt). rewrite Hltb.
      rewrite Hrec. simpl.
      split.
      * apply ascending_snoc; [exact Hasc|]. right.
        rewrite Hlast. unfold row_pos. simpl.
        apply round6_mono. lra.
      * right. repeat split; auto.
        -- rewrite length_app. simpl.
           unfold sampled in Hs. apply Z.ltb_lt in Hs. apply Z.ltb_lt. lia.
        -- rewrite last_last. unfold row_pos. simpl. reflexivity.
Qed.

Lemma run_keeps_curve (sents : list (option telemetry)) :
  forall s : state,
  curve_ok s -> forward_in_lap s sents = true -> curve_ok (run s sents).
Proof.
  induction sents as [|[t|] sents IH]; intros s Hok Hfw.
  - exact Hok.
  - simpl in Hfw. apply andb_prop in Hfw. destruct Hfw as [Hstep Hrest].
    unfold Fuel.run in *. simpl. apply IH; [|exact Hrest].
    now apply tick_keeps_curve.
  - unfold Fuel.run in *. simpl. now apply IH.
Qed.

Lemma completed_lap_is_stored (s : state) (t : telemetry) :
  lap_completed s t = true ->
  delta_list_temp (tick s t) = delta_list_curr s ++ [end_row s t]
  \/ delta_list_last (tick s t) = delta_list_curr s ++ [end_row s t].
Proof.
  intro Hc. unfold Fuel.tick. simpl. rewrite Hc.
  match goal with
  | |- (if ?c then _ else _) = _ \/ _ => destruct c
  end; auto.
Qed.

(** C5, as amended. From the start of a lap, a state whose current list
    is the zero knot alone (the state after every lap boundary, and the
    initial one): when no tick lowers the last checked position after the
    first sample of the lap has been recorded, the list stored at the lap
    boundary (the current lap's list with the end row appended) has its
    positions in non-decreasing order, and its end row sits at the last
    recorded position plus 10 and carries the rounded amount used in the
    lap and the rounded lap duration. What went before the lap, and what
    the ticks before its first sample do to the position, is of no
    account. *)
Theorem completed_lap_curve_forward (lap_start : state)
    (sents : list (option telemetry)) (t : telemetry) :
  let s := run lap_start sents in
  delta_list_curr lap_start = [DELTA_ZERO] ->
  forward_in_lap lap_start sents = true ->
  lap_completed s t = true ->
  (delta_list_temp (tick s t) = delta_list_curr s ++ [end_row s t]
   \/ delta_list_last (tick s t) = delta_list_curr s ++ [end_row s t])
  /\ ascending (delta_list_curr s ++ [end_row s t])
  /\ row_pos (end_row s t) == last_recorded_pos s + 10
  /\ end_row s t = [ Py.round6 (pos_last s + 10);
                     Py.round6 (used_consumed s t);
                     Py.round6 (timing_start t - last_lap_stime s) ].
Proof.
  intros s Hstart Hfw Hc.
  assert (Hok : curve_ok s).
  { apply run_keeps_curve; [|exact Hfw].
    split; [rewrite Hstart; simpl; auto | now left]. }
  destruct Hok as [Hasc Hshape].
  assert (Hlen : (1 < Z.of_nat (List.length (delta_list_curr s)))%Z).
  { unfold lap_completed in Hc. apply andb_prop in Hc. destruct Hc as [Hc _].
    apply andb_prop in Hc. destruct Hc as [_ Hc]. now apply Z.ltb_lt in Hc. }
  destruct Hshape as [Hz | (_ & _ & Hlast & _)].
  { rewrite Hz in Hlen. simpl in Hlen. lia. }
  assert (Hend : row_pos (end_row s t) == last_recorded_pos s + 10).
  { unfold Fuel.end_row, row_pos. simpl.
    rewrite round6_add_10, Hlast. reflexivity. }
  split; [now apply completed_lap_is_stored|].
  split; [|split; [exact Hend | reflexivity]].
  apply ascending_snoc; [exact Hasc|]. right.
  rewrite Hend. unfold last_recorded_pos. lra.
Qed.

End Curve.

(** C5, as stated, fails: after a backward move the stored list is out of
    order (positions 0, 500, 410) and its end row is not at the last
    recorded position plus 10. *)
Lemma completed_lap_curve_backward_move :
  let s := Fuel.run Fuel.telemetry_fuel
             (Fuel.init_state Fuel.DELTA_DEFAULT 0) Fuel.backward_lap in
  let curve := Fuel.delta_list_curr s
               ++ [Fuel.end_row Fuel.telemetry_fuel s Fuel.lap_end] in
  Fuel.lap_completed s Fuel.lap_end = true
  /\ Fuel.delta_list_temp (Fuel.tick Fuel.telemetry_fuel s Fuel.lap_end) = curve
  /\ map Fuel.row_pos curve
     = [0; 500000000 # 1000000; 410000000 # 1000000]%Q
  /\ ~ Fuel.ascending curve
  /\ ~ (Fuel.row_pos (Fuel.end_row Fuel.telemetry_fuel s Fuel.lap_end)
        == Fuel.last_recorded_pos s + 10)%Q.
Proof.
  cbv zeta.
  split; [vm_compute; reflexivity|].
  split; [vm_compute; reflexivity|].
  split; [vm_compute; reflexivity|].
  split.
  - intros (_ & H & _). vm_compute in H. apply H. reflexivity.
  - intro H. vm_compute in H. discriminate.
Qed.

(** ** Witnesses for the fuel module *)

Lemma validation_gating_witness :
  let s0 := Fuel.run Fuel.telemetry_fuel
              (Fuel.init_state Fuel.DELTA_DEFAULT 0) Fuel.forward_lap in
  let ticks := Some Fuel.lap_end :: Fuel.after_lap_end in
  Fuel.lap_completed s0 Fuel.lap_end = true
  /\ ~ (Fuel.elapsed_at_boundary Fuel.lap_end == 0)%Q
  /\ Fuel.no_boundary Fuel.telemetry_fuel
       (Fuel.tick Fuel.telemetry_fuel s0 Fuel.lap_end) Fuel.after_lap_end = true
  /\ Fuel.delta_list_last (Fuel.run Fuel.telemetry_fuel s0 ticks)
     = Fuel.delta_list_curr s0
       ++ [Fuel.end_row Fuel.telemetry_fuel s0 Fuel.lap_end]
  /\ Fuel.used_last (Fuel.run Fuel.telemetry_fuel s0 ticks)
     = Fuel.used_consumed Fuel.telemetry_fuel s0 Fuel.lap_end.
Proof.
  intros s0 ticks.
  assert (Hc : Fuel.lap_completed s0 Fuel.lap_end = true) by reflexivity.
  assert (Hm : ~ (Fuel.elapsed_at_boundary Fuel.lap_end == 0)%Q)
    by (intro H; vm_compute in H; discriminate).
  assert (Hnb : Fuel.no_boundary Fuel.telemetry_fuel
                  (Fuel.tick Fuel.telemetry_fuel s0 Fuel.lap_end)
                  Fuel.after_lap_end = true) by reflexivity.
  split; [exact Hc|]. split; [exact Hm|]. split; [exact Hnb|].
  destruct (validation_gating Fuel.telemetry_fuel s0 Fuel.lap_end
              Fuel.after_lap_end Hc Hm Hnb) as [_ Hb].
  destruct (Hb [Some Fuel.lap_end;
                Some (Fuel.reading_at 290 (2 # 10) 10 (2902 # 10) 90 46)]
               (Fuel.reading_at 290 1 50 291 90 (459 # 10)) [])
    as (H1 & H2 & _).
  - reflexivity.
  - intros t' [Heq | [Heq | []]]; injection Heq as <-;
      vm_compute; discriminate.
  - vm_compute; reflexivity.
  - vm_compute; discriminate.
  - vm_compute; reflexivity.
  - split; [exact H1 | exact H2].
Defined.

Lemma used_curr_sums_positive_decrements_witness :
  (Fuel.used_curr Fuel.lap_start_state == 0)%Q
  /\ Fuel.no_boundary Fuel.telemetry_fuel Fuel.lap_start_state
       Fuel.refuel_lap = true
  /\ (Fuel.used_curr
        (Fuel.run Fuel.telemetry_fuel Fuel.lap_start_state Fuel.refuel_lap)
      == Fuel.positive_decrements (Fuel.amount_last Fuel.lap_start_state)
           (Fuel.gauge_readings Fuel.telemetry_fuel Fuel.refuel_lap))%Q
  /\ (Fuel.positive_decrements (Fuel.amount_last Fuel.lap_start_state)
        (Fuel.gauge_readings Fuel.telemetry_fuel Fuel.refuel_lap) == 3)%Q.
Proof.
  assert (H0 : (Fuel.used_curr Fuel.lap_start_state == 0)%Q) by reflexivity.
  assert (Hnb : Fuel.no_boundary Fuel.telemetry_fuel Fuel.lap_start_state
                  Fuel.refuel_lap = true) by reflexivity.
  split; [exact H0|]. split; [exact Hnb|]. split.
  - exact (proj1 (used_curr_sums_positive_decrements Fuel.telemetry_fuel
                    Fuel.lap_start_state Fuel.refuel_lap H0 Hnb)).
  - vm_compute. reflexivity.
Defined.

Lemma completed_lap_curve_forward_witness :
  let lap_start := Fuel.init_state Fuel.DELTA_DEFAULT 0 in
  let s := Fuel.run Fuel.telemetry_fuel lap_start
             Fuel.rollback_then_clean_lap in
  Fuel.delta_list_curr lap_start = [Fuel.DELTA_ZERO]
  /\ Fuel.forward_in_lap Fuel.telemetry_fuel lap_start
       Fuel.rollback_then_clean_lap = true
  /\ Fuel.lap_completed s Fuel.lap_end = true
  /\ map Fuel.row_pos
       (Fuel.delta_list_curr s
        ++ [Fuel.end_row Fuel.telemetry_fuel s Fuel.lap_end])
     = [0; 500000000 # 1000000; 600000000 # 1000000; 610000000 # 1000000]%Q
  /\ Fuel.ascending
       (Fuel.delta_list_curr s
        ++ [Fuel.end_row Fuel.telemetry_fuel s Fuel.lap_end])
  /\ (Fuel.row_pos (Fuel.end_row Fuel.telemetry_fuel s Fuel.lap_end)
      == Fuel.last_recorded_pos s + 10)%Q.
Proof.
  intros lap_start s.
  assert (Hstart : Fuel.delta_list_curr lap_start = [Fuel.DELTA_ZERO])
    by reflexivity.
  assert (Hfw : Fuel.forward_in_lap Fuel.telemetry_fuel lap_start
                  Fuel.rollback_then_clean_lap = true) by reflexivity.
  assert (Hc : Fuel.lap_completed s Fuel.lap_end = true) by reflexivity.
  split; [exact Hstart|]. split; [exact Hfw|]. split; [exact Hc|].
  split; [vm_compute; reflexivity|].
  destruct (completed_lap_curve_forward Fuel.telemetry_fuel lap_start
              Fuel.rollback_then_clean_lap Fuel.lap_end Hstart Hfw Hc)
    as (_ & Hasc & Hend & _).
  split; [exact Hasc | exact Hend].
Defined.

(** ** Slices and the relative list *)

Section Slices.

Context {A : Type}.

Lemma slice_bound_range (n i : Z) : 0 <= n -> 0 <= Py.slice_bound n i <= n.
Proof.
  intro Hn. unfold Py.slice_bound. destruct (i <? 0) eqn:E; lia.
Qed.

Lemma len_slice (l : list A) (lo hi : option Z) :
  let n := Relative.len l in
  let blo := match lo with Some i => Py.slice_bound n i | None => 0 end in
  let bhi := match hi with Some i => Py.slice_bound n i | None => n end in
  Relative.len (Py.slice l lo hi) = Z.max 0 (bhi - blo).
Proof.
  intros n blo bhi. unfold Py.slice, Relative.len.
  fold (Relative.len l). fold n. fold blo. fold bhi.
  assert (Hn : 0 <= n) by (unfold n, Relative.len; lia).
  assert (Hlo : 0 <= blo <= n).
  { unfold blo. destruct lo; [now apply slice_bound_range | lia]. }
  assert (Hhi : 0 <= bhi <= n).
  { unfold bhi. destruct hi; [now apply slice_bound_range | lia]. }
  rewrite length_firstn, length_skipn.
  unfold n, Relative.len in *. lia.
Qed.

Lemma in_firstn (n : nat) (l : list A) (x : A) : In x (firstn n l) -> In x l.
Proof.
  intro H. rewrite <- (firstn_skipn n l). apply in_or_app. now left.
Qed.

Lemma in_skipn (n : nat) (l : list A) (x : A) : In x (skipn n l) -> In x l.
Proof.
  intro H. rewrite <- (firstn_skipn n l). apply in_or_app. now right.
Qed.

Lemma in_slice (l : list A) (lo hi : option Z) (x : A) :
  In x (Py.slice l lo hi) -> In x l.
Proof.
  unfold Py.slice. intro H.
  apply in_firstn in H. now apply in_skipn in H.
Qed.

End Slices.

Lemma find_index_range (x : Z) (l : list Z) (p : Z) :
  Py.find_index x l = Some p -> 0 <= p < Relative.len l.
Proof.
  revert p. induction l as [|y l IH]; intros p H; simpl in H.
  - discriminate.
  - unfold Relative.len in *. cbn [Datatypes.length].
    destruct (x =? y).
    + injection H as <-. lia.
    + destruct (Py.find_index x l) as [q|]; [|discriminate].
      injection H as <-. specialize (IH q eq_refl). lia.
Qed.

Lemma find_index_nth (x : Z) (l : list Z) (p : Z) :
  Py.find_index x l = Some p -> nth_error l (Z.to_nat p) = Some x.
Proof.
  revert p. induction l as [|y l IH]; intros p H; simpl in H.
  - discriminate.
  - destruct (x =? y) eqn:E.
    + injection H as <-. apply Z.eqb_eq in E. now subst.
    + destruct (Py.find_index x l) as [q|] eqn:F; [|discriminate].
      injection H as <-.
      assert (R := find_index_range _ _ _ F).
      replace (Z.to_nat (Z.succ q)) with (S (Z.to_nat q)) by lia.
      simpl. now apply IH.
Qed.

Lemma find_index_in (x : Z) (l : list Z) :
  In x l -> exists p, Py.find_index x l = Some p.
Proof.
  induction l as [|y l IH]; intro H; [destruct H|].
  simpl. destruct (x =? y) eqn:E; [now exists 0|].
  destruct H as [H | H].
  - subst. rewrite Z.eqb_refl in E. discriminate.
  - destruct (IH H) as [p ->]. now exists (Z.succ p).
Qed.

Section RelativeIndex.

Import Relative.

Lemma len_app {A : Type} (l1 l2 : list A) : len (l1 ++ l2) = len l1 + len l2.
Proof. unfold len. rewrite length_app. lia. Qed.

Lemma len_repeatZ {A : Type} (x : A) (n : Z) : len (Py.repeatZ x n) = Z.max 0 n.
Proof. unfold len, Py.repeatZ. rewrite repeat_length. lia. Qed.

Lemma len_map {A B : Type} (f : A -> B) (l : list A) : len (map f l) = len l.
Proof. unfold len. now rewrite length_map. Qed.

Lemma len_slice_between {A : Type} (l : list A) (lo hi : Z) :
  0 <= lo -> 0 <= hi ->
  len (Py.slice l (Some lo) (Some hi))
  = Z.max 0 (Z.min hi (len l) - Z.min lo (len l)).
Proof.
  intros Hlo Hhi. rewrite len_slice. cbv zeta. unfold Py.slice_bound.
  destruct (Z.ltb_spec lo 0); destruct (Z.ltb_spec hi 0); lia.
Qed.

Lemma len_slice_from {A : Type} (l : list A) (lo : Z) :
  0 <= lo -> len (Py.slice l (Some lo) None) = len l - Z.min lo (len l).
Proof.
  intros Hlo. rewrite len_slice. cbv zeta. unfold Py.slice_bound.
  destruct (Z.ltb_spec lo 0); lia.
Qed.

Lemma len_slice_upto {A : Type} (l : list A) (hi : Z) :
  0 <= hi -> len (Py.slice l None (Some hi)) = Z.min hi (len l).
Proof.
  intros Hhi. rewrite len_slice. cbv zeta. unfold Py.slice_bound.
  assert (0 <= len l) by (unfold len; lia).
  destruct (Z.ltb_spec hi 0); lia.
Qed.

(** The list [create_relative_index] slices: the sorted vehicle indices,
    padded with -1 up to [max_rel_veh]. *)
Lemma create_relative_index_length (rel_dist_list : list (Q * Z))
    (plr_index add_front add_behind : Z) :
  rel_dist_list <> [] ->
  0 <= add_front -> 0 <= add_behind ->
  len (create_relative_index rel_dist_list plr_index
         (7 + add_front + add_behind) add_front add_behind)
  = 7 + add_front + add_behind.
Proof.
  intros Hne Hf Hb.
  destruct rel_dist_list as [|d0 rest]; [congruence|].
  unfold create_relative_index.
  set (veh := map snd (d0 :: rest)).
  assert (Hveh : 1 <= len veh).
  { unfold veh. rewrite len_map. unfold len. simpl. lia. }
  set (plr_pos := match Py.find_index plr_index veh with
                  | Some pos => pos | None => 0 end).
  assert (Hpos : 0 <= plr_pos < len veh).
  { unfold plr_pos. destruct (Py.find_index plr_index veh) eqn:F.
    - now apply find_index_range in F.
    - lia. }
  set (padded := if 0 <? 7 + add_front + add_behind - len veh
                 then veh ++ Py.repeatZ (-1) (7 + add_front + add_behind - len veh)
                 else veh).
  assert (Hpad : len veh <= len padded /\ 7 + add_front + add_behind <= len padded).
  { unfold padded.
    destruct (Z.ltb_spec 0 (7 + add_front + add_behind - len veh)).
    - rewrite len_app, len_repeatZ. lia.
    - lia. }
  set (front_cut := Py.slice padded (Some (Z.max (plr_pos - 3 - add_front) 0))
                      (Some plr_pos)).
  assert (Hfc : len front_cut = Z.min plr_pos (3 + add_front)).
  { unfold front_cut. rewrite len_slice_between by lia. lia. }
  set (behind_cut := Py.slice padded (Some plr_pos)
                       (Some (plr_pos + 4 + add_behind))).
  assert (Hbc : len behind_cut = Z.min (len padded - plr_pos) (4 + add_behind)).
  { unfold behind_cut. rewrite len_slice_between by lia. lia. }
  rewrite !len_app.
  rewrite len_slice_from by lia. rewrite len_slice_upto by lia.
  lia.
Qed.

Lemma create_relative_index_elements (rel_dist_list : list (Q * Z))
    (plr_index max_rel_veh add_front add_behind : Z) (i : Z) :
  In i (create_relative_index rel_dist_list plr_index max_rel_veh
          add_front add_behind) ->
  In i (map snd rel_dist_list) \/ i = -1.
Proof.
  destruct rel_dist_list as [|d0 rest]; [intros []|].
  unfold create_relative_index.
  set (veh := map snd (d0 :: rest)).
  set (padded := if 0 <? max_rel_veh - len veh
                 then veh ++ Py.repeatZ (-1) (max_rel_veh - len veh)
                 else veh).
  assert (Hpad : forall x, In x padded -> In x veh \/ x = -1).
  { intros x Hx. unfold padded in Hx.
    destruct (0 <? max_rel_veh - len veh); [|now left].
    apply in_app_or in Hx. destruct Hx as [Hx | Hx]; [now left | right].
    unfold Py.repeatZ in Hx. now apply repeat_spec in Hx. }
  intro H. apply Hpad.
  repeat (apply in_app_or in H; destruct H as [H | H]);
    now apply in_slice in H.
Qed.

End RelativeIndex.

(** ** Sorting *)

Section Sorting.

Context {A : Type} (leb : A -> A -> bool).

Local Abbreviation le_of := (Py.le_of leb).
Local Abbreviation lt_of := (Py.lt_of leb).

Hypothesis leb_total : forall a b, leb a b = true \/ leb b a = true.
Hypothesis leb_trans : forall a b c, leb a b = true -> leb b c = true -> leb a c = true.

Lemma insert_by_perm (x : A) (l : list A) :
  Permutation (Py.insert_by leb x l) (x :: l).
Proof.
  induction l as [|y l IH]; simpl.
  - apply Permutation_refl.
  - destruct (leb x y).
    + apply Permutation_refl.
    + apply perm_trans with (y :: x :: l).
      * now apply perm_skip.
      * apply perm_swap.
Qed.

Lemma sorted_perm (l : list A) : Permutation (Py.sorted leb l) l.
Proof.
  induction l as [|x l IH]; simpl.
  - apply perm_nil.
  - apply perm_trans with (x :: Py.sorted leb l).
    + apply insert_by_perm.
    + now apply perm_skip.
Qed.

Lemma insert_by_sorted (x : A) (l : list A) :
  Sorted le_of l -> Sorted le_of (Py.insert_by leb x l).
Proof.
  induction l as [|y l IH]; intro H; simpl.
  - repeat constructor.
  - destruct (leb x y) eqn:E.
    + constructor; [exact H|]. constructor. exact E.
    + inversion H as [|? ? Hs Hr]; subst.
      constructor; [now apply IH|].
      assert (Hyx : leb y x = true).
      { destruct (leb_total x y) as [C | C]; [congruence | exact C]. }
      destruct l as [|z l]; simpl.
      * constructor. exact Hyx.
      * destruct (leb x z); constructor; [exact Hyx|].
        now inversion Hr.
Qed.

Lemma sorted_sorted (l : list A) : Sorted le_of (Py.sorted leb l).
Proof.
  induction l as [|x l IH]; simpl.
  - constructor.
  - now apply insert_by_sorted.
Qed.

Lemma le_of_trans : Relations_1.Transitive le_of.
Proof. intros a b c. apply leb_trans. Qed.

Lemma sorted_strongly_sorted (l : list A) :
  StronglySorted le_of (Py.sorted leb l).
Proof.
  apply Sorted_StronglySorted; [exact le_of_trans | apply sorted_sorted].
Qed.

(** A list in strictly increasing order is the only sorted arrangement of
    its elements. *)
Lemma strictly_sorted_unique (l0 : list A) :
  StronglySorted lt_of l0 ->
  forall l, StronglySorted le_of l -> Permutation l l0 -> l = l0.
Proof.
  induction l0 as [|x l0 IH]; intros H0 l Hl Hp.
  - apply Permutation_sym in Hp. now apply Permutation_nil in Hp.
  - destruct l as [|z l].
    + apply Permutation_nil in Hp. discriminate.
    + inversion H0 as [|? ? H0' Hx]; subst.
      inversion Hl as [|? ? Hl' Hz]; subst.
      assert (Ez : z = x).
      { assert (Hzin : In z (x :: l0)).
        { apply (Permutation_in z Hp). now left. }
        destruct Hzin as [E | Hzin]; [now symmetry|].
        assert (Hxin : In x (z :: l)).
        { apply (Permutation_in x (Permutation_sym Hp)). now left. }
        destruct Hxin as [E | Hxin]; [exact E|].
        rewrite Forall_forall in Hx, Hz.
        destruct (Hx z Hzin) as [_ Hf].
        specialize (Hz x Hxin). unfold Py.le_of in Hz. congruence. }
      subst z. f_equal.
      apply IH; auto. now apply Permutation_cons_inv in Hp.
Qed.

Lemma sorted_of_strictly_sorted (l0 l : list A) :
  StronglySorted lt_of l0 -> Permutation l l0 -> Py.sorted leb l = l0.
Proof.
  intros H0 Hp. apply strictly_sorted_unique; auto.
  - apply sorted_strongly_sorted.
  - apply perm_trans with l; [apply sorted_perm | exact Hp].
Qed.

End Sorting.

(** ** Ranges and the reference places *)

Section Ranges.

Import Relative.

Lemma len_range (lo hi : Z) : len (Py.range lo hi) = Z.max 0 (hi - lo).
Proof.
  unfold len, Py.range. rewrite length_map, length_seq. lia.
Qed.

Lemma in_range (lo hi x : Z) : In x (Py.range lo hi) <-> lo <= x < hi.
Proof.
  unfold Py.range. rewrite in_map_iff. split.
  - intros [k [<- Hk]]. apply in_seq in Hk. lia.
  - intro H. exists (Z.to_nat (x - lo)). split; [lia|].
    apply in_seq. lia.
Qed.

Lemma seq_shift_by (n start len : nat) :
  seq (start + n) len = map (fun k => (k + n)%nat) (seq start len).
Proof.
  revert start. induction len as [|len IH]; intro start; simpl.
  - reflexivity.
  - f_equal. apply (IH (S start)).
Qed.

Lemma firstn_seq_min (n start len : nat) :
  firstn n (seq start len) = seq start (Nat.min n len).
Proof.
  revert n start. induction len as [|len IH]; intros n start.
  - rewrite Nat.min_0_r. now rewrite firstn_nil.
  - destruct n as [|n]; simpl; [reflexivity|]. f_equal. apply IH.
Qed.

Lemma range_split (lo mid hi : Z) :
  lo <= mid <= hi -> Py.range lo hi = Py.range lo mid ++ Py.range mid hi.
Proof.
  intro H. unfold Py.range.
  replace (Z.to_nat (hi - lo)) with (Z.to_nat (mid - lo) + Z.to_nat (hi - mid))%nat
    by lia.
  rewrite seq_app, map_app. f_equal.
  rewrite seq_shift_by, map_map.
  apply map_ext. intro k. lia.
Qed.

Lemma range_cons (lo hi : Z) :
  lo < hi -> Py.range lo hi = lo :: Py.range (lo + 1) hi.
Proof.
  intro H. rewrite (range_split lo (lo + 1) hi) by lia.
  unfold Py.range at 1. replace (Z.to_nat (lo + 1 - lo)) with 1%nat by lia.
  simpl. f_equal. lia.
Qed.

Lemma range_nth (lo hi : Z) (k : nat) (d : Z) :
  Z.of_nat k < hi - lo -> nth k (Py.range lo hi) d = lo + Z.of_nat k.
Proof.
  intro H. unfold Py.range.
  rewrite (nth_indep _ d (lo + Z.of_nat 0)).
  - rewrite (map_nth (fun k => lo + Z.of_nat k)). rewrite seq_nth by lia.
    reflexivity.
  - rewrite length_map, length_seq. lia.
Qed.

Lemma firstn_range (n : nat) (lo hi : Z) :
  firstn n (Py.range lo hi) = Py.range lo (Z.min hi (lo + Z.of_nat n)).
Proof.
  unfold Py.range. rewrite firstn_map, firstn_seq_min. f_equal. f_equal. lia.
Qed.

Lemma skipn_range (n : nat) (lo hi : Z) :
  skipn n (Py.range lo hi) = Py.range (lo + Z.of_nat n) hi.
Proof.
  unfold Py.range. rewrite skipn_map, skipn_seq.
  replace (Z.to_nat (hi - (lo + Z.of_nat n))) with (Z.to_nat (hi - lo) - n)%nat
    by lia.
  rewrite seq_shift_by, map_map. apply map_ext. intro k. lia.
Qed.

(** A slice of a range between non-negative bounds within its length. *)
Lemma slice_range (lo hi a b : Z) :
  0 <= a <= b -> b <= hi - lo ->
  Py.slice (Py.range lo hi) (Some a) (Some b) = Py.range (lo + a) (lo + b).
Proof.
  intros Hab Hb. unfold Py.slice. fold (len (Py.range lo hi)).
  rewrite len_range. unfold Py.slice_bound.
  destruct (Z.ltb_spec a 0); [lia|]. destruct (Z.ltb_spec b 0); [lia|].
  rewrite skipn_range, firstn_range. f_equal; lia.
Qed.

Lemma slice_range_upto (lo hi b : Z) :
  0 <= b <= hi - lo ->
  Py.slice (Py.range lo hi) None (Some b) = Py.range lo (lo + b).
Proof.
  intros Hb. unfold Py.slice. fold (len (Py.range lo hi)).
  rewrite len_range. unfold Py.slice_bound.
  destruct (Z.ltb_spec b 0); [lia|].
  rewrite skipn_range, firstn_range. f_equal; lia.
Qed.

Lemma slice_range_upto_all (lo hi b : Z) :
  hi - lo <= b -> Py.slice (Py.range lo hi) None (Some b) = Py.range lo hi.
Proof.
  intros Hb. unfold Py.slice. fold (len (Py.range lo hi)).
  rewrite len_range. unfold Py.slice_bound.
  destruct (Z.ltb_spec b 0).
  - unfold Py.range. replace (Z.to_nat (hi - lo)) with 0%nat by lia.
    simpl. now rewrite firstn_nil.
  - rewrite skipn_range, firstn_range. f_equal; lia.
Qed.

End Ranges.

Section ReferencePlace.

Import Relative.

(** The reference places hold the player's place, and every place listed
    before it is a place of the field. *)
Lemma reference_place_has_player (min_top_veh veh_total plr_place veh_limit : Z) :
  1 <= min_top_veh < veh_limit ->
  1 <= plr_place <= veh_total -> veh_total <= 128 ->
  exists pre post,
    create_reference_place min_top_veh veh_total plr_place veh_limit
    = pre ++ plr_place :: post
    /\ forall r, In r pre -> 1 <= r <= veh_total.
Proof.
  intros Htop Hplr Htot. unfold create_reference_place, ALL_PLACES.
  destruct (Z.leb_spec veh_total veh_limit) as [Hall | Hcut].
  - rewrite slice_range_upto by lia.
    exists (Py.range 1 plr_place), (Py.range (plr_place + 1) (1 + veh_total)).
    split.
    + rewrite (range_split 1 plr_place (1 + veh_total)) by lia.
      now rewrite (range_cons plr_place) by lia.
    + intros r Hr. apply in_range in Hr. lia.
  - destruct (Z.leb_spec plr_place min_top_veh) as [Hin | Hout].
    + set (top := Z.min veh_limit 128).
      assert (Hs : Py.slice (Py.range 1 129) None (Some veh_limit)
                   = Py.range 1 (1 + top)).
      { unfold top. destruct (Z.le_gt_cases veh_limit 128).
        - rewrite slice_range_upto by lia. f_equal. lia.
        - rewrite slice_range_upto_all by lia. f_equal. lia. }
      rewrite Hs.
      exists (Py.range 1 plr_place), (Py.range (plr_place + 1) (1 + top)).
      split.
      * rewrite (range_split 1 plr_place (1 + top)) by (unfold top; lia).
        now rewrite (range_cons plr_place) by (unfold top; lia).
      * intros r Hr. apply in_range in Hr. lia.
    + set (max_cut_range := veh_limit - min_top_veh).
      set (rear_cut_count := (max_cut_range - 1) / 2).
      set (front_cut_count := max_cut_range - rear_cut_count).
      set (front_cut_raw :=
             if plr_place - front_cut_count <? min_top_veh then min_top_veh
             else plr_place - front_cut_count).
      set (rear_cut_max :=
             if veh_total <? front_cut_raw + max_cut_range then veh_total
             else front_cut_raw + max_cut_range).
      set (front_cut_max := rear_cut_max - max_cut_range).
      assert (Hmcr : 1 <= max_cut_range) by (unfold max_cut_range; lia).
      assert (Hrcc : 0 <= rear_cut_count <= max_cut_range - 1).
      { unfold rear_cut_count. split.
        - apply Z.div_pos; lia.
        - apply Z.div_le_upper_bound; lia. }
      assert (Hfcr : min_top_veh <= front_cut_raw < plr_place
                     /\ plr_place <= front_cut_raw + max_cut_range).
      { unfold front_cut_raw, front_cut_count.
        destruct (Z.ltb_spec (plr_place - (max_cut_range - rear_cut_count))
                    min_top_veh); lia. }
      assert (Hrcm : plr_place <= rear_cut_max <= veh_total
                     /\ min_top_veh <= front_cut_max < plr_place).
      { unfold front_cut_max, rear_cut_max.
        destruct (Z.ltb_spec veh_total (front_cut_raw + max_cut_range));
          unfold max_cut_range in *; lia. }
      rewrite slice_range_upto by lia.
      rewrite slice_range by lia.
      exists (Py.range 1 (1 + min_top_veh) ++ Py.range (1 + front_cut_max) plr_place),
             (Py.range (plr_place + 1) (1 + rear_cut_max)).
      split.
      * rewrite <- app_assoc. f_equal.
        rewrite (range_split (1 + front_cut_max) plr_place (1 + rear_cut_max))
          by lia.
        now rewrite (range_cons plr_place) by lia.
      * intros r Hr. apply in_app_or in Hr.
        destruct Hr as [Hr | Hr]; apply in_range in Hr; lia.
Qed.

Lemma place_reference_reaches (pre post : list Z) (p : Z)
    (place_index_list : list (Z * Z)) :
  (forall r, In r pre -> 1 <= r <= len place_index_list) ->
  1 <= p <= len place_index_list ->
  In (snd (nth (Z.to_nat (p - 1)) place_index_list (0, -1)))
     (player_index_from_place_reference (pre ++ p :: post) place_index_list).
Proof.
  intros Hpre Hp. induction pre as [|r pre IH]; simpl.
  - destruct (Z.ltb_spec 0 p); [|lia].
    destruct (Z.leb_spec p (len place_index_list)); [|lia].
    simpl. now left.
  - assert (Hr := Hpre r (or_introl eq_refl)).
    destruct (Z.ltb_spec 0 r); [|lia].
    destruct (Z.leb_spec r (len place_index_list)); [|lia].
    simpl. right. apply IH. intros r' Hr'. apply Hpre. now right.
Qed.

(** The vehicle at the player's place is in the standings of
    [calc_standings_index]. *)
Lemma calc_standings_index_has_player (min_top_veh veh_total veh_limit plr_place : Z)
    (place_index_list : list (Z * Z)) :
  1 <= min_top_veh < veh_limit ->
  1 <= plr_place <= veh_total -> veh_total <= 128 ->
  veh_total <= len place_index_list ->
  In (snd (nth (Z.to_nat (plr_place - 1)) place_index_list (0, -1)))
     (calc_standings_index min_top_veh veh_total veh_limit plr_place
        place_index_list).
Proof.
  intros Htop Hplr Htot Hlen. unfold calc_standings_index.
  destruct (reference_place_has_player min_top_veh veh_total plr_place
              veh_limit Htop Hplr Htot) as (pre & post & -> & Hpre).
  apply place_reference_reaches.
  - intros r Hr. specialize (Hpre r Hr). lia.
  - lia.
Qed.

End ReferencePlace.

(** ** Orders of the tuples; the overall place list *)

Section Orders.

Import Relative.

Lemma lex_opp (c1 c2 : comparison) :
  CompOpp (lex c1 c2) = lex (CompOpp c1) (CompOpp c2).
Proof. now destruct c1. Qed.

Lemma not_gt_total (c : comparison) : not_gt c = true \/ not_gt (CompOpp c) = true.
Proof. destruct c; simpl; auto. Qed.

Lemma place_index_compare_antisym (a b : Z * Z) :
  place_index_compare b a = CompOpp (place_index_compare a b).
Proof.
  unfold place_index_compare. rewrite lex_opp.
  now rewrite <- !Z.compare_antisym.
Qed.

Lemma place_index_leb_total (a b : Z * Z) :
  leb_of place_index_compare a b = true
  \/ leb_of place_index_compare b a = true.
Proof.
  unfold leb_of. rewrite (place_index_compare_antisym a b). apply not_gt_total.
Qed.

Lemma place_index_leb_fst (a b : Z * Z) :
  leb_of place_index_compare a b = true -> fst a <= fst b.
Proof.
  unfold leb_of, place_index_compare, lex.
  destruct (Z.compare_spec (fst a) (fst b)); simpl; intros; try lia;
    discriminate.
Qed.

Lemma vehicle_compare_antisym (a b : vehicle) :
  vehicle_compare b a = CompOpp (vehicle_compare a b).
Proof.
  unfold vehicle_compare. rewrite !lex_opp.
  rewrite <- !Z.compare_antisym, Qcompare_antisym.
  now rewrite <- String.compare_antisym.
Qed.

Lemma vehicle_leb_total (a b : vehicle) :
  leb_of vehicle_compare a b = true \/ leb_of vehicle_compare b a = true.
Proof.
  unfold leb_of. rewrite (vehicle_compare_antisym a b). apply not_gt_total.
Qed.

Lemma vehicle_leb_class (a b : vehicle) :
  leb_of vehicle_compare a b = true ->
  veh_class a = veh_class b \/ String.compare (veh_class a) (veh_class b) = Lt.
Proof.
  unfold leb_of, vehicle_compare, lex.
  destruct (String.compare (veh_class a) (veh_class b)) eqn:E; simpl; intro H.
  - left. now apply String.compare_eq_iff.
  - now right.
  - discriminate.
Qed.

End Orders.

Section SingleClass.

Import Relative.

Lemma sorted_le_map_fst (l : list (Z * Z)) :
  Sorted (Py.le_of (leb_of place_index_compare)) l ->
  Sorted (Py.le_of Z.leb) (map fst l).
Proof.
  induction 1 as [|a l Hs IH Hr]; simpl; constructor; [exact IH|].
  destruct Hr as [|b l Hab]; simpl; constructor.
  apply Z.leb_le. now apply place_index_leb_fst.
Qed.

Lemma range_strictly_sorted (lo hi : Z) :
  StronglySorted (Py.lt_of Z.leb) (Py.range lo hi).
Proof.
  unfold Py.range. generalize (Z.to_nat (hi - lo)) as n. intro n.
  generalize 0%nat as s. induction n as [|n IH]; intro s; simpl.
  - constructor.
  - constructor; [apply IH|].
    apply Forall_forall. intros x Hx. apply in_map_iff in Hx.
    destruct Hx as [k [<- Hk]]. apply in_seq in Hk.
    split; [apply Z.leb_le | apply Z.leb_gt]; lia.
Qed.

Lemma Zle_of_trans : Relations_1.Transitive (Py.le_of Z.leb).
Proof.
  intros a b c. unfold Py.le_of. rewrite !Z.leb_le. lia.
Qed.

(** Every place from 1 to [n] is held: the places of the [n] vehicles are
    the numbers 1 to [n] in some order. *)
Lemma ranked_permutation (api : snapshot) (n : Z) :
  ranked api n ->
  Permutation (map (place api) (Py.range 0 n)) (Py.range 1 (n + 1)).
Proof.
  intro H. apply Permutation_sym. apply NoDup_Permutation_bis.
  - unfold Py.range. apply Finite.Injective_map_NoDup.
    + intros x y. lia.
    + apply seq_NoDup.
  - rewrite length_map. unfold Py.range. rewrite !length_map, !length_seq. lia.
  - intros k Hk. apply in_range in Hk.
    destruct (H k) as [i [Hi <-]]; [lia|].
    apply in_map. apply in_range. lia.
Qed.

Lemma place_index_list_places (api : snapshot) (n : Z) :
  ranked api n ->
  map fst (Py.sorted (leb_of place_index_compare)
             (map (fun v => (veh_place v, veh_index v))
                  (get_vehicle_class_data api n)))
  = Py.range 1 (n + 1).
Proof.
  intro H.
  apply (strictly_sorted_unique Z.leb).
  - apply range_strictly_sorted.
  - apply Sorted_StronglySorted; [exact Zle_of_trans|].
    apply sorted_le_map_fst. apply sorted_sorted.
    exact place_index_leb_total.
  - eapply perm_trans.
    + apply Permutation_map. apply sorted_perm.
    + unfold get_vehicle_class_data. rewrite !map_map. simpl.
      now apply ranked_permutation.
Qed.

Lemma nth_In_index {A : Type} (l : list A) (x d : A) :
  In x l -> exists j, (j < List.length l)%nat /\ nth j l d = x.
Proof. apply In_nth. Qed.

(** In the sorted place list of a ranking, the entry at the player's place
    is the player's. *)
Lemma place_index_list_player (api : snapshot) (n plr_index : Z) :
  ranked api n -> 0 <= plr_index < n ->
  let place_index_list :=
    Py.sorted (leb_of place_index_compare)
      (map (fun v => (veh_place v, veh_index v))
           (get_vehicle_class_data api n)) in
  1 <= place api plr_index <= n
  /\ len place_index_list = n
  /\ nth (Z.to_nat (place api plr_index - 1)) place_index_list (0, -1)
     = (place api plr_index, plr_index).
Proof.
  intros Hr Hp pil.
  assert (Hfst := place_index_list_places api n Hr). fold pil in Hfst.
  assert (Hlen : len pil = n).
  { unfold len. rewrite <- (length_map fst pil), Hfst.
    fold (len (Py.range 1 (n + 1))). rewrite len_range. lia. }
  assert (Hin : In (place api plr_index, plr_index) pil).
  { apply (Permutation_in _ (Permutation_sym (sorted_perm _ _))).
    unfold get_vehicle_class_data. rewrite map_map. simpl.
    apply in_map_iff. exists plr_index. split; [reflexivity|].
    apply in_range. lia. }
  destruct (In_nth _ _ (0, -1) Hin) as [j [Hj Hnth]].
  assert (Hplace : nth j (map fst pil) 0 = place api plr_index).
  { change 0 with (fst (0, -1)). rewrite map_nth, Hnth. reflexivity. }
  rewrite Hfst in Hplace. unfold len in Hlen.
  rewrite range_nth in Hplace by lia.
  split; [lia|]. split; [exact Hlen|].
  replace (Z.to_nat (place api plr_index - 1)) with j by lia.
  exact Hnth.
Qed.

End SingleClass.

Section TupleOrders.

Import Relative.

Context {A : Type}.

Lemma tuple_order_eq_r (compare : A -> A -> comparison) :
  tuple_order compare ->
  forall a b c, compare b c = Eq -> compare a b = compare a c.
Proof.
  intros O a b c H.
  rewrite (compare_antisym _ O b a), (compare_antisym _ O c a). f_equal.
  now apply (compare_eq_l _ O).
Qed.

Lemma tuple_order_lex (c1 c2 : A -> A -> comparison) :
  tuple_order c1 -> tuple_order c2 ->
  tuple_order (fun a b => lex (c1 a b) (c2 a b)).
Proof.
  intros O1 O2. split.
  - intros a b. rewrite lex_opp.
    now rewrite <- (compare_antisym _ O1), <- (compare_antisym _ O2).
  - intros a b c. unfold lex.
    destruct (c1 a b) eqn:Eab; try discriminate;
    destruct (c1 b c) eqn:Ebc; try discriminate; intros Hab Hbc.
    + rewrite (compare_eq_l _ O1 a b c Eab), Ebc.
      now apply (compare_lt_trans _ O2 a b c).
    + now rewrite (compare_eq_l _ O1 a b c Eab), Ebc.
    + now rewrite <- (tuple_order_eq_r _ O1 a b c Ebc), Eab.
    + now rewrite (compare_lt_trans _ O1 a b c Eab Ebc).
  - intros a b c. unfold lex.
    destruct (c1 a b) eqn:Eab; try discriminate. intro H.
    rewrite (compare_eq_l _ O1 a b c Eab).
    now rewrite (compare_eq_l _ O2 a b c H).
Qed.

Lemma tuple_order_Z (f : A -> Z) : tuple_order (fun a b => Z.compare (f a) (f b)).
Proof.
  split.
  - intros a b. apply Z.compare_antisym.
  - intros a b c. rewrite !Z.compare_lt_iff. lia.
  - intros a b c H. apply Z.compare_eq in H. now rewrite H.
Qed.

Lemma tuple_order_Q (f : A -> Q) : tuple_order (fun a b => Qcompare (f a) (f b)).
Proof.
  split.
  - intros a b. symmetry. apply Qcompare_antisym.
  - intros a b c. rewrite <- !Qlt_alt. apply Qlt_trans.
  - intros a b c H. apply Qeq_alt in H. now rewrite H.
Qed.

Lemma tuple_order_string (f : A -> string) :
  tuple_order (fun a b => String.compare (f a) (f b)).
Proof.
  split.
  - intros a b. apply String.compare_antisym.
  - intros a b c Hab Hbc.
    apply String_as_OT.cmp_lt. apply String_as_OT.cmp_lt in Hab, Hbc.
    eapply String_as_OT.lt_trans; eassumption.
  - intros a b c H. apply String.compare_eq_iff in H. now rewrite H.
Qed.

Variable compare : A -> A -> comparison.
Hypothesis O : tuple_order compare.

Lemma leb_of_total (a b : A) :
  leb_of compare a b = true \/ leb_of compare b a = true.
Proof.
  unfold leb_of. rewrite (compare_antisym _ O a b). apply not_gt_total.
Qed.

Lemma lt_of_iff (a b : A) :
  Py.lt_of (leb_of compare) a b <-> compare a b = Lt.
Proof.
  unfold Py.lt_of, leb_of. rewrite (compare_antisym _ O a b).
  destruct (compare a b); simpl; intuition discriminate.
Qed.

Lemma leb_of_trans (a b c : A) :
  leb_of compare a b = true -> leb_of compare b c = true ->
  leb_of compare a c = true.
Proof.
  unfold leb_of.
  destruct (compare a b) eqn:Eab; try discriminate;
  destruct (compare b c) eqn:Ebc; try discriminate; intros _ _.
  - now rewrite (compare_eq_l _ O a b c Eab), Ebc.
  - now rewrite (compare_eq_l _ O a b c Eab), Ebc.
  - now rewrite <- (tuple_order_eq_r _ O a b c Ebc), Eab.
  - now rewrite (compare_lt_trans _ O a b c Eab Ebc).
Qed.

Lemma lt_of_trans : Relations_1.Transitive (Py.lt_of (leb_of compare)).
Proof.
  intros a b c. rewrite !lt_of_iff. apply (compare_lt_trans _ O).
Qed.

End TupleOrders.

Section ClassKey.

Import Relative.

Lemma class_key_order : tuple_order class_key_compare.
Proof.
  unfold class_key_compare.
  apply (tuple_order_lex (fun a b => String.compare (cp_class a) (cp_class b))).
  - apply tuple_order_string.
  - apply (tuple_order_lex (fun a b => Qcompare (cp_class_best a) (cp_class_best b))).
    + apply tuple_order_Q.
    + apply tuple_order_Z.
Qed.

Lemma vehicle_order : tuple_order vehicle_compare.
Proof.
  unfold vehicle_compare.
  apply (tuple_order_lex (fun a b => String.compare (veh_class a) (veh_class b))).
  - apply tuple_order_string.
  - apply (tuple_order_lex (fun a b => Z.compare (veh_place a) (veh_place b))).
    + apply tuple_order_Z.
    + apply (tuple_order_lex (fun a b => Z.compare (veh_index a) (veh_index b))).
      * apply tuple_order_Z.
      * apply tuple_order_Q.
Qed.

End ClassKey.

(** ** Class positions and class groups *)

Section PositionInClass.

Import Relative.

Lemma position_loop_index (sb : Q) (todo : list vehicle) :
  forall ic pos cb ah,
  map cp_index (position_loop sb ic pos cb ah todo) = map veh_index todo.
Proof.
  induction todo as [|v rest IH]; intros; simpl; [reflexivity|].
  f_equal. apply IH.
Qed.

Lemma position_loop_class (sb : Q) (todo : list vehicle) :
  forall ic pos cb ah,
  map cp_class (position_loop sb ic pos cb ah todo) = map veh_class todo.
Proof.
  induction todo as [|v rest IH]; intros; simpl; [reflexivity|].
  f_equal. apply IH.
Qed.

Lemma string_compare_refl (x : string) : String.compare x x = Eq.
Proof. now apply String_as_OT.cmp_eq. Qed.

Lemma Qcompare_refl (x : Q) : Qcompare x x = Eq.
Proof. apply Qeq_alt. reflexivity. Qed.

Lemma string_eqb_class (x y : string) : String.eqb x y = true -> x = y.
Proof. apply String.eqb_eq. Qed.

(** On vehicles listed with their class names in ascending order, the
    tuples of [create_position_in_class] come out in strictly ascending
    order of (class name, class best laptime, class position). *)
Lemma position_loop_key_sorted (sb : Q) (todo : list vehicle) :
  forall ic pos cb ah,
  0 <= pos ->
  Sorted (fun u v => veh_class u = veh_class v
                     \/ String.compare (veh_class u) (veh_class v) = Lt) todo ->
  Sorted (Py.lt_of (leb_of class_key_compare))
         (position_loop sb ic pos cb ah todo).
Proof.
  induction todo as [|v rest IH]; intros ic pos cb ah Hpos Hs; simpl.
  - constructor.
  - inversion Hs as [|? ? Hs' Hr]; subst.
    set (pos' := if String.eqb (veh_class v) ic then pos + 1 else 1).
    assert (Hpos' : 1 <= pos') by (unfold pos'; destruct (String.eqb _ _); lia).
    constructor; [apply IH; [lia | exact Hs']|].
    destruct rest as [|w rest']; simpl; constructor.
    apply (lt_of_iff _ class_key_order).
    inversion Hr as [|? ? Hvw]; subst.
    assert (Eic : (if String.eqb (veh_class v) ic then ic else veh_class v)
                  = veh_class v).
    { destruct (String.eqb (veh_class v) ic) eqn:E; [|reflexivity].
      symmetry. now apply String.eqb_eq. }
    rewrite Eic. unfold class_key_compare. simpl.
    destruct (String.eqb (veh_class w) (veh_class v)) eqn:Ew.
    + apply String.eqb_eq in Ew. rewrite Ew, string_compare_refl. simpl.
      destruct (Z.eqb_spec (pos' + 1) 1); [lia|].
      rewrite Qcompare_refl. simpl. apply Z.compare_lt_iff. lia.
    + apply String.eqb_neq in Ew.
      destruct Hvw as [Hvw | Hvw]; [congruence|]. now rewrite Hvw.
Qed.

End PositionInClass.

Section ClassRuns.

Import Relative.

Lemma slice_middle {A : Type} (pre cur post : list A) :
  Py.slice (pre ++ cur ++ post) (Some (len pre)) (Some (len pre + len cur))
  = cur.
Proof.
  unfold Py.slice. fold (len (pre ++ cur ++ post)).
  rewrite !len_app. unfold Py.slice_bound.
  assert (0 <= len pre) by (unfold len; lia).
  assert (0 <= len cur) by (unfold len; lia).
  assert (0 <= len post) by (unfold len; lia).
  destruct (Z.ltb_spec (len pre) 0); [lia|].
  destruct (Z.ltb_spec (len pre + len cur) 0); [lia|].
  replace (Z.to_nat (Z.min (len pre) (len pre + (len cur + len post))))
    with (List.length pre) by (unfold len in *; lia).
  replace (Z.to_nat (Z.min (len pre + len cur) (len pre + (len cur + len post))
                     - Z.min (len pre) (len pre + (len cur + len post))))
    with (List.length cur) by (unfold len in *; lia).
  rewrite skipn_app, skipn_all, Nat.sub_diag. simpl.
  rewrite firstn_app, firstn_all, Nat.sub_diag. simpl.
  apply app_nil_r.
Qed.

(** The slices of [split_class_list] are the runs of the list. *)
Lemma split_loop_runs (todo : list class_pos) :
  forall pre cur cn,
  split_loop (pre ++ cur ++ todo) cn (len pre) (len pre + len cur) todo
  = class_runs cur cn todo.
Proof.
  induction todo as [|v rest IH]; intros pre cur cn; simpl.
  - now rewrite slice_middle.
  - destruct (String.eqb (cp_class v) cn).
    + replace (pre ++ cur ++ v :: rest) with (pre ++ (cur ++ [v]) ++ rest)
        by (now rewrite <- !app_assoc).
      replace (len pre + len cur + 1) with (len pre + len (cur ++ [v]))
        by (rewrite len_app; unfold len; simpl; lia).
      apply IH.
    + f_equal; [apply slice_middle|].
      replace (pre ++ cur ++ v :: rest) with ((pre ++ cur) ++ [v] ++ rest)
        by (now rewrite <- !app_assoc).
      replace (len pre + len cur) with (len (pre ++ cur))
        by (now rewrite len_app).
      replace (len (pre ++ cur) + 1) with (len (pre ++ cur) + len [v])
        by (unfold len; simpl; lia).
      apply IH.
Qed.

Lemma split_class_list_runs (first : class_pos) (rest : list class_pos) :
  split_class_list (first :: rest)
  = Ok (class_runs [] (cp_class first) (first :: rest)).
Proof.
  unfold split_class_list. f_equal.
  apply (split_loop_runs (first :: rest) [] [] (cp_class first)).
Qed.

Lemma class_runs_concat (todo : list class_pos) :
  forall cur cn, List.concat (class_runs cur cn todo) = cur ++ todo.
Proof.
  induction todo as [|v rest IH]; intros cur cn; simpl.
  - reflexivity.
  - destruct (String.eqb (cp_class v) cn); simpl; rewrite IH.
    + now rewrite <- app_assoc.
    + reflexivity.
Qed.

Lemma class_runs_nonempty (todo : list class_pos) :
  forall cur cn,
  cur <> [] \/ (exists v rest, todo = v :: rest /\ cp_class v = cn) ->
  Forall (fun g => g <> []) (class_runs cur cn todo).
Proof.
  induction todo as [|v rest IH]; intros cur cn H; simpl.
  - constructor; [|constructor].
    destruct H as [H | (v & rest & H & _)]; [exact H | discriminate].
  - destruct (String.eqb (cp_class v) cn) eqn:E.
    + apply IH. left. now destruct cur.
    + constructor.
      * destruct H as [H | (v' & rest' & H & Hc)]; [exact H|].
        injection H as <- <-. apply String.eqb_neq in E. contradiction.
      * apply IH. left. discriminate.
Qed.

Lemma numbered_nil : numbered [].
Proof. reflexivity. Qed.

Lemma numbered_snoc (g : list class_pos) (o : class_pos) :
  numbered g -> cp_position o = len g + 1 -> numbered (g ++ [o]).
Proof.
  unfold numbered. intros Hg Ho.
  rewrite map_app, Hg. simpl. rewrite Ho, len_app.
  assert (0 <= len g) by (unfold len; lia).
  replace (len [o]) with 1 by reflexivity.
  rewrite (range_split 1 (len g + 1) (len g + 1 + 1)) by lia.
  f_equal. rewrite range_cons by lia.
  unfold Py.range. replace (Z.to_nat _) with 0%nat by lia. reflexivity.
Qed.

(** Position counting and splitting restart at the same vehicles: every
    group [split_class_list] yields from the tuples of
    [create_position_in_class] carries the positions 1, 2, ... *)
Lemma class_runs_numbered (sb : Q) (todo : list vehicle) :
  forall ic pos cb ah cur,
  numbered cur -> len cur = pos ->
  Forall numbered (class_runs cur ic (position_loop sb ic pos cb ah todo)).
Proof.
  induction todo as [|v rest IH]; intros ic pos cb ah cur Hn Hl; simpl.
  - now constructor.
  - destruct (String.eqb (veh_class v) ic) eqn:E.
    + apply IH.
      * apply numbered_snoc; [exact Hn | simpl; lia].
      * rewrite len_app. unfold len at 2. simpl. lia.
    + constructor; [exact Hn|].
      apply IH; reflexivity.
Qed.

End ClassRuns.

Section Collections.

Import Relative.

Lemma traverse_forall2 {A B : Type} (f : A -> result B) (P : A -> B -> Prop)
    (l : list A) :
  (forall a, In a l -> exists b, f a = Ok b /\ P a b) ->
  exists bs, traverse f l = Ok bs /\ Forall2 P l bs.
Proof.
  induction l as [|a l IH]; intro H; simpl.
  - exists []. split; [reflexivity | constructor].
  - destruct (H a (or_introl eq_refl)) as (b & Hb & Pb).
    destruct IH as (bs & Hbs & Pbs).
    { intros a' Ha'. apply H. now right. }
    exists (b :: bs). rewrite Hb. simpl. rewrite Hbs. simpl.
    split; [reflexivity | now constructor].
Qed.

Lemma forall2_snd_map {A B : Type} (l : list A) (k : list (B * A)) :
  Forall2 (fun a p => snd p = a) l k -> map snd k = l.
Proof.
  induction 1 as [|a p l k Hp _ IH]; simpl; [reflexivity|].
  now rewrite Hp, IH.
Qed.

Lemma sorted_by_class_best_ok (groups : list (list class_pos)) :
  Forall (fun g => g <> []) groups ->
  exists collection,
    sorted_by_class_best groups = Ok collection
    /\ Permutation collection groups.
Proof.
  intro Hne. unfold sorted_by_class_best.
  destruct (traverse_forall2
              (fun collection =>
                 bind (sort_class_collection collection)
                      (fun key => Ok (key, collection)))
              (fun g p => snd p = g) groups) as (keyed & -> & Hk).
  - intros g Hg. rewrite Forall_forall in Hne. specialize (Hne g Hg).
    destruct g as [|first g]; [congruence|].
    exists (cp_class_best first, first :: g). split; reflexivity.
  - simpl. eexists. split; [reflexivity|].
    eapply perm_trans.
    + apply Permutation_map. apply sorted_perm.
    + rewrite (forall2_snd_map _ _ Hk). apply Permutation_refl.
Qed.

Lemma place_reference_shape (refs : list Z) (place_index_list : list (Z * Z)) :
  exists body,
    player_index_from_place_reference refs place_index_list = body ++ [-1]
    /\ forall i, In i body -> In i (map snd place_index_list).
Proof.
  induction refs as [|r refs IH]; simpl.
  - exists []. split; [reflexivity | intros i []].
  - destruct (Z.ltb_spec 0 r); simpl.
    2:{ exists []. split; [reflexivity | intros i []]. }
    destruct (Z.leb_spec r (len place_index_list)); simpl.
    2:{ exists []. split; [reflexivity | intros i []]. }
    destruct IH as (body & -> & Hb).
    exists (snd (nth (Z.to_nat (r - 1)) place_index_list (0, -1)) :: body).
    split; [reflexivity|].
    intros i [<- | Hi]; [|now apply Hb].
    apply in_map. apply nth_In. unfold len in *. lia.
Qed.

Lemma last_range (lo hi d : Z) : lo < hi -> last (Py.range lo hi) d = hi - 1.
Proof.
  intro H. rewrite (range_split lo (hi - 1) hi) by lia.
  rewrite (range_cons (hi - 1) hi) by lia.
  replace (Py.range (hi - 1 + 1) hi) with (@nil Z).
  - now rewrite last_last.
  - unfold Py.range. now replace (Z.to_nat _) with 0%nat by lia.
Qed.

Lemma len_nonneg {A : Type} (l : list A) : 0 <= len l.
Proof. unfold len. lia. Qed.

Lemma len_pos {A : Type} (l : list A) : l <> [] -> 1 <= len l.
Proof. destruct l; [congruence|]. intros _. unfold len. simpl. lia. Qed.

(** One pass of [create_class_standings_index] on a non-empty class list
    gives a block of indices of the class followed by -1. *)
Lemma class_standings_index_shape (min_top_veh plr_index lo lp : Z)
    (g : list class_pos) :
  g <> [] ->
  exists body,
    class_standings_index min_top_veh plr_index lo lp g = Ok (body ++ [-1])
    /\ forall i, In i body -> In i (map cp_index g).
Proof.
  intro Hne. unfold class_standings_index.
  destruct g as [|first g']; [congruence|].
  set (g := first :: g').
  assert (Hsub : forall i,
            In i (map snd (combine (map cp_position g) (map cp_index g))) ->
            In i (map cp_index g)).
  { intros i Hi. apply in_map_iff in Hi. destruct Hi as ([p j] & <- & Hi).
    now apply in_combine_r in Hi. }
  destruct (Py.find_index plr_index (map cp_index g));
    unfold calc_standings_index;
    match goal with
    | |- context [player_index_from_place_reference ?r ?p] =>
        destruct (place_reference_shape r p) as (body & -> & Hb)
    end;
    exists body; (split; [reflexivity | intros i Hi; apply Hsub; now apply Hb]).
Qed.

(** ... and the block of the player's class holds the player. *)
Lemma class_standings_index_player (min_top_veh plr_index lo lp : Z)
    (g : list class_pos) :
  numbered g -> len g <= 128 ->
  In plr_index (map cp_index g) ->
  1 <= min_top_veh < lp ->
  exists block,
    class_standings_index min_top_veh plr_index lo lp g = Ok block
    /\ In plr_index block.
Proof.
  intros Hnum Hlen Hin Htop. unfold class_standings_index.
  destruct g as [|first g']; [destruct Hin|].
  set (g := first :: g') in *.
  destruct (find_index_in _ _ Hin) as [local Hfind].
  rewrite Hfind.
  assert (Hloc := find_index_range _ _ _ Hfind). rewrite len_map in Hloc.
  assert (Hnth := find_index_nth _ _ _ Hfind).
  unfold numbered in Hnum. rewrite Hnum.
  eexists. split; [reflexivity|].
  rewrite last_range by lia.
  rewrite range_nth by lia.
  replace (len g + 1 - 1) with (len g) by lia.
  assert (E : snd (nth (Z.to_nat (1 + Z.of_nat (Z.to_nat local) - 1))
                     (combine (Py.range 1 (len g + 1)) (map cp_index g))
                     (0, -1)) = plr_index).
  { replace (Z.to_nat (1 + Z.of_nat (Z.to_nat local) - 1))
      with (Z.to_nat local) by lia.
    rewrite combine_nth.
    - cbn [snd]. now apply nth_error_nth.
    - rewrite length_map. fold (len (Py.range 1 (len g + 1))) (len g).
      apply Nat2Z.inj. fold (len (Py.range 1 (len g + 1))).
      fold (len g). rewrite len_range. lia. }
  rewrite <- E at 1.
  apply calc_standings_index_has_player; try lia.
  assert (L := len_range 1 (len g + 1)).
  unfold len in *. rewrite length_combine, length_map. lia.
Qed.

Lemma in_concat_length {A : Type} (g : list A) (gs : list (list A)) :
  In g gs -> len g <= len (List.concat gs).
Proof.
  induction gs as [|h gs IH]; intros []; simpl; rewrite len_app.
  - subst. assert (H := len_nonneg (List.concat gs)). lia.
  - assert (H' := len_nonneg h). specialize (IH H). lia.
Qed.

End Collections.

(** ** The standings list *)

Section Standings.

Import Relative.

Lemma forall2_in_l {A B : Type} (P : A -> B -> Prop) (l : list A) (bs : list B) (a : A) :
  Forall2 P l bs -> In a l -> exists b, In b bs /\ P a b.
Proof.
  induction 1 as [|x y l bs Hxy _ IH]; intros Hin; [destruct Hin|].
  destruct Hin as [<- | Hin].
  - exists y. split; [now left | exact Hxy].
  - destruct (IH Hin) as (b & Hb & Pb). exists b. split; [now right | exact Pb].
Qed.

Lemma forall2_in_r {A B : Type} (P : A -> B -> Prop) (l : list A) (bs : list B) (b : B) :
  Forall2 P l bs -> In b bs -> exists a, In a l /\ P a b.
Proof.
  induction 1 as [|x y l bs Hxy _ IH]; intros Hin; [destruct Hin|].
  destruct Hin as [<- | Hin].
  - exists x. split; [now left | exact Hxy].
  - destruct (IH Hin) as (a & Ha & Pa). exists a. split; [now right | exact Pa].
Qed.

Lemma perm_nonempty {A : Type} (l l' : list A) :
  Permutation l l' -> l' <> [] -> l <> [].
Proof.
  intros Hp Hne ->. apply Permutation_nil in Hp. contradiction.
Qed.

(** The split-mode branch of [create_standings_index]: the groups are the
    runs of the key-sorted class position list, in some order, and the
    result is the concatenation of their blocks. *)
Lemma split_standings_shape (min_top_veh la lo lp veh_total plr_index plr_place : Z)
    (class_pos_list : list class_pos) (place_index_list : list (Z * Z)) :
  class_pos_list <> [] ->
  exists first rest collection blocks,
    Py.sorted (leb_of class_key_compare) class_pos_list = first :: rest
    /\ Permutation collection (class_runs [] (cp_class first) (first :: rest))
    /\ Forall2 (fun g block =>
                  class_standings_index min_top_veh plr_index lo lp g = Ok block)
               collection blocks
    /\ create_standings_index min_top_veh (la, lo, lp) veh_total plr_index
         plr_place class_pos_list place_index_list true
       = Ok (List.concat blocks).
Proof.
  intro Hne. unfold create_standings_index.
  destruct (Py.sorted (leb_of class_key_compare) class_pos_list)
    as [|first rest] eqn:Es.
  { exfalso. apply (perm_nonempty _ _ (sorted_perm (leb_of class_key_compare) class_pos_list) Hne).
    exact Es. }
  rewrite split_class_list_runs. cbn [bind].
  assert (Hruns : Forall (fun g => g <> [])
                    (class_runs [] (cp_class first) (first :: rest))).
  { apply class_runs_nonempty. right. now exists first, rest. }
  destruct (sorted_by_class_best_ok _ Hruns) as (collection & -> & Hperm).
  cbn [bind]. unfold create_class_standings_index.
  destruct (traverse_forall2
              (class_standings_index min_top_veh plr_index lo lp)
              (fun g block =>
                 class_standings_index min_top_veh plr_index lo lp g = Ok block)
              collection) as (blocks & -> & Hblocks).
  - intros g Hg.
    assert (Hg' : g <> []).
    { rewrite Forall_forall in Hruns. apply Hruns.
      now apply (Permutation_in g Hperm). }
    destruct (class_standings_index_shape min_top_veh plr_index lo lp g Hg')
      as (body & Hb & _).
    now exists (body ++ [-1]).
  - simpl. now exists first, rest, collection, blocks.
Qed.

(** What [create_class_position] returns for a field of [n >= 1]
    vehicles. *)
Lemma create_class_position_ok (c : calc) (api : snapshot) (n : Z) :
  1 <= n ->
  exists first rest,
    Py.sorted (leb_of vehicle_compare) (get_vehicle_class_data api n)
    = first :: rest
    /\ create_class_position c api n
       = Ok (Py.sorted (leb_of class_pos_compare)
               (position_loop
                  (session_best_laptime c (first :: rest) 3)
                  (veh_class first) 0 (inject_Z 99999) (-1) (first :: rest)),
             Py.sorted (leb_of place_index_compare)
               (map (fun v => (veh_place v, veh_index v))
                    (get_vehicle_class_data api n)),
             more_than_one_class
               (map veh_class (get_vehicle_class_data api n))).
Proof.
  intro Hn. unfold create_class_position.
  assert (Hraw : get_vehicle_class_data api n <> []).
  { unfold get_vehicle_class_data. rewrite (range_cons 0 n) by lia. discriminate. }
  destruct (get_vehicle_class_data api n) as [|v0 raw] eqn:Eraw; [congruence|].
  destruct (Py.sorted (leb_of vehicle_compare) (v0 :: raw))
    as [|first rest] eqn:Es.
  { exfalso. apply (perm_nonempty _ _ (sorted_perm (leb_of vehicle_compare) (v0 :: raw)) Hraw).
    exact Es. }
  exists first, rest. split; reflexivity.
Qed.

Lemma vehicle_data_index (api : snapshot) (n : Z) :
  map veh_index (get_vehicle_class_data api n) = Py.range 0 n.
Proof.
  unfold get_vehicle_class_data. rewrite map_map. simpl. apply map_id.
Qed.

Lemma vehicle_data_class (api : snapshot) (n : Z) (v : vehicle) :
  In v (get_vehicle_class_data api n) ->
  veh_class v = class_name api (veh_index v).
Proof.
  unfold get_vehicle_class_data. intro H. apply in_map_iff in H.
  destruct H as (i & <- & _). reflexivity.
Qed.

Lemma sorted_impl {A : Type} (R R' : A -> A -> Prop) (l : list A) :
  (forall a b, R a b -> R' a b) -> Sorted R l -> Sorted R' l.
Proof.
  intros H. induction 1 as [|a l Hs IH Hr]; constructor; [exact IH|].
  destruct Hr; constructor. now apply H.
Qed.

(** The key-sorted class position list is the list
    [create_position_in_class] produced, in its order. *)
Lemma key_sorted_positions (sb : Q) (first : vehicle) (rest : list vehicle)
    (raw : list vehicle) :
  Py.sorted (leb_of vehicle_compare) raw = first :: rest ->
  let positions :=
    position_loop sb (veh_class first) 0 (inject_Z 99999) (-1) (first :: rest) in
  Py.sorted (leb_of class_key_compare)
    (Py.sorted (leb_of class_pos_compare) positions)
  = positions.
Proof.
  intros Es positions.
  apply (sorted_of_strictly_sorted (leb_of class_key_compare)).
  - apply (leb_of_total _ class_key_order).
  - apply (leb_of_trans _ class_key_order).
  - apply Sorted_StronglySorted; [apply (lt_of_trans _ class_key_order)|].
    apply position_loop_key_sorted; [lia|].
    rewrite <- Es.
    apply (sorted_impl (Py.le_of (leb_of vehicle_compare))).
    + intros a b. apply vehicle_leb_class.
    + apply sorted_sorted. apply vehicle_leb_total.
  - apply sorted_perm.
Qed.

End Standings.

Section StandingsClaims.

Import Relative.

Lemma min_top_vehicles_range (x : Z) : 1 <= min_top_vehicles_in_class x <= 5.
Proof. unfold min_top_vehicles_in_class. lia. Qed.

Lemma in_concat_map {A B : Type} (f : A -> B) (gs : list (list A)) (y : B) :
  In y (map f (List.concat gs)) -> exists g, In g gs /\ In y (map f g).
Proof.
  intro H. apply in_map_iff in H. destruct H as (x & <- & Hx).
  apply in_concat in Hx. destruct Hx as (g & Hg & Hxg).
  exists g. split; [exact Hg | now apply in_map].
Qed.

Lemma sorted_indices (api : snapshot) (n i : Z) :
  In i (map veh_index
          (Py.sorted (leb_of vehicle_compare) (get_vehicle_class_data api n)))
  <-> 0 <= i < n.
Proof.
  rewrite <- in_range, <- (vehicle_data_index api). split; intro H.
  - apply (Permutation_in i (Permutation_map veh_index (sorted_perm _ _)) H).
  - apply (Permutation_in i
             (Permutation_sym (Permutation_map veh_index (sorted_perm _ _))) H).
Qed.

(** C4, as amended. The player's vehicle index is in the standings list
    [update_data] produces, in class-split mode and in single-class mode,
    for every setting of the limits, whenever the field has at most the
    128 places of [ALL_PLACES], the player's index is one of the field
    and, in single-class mode, the places reported are a ranking of the
    field with the player's place the one reported for the player's
    index. *)
Theorem player_in_standings (c : calc) (cfg : settings) (api : snapshot) :
  let n := Z.max (total_vehicles api) 1 in
  n <= 128 ->
  0 <= player_index api < n ->
  (split_mode cfg api = false ->
   ranked api n /\ player_place api = place api (player_index api)) ->
  exists l, standings c cfg api = Ok l /\ In (player_index api) l.
Proof.
  intros n Hn Hplr Hsingle.
  assert (Hn1 : 1 <= n) by (unfold n; lia).
  unfold standings. fold n.
  destruct (create_class_position_ok c api n Hn1) as (first & rest & Es & ->).
  cbn [bind].
  set (mt := min_top_vehicles_in_class (min_top_vehicles cfg)).
  assert (Hmt := min_top_vehicles_range (min_top_vehicles cfg)). fold mt in Hmt.
  unfold max_vehicle_limit_set, max_vehicles_in_class.
  set (sb := session_best_laptime c (first :: rest) 3).
  set (positions := position_loop sb (veh_class first) 0 (inject_Z 99999) (-1)
                      (first :: rest)).
  unfold split_mode in Hsingle. fold n in Hsingle.
  destruct (enable_multi_class_split_mode cfg
            && more_than_one_class (map veh_class (get_vehicle_class_data api n)))
    eqn:Emode.
  - set (la := Z.max (max_vehicles_combined_mode cfg) (mt + 2)).
    set (lo := Z.max (max_vehicles_per_split_others cfg) (mt + 0)).
    set (lp := Z.max (max_vehicles_per_split_player cfg) (mt + 2)).
    assert (Hpos : positions <> []) by (unfold positions; simpl; discriminate).
    assert (Hcpl : Py.sorted (leb_of class_pos_compare) positions <> []).
    { apply (perm_nonempty _ _ (sorted_perm (leb_of class_pos_compare) positions)
               Hpos). }
    destruct (split_standings_shape mt la lo lp n (player_index api)
                (player_place api) _
                (Py.sorted (leb_of place_index_compare)
                   (map (fun v => (veh_place v, veh_index v))
                        (get_vehicle_class_data api n))) Hcpl)
      as (first' & rest' & collection & blocks & Ekey & Hperm & Hblocks & ->).
    assert (Ek := key_sorted_positions sb first rest _ Es). cbv zeta in Ek.
    fold positions in Ek. rewrite Ek in Ekey.
    assert (Eclass : cp_class first' = veh_class first).
    { unfold positions in Ekey. simpl in Ekey. injection Ekey as <- _.
      reflexivity. }
    rewrite Eclass, <- Ekey in Hperm.
    assert (Hnum : Forall numbered
                     (class_runs [] (veh_class first) positions)).
    { apply class_runs_numbered; reflexivity. }
    assert (Hin : In (player_index api) (map cp_index positions)).
    { unfold positions. rewrite position_loop_index, <- Es.
      now apply sorted_indices. }
    rewrite <- (app_nil_l positions) in Hin at 1.
    rewrite <- (class_runs_concat positions [] (veh_class first)) in Hin.
    destruct (in_concat_map _ _ _ Hin) as (g & Hg & Hplrg).
    assert (Hgc : In g collection).
    { now apply (Permutation_in g (Permutation_sym Hperm)). }
    destruct (forall2_in_l _ _ _ g Hblocks Hgc) as (block & Hblock & Eblock).
    destruct (class_standings_index_player mt (player_index api) lo lp g)
      as (block' & Eblock' & Hplrb).
    + rewrite Forall_forall in Hnum. now apply Hnum.
    + apply Z.le_trans with (len (List.concat
                                    (class_runs [] (veh_class first) positions))).
      * now apply in_concat_length.
      * rewrite class_runs_concat. simpl.
        unfold positions, len.
        rewrite <- (length_map cp_index), position_loop_index, <- Es.
        rewrite (Permutation_length
                   (Permutation_map veh_index (sorted_perm _ _))).
        rewrite vehicle_data_index. fold (len (Py.range 0 n)).
        rewrite len_range. lia.
    + exact Hplrg.
    + unfold lp. lia.
    + rewrite Eblock in Eblock'. injection Eblock' as <-.
      exists (List.concat blocks). split; [reflexivity|].
      apply in_concat. now exists block.
  - destruct (Hsingle eq_refl) as [Hrank Hplace].
    unfold create_standings_index.
    eexists. split; [reflexivity|].
    destruct (place_index_list_player api n (player_index api) Hrank Hplr)
      as (Hrange & Hlen & Hnth).
    rewrite Hplace.
    replace (player_index api)
      with (snd (nth (Z.to_nat (place api (player_index api) - 1))
                   (Py.sorted (leb_of place_index_compare)
                      (map (fun v => (veh_place v, veh_index v))
                           (get_vehicle_class_data api n))) (0, -1))) at 1
      by (now rewrite Hnth).
    apply calc_standings_index_has_player; lia.
Qed.

End StandingsClaims.

Section Sentinel.

Import Relative.

Lemma position_loop_member (sb : Q) (todo : list vehicle) :
  forall ic pos cb ah o,
  In o (position_loop sb ic pos cb ah todo) ->
  exists v, In v todo /\ cp_index o = veh_index v /\ cp_class o = veh_class v.
Proof.
  induction todo as [|v rest IH]; intros ic pos cb ah o H; simpl in H.
  - destruct H.
  - destruct H as [<- | H].
    + exists v. simpl. auto.
    + destruct (IH _ _ _ _ _ H) as (v' & Hv' & E).
      exists v'. split; [now right | exact E].
Qed.

Lemma class_runs_uniform (todo : list class_pos) :
  forall cur cn,
  (forall x, In x cur -> cp_class x = cn) ->
  Forall (fun g => exists cls, forall x, In x g -> cp_class x = cls)
         (class_runs cur cn todo).
Proof.
  induction todo as [|v rest IH]; intros cur cn H; simpl.
  - constructor; [now exists cn | constructor].
  - destruct (String.eqb (cp_class v) cn) eqn:E.
    + apply IH. intros x Hx. apply in_app_or in Hx.
      destruct Hx as [Hx | [<- | []]]; [now apply H|].
      now apply String.eqb_eq.
    + constructor; [now exists cn|].
      apply IH. intros x [<- | []]. reflexivity.
Qed.

Lemma class_runs_not_nil (todo : list class_pos) (cur : list class_pos) (cn : string) :
  class_runs cur cn todo <> [].
Proof.
  revert cur cn. induction todo as [|v rest IH]; intros cur cn; simpl.
  - discriminate.
  - destruct (String.eqb (cp_class v) cn); [apply IH | discriminate].
Qed.

Lemma last_flat_map_sentinel (blocks : list (list Z)) (d : Z) :
  blocks <> [] -> last (flat_map (fun block => block ++ [-1]) blocks) d = -1.
Proof.
  intro H. destruct (exists_last H) as (bs & b & ->).
  rewrite flat_map_app. simpl. rewrite app_nil_r, app_assoc.
  apply last_last.
Qed.

Lemma forall2_impl_in {A B : Type} (P Q : A -> B -> Prop)
    (l : list A) (bs : list B) :
  (forall a b, In a l -> P a b -> Q a b) -> Forall2 P l bs -> Forall2 Q l bs.
Proof.
  intros H F. induction F as [|a b l bs Hab _ IH]; constructor.
  - apply H; [now left | exact Hab].
  - apply IH. intros a' b' Ha'. apply H. now right.
Qed.

Lemma blocks_of_groups {A : Type} (Q : A -> list Z -> Prop)
    (collection : list A) (outs : list (list Z)) :
  Forall2 (fun g out => exists body, out = body ++ [-1] /\ Q g body)
          collection outs ->
  exists bodies,
    List.concat outs = flat_map (fun block => block ++ [-1]) bodies
    /\ Forall2 Q collection bodies.
Proof.
  induction 1 as [|g out collection outs (body & -> & Hq) _ IH].
  - exists []. split; [reflexivity | constructor].
  - destruct IH as (bodies & E & Hb).
    exists (body :: bodies). simpl. rewrite E. split; [reflexivity|].
    now constructor.
Qed.

(** C9. [update_data] always produces a standings list; it is a non-empty
    sequence of blocks of vehicle indices of the field, each followed by
    the sentinel -1, so it is not empty and ends with -1.  In single-class
    mode there is one block, hence one -1, the trailing one; in
    class-split mode there is a block per class group, each listing
    vehicles of one class. *)
Theorem standings_end_with_sentinel (c : calc) (cfg : settings) (api : snapshot) :
  exists blocks,
    standings c cfg api = Ok (flat_map (fun block => block ++ [-1]) blocks)
    /\ blocks <> []
    /\ flat_map (fun block => block ++ [-1]) blocks <> []
    /\ last (flat_map (fun block => block ++ [-1]) blocks) 0 = -1
    /\ (forall block i, In block blocks -> In i block ->
          0 <= i < Z.max (total_vehicles api) 1)
    /\ (split_mode cfg api = false -> List.length blocks = 1%nat)
    /\ (split_mode cfg api = true ->
        forall block, In block blocks ->
          exists cls, forall i, In i block -> class_name api i = cls).
Proof.
  set (n := Z.max (total_vehicles api) 1).
  assert (Hn1 : 1 <= n) by (unfold n; lia).
  assert (Hgoal : exists blocks,
    standings c cfg api = Ok (flat_map (fun block => block ++ [-1]) blocks)
    /\ blocks <> []
    /\ (forall block i, In block blocks -> In i block -> 0 <= i < n)
    /\ (split_mode cfg api = false -> List.length blocks = 1%nat)
    /\ (split_mode cfg api = true ->
        forall block, In block blocks ->
          exists cls, forall i, In i block -> class_name api i = cls)).
  2:{ destruct Hgoal as (blocks & E & Hne & Hi & H1 & Hc).
      exists blocks.
      split; [exact E|]. split; [exact Hne|].
      split.
      { destruct blocks as [|b blocks]; [congruence|]. simpl.
        destruct b; discriminate. }
      split; [now apply last_flat_map_sentinel|].
      split; [exact Hi|]. split; [exact H1 | exact Hc]. }
  unfold standings, split_mode. fold n.
  destruct (create_class_position_ok c api n Hn1) as (first & rest & Es & ->).
  cbn [bind].
  set (mt := min_top_vehicles_in_class (min_top_vehicles cfg)).
  unfold max_vehicle_limit_set, max_vehicles_in_class.
  set (sb := session_best_laptime c (first :: rest) 3).
  set (positions := position_loop sb (veh_class first) 0 (inject_Z 99999) (-1)
                      (first :: rest)).
  set (pil := Py.sorted (leb_of place_index_compare)
                (map (fun v => (veh_place v, veh_index v))
                     (get_vehicle_class_data api n))).
  destruct (enable_multi_class_split_mode cfg
            && more_than_one_class (map veh_class (get_vehicle_class_data api n)))
    eqn:Emode.
  - set (la := Z.max (max_vehicles_combined_mode cfg) (mt + 2)).
    set (lo := Z.max (max_vehicles_per_split_others cfg) (mt + 0)).
    set (lp := Z.max (max_vehicles_per_split_player cfg) (mt + 2)).
    assert (Hpos : positions <> []) by (unfold positions; simpl; discriminate).
    set (cpl := Py.sorted (leb_of class_pos_compare) positions).
    assert (Hcpl : cpl <> []).
    { apply (perm_nonempty _ _ (sorted_perm (leb_of class_pos_compare) positions)
               Hpos). }
    destruct (split_standings_shape mt la lo lp n (player_index api)
                (player_place api) cpl pil Hcpl)
      as (first' & rest' & collection & outs & Ekey & Hperm & Houts & ->).
    set (runs := class_runs [] (cp_class first') (first' :: rest')) in *.
    assert (Hmember : forall o, In o (first' :: rest') ->
              0 <= cp_index o < n /\ cp_class o = class_name api (cp_index o)).
    { intros o Ho. rewrite <- Ekey in Ho.
      apply (Permutation_in o (sorted_perm _ _)) in Ho.
      apply (Permutation_in o (sorted_perm _ _)) in Ho.
      apply position_loop_member in Ho. destruct Ho as (v & Hv & -> & ->).
      rewrite <- Es in Hv.
      apply (Permutation_in v (sorted_perm _ _)) in Hv.
      split; [|now apply vehicle_data_class with (n := n)].
      apply in_range. rewrite <- (vehicle_data_index api). now apply in_map. }
    assert (Hrun : forall g, In g collection ->
              g <> []
              /\ (forall o, In o g -> In o (first' :: rest'))
              /\ exists cls, forall o, In o g -> cp_class o = cls).
    { intros g Hg. apply (Permutation_in g Hperm) in Hg. repeat split.
      - assert (Hne : Forall (fun g => g <> []) runs).
        { apply class_runs_nonempty. right. now exists first', rest'. }
        rewrite Forall_forall in Hne. now apply Hne.
      - intros o Ho.
        assert (Hc := class_runs_concat (first' :: rest') [] (cp_class first')).
        fold runs in Hc. rewrite app_nil_l in Hc. rewrite <- Hc.
        apply in_concat. now exists g.
      - assert (Hu := class_runs_uniform (first' :: rest') [] (cp_class first')).
        fold runs in Hu. rewrite Forall_forall in Hu. apply Hu; [|exact Hg].
        intros x []. }
    destruct (blocks_of_groups
                (fun g body => forall i, In i body -> In i (map cp_index g))
                collection outs) as (bodies & -> & Hbodies).
    { apply (forall2_impl_in
               (fun g block =>
                  class_standings_index mt (player_index api) lo lp g = Ok block));
        [|exact Houts].
      intros g out Hg Eout.
      destruct (class_standings_index_shape mt (player_index api) lo lp g)
        as (body & Ebody & Hbody); [now apply Hrun|].
      rewrite Eout in Ebody. injection Ebody as ->. now exists body. }
    assert (Hblock : forall block, In block bodies ->
              exists g, In g collection
                        /\ forall i, In i block ->
                             exists o, In o g /\ cp_index o = i).
    { intros block Hb.
      destruct (forall2_in_r _ _ _ block Hbodies Hb) as (g & Hg & Hsub).
      exists g. split; [exact Hg|]. intros i Hi.
      specialize (Hsub i Hi). apply in_map_iff in Hsub.
      destruct Hsub as (o & Eo & Ho). now exists o. }
    exists bodies. split; [reflexivity|]. split.
    { intros ->. apply Forall2_length in Hbodies.
      apply Permutation_length in Hperm. simpl in Hbodies.
      assert (Hnil := class_runs_not_nil (first' :: rest') [] (cp_class first')).
      fold runs in Hnil. destruct runs; [congruence|].
      rewrite Hbodies in Hperm. discriminate. }
    split.
    { intros block i Hb Hi.
      destruct (Hblock block Hb) as (g & Hg & Hmem).
      destruct (Hmem i Hi) as (o & Ho & <-).
      apply Hmember. now apply (Hrun g Hg). }
    split; [discriminate|].
    intros _ block Hb.
    destruct (Hblock block Hb) as (g & Hg & Hmem).
    destruct (Hrun g Hg) as (_ & Hin & cls & Hcls).
    exists cls. intros i Hi.
    destruct (Hmem i Hi) as (o & Ho & <-).
    rewrite <- (Hcls o Ho). symmetry. now apply Hmember, Hin.
  - unfold create_standings_index, calc_standings_index.
    match goal with
    | |- context [player_index_from_place_reference ?r ?p] =>
        destruct (place_reference_shape r p) as (body & -> & Hb)
    end.
    exists [body]. simpl. rewrite app_nil_r.
    split; [reflexivity|]. split; [discriminate|].
    split.
    { intros block i [<- | []] Hi. specialize (Hb i Hi).
      unfold pil in Hb.
      apply (Permutation_in i (Permutation_map snd (sorted_perm _ _))) in Hb.
      rewrite map_map in Hb. simpl in Hb.
      fold (map veh_index (get_vehicle_class_data api n)) in Hb.
      rewrite vehicle_data_index in Hb. now apply in_range in Hb. }
    split; [reflexivity | discriminate].
Qed.

End Sentinel.

(** ** The relative list: claims *)

Section RelativeClaims.

Import Relative.

(** C3, as amended. For every setting of the additional slots, clamped by
    [max_relative_vehicles] to 0..60 each, and every non-empty list of
    relative distances, the list [create_relative_index] returns has
    length 7 + front + behind, and each of its entries is a vehicle index
    of the list or the sentinel -1. *)
Theorem relative_index_length (front behind plr_index : Z)
    (rel_dist_list : list (Q * Z)) :
  rel_dist_list <> [] ->
  let limits := max_relative_vehicles front behind 7 in
  let max_rel_veh := fst (fst limits) in
  let add_front := snd (fst limits) in
  let add_behind := snd limits in
  let rel_idx_list :=
    create_relative_index rel_dist_list plr_index max_rel_veh add_front
      add_behind in
  0 <= add_front <= 60 /\ 0 <= add_behind <= 60
  /\ len rel_idx_list = 7 + add_front + add_behind
  /\ forall i, In i rel_idx_list -> In i (map snd rel_dist_list) \/ i = -1.
Proof.
  intros Hne limits max_rel_veh add_front add_behind rel_idx_list.
  unfold limits, max_relative_vehicles in *. simpl in *.
  split; [lia|]. split; [lia|]. split.
  - unfold rel_idx_list, max_rel_veh, add_front, add_behind.
    apply create_relative_index_length; [exact Hne | lia | lia].
  - intros i Hi. unfold rel_idx_list in Hi.
    now apply create_relative_index_elements in Hi.
Qed.

End RelativeClaims.

(** C3, as stated, fails on an empty list: [create_relative_index] hands
    the empty list back, and [update_data] gets an empty list when the
    only vehicle is in the garage during a race. *)
Lemma relative_index_empty_field :
  Relative.create_relative_index [] 0 7 0 0 = []
  /\ Relative.len (Relative.create_relative_index [] 0 7 0 0) <> 7 + 0 + 0
  /\ Relative.relative Relative.spec_calc (Relative.small_settings false)
       Relative.garage_only = []
  /\ Relative.len
       (Relative.relative Relative.spec_calc (Relative.small_settings false)
          Relative.garage_only) <> 7.
Proof.
  split; [reflexivity|]. split; [vm_compute; discriminate|].
  split; [vm_compute; reflexivity | vm_compute; discriminate].
Qed.

Lemma relative_index_length_witness :
  let rel_dist_list :=
    Relative.sorted_reverse
      (Relative.get_relative_distance Relative.spec_calc Relative.six_cars 6
         false) in
  rel_dist_list <> []
  /\ Relative.create_relative_index rel_dist_list 4 8 1 0
     = [0; -1; -1; 5; 4; 3; 2; 1]
  /\ Relative.len (Relative.create_relative_index rel_dist_list 4 8 1 0)
     = 7 + 1 + 0.
Proof.
  intro rel_dist_list.
  assert (Hne : rel_dist_list <> []) by (vm_compute; discriminate).
  split; [exact Hne|]. split; [vm_compute; reflexivity|].
  exact (proj1 (proj2 (proj2
           (relative_index_length 1 (-5) 4 rel_dist_list Hne)))).
Defined.

(** ** The standings list: witness and examples *)

Lemma player_in_standings_witness :
  Z.max (Relative.total_vehicles Relative.six_cars) 1 <= 128
  /\ 0 <= Relative.player_index Relative.six_cars
       < Z.max (Relative.total_vehicles Relative.six_cars) 1
  /\ Relative.ranked Relative.six_cars 6
  /\ exists l,
       Relative.standings Relative.spec_calc (Relative.small_settings false)
         Relative.six_cars = Ok l
       /\ In 4 l.
Proof.
  assert (H1 : Z.max (Relative.total_vehicles Relative.six_cars) 1 <= 128)
    by (vm_compute; discriminate).
  assert (H2 : 0 <= Relative.player_index Relative.six_cars
               < Z.max (Relative.total_vehicles Relative.six_cars) 1)
    by (vm_compute; split; [discriminate | reflexivity]).
  assert (H3 : Relative.ranked Relative.six_cars 6).
  { intros k Hk.
    assert (Hcase : k = 1 \/ k = 2 \/ k = 3 \/ k = 4 \/ k = 5 \/ k = 6) by lia.
    destruct Hcase as [-> | [-> | [-> | [-> | [-> | ->]]]]].
    - exists 1. split; [lia | reflexivity].
    - exists 3. split; [lia | reflexivity].
    - exists 0. split; [lia | reflexivity].
    - exists 2. split; [lia | reflexivity].
    - exists 5. split; [lia | reflexivity].
    - exists 4. split; [lia | reflexivity]. }
  split; [exact H1|]. split; [exact H2|]. split; [exact H3|].
  apply (player_in_standings Relative.spec_calc (Relative.small_settings false)
           Relative.six_cars H1 H2).
  intros _. split; [exact H3 | reflexivity].
Defined.

(** C4, as stated, fails. When the places reported are no ranking, here
    five vehicles that all report place 1, the place list is indexed past
    the player: the standings show the vehicles 0 to 3 and not the
    player's, vehicle 4. And [ALL_PLACES] ends at place 128: in a field of
    130 vehicles ranked 1 to 130 the player in place 129 is left out. *)
Lemma player_missing_from_standings :
  (Relative.standings Relative.spec_calc (Relative.small_settings false)
     Relative.tied_cars = Ok [0; 1; 2; 3; -1]
   /\ Relative.player_index Relative.tied_cars = 4
   /\ Z.max (Relative.total_vehicles Relative.tied_cars) 1 = 5
   /\ Relative.player_place Relative.tied_cars
      = Relative.place Relative.tied_cars 4
   /\ ~ In (Relative.player_index Relative.tied_cars) [0; 1; 2; 3; -1])
  /\ (Relative.standings Relative.spec_calc (Relative.small_settings false)
        Relative.crowded_field = Ok [0; 127; -1]
      /\ Relative.player_index Relative.crowded_field = 128
      /\ Z.max (Relative.total_vehicles Relative.crowded_field) 1 = 130
      /\ Relative.player_place Relative.crowded_field = 129
      /\ (forall i, 0 <= i < 130 ->
            Relative.place Relative.crowded_field i = i + 1)
      /\ ~ In (Relative.player_index Relative.crowded_field) [0; 127; -1]).
Proof.
  split.
  - split; [vm_compute; reflexivity|].
    repeat split.
    intros [H | [H | [H | [H | [H | []]]]]]; vm_compute in H; discriminate.
  - split; [vm_compute; reflexivity|].
    split; [reflexivity|]. split; [reflexivity|]. split; [reflexivity|].
    split.
    + intros i Hi. unfold Relative.crowded_field, Relative.field, Relative.place.
      replace i with (Z.of_nat (Z.to_nat i)) at 2 by lia.
      assert (Hn : (Z.to_nat i < 130)%nat) by lia.
      revert Hn. generalize (Z.to_nat i). intros k Hk.
      do 130 (destruct k as [|k]; [reflexivity|]). lia.
    + intros [H | [H | [H | []]]]; vm_compute in H; discriminate.
Qed.

(** The two standings lists of the six-car field: the combined one shows
    the leader and the three places around the player; the class-split one
    shows each class, the faster class first. *)
Example six_cars_standings :
  Relative.standings Relative.spec_calc (Relative.small_settings false)
    Relative.six_cars = Ok [1; 2; 5; 4; -1]
  /\ Relative.standings Relative.spec_calc (Relative.small_settings true)
       Relative.six_cars = Ok [0; 5; 4; -1; 1; 3; -1].
Proof. split; vm_compute; reflexivity. Qed.

(** ** The pit-count loop of the fuel calculator *)

Section PitLoop.

Import Calculator.

Variables (c : calc) (inp : inputs).

Local Abbreviation body := (loop_body c inp).
Local Abbreviation after := (Calculator.after c inp).
Local Abbreviation pit_loop := (Calculator.pit_loop c inp).

Lemma after_succ (j : nat) (s : loop_state) : after (S j) s = body (after j s).
Proof. reflexivity. Qed.

Lemma after_body (j : nat) (s : loop_state) : after j (body s) = after (S j) s.
Proof. unfold Calculator.after. now rewrite Nat.iter_succ_r. Qed.

Lemma loop_counts_body (s : loop_state) :
  loop_counts (body s)
  = if revert_fires (body s) then 1 else loop_counts s - 1.
Proof. reflexivity. Qed.

Lemma pit_loop_step (fuel : nat) (s : loop_state) :
  pit_loop (S fuel) s
  = if loop_counts s =? 0 then Some (s, O)
    else if stabilized (body s) then Some (body s, 1%nat)
         else match pit_loop fuel (body s) with
              | Some (final, n) => Some (final, S n)
              | None => None
              end.
Proof. reflexivity. Qed.

Lemma pit_loop_done (fuel : nat) (s : loop_state) :
  loop_counts s = 0 -> pit_loop fuel s = Some (s, O).
Proof. intro H. destruct fuel; simpl; now rewrite H. Qed.

(** The "one last loop" rule and the [break] exclude each other. *)
Lemma revert_not_stabilized (s : loop_state) :
  revert_fires s = true -> stabilized s = false.
Proof.
  unfold revert_fires, stabilized. intro H.
  apply andb_prop in H. destruct H as [Hlt _]. apply Qltb_lt in Hlt.
  apply Z.eqb_neq. intro E.
  assert (Hc := Qle_ceiling (estimate_pit_counts s)). rewrite <- E in Hc.
  exact (Qlt_not_le _ _ Hlt Hc).
Qed.

Lemma passes_step (fuel : nat) (s : loop_state) :
  loop_counts s <> 0 ->
  Calculator.passes c inp (S fuel) s
  = body s :: (if stabilized (body s) then []
               else Calculator.passes c inp fuel (body s)).
Proof.
  intro H. apply Z.eqb_neq in H. cbn [Calculator.passes]. now rewrite H.
Qed.

Lemma no_double_revert_tail (s : loop_state) (made : list loop_state) :
  no_double_revert (s :: made) = true -> no_double_revert made = true.
Proof.
  cbn [no_double_revert]. intro H. apply andb_prop in H. apply H.
Qed.

(** From a state whose counter stands at [n], with enough fuel: the loop
    ends within [n + 1] passes, within [n] when the rule never fires, and
    at the first pass that stabilizes if there is one before. *)
Lemma pit_loop_from (n : nat) :
  forall (fuel : nat) (s : loop_state),
  loop_counts s = Z.of_nat n ->
  (n + 1 <= fuel)%nat ->
  no_double_revert (Calculator.passes c inp fuel s) = true ->
  exists k,
    (k <= n + 1)%nat
    /\ (1 <= n -> 1 <= k)%nat
    /\ pit_loop fuel s = Some (after k s, k)
    /\ (forall j, (1 <= j < k)%nat -> stabilized (after j s) = false)
    /\ ((1 <= k)%nat ->
        stabilized (after k s) = true \/ loop_counts (after k s) = 0)
    /\ (never_reverts (Calculator.passes c inp fuel s) = true -> (k <= n)%nat).
Proof.
  induction n as [|n IH]; intros fuel s Hc Hfuel Hone.
  - exists O. split; [lia|]. split; [lia|]. split.
    { now apply pit_loop_done. }
    split; [intros j Hj; lia|]. split; [lia | intros _; lia].
  - destruct fuel as [|fuel]; [lia|].
    assert (Hnz0 : loop_counts s <> 0) by lia.
    assert (Hnz : (loop_counts s =? 0) = false) by (apply Z.eqb_neq; lia).
    rewrite (passes_step _ _ Hnz0) in Hone |- *.
    destruct (stabilized (body s)) eqn:Hstab.
    { exists 1%nat. split; [lia|]. split; [lia|]. split.
      { now rewrite pit_loop_step, Hnz, Hstab. }
      split; [intros j Hj; lia|].
      split; [intros _; now left | intros _; lia]. }
    destruct (revert_fires (body s)) eqn:Hrev.
    + (* one last loop *)
      assert (Hc1 : loop_counts (body s) = 1).
      { rewrite loop_counts_body. now rewrite Hrev. }
      assert (Hnz1 : loop_counts (body s) <> 0) by lia.
      destruct fuel as [|fuel]; [lia|].
      rewrite (passes_step _ _ Hnz1) in Hone |- *.
      assert (Hrev2 : revert_fires (after 2 s) = false).
      { cbn [no_double_revert] in Hone. rewrite Hrev in Hone.
        apply andb_prop in Hone. destruct Hone as [Hone _].
        change (body (body s)) with (after 2 s) in Hone.
        destruct (revert_fires (after 2 s)); [discriminate | reflexivity]. }
      assert (Hc2 : loop_counts (after 2 s) = 0).
      { change (after 2 s) with (body (body s)) in *.
        rewrite loop_counts_body, Hrev2, Hc1. reflexivity. }
      exists 2%nat. split; [lia|]. split; [lia|]. split.
      { rewrite pit_loop_step, Hnz, Hstab.
        assert (Hnz1' : (loop_counts (body s) =? 0) = false)
          by (apply Z.eqb_neq; lia).
        rewrite pit_loop_step, Hnz1'.
        change (body (body s)) with (after 2 s).
        destruct (stabilized (after 2 s)); [reflexivity|].
        now rewrite (pit_loop_done fuel _ Hc2). }
      split.
      { intros j Hj. assert (j = 1%nat) by lia. subst j. exact Hstab. }
      split; [intros _; now right|].
      intro Hnever. cbn [never_reverts forallb] in Hnever.
      rewrite Hrev in Hnever. discriminate.
    + assert (Hc1 : loop_counts (body s) = Z.of_nat n).
      { rewrite loop_counts_body, Hrev. lia. }
      destruct (IH fuel (body s) Hc1) as (k & Hk & Hk1 & Hloop & Hfirst & Hend & Hnev).
      { lia. }
      { exact (no_double_revert_tail _ _ Hone). }
      exists (S k). split; [lia|]. split; [lia|].
      split.
      { rewrite pit_loop_step, Hnz, Hstab, Hloop. now rewrite after_body. }
      split.
      { intros j Hj. destruct j as [|j]; [lia|].
        destruct j as [|j]; [exact Hstab|].
        rewrite <- after_body. apply Hfirst. lia. }
      split.
      { intros _. destruct k as [|k].
        - right. simpl. destruct n; [exact Hc1 | lia].
        - rewrite <- after_body. apply Hend. lia. }
      intro Hnever. cbn [never_reverts forallb] in Hnever.
      apply andb_prop in Hnever. destruct Hnever as [_ Hnever].
      assert (k <= n)%nat; [|lia]. now apply Hnev.
Qed.

(** X30. When the "one last loop" rule fires on no two passes in a row of
    those the loop makes, the loop of [run_calculation] ends within 11
    passes, whatever the helpers of [calculation.py] compute: at the first
    pass whose rounded-up estimate equals the minimum pit count of that
    pass, or when the counter reaches 0; within 10 passes when the rule
    does not fire at all. *)
Theorem pit_loop_bounded :
  no_double_revert (Calculator.passes c inp 11 (loop_init inp)) = true ->
  exists k,
    (1 <= k <= 11)%nat
    /\ pit_loop 11 (loop_init inp) = Some (after k (loop_init inp), k)
    /\ (forall j, (1 <= j < k)%nat ->
          stabilized (after j (loop_init inp)) = false)
    /\ (stabilized (after k (loop_init inp)) = true
        \/ loop_counts (after k (loop_init inp)) = 0)
    /\ (never_reverts (Calculator.passes c inp 11 (loop_init inp)) = true ->
        (k <= 10)%nat).
Proof.
  intro Hone.
  destruct (pit_loop_from 10 11 (loop_init inp) eq_refl (Nat.le_refl _) Hone)
    as (k & Hk & Hk1 & Hloop & Hfirst & Hend & Hnev).
  exists k. split; [lia|]. split; [exact Hloop|]. split; [exact Hfirst|].
  split; [apply Hend; lia | exact Hnev].
Qed.

(** In a lap-type race the formation laps are added to the race laps on
    every pass: after [k] passes the race counts the laps passed in plus
    [k] times the formation laps, whatever the helpers compute. *)
Lemma lap_type_laps_grow (k : nat) :
  (total_race_seconds inp == 0)%Q ->
  (total_race_laps (after k (loop_init inp))
   == race_laps inp + inject_Z (Z.of_nat k) * total_formation_laps inp)%Q.
Proof.
  intro H0. induction k as [|k IH].
  - cbn. ring.
  - rewrite after_succ.
    change (total_race_laps (body (after k (loop_init inp))))
      with (if negb (Qeq_bool (total_race_seconds inp) 0)
            then (total_formation_laps inp
                  + time_type_full_laps_remain c 0 (laptime inp)
                      (total_race_seconds inp
                       - inject_Z (Qceiling (estimate_pit_counts
                                               (after k (loop_init inp))))
                         * average_pit_seconds inp))%Q
            else (total_formation_laps inp
                  + total_race_laps (after k (loop_init inp)))%Q).
    apply Qeq_bool_iff in H0. rewrite H0. cbn [negb].
    rewrite IH, Nat2Z.inj_succ. unfold Z.succ. rewrite inject_Z_plus. ring.
Qed.

End PitLoop.

Section Runaway.

Import Calculator.
Local Open Scope Q_scope.

Ltac q_int :=
  unfold Qminus; unfold Qeq, Qplus, Qopp, Qmult, inject_Z;
  cbn [Qnum Qden]; lia.

Lemma Qfloor_half (n : Z) : Qfloor (inject_Z n + (1 # 2)) = n.
Proof.
  rewrite Qplus_comm, Qfloor_add_Z.
  change (Qfloor (1 # 2)) with 0%Z. lia.
Qed.

Lemma Qceiling_half (n : Z) : Qceiling (inject_Z n + (1 # 2)) = (n + 1)%Z.
Proof.
  unfold Qceiling.
  assert (E : - (inject_Z n + (1 # 2)) == (- (1 # 2)) + inject_Z (- n)).
  { rewrite inject_Z_opp. ring. }
  rewrite E, Qfloor_add_Z.
  change (Qfloor (- (1 # 2))) with (-1)%Z. lia.
Qed.

Lemma runaway_first :
  runaway 1 (loop_body spec_calc short_tank_race (loop_init short_tank_race)).
Proof.
  unfold runaway. split; [lia|]. split; [vm_compute; discriminate|].
  split; vm_compute; reflexivity.
Qed.

Lemma runaway_next (k : Z) (s : loop_state) :
  runaway k s ->
  runaway (k + 1) (loop_body spec_calc short_tank_race s)
  /\ stabilized (loop_body spec_calc short_tank_race s) = false.
Proof.
  intros (Hk & Hc & Hlaps & Hest).
  set (s' := loop_body spec_calc short_tank_race s).
  assert (Emin : minimum_pit_counts s' = (k + 1)%Z).
  { change (minimum_pit_counts s') with (Qceiling (estimate_pit_counts s)).
    rewrite Hest. apply Qceiling_half. }
  assert (Elaps : total_race_laps s' == inject_Z (3 + 2 * (k + 1))).
  { change (total_race_laps s') with (2 + total_race_laps s).
    rewrite Hlaps. q_int. }
  assert (Efull : total_need_full s' = inject_Z (25 + 10 * k)).
  { change (total_need_full s')
      with (inject_Z (Qceiling ((2 + total_race_laps s) * 5 - 0))).
    assert (E : (2 + total_race_laps s) * 5 - 0 == inject_Z (25 + 10 * k)).
    { rewrite Hlaps. q_int. }
    now rewrite E, Qceiling_Z. }
  assert (Ecurr : amount_curr s' = 10).
  { change (amount_curr s') with (Py.min (total_need_full s') 10).
    rewrite Efull. unfold Py.min.
    assert (H : Py.Qltb 10 (inject_Z (25 + 10 * k)) = true).
    { apply Qltb_lt. change 10 with (inject_Z 10). rewrite <- Zlt_Qlt. lia. }
    now rewrite H. }
  assert (Eest : estimate_pit_counts s' == inject_Z (k + 1) + (1 # 2)).
  { change (estimate_pit_counts s')
      with (end_stint_pit_counts spec_calc (total_need_full s' - 10)
              (10 - end_stint_fuel spec_calc (amount_curr s') 0 5)).
    rewrite Ecurr, Efull.
    change (end_stint_pit_counts spec_calc (inject_Z (25 + 10 * k) - 10)
              (10 - end_stint_fuel spec_calc 10 0 5))
      with ((inject_Z (25 + 10 * k) - 10)
            / (10 - end_stint_fuel spec_calc 10 0 5)).
    assert (E0 : 10 - end_stint_fuel spec_calc 10 0 5 == 10) by reflexivity.
    rewrite E0. unfold Qdiv. change (/ 10) with (1 # 10). q_int. }
  assert (Erev : revert_fires s' = true).
  { assert (Hf : Qfloor (estimate_pit_counts s') = (k + 1)%Z)
      by (rewrite Eest; apply Qfloor_half).
    assert (Hlt : Py.Qltb (inject_Z (minimum_pit_counts s'))
                    (estimate_pit_counts s') = true)
      by (apply Qltb_lt; rewrite Emin, Eest; lra).
    unfold revert_fires. now rewrite Hlt, Emin, Hf, Z.eqb_refl. }
  split.
  - split; [lia|]. split.
    + unfold s'. rewrite (loop_counts_body spec_calc short_tank_race s).
      fold s'. rewrite Erev. discriminate.
    + split; [exact Elaps | exact Eest].
  - assert (Hceil : Qceiling (estimate_pit_counts s') = (k + 1 + 1)%Z)
      by (rewrite Eest; apply Qceiling_half).
    unfold stabilized. rewrite Emin, Hceil. apply Z.eqb_neq. lia.
Qed.

Lemma runaway_forever (fuel : nat) :
  forall (k : Z) (s : loop_state),
  runaway k s -> pit_loop spec_calc short_tank_race fuel s = None.
Proof.
  induction fuel as [|fuel IH]; intros k s Hr.
  - destruct Hr as (_ & Hc & _). simpl.
    apply Z.eqb_neq in Hc. now rewrite Hc.
  - destruct (runaway_next k s Hr) as (Hnext & Hstab).
    rewrite pit_loop_step, Hstab, (IH _ _ Hnext).
    destruct Hr as (_ & Hc & _). apply Z.eqb_neq in Hc. now rewrite Hc.
Qed.

End Runaway.

(** C8 fails on the code. In a lap-type race the loop adds the formation
    laps to the race laps again on every pass (the time-type branch
    computes the laps anew from the inputs), for every choice of the
    helpers. With the pit count taken as the quotient, a 3-lap race after
    2 formation laps on a tank of two laps then keeps the loop running:
    the estimate stays half a stop above the minimum and the "one last
    loop" rule sets the counter back to 1 on every pass from the second
    on. The loop is still running after 10 passes, and after any number
    of passes. *)
Lemma pit_loop_runs_away :
  (forall (c : Calculator.calc) (inp : Calculator.inputs) (k : nat),
     (Calculator.total_race_seconds inp == 0)%Q ->
     (Calculator.total_race_laps
        (Calculator.after c inp k (Calculator.loop_init inp))
      == Calculator.race_laps inp
         + inject_Z (Z.of_nat k) * Calculator.total_formation_laps inp)%Q)
  /\ Calculator.pit_loop Calculator.spec_calc Calculator.short_tank_race 10
       (Calculator.loop_init Calculator.short_tank_race) = None
  /\ (forall fuel,
        Calculator.pit_loop Calculator.spec_calc Calculator.short_tank_race
          fuel (Calculator.loop_init Calculator.short_tank_race) = None)
  /\ map Calculator.loop_counts
       (Calculator.passes Calculator.spec_calc Calculator.short_tank_race 11
          (Calculator.loop_init Calculator.short_tank_race))
     = [9; 1; 1; 1; 1; 1; 1; 1; 1; 1; 1].
Proof.
  assert (H : forall fuel,
             Calculator.pit_loop Calculator.spec_calc
               Calculator.short_tank_race fuel
               (Calculator.loop_init Calculator.short_tank_race) = None).
  { intros [|fuel]; [reflexivity|].
    rewrite pit_loop_step.
    change (Calculator.loop_counts
              (Calculator.loop_init Calculator.short_tank_race) =? 0)%Z
      with false.
    assert (Hs : Calculator.stabilized
                   (Calculator.loop_body Calculator.spec_calc
                      Calculator.short_tank_race
                      (Calculator.loop_init Calculator.short_tank_race))
                 = false) by (vm_compute; reflexivity).
    rewrite Hs. now rewrite (runaway_forever fuel 1 _ runaway_first). }
  split; [intros c inp k; apply lap_type_laps_grow|].
  split; [apply H|]. split; [exact H | vm_compute; reflexivity].
Qed.

Lemma pit_loop_bounded_witness :
  Calculator.no_double_revert
    (Calculator.passes Calculator.spec_calc Calculator.long_formation_race 11
       (Calculator.loop_init Calculator.long_formation_race)) = true
  /\ exists k,
       (1 <= k <= 11)%nat
       /\ Calculator.pit_loop Calculator.spec_calc
            Calculator.long_formation_race 11
            (Calculator.loop_init Calculator.long_formation_race)
          = Some (Calculator.after Calculator.spec_calc
                    Calculator.long_formation_race k
                    (Calculator.loop_init Calculator.long_formation_race), k).
Proof.
  assert (H : Calculator.no_double_revert
                (Calculator.passes Calculator.spec_calc
                   Calculator.long_formation_race 11
                   (Calculator.loop_init Calculator.long_formation_race))
              = true)
    by (vm_compute; reflexivity).
  split; [exact H|].
  destruct (pit_loop_bounded Calculator.spec_calc
              Calculator.long_formation_race H)
    as (k & Hk & Hloop & _).
  exists k. split; [exact Hk | exact Hloop].
Defined.

(** The race after 18 formation laps ends at its second pass, on two
    stops. *)
Example long_formation_race_two_passes :
  option_map (fun r => (Calculator.minimum_pit_counts (fst r), snd r))
    (Calculator.pit_loop Calculator.spec_calc Calculator.long_formation_race
       11 (Calculator.loop_init Calculator.long_formation_race))
  = Some (1%Z, 2%nat).
Proof. vm_compute. reflexivity. Qed.

(** The hour race settles on two stops at the second pass. *)
Example hour_race_two_stops :
  option_map (fun r => (Calculator.minimum_pit_counts (fst r), snd r))
    (Calculator.pit_loop Calculator.spec_calc Calculator.hour_race 11
       (Calculator.loop_init Calculator.hour_race))
  = Some (2%Z, 2%nat).
Proof. vm_compute. reflexivity. Qed.

(** ** Persistence of the consumption curve *)

Section Persistence.

Import Fuel.
Local Open Scope Q_scope.

Variable float : string -> option Q.
Variable v : validator.
Variables (filepath combo extension : string).

Local Abbreviation path := (path_of filepath combo extension).
Local Abbreviation read_rows := (Fuel.read_rows float).
Local Abbreviation load_delta := (Fuel.load_delta float).

Lemma read_after_write (fs : store) (f : file) :
  write fs path f path = f.
Proof. unfold write. now rewrite String.eqb_refl. Qed.

Lemma index_map {A B : Type} (f : A -> B) (l : list A) (i : Z) :
  Py.index (map f l) i = option_map f (Py.index l i).
Proof.
  unfold Py.index. rewrite length_map.
  destruct (i <? 0)%Z; [destruct (i + Z.of_nat (List.length l) <? 0)%Z|];
    try reflexivity; apply nth_error_map.
Qed.

Lemma last_row_column_map {A B : Type} (f : A -> B) (rows : list (list A))
    (column : Z) (a : A) :
  last_row_column rows column = Ok a ->
  last_row_column (map (map f) rows) column = Ok (f a).
Proof.
  unfold last_row_column. rewrite index_map.
  destruct (Py.index rows (-1)) as [last_row|]; cbn [option_map];
    [|now intros].
  rewrite index_map.
  destruct (Py.index last_row column); cbn [option_map]; [|now intros].
  now intros [= ->].
Qed.

Lemma last_row_column_map_inv {A B : Type} (f : A -> B)
    (rows : list (list A)) (column : Z) (b : B) :
  last_row_column (map (map f) rows) column = Ok b ->
  exists a, last_row_column rows column = Ok a /\ b = f a.
Proof.
  unfold last_row_column. rewrite index_map.
  destruct (Py.index rows (-1)) as [last_row|]; cbn [option_map];
    [|now intros].
  rewrite index_map.
  destruct (Py.index last_row column) as [a|]; cbn [option_map];
    [|now intros].
  intros [= <-]. now exists a.
Qed.

Lemma last_row_column_numeric (rows : list row) (column : Z) (q : Q) :
  last_row_column rows column = Ok q ->
  last_row_column (numeric rows) column = Ok (Num q).
Proof. apply last_row_column_map. Qed.

Lemma written_numeric (rows : list row) :
  map (map written) (numeric rows) = map (map Number) rows.
Proof.
  unfold numeric. rewrite map_map. apply map_ext. intro r.
  now rewrite map_map.
Qed.

Lemma read_line_numbers (r : row) :
  read_line float (map Number r) = Ok (map Num r).
Proof.
  induction r as [|q r IH]; [reflexivity|].
  cbn [map read_line read_field bind]. now rewrite IH.
Qed.

Lemma read_lines_numbers (rows : list row) :
  read_lines float (map (map Number) rows) = Ok (numeric rows).
Proof.
  induction rows as [|r rows IH]; [reflexivity|].
  cbn [map read_lines]. rewrite read_line_numbers. cbn [bind].
  now rewrite IH.
Qed.

(** The reader raises nothing but [ValueError] on the lines of a file. *)
Lemma read_line_raises (line : list field) (e : exn) :
  read_line float line = Raise e -> e = ValueError.
Proof.
  induction line as [|f line IH]; [discriminate|].
  cbn [read_line]. destruct (read_field float f) as [c | e'] eqn:Ef; cbn [bind].
  - destruct (read_line float line) as [cs | e'']; cbn [bind];
      [discriminate|]. intros [= <-]. now apply IH.
  - intros [= <-]. destruct f as [q | s | s]; try discriminate.
    cbn [read_field] in Ef. destruct (String.eqb s EmptyString); [discriminate|].
    destruct (float s); [discriminate|]. now injection Ef as <-.
Qed.

Lemma read_lines_raises (lines : list (list field)) (e : exn) :
  read_lines float lines = Raise e -> e = ValueError.
Proof.
  induction lines as [|line lines IH]; [discriminate|].
  cbn [read_lines]. destruct (read_line float line) as [r | e'] eqn:El;
    cbn [bind].
  - destruct (read_lines float lines) as [rs | e'']; cbn [bind];
      [discriminate|]. intros [= <-]. now apply IH.
  - intros [= <-]. exact (read_line_raises _ _ El).
Qed.

(** An unquoted field that spells no number makes the reader raise. *)
Lemma read_line_bare (line : list field) (s : string) :
  In (Bare s) line -> s <> EmptyString -> float s = None ->
  read_line float line = Raise ValueError.
Proof.
  intros Hin Hs Hf.
  destruct (read_line float line) as [r | e] eqn:E.
  - exfalso. revert r E. induction line as [|f line IH]; [destruct Hin|].
    intros r. cbn [read_line].
    destruct (read_field float f) as [c | e'] eqn:Ef; cbn [bind]; [|discriminate].
    destruct (read_line float line) as [cs | e'']; cbn [bind];
      [|discriminate].
    intros _. destruct Hin as [-> | Hin]; [|now apply (IH Hin cs)].
    cbn [read_field] in Ef. apply String.eqb_neq in Hs. rewrite Hs, Hf in Ef.
    discriminate.
  - now rewrite (read_line_raises _ _ E).
Qed.

Lemma read_lines_bare (lines : list (list field)) (s : string) :
  In (Bare s) (List.concat lines) -> s <> EmptyString -> float s = None ->
  read_lines float lines = Raise ValueError.
Proof.
  intros Hin Hs Hf.
  destruct (read_lines float lines) as [rs | e] eqn:E.
  - exfalso. revert rs E. induction lines as [|line lines IH]; [destruct Hin|].
    intros rs. cbn [read_lines].
    destruct (read_line float line) as [r | e'] eqn:El; cbn [bind];
      [|discriminate].
    destruct (read_lines float lines) as [rs' | e'']; cbn [bind];
      [|discriminate].
    intros _. cbn [List.concat] in Hin. apply in_app_or in Hin.
    destruct Hin as [Hin | Hin]; [|now apply (IH Hin rs')].
    rewrite (read_line_bare _ _ Hin Hs Hf) in El. discriminate.
  - now rewrite (read_lines_raises _ _ E).
Qed.

Lemma save_delta_writes (dataset : list raw_row) (fs : store) :
  (10 <= Z.of_nat (List.length dataset))%Z ->
  fs path <> Denied ->
  save_delta dataset fs filepath combo extension
  = Ok (write fs path (Csv (map (map written) dataset))).
Proof.
  intros Hlen Hw. unfold save_delta.
  destruct (Z.leb_spec 10 (Z.of_nat (List.length dataset))); [|lia].
  destruct (fs path); try reflexivity. congruence.
Qed.

(** A file of numeric rows that the validator hands back as they are
    loads as these rows, and is left as it is. *)
Lemma load_numeric_rows (fs : store) (dataset : list row)
    (used laptime_of_lap : Q) :
  fs path = Rows dataset ->
  delta_list v (numeric dataset) = Ok (numeric dataset) ->
  last_row_column dataset 1 = Ok used ->
  last_row_column dataset 2 = Ok laptime_of_lap ->
  load_delta v fs filepath combo extension
  = Ok (fs, (numeric dataset, Num used, Num laptime_of_lap)).
Proof.
  intros Hf Hv H1 H2.
  unfold Fuel.load_delta, load_delta_try, Fuel.read_rows.
  rewrite Hf. unfold Rows. rewrite read_lines_numbers. cbn [bind].
  rewrite Hv. cbn [bind].
  rewrite (last_row_column_numeric _ _ _ H1),
          (last_row_column_numeric _ _ _ H2). cbn [bind].
  now rewrite Nat.eqb_refl.
Qed.

(** C6. A curve of at least 10 rows whose last row carries a used amount
    and a lap time, which the validator hands back as it is, saved to a
    file that can be written: [load_delta] on the same
    filepath/combo/extension returns the same sequence of rows, with
    [used_last] and [laptime_last] the columns 1 and 2 of the last row,
    and leaves the file as saved. *)
Theorem save_then_load (fs : store) (dataset : list row)
    (last_row : row) (used laptime_of_lap : Q) :
  (10 <= Z.of_nat (List.length dataset))%Z ->
  fs path <> Denied ->
  delta_list v (numeric dataset) = Ok (numeric dataset) ->
  Py.index dataset (-1) = Some last_row ->
  Py.index last_row 1 = Some used ->
  Py.index last_row 2 = Some laptime_of_lap ->
  exists fs',
    save_delta (numeric dataset) fs filepath combo extension = Ok fs'
    /\ fs' path = Rows dataset
    /\ load_delta v fs' filepath combo extension
       = Ok (fs', (numeric dataset, Num used, Num laptime_of_lap)).
Proof.
  intros Hlen Hw Hval Hlast Hused Hlap.
  exists (write fs path (Rows dataset)).
  assert (Hsave : save_delta (numeric dataset) fs filepath combo extension
                  = Ok (write fs path (Rows dataset))).
  { rewrite save_delta_writes; [|unfold numeric; now rewrite length_map
                                |exact Hw].
    now rewrite written_numeric. }
  split; [exact Hsave|].
  split; [apply read_after_write|].
  unfold row in *.
  apply load_numeric_rows; [apply read_after_write | exact Hval | |];
    unfold last_row_column; rewrite Hlast; [now rewrite Hused
                                           | now rewrite Hlap].
Qed.

(** [load_delta] lets no exception of the four caught classes out. *)
Lemma load_delta_raises_uncaught (fs : store) (e : exn) :
  load_delta v fs filepath combo extension = Raise e -> caught e = false.
Proof.
  unfold Fuel.load_delta.
  destruct (load_delta_try float v fs filepath combo extension) as [r | e'];
    [discriminate|].
  destruct (caught e') eqn:E; [discriminate|].
  now intros [= <-].
Qed.

Lemma last_row_column_raises {A : Type} (lastlist : list (list A))
    (column : Z) (e : exn) :
  last_row_column lastlist column = Raise e -> e = IndexError.
Proof.
  unfold last_row_column.
  destruct (Py.index lastlist (-1)) as [last_row|]; [|now intros [= <-]].
  destruct (Py.index last_row column); [discriminate | now intros [= <-]].
Qed.

(** A file that could be read can be written. *)
Lemma read_rows_not_denied (fs : store) (rows : list raw_row) :
  read_rows fs path = Ok rows -> fs path <> Denied.
Proof. unfold Fuel.read_rows. intros H E. rewrite E in H. discriminate. Qed.

(** C7, as amended. [load_delta] returns the default dataset, the single
    zero knot with [used_last = 0] and [laptime_last = 0], and leaves the
    store alone, when the file is missing, when its bytes are not UTF-8,
    when an unquoted field of it spells no number, when the validator
    raises one of the caught exceptions and when the validated list has
    no last row with a used amount and a lap time. A quoted field is no
    error: it is read as a string, and a list the validator hands back
    with as many rows as were read is returned as it is, with its last
    row's columns, strings among them. The only exceptions that leave [load_delta] are those outside
    [(FileNotFoundError, IndexError, ValueError, TypeError)]: the
    [PermissionError] of a file that cannot be opened and the [csv.Error]
    of content the reader rejects leave it. *)
Theorem load_delta_fallback (fs : store) :
  (fs path = Missing \/ fs path = Garbled ->
   load_delta v fs filepath combo extension
   = Ok (fs, (numeric DELTA_DEFAULT, Num 0, Num 0)))
  /\ (forall lines s,
        fs path = Csv lines ->
        In (Bare s) (List.concat lines) -> s <> EmptyString -> float s = None ->
        load_delta v fs filepath combo extension
        = Ok (fs, (numeric DELTA_DEFAULT, Num 0, Num 0)))
  /\ (forall rows e,
        read_rows fs path = Ok rows ->
        delta_list v rows = Raise e -> caught e = true ->
        load_delta v fs filepath combo extension
        = Ok (fs, (numeric DELTA_DEFAULT, Num 0, Num 0)))
  /\ (forall rows lastlist,
        read_rows fs path = Ok rows -> delta_list v rows = Ok lastlist ->
        last_row_column lastlist 1 = Raise IndexError
        \/ last_row_column lastlist 2 = Raise IndexError ->
        load_delta v fs filepath combo extension
        = Ok (fs, (numeric DELTA_DEFAULT, Num 0, Num 0)))
  /\ (forall rows lastlist used_last laptime_last,
        read_rows fs path = Ok rows -> delta_list v rows = Ok lastlist ->
        last_row_column lastlist 1 = Ok used_last ->
        last_row_column lastlist 2 = Ok laptime_last ->
        List.length lastlist = List.length rows ->
        load_delta v fs filepath combo extension
        = Ok (fs, (lastlist, used_last, laptime_last)))
  /\ (fs path = Denied ->
      load_delta v fs filepath combo extension = Raise PermissionError)
  /\ (fs path = Malformed ->
      load_delta v fs filepath combo extension = Raise CsvError)
  /\ (forall e,
        load_delta v fs filepath combo extension = Raise e ->
        caught e = false).
Proof.
  split; [|split; [|split; [|split; [|split; [|split; [|split]]]]]].
  - intros [H | H]; unfold Fuel.load_delta, load_delta_try, Fuel.read_rows;
      rewrite H; reflexivity.
  - intros lines s Hf Hin Hs Hfl.
    unfold Fuel.load_delta, load_delta_try, Fuel.read_rows. rewrite Hf.
    rewrite (read_lines_bare _ _ Hin Hs Hfl). reflexivity.
  - intros rows e Hf Hv Hc.
    unfold Fuel.load_delta, load_delta_try. rewrite Hf. cbn [bind].
    rewrite Hv. cbn [bind]. now rewrite Hc.
  - intros rows lastlist Hf Hv Hcol.
    unfold Fuel.load_delta, load_delta_try. rewrite Hf. cbn [bind].
    rewrite Hv. cbn [bind].
    destruct Hcol as [H | H].
    + rewrite H. reflexivity.
    + destruct (last_row_column lastlist 1) as [used | e] eqn:E1; cbn [bind].
      * rewrite H. reflexivity.
      * rewrite (last_row_column_raises _ _ _ E1). reflexivity.
  - intros rows lastlist used_last laptime_last Hf Hv H1 H2 Hl.
    unfold Fuel.load_delta, load_delta_try. rewrite Hf. cbn [bind].
    rewrite Hv. cbn [bind]. rewrite H1, H2. cbn [bind].
    now rewrite Hl, Nat.eqb_refl.
  - intro H. unfold Fuel.load_delta, load_delta_try, Fuel.read_rows.
    rewrite H. reflexivity.
  - intro H. unfold Fuel.load_delta, load_delta_try, Fuel.read_rows.
    rewrite H. reflexivity.
  - apply load_delta_raises_uncaught.
Qed.

End Persistence.

(** C7, as stated, fails. A permission error is not among the caught
    classes: it leaves [load_delta] and with it the start of [calc_data];
    so does the [csv.Error] of content the reader rejects. And content
    that is not numeric is not always an error: a line of three quoted
    fields is read as three strings, which [load_delta] returns as the
    list, the used amount and the lap time, not the default dataset. *)
Lemma load_delta_permission_error :
  (Fuel.load_delta Fuel.no_number Fuel.spec_validator Fuel.locked_store
     "deltabest/" "track - car" "fuel" = Raise PermissionError
   /\ Fuel.calc_data_start Fuel.no_number Fuel.spec_validator
        Fuel.locked_store "deltabest/" "track - car" "fuel"
      = Raise PermissionError
   /\ Fuel.caught PermissionError = false)
  /\ (Fuel.load_delta Fuel.no_number Fuel.spec_validator Fuel.malformed_store
        "deltabest/" "track - car" "fuel" = Raise CsvError
      /\ Fuel.caught CsvError = false)
  /\ Fuel.load_delta Fuel.no_number Fuel.spec_validator Fuel.quoted_store
       "deltabest/" "track - car" "fuel"
     = Ok (Fuel.quoted_store,
           ([[Fuel.Text "x"; Fuel.Text "y"; Fuel.Text "z"]],
            Fuel.Text "y", Fuel.Text "z")).
Proof. repeat split. Qed.

Lemma save_then_load_witness :
  (10 <= Z.of_nat (List.length Fuel.ten_rows))%Z
  /\ Fuel.empty_store (Fuel.path_of "deltabest/" "track - car" "fuel")
     <> Fuel.Denied
  /\ Fuel.delta_list Fuel.spec_validator (Fuel.numeric Fuel.ten_rows)
     = Ok (Fuel.numeric Fuel.ten_rows)
  /\ exists fs',
       Fuel.save_delta (Fuel.numeric Fuel.ten_rows) Fuel.empty_store
         "deltabest/" "track - car" "fuel" = Ok fs'
       /\ Fuel.load_delta Fuel.no_number Fuel.spec_validator fs'
            "deltabest/" "track - car" "fuel"
          = Ok (fs', (Fuel.numeric Fuel.ten_rows,
                      Fuel.Num (18 # 10)%Q, Fuel.Num 90%Q)).
Proof.
  assert (H1 : (10 <= Z.of_nat (List.length Fuel.ten_rows))%Z)
    by (vm_compute; discriminate).
  assert (H2 : Fuel.empty_store (Fuel.path_of "deltabest/" "track - car" "fuel")
               <> Fuel.Denied) by discriminate.
  assert (H3 : Fuel.delta_list Fuel.spec_validator (Fuel.numeric Fuel.ten_rows)
               = Ok (Fuel.numeric Fuel.ten_rows)) by reflexivity.
  split; [exact H1|]. split; [exact H2|]. split; [exact H3|].
  destruct (save_then_load Fuel.no_number Fuel.spec_validator "deltabest/"
              "track - car" "fuel" Fuel.empty_store Fuel.ten_rows
              [810; 18 # 10; 90]%Q (18 # 10)%Q 90%Q H1 H2 H3
              eq_refl eq_refl eq_refl) as (fs' & Hs & _ & Hl).
  exists fs'. split; [exact Hs | exact Hl].
Defined.

(** A file of fewer than 10 rows is not written, and the load that
    follows finds no file and returns the default dataset. *)
Example short_curve_is_not_saved :
  Fuel.save_delta (Fuel.numeric (firstn 9 Fuel.ten_rows)) Fuel.empty_store
    "deltabest/" "track - car" "fuel" = Ok Fuel.empty_store
  /\ Fuel.load_delta Fuel.no_number Fuel.spec_validator Fuel.empty_store
       "deltabest/" "track - car" "fuel"
     = Ok (Fuel.empty_store,
           (Fuel.numeric Fuel.DELTA_DEFAULT, Fuel.Num 0%Q, Fuel.Num 0%Q)).
Proof. split; reflexivity. Qed.

(** ** The fuel module: laps that are not recorded, gauge bookkeeping *)

Section FuelLaps.

Import Fuel.
Local Open Scope Q_scope.

Variable telemetry_func : telemetry -> Q * Q.

Local Abbreviation tick := (Fuel.tick telemetry_func).
Local Abbreviation run := (Fuel.run telemetry_func).
Local Abbreviation no_boundary := (Fuel.no_boundary telemetry_func).
Local Abbreviation reading t := (snd (telemetry_func t)).

Lemma pit_lap_tick_within (s : state) (t : telemetry) :
  lap_boundary s t = false -> pit_lap (tick s t) = pit_lap s || in_pits t.
Proof.
  intro H. unfold Fuel.tick. cbn [pit_lap]. rewrite H. reflexivity.
Qed.

Lemma pit_lap_run (s : state) (sents : list (option telemetry)) :
  no_boundary s sents = true ->
  (pit_lap (run s sents) = true <->
   pit_lap s = true \/ (exists t, In (Some t) sents /\ in_pits t = true)).
Proof.
  revert s. induction sents as [|[t|] sents IH]; intros s Hnb.
  - split; [now left | intros [H | (t & [] & _)]; exact H].
  - cbn in Hnb. apply andb_prop in Hnb. destruct Hnb as [Hb Hrest].
    apply negb_true_iff in Hb.
    change (run s (Some t :: sents)) with (run (tick s t) sents).
    rewrite (IH _ Hrest), (pit_lap_tick_within _ _ Hb). split.
    + intros [H | (t' & Hin & Hp)].
      * apply orb_prop in H. destruct H as [H | H]; [now left|].
        right. exists t. split; [now left | exact H].
      * right. exists t'. split; [now right | exact Hp].
    + intros [H | (t' & [Hin | Hin] & Hp)].
      * left. now rewrite H.
      * injection Hin as ->. left. rewrite Hp. apply orb_true_r.
      * right. now exists t'.
  - change (run s (None :: sents)) with (run s sents).
    rewrite (IH _ Hnb). split.
    + intros [H | (t' & Hin & Hp)]; [now left|].
      right. exists t'. split; [now right | exact Hp].
    + intros [H | (t' & [Hin | Hin] & Hp)]; [now left | discriminate |].
      right. now exists t'.
Qed.

(** X1. After the tick that starts a lap, the lap counts as a pit lap
    exactly when the car is in the pits at a later tick, up to and
    including the tick that ends the lap: the reading of the starting tick
    itself is cleared at the boundary ([pit_lap = 0]) and does not count.
    A pit lap leaves no curve: the tick that ends it does not complete a
    lap, so the pending curve and the reference curve after it are those
    of earlier laps, and the window mark is not set by it. *)
Theorem pit_lap_is_not_stored (before : state) (t_start : telemetry)
    (sents : list (option telemetry)) (t_end : telemetry) :
  let s := run (tick before t_start) sents in
  lap_boundary before t_start = true ->
  no_boundary (tick before t_start) sents = true ->
  (pit_lap_read s t_end = true <->
   in_pits t_end = true \/ (exists t, In (Some t) sents /\ in_pits t = true))
  /\ (pit_lap_read s t_end = true ->
      lap_completed s t_end = false
      /\ (delta_list_temp (tick s t_end) = delta_list_temp s
          \/ delta_list_temp (tick s t_end) = DELTA_DEFAULT)
      /\ (delta_list_last (tick s t_end) = delta_list_last s
          \/ delta_list_last (tick s t_end) = delta_list_temp s)
      /\ (validating (tick s t_end) = validating s
          \/ validating (tick s t_end) = 0)).
Proof.
  intros s Hb Hnb.
  assert (H0 : pit_lap (tick before t_start) = false).
  { unfold Fuel.tick. cbn [pit_lap]. now rewrite Hb. }
  split.
  - unfold pit_lap_read. rewrite orb_true_iff.
    unfold s. rewrite (pit_lap_run _ _ Hnb), H0. split.
    + intros [[H | H] | H]; [discriminate | now right | now left].
    + intros [H | H]; [now right | left; now right].
  - intro Hp.
    assert (Hc : lap_completed s t_end = false).
    { unfold lap_completed. rewrite Hp. cbn. now rewrite andb_false_r. }
    split; [exact Hc|].
    unfold Fuel.tick. cbn [delta_list_temp delta_list_last validating].
    rewrite Hc.
    repeat match goal with
           | |- context [if ?b then _ else _] => destruct b
           end; auto.
Qed.

Lemma joining_lap_tick (s : state) (t : telemetry) :
  recording s = false -> delta_list_curr s = [DELTA_ZERO] ->
  lap_completed s t = false
  /\ (lap_boundary s t = false ->
      recording (tick s t) = false /\ delta_list_curr (tick s t) = [DELTA_ZERO]).
Proof.
  intros Hr Hc. split.
  - unfold lap_completed. rewrite Hc. cbn. now rewrite andb_false_r.
  - intro Hb. unfold Fuel.tick. cbn [recording delta_list_curr].
    rewrite Hb, Hr, Hc. rewrite andb_false_r. cbn. now split.
Qed.

(** X2. The lap the car is in when the generator starts leaves no curve:
    nothing is recorded before the first lap boundary, so that the tick
    that ends this lap does not complete a lap, whatever was sent
    before. *)
Theorem joining_lap_is_not_stored (loaded_list : list row) (loaded_used : Q)
    (sents : list (option telemetry)) (t_end : telemetry) :
  no_boundary (init_state loaded_list loaded_used) sents = true ->
  delta_list_curr (run (init_state loaded_list loaded_used) sents) = [DELTA_ZERO]
  /\ lap_completed (run (init_state loaded_list loaded_used) sents) t_end = false
  /\ delta_list_last (run (init_state loaded_list loaded_used) sents)
     = loaded_list.
Proof.
  assert (Hgen : forall s,
    recording s = false -> delta_list_curr s = [DELTA_ZERO] ->
    validating s == 0 ->
    no_boundary s sents = true ->
    recording (run s sents) = false
    /\ delta_list_curr (run s sents) = [DELTA_ZERO]
    /\ delta_list_last (run s sents) = delta_list_last s).
  { induction sents as [|[t|] l IH]; intros s Hr Hc Hv Hnb.
    - now repeat split.
    - cbn in Hnb. apply andb_prop in Hnb. destruct Hnb as [Hb Hrest].
      apply negb_true_iff in Hb.
      change (run s (Some t :: l)) with (run (tick s t) l).
      destruct (joining_lap_tick s t Hr Hc) as [Hcomp Hkeep].
      destruct (Hkeep Hb) as [Hr' Hc'].
      assert (Hv0 : Qeq_bool (validating s) 0 = true) by now apply Qeq_bool_iff.
      assert (Hlast : delta_list_last (tick s t) = delta_list_last s
                      /\ validating (tick s t) == 0).
      { unfold Fuel.tick. cbn [delta_list_last validating].
        rewrite Hcomp, Hv0. cbn. now split. }
      destruct Hlast as [Hl Hv'].
      destruct (IH (tick s t) Hr' Hc' Hv' Hrest) as (H1 & H2 & H3).
      repeat split; try assumption. now rewrite H3.
    - change (run s (None :: l)) with (run s l). now apply IH. }
  intro Hnb.
  destruct (Hgen (init_state loaded_list loaded_used)) as (H1 & H2 & H3);
    try reflexivity; try exact Hnb.
  split; [exact H2|]. split; [|exact H3].
  now apply joining_lap_tick.
Qed.

(** What a tick does to the gauge variables. *)
Lemma gauge_tick (s : state) (t : telemetry) :
  amount_last s <= amount_start s -> 0 <= used_curr s ->
  amount_last (tick s t) <= amount_start (tick s t)
  /\ 0 <= used_curr (tick s t).
Proof.
  intros H1 H2. unfold Fuel.tick, used_consumed.
  cbn [amount_last amount_start used_curr].
  destruct (Py.Qltb (amount_last s) (reading t)) eqn:E1.
  - split; [apply Qle_refl|]. destruct (lap_boundary s t); [apply Qle_refl | exact H2].
  - destruct (Py.Qltb (reading t) (amount_last s)) eqn:E2.
    + apply Qltb_lt in E2. split; [lra|].
      destruct (lap_boundary s t); [apply Qle_refl | lra].
    + split; [exact H1|]. destruct (lap_boundary s t); [apply Qle_refl | exact H2].
Qed.

(** X3. Gauge bookkeeping along any run from the initial state: the last
    reading never exceeds the reading of the last refuel, the amount used
    in the current lap is never negative, and after an updating tick the
    last reading is the reading of that tick. *)
Theorem gauge_bookkeeping (loaded_list : list row) (loaded_used : Q)
    (sents : list (option telemetry)) :
  amount_last (run (init_state loaded_list loaded_used) sents)
  <= amount_start (run (init_state loaded_list loaded_used) sents)
  /\ 0 <= used_curr (run (init_state loaded_list loaded_used) sents)
  /\ (forall pre t, sents = pre ++ [Some t] ->
        amount_last (run (init_state loaded_list loaded_used) sents)
        == reading t).
Proof.
  assert (Hinv : forall s, amount_last s <= amount_start s -> 0 <= used_curr s ->
                 amount_last (run s sents) <= amount_start (run s sents)
                 /\ 0 <= used_curr (run s sents)).
  { induction sents as [|[t|] l IH]; intros s H1 H2.
    - now split.
    - change (run s (Some t :: l)) with (run (tick s t) l).
      destruct (gauge_tick s t H1 H2). now apply IH.
    - change (run s (None :: l)) with (run s l). now apply IH. }
  destruct (Hinv (init_state loaded_list loaded_used)) as [H1 H2];
    [apply Qle_refl | apply Qle_refl |].
  split; [exact H1|]. split; [exact H2|].
  intros pre t ->. rewrite (run_app telemetry_func). cbn.
  apply amount_last_tick.
Qed.

End FuelLaps.

(** ** The fuel module: shape of the stored curves, restart, history *)

Section CurveShape.

Import Fuel FuelRealtime.
Local Open Scope Q_scope.

Variable telemetry_func : telemetry -> Q * Q.

Local Abbreviation tick := (Fuel.tick telemetry_func).
Local Abbreviation run := (Fuel.run telemetry_func).

Variable loaded_list : list row.

Local Abbreviation shaped := (curves_shaped loaded_list).

Lemma init_curves_shaped (loaded_used : Q) :
  shaped (init_state loaded_list loaded_used).
Proof.
  unfold curves_shaped. cbn. repeat split.
  - exists []. split; [reflexivity | constructor].
  - left. reflexivity.
  - now left.
  - discriminate.
Qed.

Lemma completed_curve (s : state) (t : telemetry) (samples : list row) :
  delta_list_curr s = DELTA_ZERO :: samples ->
  Forall (fun r => List.length r = 2%nat) samples ->
  lap_completed s t = true ->
  complete_curve (delta_list_curr s ++ [end_row telemetry_func s t]).
Proof.
  intros Hc Hs Hl. exists samples, (end_row telemetry_func s t).
  rewrite Hc. repeat split; auto.
  unfold lap_completed in Hl. rewrite Hc in Hl.
  apply andb_prop in Hl. destruct Hl as [Hl _].
  apply andb_prop in Hl. destruct Hl as [_ Hl].
  intros ->. discriminate.
Qed.

Lemma tick_curves_shaped (s : state) (t : telemetry) :
  shaped s -> shaped (tick s t).
Proof.
  intros ((samples & Hc & Hs) & Hv & Hl & Hd).
  assert (Htemp2 :
    (if lap_completed s t then elapsed_at_boundary t else validating s) == 0
    \/ complete_curve (if lap_completed s t
                       then delta_list_curr s ++ [end_row telemetry_func s t]
                       else delta_list_temp s)).
  { destruct (lap_completed s t) eqn:E.
    - right. now apply (completed_curve s t samples).
    - exact Hv. }
  unfold curves_shaped, Fuel.tick.
  cbn [delta_list_curr validating delta_list_temp delta_list_last delayed_save].
  set (validating2 := if lap_completed s t then elapsed_at_boundary t
                      else validating s) in *.
  set (temp2 := if lap_completed s t
                then delta_list_curr s ++ [end_row telemetry_func s t]
                else delta_list_temp s) in *.
  set (accept := (negb (Qeq_bool validating2 0)
                  && Py.Qltb (3 # 10) (elapsed_at_check t - validating2)
                  && Qle_bool (elapsed_at_check t - validating2) 3
                  && Py.Qltb 0 (last_laptime t))%bool).
  assert (Hacc : accept = true -> complete_curve temp2).
  { unfold accept. intro H.
    repeat (apply andb_prop in H; destruct H as [H _]).
    apply negb_true_iff, Qeq_bool_false in H.
    destruct Htemp2 as [H0 | H0]; [contradiction | exact H0]. }
  split; [|split; [|split]].
  - set (curr2 := if lap_boundary s t then [DELTA_ZERO] else delta_list_curr s).
    assert (Hcurr2 : exists samples2,
               curr2 = DELTA_ZERO :: samples2
               /\ Forall (fun r => List.length r = 2%nat) samples2).
    { unfold curr2. destruct (lap_boundary s t).
      - exists []. split; [reflexivity | constructor].
      - now exists samples. }
    destruct Hcurr2 as (samples2 & -> & Hs2).
    match goal with
    | |- context [if ?b then _ else _] => destruct b
    end.
    + eexists. split; [reflexivity|].
      apply Forall_app. split; [exact Hs2|]. now repeat constructor.
    + now exists samples2.
  - destruct accept; [left; reflexivity|].
    match goal with
    | |- context [if ?b then _ else _] => destruct b
    end; [left; reflexivity | exact Htemp2].
  - destruct accept; [right; now apply Hacc | exact Hl].
  - destruct accept; [intros _; now apply Hacc | exact Hd].
Qed.

Lemma run_curves_shaped (sents : list (option telemetry)) (s : state) :
  shaped s -> shaped (run s sents).
Proof.
  revert s. induction sents as [|[t|] sents IH]; intros s H.
  - exact H.
  - change (run s (Some t :: sents)) with (run (tick s t) sents).
    now apply IH, tick_curves_shaped.
  - change (run s (None :: sents)) with (run s sents). now apply IH.
Qed.

Lemma index_last {A : Type} (l : list A) (x : A) :
  Py.index (l ++ [x]) (-1) = Some x.
Proof.
  unfold Py.index. rewrite length_app. cbn [List.length].
  destruct (Z.ltb_spec (-1) 0) as [_|]; [|lia].
  destruct (Z.ltb_spec (-1 + Z.of_nat (List.length l + 1)) 0) as [|_]; [lia|].
  replace (Z.to_nat (-1 + Z.of_nat (List.length l + 1))) with (List.length l) by lia.
  rewrite nth_error_app2 by lia. now rewrite Nat.sub_diag.
Qed.

Lemma complete_curve_columns (l : list row) :
  complete_curve l ->
  (3 <= Z.of_nat (List.length l))%Z
  /\ exists used laptime_of_lap,
       last_row_column l 1 = Ok used /\ last_row_column l 2 = Ok laptime_of_lap.
Proof.
  intros (samples & terminal & -> & Hne & _ & Hlen).
  split.
  - cbn [List.length]. rewrite length_app. cbn [List.length].
    destruct samples; [congruence | cbn [List.length]; lia].
  - unfold last_row_column.
    change (DELTA_ZERO :: samples ++ [terminal])
      with ((DELTA_ZERO :: samples) ++ [terminal]).
    rewrite index_last.
    destruct terminal as [|a [|b [|c [|]]]]; try discriminate.
    exists b, c. split; reflexivity.
Qed.

(** X4. The reference curve of [calc_data] is, at any time, the list
    [load_delta] returned or the curve of a completed lap: the zero knot,
    at least one sample and a terminal row of three columns, hence at
    least three rows whose last carries the used amount and the lap time
    [load_delta] reads back; once a lap has been accepted ([delayed_save])
    it is the latter. *)
Theorem reference_curve_is_complete (loaded_used : Q)
    (sents : list (option telemetry)) :
  let s := run (init_state loaded_list loaded_used) sents in
  (delta_list_last s = loaded_list \/ complete_curve (delta_list_last s))
  /\ (delayed_save s = true -> complete_curve (delta_list_last s))
  /\ (complete_curve (delta_list_last s) ->
      (3 <= Z.of_nat (List.length (delta_list_last s)))%Z
      /\ exists used laptime_of_lap,
           last_row_column (delta_list_last s) 1 = Ok used
           /\ last_row_column (delta_list_last s) 2 = Ok laptime_of_lap).
Proof.
  intro s.
  destruct (run_curves_shaped sents _ (init_curves_shaped loaded_used))
    as (_ & _ & Hl & Hd).
  split; [exact Hl|]. split; [exact Hd|].
  apply complete_curve_columns.
Qed.

End CurveShape.

Section Restart.

Import Fuel FuelRealtime.
Local Open Scope Q_scope.

Variable float : string -> option Q.
Variable v : validator.
Variable filepath : string.

Local Abbreviation path combo := (path_of filepath combo "fuel").
Local Abbreviation update_pass := (FuelRealtime.update_pass float v filepath).
Local Abbreviation read_rows := (Fuel.read_rows float).
Local Abbreviation load_delta := (Fuel.load_delta float).

Lemma numbers_of_row_numeric (r : row) : numbers_of_row (map Num r) = Some r.
Proof.
  induction r as [|q r IH]; [reflexivity|].
  cbn [map numbers_of_row number]. now rewrite IH.
Qed.

Lemma numbers_numeric (rows : list row) : numbers (numeric rows) = Some rows.
Proof.
  induction rows as [|r rows IH]; [reflexivity|].
  unfold numeric in *. cbn [map numbers].
  now rewrite numbers_of_row_numeric, IH.
Qed.

Lemma numbers_of_row_some (r : raw_row) (qs : row) :
  numbers_of_row r = Some qs -> r = map Num qs.
Proof.
  revert qs. induction r as [|c r IH]; intros qs.
  - now intros [= <-].
  - cbn [numbers_of_row]. destruct c as [q | s]; cbn [number]; [|discriminate].
    destruct (numbers_of_row r) as [qs'|]; [|discriminate].
    intros [= <-]. cbn [map]. now rewrite (IH qs' eq_refl).
Qed.

Lemma numbers_some (rows : list raw_row) (qss : list row) :
  numbers rows = Some qss -> rows = numeric qss.
Proof.
  revert qss. induction rows as [|r rows IH]; intros qss.
  - now intros [= <-].
  - cbn [numbers]. destruct (numbers_of_row r) as [qs|] eqn:Er; [|discriminate].
    destruct (numbers rows) as [qss'|]; [|discriminate].
    intros [= <-]. unfold numeric. cbn [map].
    rewrite (numbers_of_row_some _ _ Er). f_equal. now apply IH.
Qed.

Lemma write_elsewhere (fs : store) (p q : string) (f : file) :
  q <> p -> write fs p f q = fs q.
Proof. intro H. unfold write. apply String.eqb_neq in H. now rewrite H. Qed.

(** X5. A reference lap accepted in a session is there again after the data
    source went away and came back with the same car and track: when the
    generator, created for the combo [combo], has accepted a lap
    ([delayed_save]) of at least 10 rows that the validator hands back as
    it is, the pass with [api.state] false writes the curve to the file of
    [combo] and to no other file, and a next pass with [api.state] true
    that reads the same [combo] starts a new generator on that very
    curve, [used_last] being the used amount of its terminal row; the
    file is left as written. *)
Theorem accepted_curve_survives_restart (fs : store) (combo combo_read : string)
    (loaded_list : list row) (loaded_used : Q)
    (sents : list (option telemetry)) (t_first t : telemetry) :
  let s := run telemetry_fuel (init_state loaded_list loaded_used) sents in
  delayed_save s = true ->
  (10 <= Z.of_nat (List.length (delta_list_last s)))%Z ->
  fs (path combo) <> Denied ->
  delta_list v (numeric (delta_list_last s))
  = Ok (numeric (delta_list_last s)) ->
  exists fs' used,
    update_pass false combo_read t_first t
      {| gen_calc_fuel := Some (combo, s); disk := fs |}
    = Ok (Some {| gen_calc_fuel := None; disk := fs' |})
    /\ fs' (path combo) = Rows (delta_list_last s)
    /\ (forall p, p <> path combo -> fs' p = fs p)
    /\ last_row_column (delta_list_last s) 1 = Ok used
    /\ update_pass true combo t_first t {| gen_calc_fuel := None; disk := fs' |}
       = Ok (Some {| gen_calc_fuel :=
                       Some (combo,
                             tick telemetry_fuel
                               (tick telemetry_fuel
                                  (init_state (delta_list_last s) used)
                                  t_first) t);
                     disk := fs' |}).
Proof.
  intros s Hd Hlen Hw Hv.
  destruct (run_curves_shaped telemetry_fuel loaded_list sents _
              (init_curves_shaped loaded_list loaded_used))
    as (_ & _ & _ & Hc).
  fold s in Hc. specialize (Hc Hd).
  destruct (complete_curve_columns _ Hc) as (_ & used & lap & H1 & H2).
  exists (write fs (path combo) (Rows (delta_list_last s))), used.
  split; [|split; [|split; [|split]]].
  - unfold FuelRealtime.update_pass, save_check. cbn [gen_calc_fuel disk].
    rewrite Hd. rewrite save_delta_writes;
      [|unfold numeric; now rewrite length_map | exact Hw].
    now rewrite written_numeric.
  - apply read_after_write.
  - intros p Hp. now apply write_elsewhere.
  - exact H1.
  - unfold FuelRealtime.update_pass, calc_data_start. cbn [gen_calc_fuel disk].
    rewrite (load_numeric_rows float v filepath combo "fuel" _
               (delta_list_last s) used lap);
      [|apply read_after_write | exact Hv | exact H1 | exact H2].
    cbn [bind]. rewrite numbers_numeric. reflexivity.
Qed.

(** X6. Loading twice is loading once, where the list comes back as
    numbers: when the list [load_delta] returns holds no string and the
    validator hands its own results back as they are, a second
    [load_delta] on the store the first one left returns the same triple
    and leaves that store as it is (a file the first load repaired is not
    written again). *)
Theorem load_delta_idempotent (combo : string) (fs fs1 : store)
    (lastlist : list raw_row) (kept : list row) (used_last laptime_last : cell) :
  load_delta v fs filepath combo "fuel"
  = Ok (fs1, (lastlist, used_last, laptime_last)) ->
  numbers lastlist = Some kept ->
  (forall rows l, read_rows fs (path combo) = Ok rows ->
                  delta_list v rows = Ok l -> delta_list v l = Ok l) ->
  load_delta v fs1 filepath combo "fuel"
  = Ok (fs1, (lastlist, used_last, laptime_last)).
Proof.
  intros H Hnum Hid.
  unfold Fuel.load_delta in H.
  destruct (load_delta_try float v fs filepath combo "fuel") as [r0 | e] eqn:E.
  - injection H as ->. unfold load_delta_try in E.
    destruct (read_rows fs (path combo)) as [rows | e] eqn:Ef; [|discriminate].
    cbn [bind] in E.
    destruct (delta_list v rows) as [validated | e] eqn:Ev; [|discriminate].
    cbn [bind] in E.
    destruct (last_row_column validated 1) as [used | e] eqn:E1;
      [|discriminate].
    cbn [bind] in E.
    destruct (last_row_column validated 2) as [lap | e] eqn:E2;
      [|discriminate].
    cbn [bind] in E.
    destruct (negb (Nat.eqb (List.length rows) (List.length validated))) eqn:Es.
    + unfold save_delta in E.
      destruct (10 <=? Z.of_nat (List.length validated))%Z eqn:E10.
      * (* the first load wrote the validated list *)
        assert (Hd := read_rows_not_denied float filepath combo "fuel" _ _ Ef).
        assert (Ew : fs1 = write fs (path combo)
                             (Csv (map (map written) validated))
                     /\ validated = lastlist /\ used = used_last
                     /\ lap = laptime_last).
        { destruct (fs (path combo)); try congruence; cbn [bind] in E;
            injection E as <- <- <- <-; auto. }
        destruct Ew as (-> & <- & <- & <-).
        assert (Hval : delta_list v validated = Ok validated)
          by (apply (Hid rows); [reflexivity | exact Ev]).
        rewrite (numbers_some _ _ Hnum) in *.
        destruct (last_row_column_map_inv Num kept 1 used E1)
          as (q1 & Hq1 & ->).
        destruct (last_row_column_map_inv Num kept 2 lap E2)
          as (q2 & Hq2 & ->).
        rewrite written_numeric.
        apply (load_numeric_rows float v filepath combo "fuel");
          [apply read_after_write | exact Hval | exact Hq1 | exact Hq2].
      * cbn [bind] in E. injection E as <- <- <- <-.
        unfold Fuel.load_delta, load_delta_try.
        rewrite Ef. cbn [bind]. rewrite Ev. cbn [bind]. rewrite E1, E2.
        cbn [bind]. rewrite Es. unfold save_delta. rewrite E10. reflexivity.
    + injection E as <- <- <- <-.
      unfold Fuel.load_delta, load_delta_try.
      rewrite Ef. cbn [bind]. rewrite Ev. cbn [bind]. rewrite E1, E2.
      cbn [bind]. rewrite Es. reflexivity.
  - destruct (caught e) eqn:Ec; [|discriminate].
    injection H as <- <- <- <-. unfold Fuel.load_delta. rewrite E, Ec.
    reflexivity.
Qed.

End Restart.

Section History.

Import FuelRealtime.
Local Open Scope Q_scope.

(** X7. Each lap enters the consumption history once: the pass that appends
    an entry makes the newest entry carry the last lap time, so that the
    same readings append nothing more (for a deque that holds at least
    one entry); the appended entry is the lap [completed_laps - 1]. *)
Theorem lap_enters_history_once (maxlen : option nat)
    (consumption : list lap_entry) (r : lap_info) :
  maxlen <> Some O ->
  consumption <> [] ->
  exists updated,
    update_history maxlen consumption r = Ok updated
    /\ update_history maxlen updated r = Ok updated
    /\ (updated = consumption
        \/ exists newest rest,
             updated = newest :: rest
             /\ lap_number newest = (completed_laps r - 1)%Z
             /\ lap_time newest = lapTimeLast r
             /\ rest = match maxlen with
                       | None => consumption
                       | Some n => firstn (Nat.pred n) consumption
                       end).
Proof.
  intros Hm Hne.
  destruct consumption as [|newest rest]; [congruence|].
  unfold update_history.
  destruct (negb (Qeq_bool (lap_time newest) (lapTimeLast r))
            && Py.Qltb (lapTimeCurrent r) (lapTimeLast r)
            && Py.Qltb 2 (lapTimeCurrent r))%bool eqn:E.
  - eexists. split; [reflexivity|].
    assert (Hself : Qeq_bool (lapTimeLast r) (lapTimeLast r) = true)
      by (apply Qeq_bool_iff; reflexivity).
    destruct maxlen as [[|n]|]; [congruence | |]; cbn [appendleft firstn lap_time].
    + rewrite Hself. cbn [negb andb]. split; [reflexivity|].
      right. eexists. eexists. repeat split.
    + rewrite Hself. cbn [negb andb]. split; [reflexivity|].
      right. eexists. eexists. repeat split.
  - exists (newest :: rest). rewrite E. auto.
Qed.

End History.

(** ** The relative list as a window around the player *)

Section Window.

Import Relative.

Lemma slice_nth_between {A : Type} (l : list A) (lo hi k : Z) (d : A) :
  0 <= lo -> 0 <= hi -> 0 <= k -> lo + k < Z.min hi (len l) ->
  nth (Z.to_nat k) (Py.slice l (Some lo) (Some hi)) d
  = nth (Z.to_nat (lo + k)) l d.
Proof.
  intros Hlo Hhi Hk Hin. unfold Py.slice, Py.slice_bound. cbv zeta.
  fold (len l).
  destruct (Z.ltb_spec lo 0); [lia|]. destruct (Z.ltb_spec hi 0); [lia|].
  rewrite nth_firstn, nth_skipn.
  destruct (Nat.ltb_spec (Z.to_nat k)
              (Z.to_nat (Z.min hi (len l) - Z.min lo (len l)))); [|lia].
  f_equal. lia.
Qed.

Lemma slice_nth_from {A : Type} (l : list A) (lo k : Z) (d : A) :
  0 <= lo -> 0 <= k -> lo + k < len l ->
  nth (Z.to_nat k) (Py.slice l (Some lo) None) d
  = nth (Z.to_nat (lo + k)) l d.
Proof.
  intros Hlo Hk Hin. unfold Py.slice, Py.slice_bound. cbv zeta.
  fold (len l).
  destruct (Z.ltb_spec lo 0); [lia|].
  rewrite nth_firstn, nth_skipn.
  destruct (Nat.ltb_spec (Z.to_nat k)
              (Z.to_nat (len l - Z.min lo (len l)))); [|lia].
  f_equal. lia.
Qed.

Lemma slice_nth_upto {A : Type} (l : list A) (hi k : Z) (d : A) :
  0 <= hi -> 0 <= k -> k < Z.min hi (len l) ->
  nth (Z.to_nat k) (Py.slice l None (Some hi)) d = nth (Z.to_nat k) l d.
Proof.
  intros Hhi Hk Hin. unfold Py.slice, Py.slice_bound. cbv zeta.
  fold (len l).
  destruct (Z.ltb_spec hi 0); [lia|].
  rewrite nth_firstn. cbn [skipn Z.to_nat].
  destruct (Nat.ltb_spec (Z.to_nat k) (Z.to_nat (Z.min hi (len l) - 0))); [|lia].
  reflexivity.
Qed.

Lemma nth_app_Z {A : Type} (l1 l2 : list A) (k : Z) (d : A) :
  0 <= k ->
  nth (Z.to_nat k) (l1 ++ l2) d
  = if k <? len l1 then nth (Z.to_nat k) l1 d
    else nth (Z.to_nat (k - len l1)) l2 d.
Proof.
  intro Hk. unfold len. destruct (Z.ltb_spec k (Z.of_nat (List.length l1))).
  - apply app_nth1. lia.
  - rewrite app_nth2 by lia. f_equal. lia.
Qed.

Lemma mod_wrap_below (x n : Z) : - n <= x < 0 -> x mod n = x + n.
Proof.
  intro H. symmetry. apply (Z.mod_unique x n (-1)); lia.
Qed.

Lemma mod_wrap_above (x n : Z) : n <= x < 2 * n -> x mod n = x - n.
Proof.
  intro H. symmetry. apply (Z.mod_unique x n 1); lia.
Qed.

(** The list [create_relative_index] slices is the list of vehicle
    indices followed by the padding. *)
Lemma padded_list (veh : list Z) (max_rel_veh : Z) :
  (if 0 <? max_rel_veh - len veh
   then veh ++ Py.repeatZ (-1) (max_rel_veh - len veh) else veh)
  = veh ++ Py.repeatZ (-1) (max_rel_veh - len veh).
Proof.
  destruct (Z.ltb_spec 0 (max_rel_veh - len veh)); [reflexivity|].
  unfold Py.repeatZ. replace (Z.to_nat (max_rel_veh - len veh)) with O by lia.
  cbn. now rewrite app_nil_r.
Qed.

Lemma relative_window (rel_dist_list : list (Q * Z))
    (plr_index add_front add_behind : Z) (i : Z) :
  rel_dist_list <> [] ->
  0 <= add_front -> 0 <= add_behind ->
  0 <= i < 7 + add_front + add_behind ->
  let veh := map snd rel_dist_list in
  let plr_pos := match Py.find_index plr_index veh with
                 | Some pos => pos
                 | None => 0
                 end in
  let padded := veh ++ Py.repeatZ (-1) (7 + add_front + add_behind - len veh) in
  nth (Z.to_nat i)
      (create_relative_index rel_dist_list plr_index
         (7 + add_front + add_behind) add_front add_behind) (-1)
  = nth (Z.to_nat ((plr_pos - 3 - add_front + i) mod len padded)) padded (-1).
Proof.
  intros Hne Hf Hb Hi veh plr_pos padded.
  destruct rel_dist_list as [|d0 rest]; [congruence|].
  unfold create_relative_index.
  fold veh. fold plr_pos. rewrite padded_list. fold padded.
  assert (Hveh : 1 <= len veh).
  { unfold veh. rewrite len_map. unfold len. cbn [List.length]. lia. }
  assert (Hpos : 0 <= plr_pos < len veh).
  { unfold plr_pos. destruct (Py.find_index plr_index veh) eqn:F.
    - now apply find_index_range in F.
    - lia. }
  assert (Hpad : len veh <= len padded /\ 7 + add_front + add_behind <= len padded).
  { unfold padded. rewrite len_app, len_repeatZ. lia. }
  set (L := len padded) in *.
  set (front_cut := Py.slice padded (Some (Z.max (plr_pos - 3 - add_front) 0))
                      (Some plr_pos)).
  assert (Hfc : len front_cut = Z.min plr_pos (3 + add_front)).
  { unfold front_cut. rewrite len_slice_between by lia. fold L. lia. }
  set (behind_cut := Py.slice padded (Some plr_pos)
                       (Some (plr_pos + 4 + add_behind))).
  assert (Hbc : len behind_cut = Z.min (L - plr_pos) (4 + add_behind)).
  { unfold behind_cut. rewrite len_slice_between by lia. fold L. lia. }
  set (front_miss := 3 + add_front - len front_cut).
  set (behind_miss := 4 + add_behind - len behind_cut).
  set (front_wrap := Py.slice padded (Some (L - front_miss)) None).
  assert (Hfw : len front_wrap = front_miss).
  { unfold front_wrap. rewrite len_slice_from by lia. fold L. lia. }
  set (behind_wrap := Py.slice padded None (Some behind_miss)).
  rewrite nth_app_Z by lia. rewrite len_app, Hfw, Hfc.
  destruct (Z.ltb_spec i (front_miss + Z.min plr_pos (3 + add_front))) as [Hi1 | Hi1].
  - (* a row ahead of the player *)
    rewrite nth_app_Z by lia. rewrite Hfw.
    destruct (Z.ltb_spec i front_miss) as [Hi2 | Hi2].
    + unfold front_wrap. rewrite slice_nth_from by (fold L; lia).
      f_equal. f_equal. rewrite mod_wrap_below by lia. lia.
    + unfold front_cut. rewrite slice_nth_between by (fold L; lia).
      f_equal. f_equal. rewrite Z.mod_small by lia. lia.
  - (* the player's row or a row behind *)
    rewrite nth_app_Z by lia. rewrite Hbc.
    destruct (Z.ltb_spec (i - (front_miss + Z.min plr_pos (3 + add_front)))
                (Z.min (L - plr_pos) (4 + add_behind))) as [Hi2 | Hi2].
    + unfold behind_cut. rewrite slice_nth_between by (fold L; lia).
      f_equal. f_equal. rewrite Z.mod_small by lia. lia.
    + unfold behind_wrap. rewrite slice_nth_upto by (fold L; lia).
      f_equal. f_equal. rewrite mod_wrap_above by lia. lia.
Qed.

End Window.

Section RelativeRows.

Import Relative.

(** X8. For every non-empty list of relative distances the rows of
    [create_relative_index] are a window of consecutive entries of the
    padded list of vehicle indices, taken cyclically: row [i] holds the
    entry [plr_pos - 3 - add_front + i] positions into the list, modulo
    its length, so that the rows missing ahead of the first vehicle are
    filled from the end of the list and those missing behind the last one
    from its start. *)
Theorem relative_index_is_cyclic_window (rel_dist_list : list (Q * Z))
    (plr_index add_front add_behind : Z) :
  rel_dist_list <> [] ->
  0 <= add_front -> 0 <= add_behind ->
  let veh := map snd rel_dist_list in
  let plr_pos := match Py.find_index plr_index veh with
                 | Some pos => pos
                 | None => 0
                 end in
  let padded := veh ++ Py.repeatZ (-1) (7 + add_front + add_behind - len veh) in
  forall i, 0 <= i < 7 + add_front + add_behind ->
    nth (Z.to_nat i)
        (create_relative_index rel_dist_list plr_index
           (7 + add_front + add_behind) add_front add_behind) (-1)
    = nth (Z.to_nat ((plr_pos - 3 - add_front + i) mod len padded)) padded (-1).
Proof.
  intros Hne Hf Hb veh plr_pos padded i Hi.
  now apply relative_window.
Qed.

Lemma listed_vehicles (c : calc) (api : snapshot) (n : Z) (show : bool) :
  map snd (get_relative_distance c api n show)
  = filter (fun index => negb (negb show && in_race api)
                         || negb (in_garage api index))
           (Py.range 0 n).
Proof.
  unfold get_relative_distance.
  induction (Py.range 0 n) as [|x l IH]; [reflexivity|].
  cbn [flat_map filter].
  destruct (negb (negb show && in_race api) || negb (in_garage api x));
    cbn [app map snd]; now rewrite IH.
Qed.

Lemma range_nodup (lo hi : Z) : NoDup (Py.range lo hi).
Proof.
  unfold Py.range. apply Finite.Injective_map_NoDup.
  - intros x y. lia.
  - apply seq_NoDup.
Qed.

Lemma relative_vehicles (c : calc) (cfg : settings) (api : snapshot) :
  let rel_dist_list :=
    sorted_reverse
      (get_relative_distance c api (Z.max (total_vehicles api) 1)
         (show_vehicle_in_garage_for_race cfg)) in
  NoDup (map snd rel_dist_list)
  /\ forall i, In i (map snd rel_dist_list)
               <-> (0 <= i < Z.max (total_vehicles api) 1
                    /\ (negb (negb (show_vehicle_in_garage_for_race cfg)
                              && in_race api)
                        || negb (in_garage api i)) = true).
Proof.
  intro rel.
  assert (Hperm : Permutation (map snd rel)
                    (map snd (get_relative_distance c api
                                (Z.max (total_vehicles api) 1)
                                (show_vehicle_in_garage_for_race cfg)))).
  { apply Permutation_map. apply sorted_perm. }
  rewrite listed_vehicles in Hperm.
  split.
  - apply (Permutation_NoDup (Permutation_sym Hperm)).
    apply NoDup_filter, range_nodup.
  - intro i. split.
    + intro H. apply (Permutation_in _ Hperm) in H.
      apply filter_In in H. destruct H as [H1 H2].
      apply in_range in H1. split; [lia | exact H2].
    + intros [H1 H2]. apply (Permutation_in _ (Permutation_sym Hperm)).
      apply filter_In. split; [apply in_range; lia | exact H2].
Qed.

(** X9. The player's vehicle sits on row [3 + add_front] of the relative list
    [update_data] publishes, whenever it is among the listed vehicles:
    its index is one of the field's and it is not hidden as a vehicle in
    the garage during a race. *)
Theorem player_sits_on_centre_row (c : calc) (cfg : settings) (api : snapshot) :
  0 <= player_index api < Z.max (total_vehicles api) 1 ->
  show_vehicle_in_garage_for_race cfg = true
  \/ in_race api = false
  \/ in_garage api (player_index api) = false ->
  nth (Z.to_nat (3 + Z.min (Z.max (additional_players_front cfg) 0) 60))
      (relative c cfg api) (-1)
  = player_index api.
Proof.
  intros Hidx Hshown.
  destruct (relative_vehicles c cfg api) as [_ Hin].
  unfold relative, max_relative_vehicles.
  set (f := Z.min (Z.max (additional_players_front cfg) 0) 60).
  set (b := Z.min (Z.max (additional_players_behind cfg) 0) 60).
  set (rel := sorted_reverse _) in *.
  assert (Hplr : In (player_index api) (map snd rel)).
  { apply Hin. split; [exact Hidx|].
    destruct Hshown as [-> | [-> | ->]]; cbn;
      rewrite ?andb_false_r, ?orb_true_r; reflexivity. }
  assert (Hne : rel <> []) by (intros E; rewrite E in Hplr; destruct Hplr).
  rewrite (relative_window rel (player_index api) f b (3 + f)) by (auto; lia).
  destruct (find_index_in _ _ Hplr) as [pos Hpos]. rewrite Hpos.
  assert (Hr := find_index_range _ _ _ Hpos).
  assert (Hn := find_index_nth _ _ _ Hpos).
  replace (pos - 3 - f + (3 + f)) with pos by lia.
  rewrite Z.mod_small by (rewrite len_app; unfold len in *; lia).
  rewrite app_nth1 by (unfold len in Hr; lia).
  now apply nth_error_nth.
Qed.

(** X10. No vehicle occupies two rows of the relative list [update_data]
    publishes: two rows that hold the same value hold the placeholder
    -1. *)
Theorem relative_rows_are_distinct (c : calc) (cfg : settings) (api : snapshot)
    (i j : Z) :
  0 <= i < j -> j < len (relative c cfg api) ->
  nth (Z.to_nat i) (relative c cfg api) (-1)
  = nth (Z.to_nat j) (relative c cfg api) (-1) ->
  nth (Z.to_nat i) (relative c cfg api) (-1) = -1.
Proof.
  destruct (relative_vehicles c cfg api) as [Hnd _].
  unfold relative, max_relative_vehicles.
  set (f := Z.min (Z.max (additional_players_front cfg) 0) 60).
  set (b := Z.min (Z.max (additional_players_behind cfg) 0) 60).
  set (rel := sorted_reverse _) in *.
  intros Hij Hj.
  destruct rel as [|d0 rest] eqn:Erel.
  { cbn in Hj. unfold len in Hj. cbn in Hj. lia. }
  rewrite <- Erel in *.
  assert (Hne : rel <> []) by (rewrite Erel; discriminate).
  rewrite create_relative_index_length in Hj by (auto; lia).
  rewrite (relative_window rel (player_index api) f b i) by (auto; lia).
  rewrite (relative_window rel (player_index api) f b j) by (auto; lia).
  set (veh := map snd rel) in *.
  set (p := match Py.find_index (player_index api) veh with
            | Some pos => pos | None => 0 end).
  set (padded := veh ++ Py.repeatZ (-1) (7 + f + b - len veh)).
  assert (HL : 7 + f + b <= len padded).
  { unfold padded. rewrite len_app, len_repeatZ. lia. }
  set (L := len padded) in *.
  set (qi := (p - 3 - f + i) mod L). set (qj := (p - 3 - f + j) mod L).
  assert (Hqi : 0 <= qi < L) by (apply Z.mod_pos_bound; lia).
  assert (Hqj : 0 <= qj < L) by (apply Z.mod_pos_bound; lia).
  assert (Hneq : qi <> qj).
  { intro E. unfold qi, qj in E.
    assert (Hd : (j - i) mod L = 0).
    { replace (j - i) with ((p - 3 - f + j) - (p - 3 - f + i)) by lia.
      rewrite Zminus_mod, E, Z.sub_diag. apply Z.mod_0_l. lia. }
    rewrite Z.mod_small in Hd by lia. lia. }
  assert (Hval : forall q, 0 <= q < L ->
             (q < len veh /\ nth (Z.to_nat q) padded (-1) = nth (Z.to_nat q) veh (-1))
             \/ (len veh <= q /\ nth (Z.to_nat q) padded (-1) = -1)).
  { intros q Hq. unfold padded.
    destruct (Z.lt_ge_cases q (len veh)) as [Hlt | Hge].
    - left. split; [exact Hlt|]. apply app_nth1. unfold len in Hlt. lia.
    - right. split; [exact Hge|]. rewrite app_nth2 by (unfold len in Hge; lia).
      unfold Py.repeatZ. apply nth_repeat. }
  intro Heq.
  destruct (Hval qi Hqi) as [[Hi1 Hi2] | [_ Hi2]]; [|exact Hi2].
  destruct (Hval qj Hqj) as [[Hj1 Hj2] | [_ Hj2]]; [|now rewrite Heq].
  exfalso. apply Hneq.
  rewrite Hi2, Hj2 in Heq. unfold len in Hi1, Hj1.
  assert (E : Z.to_nat qi = Z.to_nat qj).
  { apply (proj1 (NoDup_nth veh (-1)) Hnd); [lia | lia | exact Heq]. }
  lia.
Qed.

End RelativeRows.

(** ** The places shown in the standings *)

Section ReferencePlaces.

Import Relative.

Lemma range_increasing (lo hi : Z) : StronglySorted Z.lt (Py.range lo hi).
Proof.
  assert (H := range_strictly_sorted lo hi).
  induction H as [|a l Hl IH Ha]; constructor.
  - exact IH.
  - apply Forall_forall. intros x Hx.
    rewrite Forall_forall in Ha. destruct (Ha x Hx) as [H1 H2].
    apply Z.leb_le in H1. apply Z.leb_gt in H2. lia.
Qed.

Lemma increasing_app (l1 l2 : list Z) :
  StronglySorted Z.lt l1 -> StronglySorted Z.lt l2 ->
  (forall x y, In x l1 -> In y l2 -> x < y) ->
  StronglySorted Z.lt (l1 ++ l2).
Proof.
  intros H1 H2 H. induction H1 as [|a l Hl IH Ha]; [exact H2|].
  cbn. constructor.
  - apply IH. intros x y Hx Hy. apply H; [now right | exact Hy].
  - apply Forall_app. split; [exact Ha|].
    apply Forall_forall. intros y Hy. apply H; [now left | exact Hy].
Qed.

Lemma reference_place_cases (min_top_veh veh_total plr_place veh_limit : Z) :
  1 <= min_top_veh <= veh_limit -> 0 <= veh_total <= 128 ->
  create_reference_place min_top_veh veh_total plr_place veh_limit
  = Py.range 1 (1 + Z.min veh_total veh_limit)
  \/ exists front_cut_max,
       min_top_veh <= front_cut_max
       /\ front_cut_max + (veh_limit - min_top_veh) <= veh_total
       /\ veh_limit < veh_total
       /\ create_reference_place min_top_veh veh_total plr_place veh_limit
          = Py.range 1 (1 + min_top_veh)
            ++ Py.range (1 + front_cut_max)
                 (1 + (front_cut_max + (veh_limit - min_top_veh))).
Proof.
  intros Hm Hn. unfold create_reference_place, ALL_PLACES.
  destruct (Z.leb_spec veh_total veh_limit) as [H1 | H1].
  - left. rewrite slice_range_upto by lia. f_equal. lia.
  - destruct (Z.leb_spec plr_place min_top_veh) as [H2 | H2].
    + left. rewrite slice_range_upto by lia. f_equal. lia.
    + right. cbv zeta.
      set (range := veh_limit - min_top_veh).
      set (raw := plr_place - (range - (range - 1) / 2)).
      set (front := if raw <? min_top_veh then min_top_veh else raw).
      assert (Hfront : min_top_veh <= front).
      { unfold front. destruct (Z.ltb_spec raw min_top_veh); lia. }
      set (rear := if veh_total <? front + range then veh_total else front + range).
      assert (Hrear : rear <= veh_total /\ rear <= front + range
                      /\ min_top_veh + range <= rear).
      { unfold rear, range in *.
        destruct (Z.ltb_spec veh_total (front + (veh_limit - min_top_veh))); lia. }
      exists (rear - range). split; [lia|]. split; [lia|]. split; [lia|].
      rewrite slice_range_upto by lia.
      rewrite slice_range by lia.
      f_equal. f_equal. lia.
Qed.

Lemma reference_places (min_top_veh veh_total plr_place veh_limit : Z) :
  1 <= min_top_veh <= veh_limit -> 0 <= veh_total <= 128 ->
  let refs := create_reference_place min_top_veh veh_total plr_place veh_limit in
  len refs = Z.min veh_total veh_limit
  /\ StronglySorted Z.lt refs
  /\ (forall r, In r refs -> 1 <= r <= veh_total)
  /\ (forall r, 1 <= r <= Z.min min_top_veh veh_total -> In r refs).
Proof.
  intros Hm Hn refs.
  destruct (reference_place_cases min_top_veh veh_total plr_place veh_limit Hm Hn)
    as [E | (front & Hf1 & Hf2 & Hf3 & E)]; unfold refs; rewrite E.
  - split; [rewrite len_range; lia|].
    split; [apply range_increasing|].
    split; intros r Hr.
    + apply in_range in Hr. lia.
    + apply in_range. lia.
  - split; [rewrite len_app, !len_range; lia|].
    split.
    { apply increasing_app; try apply range_increasing.
      intros x y Hx Hy. apply in_range in Hx, Hy. lia. }
    split; intros r Hr.
    + apply in_app_or in Hr. destruct Hr as [Hr | Hr]; apply in_range in Hr; lia.
    + apply in_or_app. left. apply in_range. lia.
Qed.

(** X12. The reference places [create_reference_place] selects, for a field
    of at most 128 vehicles and a limit not below the number of protected
    top places: there are exactly [min(veh_total, veh_limit)] of them, in
    strictly increasing order, each a place of the field, and the top
    [min_top_veh] places of the field are always among them, wherever the
    player is. *)
Theorem reference_places_shape (min_top_veh veh_total plr_place veh_limit : Z) :
  1 <= min_top_veh <= veh_limit -> 0 <= veh_total <= 128 ->
  let refs := create_reference_place min_top_veh veh_total plr_place veh_limit in
  len refs = Z.min veh_total veh_limit
  /\ StronglySorted Z.lt refs
  /\ (forall r, In r refs -> 1 <= r <= veh_total)
  /\ (forall r, 1 <= r <= Z.min min_top_veh veh_total -> In r refs).
Proof. apply reference_places. Qed.

Lemma place_reference_map (refs : list Z) (place_index_list : list (Z * Z)) :
  (forall r, In r refs -> 1 <= r <= len place_index_list) ->
  player_index_from_place_reference refs place_index_list
  = map (fun r => snd (nth (Z.to_nat (r - 1)) place_index_list (0, -1))) refs
    ++ [-1].
Proof.
  induction refs as [|r refs IH]; intro H; [reflexivity|].
  cbn [player_index_from_place_reference map app].
  assert (Hr := H r (or_introl eq_refl)).
  destruct (Z.ltb_spec 0 r); [|lia].
  destruct (Z.leb_spec r (len place_index_list)); [|lia].
  cbn [andb]. f_equal. apply IH. intros x Hx. apply H. now right.
Qed.

(** X13. In single-class mode, when the places reported for the field (of at
    most 128 vehicles) are a ranking, the standings list is the vehicles
    that hold the reference places, in the order of these places, followed
    by -1: it shows [min(n, limit)] vehicles, the limit being the
    combined-mode setting raised to [min_top_veh + 2]. *)
Theorem standings_follow_places (c : calc) (cfg : settings) (api : snapshot) :
  let n := Z.max (total_vehicles api) 1 in
  let min_top_veh := min_top_vehicles_in_class (min_top_vehicles cfg) in
  let limit :=
    max_vehicles_in_class (max_vehicles_combined_mode cfg) min_top_veh 2 in
  n <= 128 -> ranked api n -> split_mode cfg api = false ->
  exists body,
    standings c cfg api = Ok (body ++ [-1])
    /\ map (place api) body
       = create_reference_place min_top_veh n (player_place api) limit
    /\ len body = Z.min n limit.
Proof.
  intros n mt limit Hn Hrank Hmode.
  assert (Hn1 : 1 <= n) by (unfold n; lia).
  assert (Hmt := min_top_vehicles_range (min_top_vehicles cfg)). fold mt in Hmt.
  assert (Hlimit : mt <= limit) by (unfold limit, max_vehicles_in_class; lia).
  unfold standings. fold n. fold mt.
  destruct (create_class_position_ok c api n Hn1) as (first & rest & Es & ->).
  cbn [bind]. unfold max_vehicle_limit_set. fold limit.
  unfold split_mode in Hmode. fold n in Hmode. rewrite Hmode.
  unfold create_standings_index, calc_standings_index.
  set (pil := Py.sorted (leb_of place_index_compare)
                (map (fun v => (veh_place v, veh_index v))
                     (get_vehicle_class_data api n))).
  set (refs := create_reference_place mt n (player_place api) limit).
  destruct (reference_places mt n (player_place api) limit)
    as (Hlen & _ & Hin & _); [lia | lia |]. fold refs in Hlen, Hin.
  assert (Hfst := place_index_list_places api n Hrank). fold pil in Hfst.
  assert (Hpil : len pil = n).
  { unfold len. rewrite <- (length_map fst pil), Hfst.
    fold (len (Py.range 1 (n + 1))). rewrite len_range. lia. }
  assert (Hmem : forall p, In p pil -> place api (snd p) = fst p).
  { intros p Hp. apply (Permutation_in _ (sorted_perm _ _)) in Hp.
    unfold get_vehicle_class_data in Hp. rewrite map_map in Hp.
    apply in_map_iff in Hp. destruct Hp as (i & <- & _). reflexivity. }
  exists (map (fun r => snd (nth (Z.to_nat (r - 1)) pil (0, -1))) refs).
  split; [|split].
  - f_equal. apply place_reference_map. intros r Hr. rewrite Hpil. now apply Hin.
  - rewrite map_map. rewrite <- (map_id refs) at 2.
    apply map_ext_in. intros r Hr. specialize (Hin r Hr).
    rewrite Hmem by (apply nth_In; unfold len in Hpil; lia).
    change 0 with (fst (0, -1)) at 1.
    rewrite <- (map_nth fst). rewrite Hfst.
    rewrite range_nth by lia. lia.
  - rewrite len_map. exact Hlen.
Qed.

End ReferencePlaces.

(** ** The class position list *)

Section ClassPositions.

Import Relative.

Lemma class_pos_order : tuple_order class_pos_compare.
Proof.
  unfold class_pos_compare.
  apply (tuple_order_lex (fun a b => Z.compare (cp_index a) (cp_index b)));
    [apply tuple_order_Z|].
  apply (tuple_order_lex (fun a b => Z.compare (cp_position a) (cp_position b)));
    [apply tuple_order_Z|].
  apply (tuple_order_lex (fun a b => String.compare (cp_class a) (cp_class b)));
    [apply tuple_order_string|].
  apply (tuple_order_lex
           (fun a b => Qcompare (cp_session_best a) (cp_session_best b)));
    [apply tuple_order_Q|].
  apply (tuple_order_lex (fun a b => Qcompare (cp_class_best a) (cp_class_best b)));
    [apply tuple_order_Q|].
  apply (tuple_order_lex (fun a b => Z.compare (cp_ahead a) (cp_ahead b)));
    apply tuple_order_Z.
Qed.

Lemma class_pos_leb_index (a b : class_pos) :
  leb_of class_pos_compare a b = true -> cp_index a <= cp_index b.
Proof.
  unfold leb_of, class_pos_compare, lex.
  destruct (Z.compare_spec (cp_index a) (cp_index b)); simpl; intros; try lia;
    discriminate.
Qed.

Lemma sorted_le_map_index (l : list class_pos) :
  Sorted (Py.le_of (leb_of class_pos_compare)) l ->
  Sorted (Py.le_of Z.leb) (map cp_index l).
Proof.
  induction 1 as [|a l Hs IH Hr]; simpl; constructor; [exact IH|].
  destruct Hr as [|b l Hab]; simpl; constructor.
  apply Z.leb_le. now apply class_pos_leb_index.
Qed.

(** Every tuple [create_position_in_class] yields carries a class
    position of at least 1. *)
Lemma position_loop_positive (sb : Q) (todo : list vehicle) :
  forall ic pos cb ah o,
  0 <= pos ->
  In o (position_loop sb ic pos cb ah todo) -> 1 <= cp_position o.
Proof.
  induction todo as [|v rest IH]; intros ic pos cb ah o Hpos Hin; [destruct Hin|].
  cbn [position_loop] in Hin.
  set (pos' := if String.eqb (veh_class v) ic then pos + 1 else 1) in *.
  assert (Hpos' : 1 <= pos') by (unfold pos'; destruct (String.eqb _ _); lia).
  destruct Hin as [<- | Hin]; [exact Hpos'|].
  apply (IH _ _ _ _ _ (Z.le_trans _ _ _ Z.le_0_1 Hpos') Hin).
Qed.

(** X14. The class position list [create_class_position] returns for a field
    of [n >= 1] vehicles is indexed by vehicle: its entry number [i] is
    the tuple of the vehicle of index [i], with that vehicle's class name
    and a class position of at least 1. *)
Theorem classes_indexed_by_vehicle (c : calc) (api : snapshot) (n : Z) :
  1 <= n ->
  exists class_pos_list place_index_list is_multi_class,
    create_class_position c api n
    = Ok (class_pos_list, place_index_list, is_multi_class)
    /\ map cp_index class_pos_list = Py.range 0 n
    /\ forall i o, 0 <= i ->
         nth_error class_pos_list (Z.to_nat i) = Some o ->
         cp_index o = i
         /\ cp_class o = class_name api i
         /\ 1 <= cp_position o.
Proof.
  intro Hn.
  destruct (create_class_position_ok c api n Hn) as (first & rest & Es & E).
  rewrite E. do 3 eexists. split; [reflexivity|].
  set (positions := position_loop _ _ _ _ _ _).
  set (cl := Py.sorted (leb_of class_pos_compare) positions).
  assert (Hperm : Permutation cl positions) by apply sorted_perm.
  assert (Hidx : map cp_index cl = Py.range 0 n).
  { apply (strictly_sorted_unique Z.leb).
    - apply range_strictly_sorted.
    - apply Sorted_StronglySorted; [exact Zle_of_trans|].
      apply sorted_le_map_index. apply sorted_sorted.
      exact (leb_of_total _ class_pos_order).
    - eapply perm_trans; [apply Permutation_map, Hperm|].
      unfold positions. rewrite position_loop_index, <- Es.
      eapply perm_trans; [apply Permutation_map, sorted_perm|].
      rewrite vehicle_data_index. apply Permutation_refl. }
  split; [exact Hidx|].
  intros i o Hi Ho.
  assert (Hlen : (Z.to_nat i < List.length cl)%nat).
  { apply nth_error_Some. congruence. }
  assert (Ei : cp_index o = i).
  { assert (H := map_nth_error cp_index _ _ Ho). rewrite Hidx in H.
    apply (nth_error_nth _ _ 0) in H.
    rewrite <- (length_map cp_index), Hidx in Hlen.
    fold (len (Py.range 0 n)) in Hlen. unfold Py.range in Hlen.
    rewrite length_map, length_seq in Hlen.
    rewrite range_nth in H by lia. lia. }
  assert (Hin : In o positions).
  { apply (Permutation_in _ Hperm). now apply nth_error_In in Ho. }
  split; [exact Ei|]. split.
  - destruct (position_loop_member _ _ _ _ _ _ _ Hin) as (v & Hv & Hvi & Hvc).
    rewrite <- Es in Hv. apply (Permutation_in _ (sorted_perm _ _)) in Hv.
    rewrite Hvc, (vehicle_data_class api n v Hv). congruence.
  - apply (position_loop_positive _ _ _ _ _ _ _ (Z.le_refl 0) Hin).
Qed.

(** What the loop of [create_position_in_class] does to two vehicles in a
    row. *)
Lemma position_loop_neighbours (sb : Q) (todo : list vehicle) :
  forall ic pos cb ah pre a b post,
  0 <= pos ->
  position_loop sb ic pos cb ah todo = pre ++ a :: b :: post ->
  (cp_class a = cp_class b ->
   cp_position b = cp_position a + 1
   /\ cp_behind a = cp_index b /\ cp_ahead b = cp_index a
   /\ cp_class_best b = cp_class_best a)
  /\ (cp_class a <> cp_class b ->
      cp_behind a = -1 /\ cp_position b = 1 /\ cp_ahead b = -1).
Proof.
  induction todo as [|v rest IH]; intros ic pos cb ah pre a b post Hpos E.
  - destruct pre; discriminate.
  - cbn [position_loop] in E.
    set (pos' := if String.eqb (veh_class v) ic then pos + 1 else 1) in *.
    assert (Hpos' : 1 <= pos') by (unfold pos'; destruct (String.eqb _ _); lia).
    set (ic' := if String.eqb (veh_class v) ic then ic else veh_class v) in *.
    assert (Eic : ic' = veh_class v).
    { unfold ic'. destruct (String.eqb (veh_class v) ic) eqn:Ev; [|reflexivity].
      symmetry. now apply String.eqb_eq. }
    destruct pre as [|x pre].
    + cbn [app] in E. injection E as Ea Eb.
      destruct rest as [|w rest']; [discriminate|].
      cbn [position_loop] in Eb. injection Eb as Eb _.
      subst a b. cbn [cp_class cp_position cp_behind cp_ahead cp_index cp_class_best].
      rewrite Eic.
      destruct (String.eqb (veh_class w) (veh_class v)) eqn:Ew.
      * apply String.eqb_eq in Ew. split; [intros _ | congruence].
        destruct (Z.eqb_spec (pos' + 1) 1); [lia|]. auto.
      * apply String.eqb_neq in Ew. split; [congruence | intros _]. auto.
    + cbn [app] in E. injection E as _ E.
      apply (IH _ _ _ _ _ _ _ _ (Z.le_trans _ _ _ Z.le_0_1 Hpos') E).
Qed.

(** X15. Neighbours in the list [create_position_in_class] yields: of two
    consecutive tuples, when they are of one class the second is one
    class position further, each names the other as the vehicle ahead or
    behind and both carry the same class best lap time; when they are not,
    the first has no vehicle behind, the second leads its class (position
    1, no vehicle ahead) and carries its own best lap time as the class
    best. *)
Theorem class_neighbours_are_linked (c : calc) (sorted_veh_class : list vehicle)
    (pre post : list class_pos) (a b : class_pos) :
  create_position_in_class c sorted_veh_class = Ok (pre ++ a :: b :: post) ->
  (cp_class a = cp_class b ->
   cp_position b = cp_position a + 1
   /\ cp_behind a = cp_index b /\ cp_ahead b = cp_index a
   /\ cp_class_best b = cp_class_best a)
  /\ (cp_class a <> cp_class b ->
      cp_behind a = -1 /\ cp_position b = 1 /\ cp_ahead b = -1).
Proof.
  unfold create_position_in_class.
  destruct sorted_veh_class as [|first rest]; [discriminate|].
  intro H.
  assert (E : forall l l' : list class_pos, Ok l = Ok l' -> l = l')
    by (intros l l' [= ->]; reflexivity).
  apply E in H.
  apply (position_loop_neighbours _ _ _ _ _ _ _ _ _ _ (Z.le_refl 0) H).
Qed.

End ClassPositions.

(** ** The wheel radius generator *)

Section WheelRadius.

Import Wheels.

Variable c : calc.

Local Abbreviation axle_pass := (Wheels.axle_pass c).
Local Abbreviation send := (Wheels.send c).
Local Abbreviation run := (Wheels.run c).

Lemma length_deque_append {A : Type} (maxlen : nat) (d : list A) (x : A) :
  List.length (deque_append maxlen d x) = Nat.min (List.length d + 1) maxlen.
Proof.
  unfold deque_append. rewrite length_skipn, length_app. cbn [List.length]. lia.
Qed.

Lemma slice_indices_values (n : Z) :
  In n [20; 40; 80; 160] ->
  exists lo, sample_slice_indices n = (lo, lo + n / 2)
             /\ 0 <= lo /\ lo + n / 2 <= n /\ 10 <= n / 2 <= 80.
Proof.
  intros [<- | [<- | [<- | [<- | []]]]];
    [exists 5 | exists 10 | exists 20 | exists 40];
    (split; [reflexivity|]); vm_compute; repeat split; discriminate.
Qed.

(** The slice of [n] sorted samples, for a sample count [n] of 20, 40,
    80 or 160, holds [n / 2] of them. *)
Lemma sliced_samples_length (n : Z) (l : list Q) :
  In n [20; 40; 80; 160] -> Z.of_nat (List.length l) = n ->
  Z.of_nat (List.length (sliced_samples l (sample_slice_indices n))) = n / 2.
Proof.
  intros Hn Hl.
  destruct (slice_indices_values n Hn) as (lo & -> & Hlo & Hhi & Hhalf).
  unfold sliced_samples. cbn [fst snd].
  fold (Relative.len (Py.slice (Py.sorted Qle_bool l) (Some lo)
                        (Some (lo + n / 2)))).
  rewrite len_slice_between by lia.
  unfold Relative.len. rewrite (Permutation_length (sorted_perm Qle_bool l)).
  lia.
Qed.

Lemma axle_pass_ok (speed rot_left rot_right radius : Q) (min_samples : Z)
    (samples_slice : Z * Z) (list_radius : list Q) :
  axle_ok min_samples samples_slice list_radius ->
  let '(radius', min_samples', samples_slice', list_radius') :=
    axle_pass speed rot_left rot_right radius min_samples samples_slice
      list_radius in
  axle_ok min_samples' samples_slice' list_radius'
  /\ (Z.of_nat (List.length list_radius')
      <= Z.of_nat (List.length list_radius) + 1)
  /\ ((radius' = radius /\ min_samples' = min_samples)
      \/ (Z.of_nat (List.length list_radius') = min_samples
          /\ radius' = round3 (mean c (sliced_samples list_radius'
                                         (sample_slice_indices min_samples))))).
Proof.
  intros (Hin & Hslice & Hlt & Hmax). unfold Wheels.axle_pass.
  set (list' := if (Py.Qltb 0 _ && Py.Qltb _ (1 # 10))%bool
                then deque_append 160 list_radius _ else list_radius).
  assert (Hlen : Z.of_nat (List.length list') <= Z.of_nat (List.length list_radius) + 1
                 /\ Z.of_nat (List.length list') <= 160).
  { unfold list'. destruct (_ && _)%bool.
    - rewrite length_deque_append. lia.
    - lia. }
  assert (Hset : min_samples = 20 \/ min_samples = 40 \/ min_samples = 80
                 \/ min_samples = 160).
  { cbn in Hin. intuition congruence. }
  destruct (Z.leb_spec min_samples (Z.of_nat (List.length list'))) as [Hge | Hlow].
  - assert (Heq : Z.of_nat (List.length list') = min_samples).
    { destruct (Z.lt_ge_cases min_samples 160) as [H | H];
        [specialize (Hlt H) |]; lia. }
    destruct (Z.ltb_spec min_samples 160) as [H160 | H160].
    + split; [|split; [lia|]].
      * unfold axle_ok. split; [|split; [reflexivity|split; [|lia]]].
        -- cbn. lia.
        -- intros _. lia.
      * right. split; [exact Heq|]. now rewrite Hslice.
    + split; [|split; [lia|]].
      * unfold axle_ok. split; [exact Hin|]. split; [exact Hslice|].
        split; [lia | lia].
      * right. split; [exact Heq|]. now rewrite Hslice.
  - split; [|split; [lia | left; now split]].
    unfold axle_ok. split; [exact Hin|]. split; [exact Hslice|].
    split; [intros _; lia | lia].
Qed.

Lemma start_ok (mcfg : config) (vehicle_id : string) :
  let s := calc_wheel_radius_start mcfg vehicle_id in
  axle_ok (min_samples_f s) (samples_slice_f s) (list_radius_f s)
  /\ axle_ok (min_samples_r s) (samples_slice_r s) (list_radius_r s).
Proof.
  unfold calc_wheel_radius_start, axle_ok.
  destruct (String.eqb (last_vehicle_info mcfg) vehicle_id);
    cbn [min_samples_f min_samples_r samples_slice_f samples_slice_r
         list_radius_f list_radius_r List.length In];
    repeat split; try lia; auto.
Qed.

(** What a value sent does to the two axles. *)
Lemma send_ok (s : state) (sent : Q * (Q * Q * Q * Q)) :
  axle_ok (min_samples_f s) (samples_slice_f s) (list_radius_f s) ->
  axle_ok (min_samples_r s) (samples_slice_r s) (list_radius_r s) ->
  let s' := send s sent in
  (axle_ok (min_samples_f s') (samples_slice_f s') (list_radius_f s')
   /\ axle_ok (min_samples_r s') (samples_slice_r s') (list_radius_r s'))
  /\ (Z.of_nat (List.length (list_radius_f s'))
       <= Z.of_nat (List.length (list_radius_f s)) + 1
       /\ Z.of_nat (List.length (list_radius_r s'))
          <= Z.of_nat (List.length (list_radius_r s)) + 1)
  /\ ((radius_front s' = radius_front s /\ min_samples_f s' = min_samples_f s)
       \/ (Z.of_nat (List.length (list_radius_f s')) = min_samples_f s
           /\ radius_front s'
              = round3 (mean c (sliced_samples (list_radius_f s')
                                  (sample_slice_indices (min_samples_f s))))))
  /\ ((radius_rear s' = radius_rear s /\ min_samples_r s' = min_samples_r s)
       \/ (Z.of_nat (List.length (list_radius_r s')) = min_samples_r s
           /\ radius_rear s'
              = round3 (mean c (sliced_samples (list_radius_r s')
                                  (sample_slice_indices (min_samples_r s)))))).
Proof.
  intros Hf Hr. destruct sent as [speed [[[rot0 rot1] rot2] rot3]].
  unfold Wheels.send.
  destruct (Py.Qltb 3 speed).
  - assert (Pf := axle_pass_ok speed rot0 rot1 (radius_front s) _ _ _ Hf).
    assert (Pr := axle_pass_ok speed rot2 rot3 (radius_rear s) _ _ _ Hr).
    destruct (axle_pass speed rot0 rot1 _ _ _ _) as [[[rf mf] sf] lf].
    destruct (axle_pass speed rot2 rot3 _ _ _ _) as [[[rr mr] sr] lr].
    cbn [radius_front radius_rear min_samples_f min_samples_r samples_slice_f
         samples_slice_r list_radius_f list_radius_r].
    destruct Pf as (Pf1 & Pf2 & Pf3). destruct Pr as (Pr1 & Pr2 & Pr3).
    split; [split; assumption|]. split; [split; assumption|].
    split; assumption.
  - cbv zeta. split; [split; assumption|]. split; [split; lia|].
    split; left; now split.
Qed.

(** X16. The sample counts of the generator: at any time each axle counts 20,
    40, 80 or 160 samples, slices its sorted samples by the bounds
    computed from that count, and holds at most 160 samples, fewer than
    the count while the count can still double. *)
Theorem wheel_sample_counts (mcfg : config) (vehicle_id : string)
    (sents : list (Q * (Q * Q * Q * Q))) :
  let s := run (calc_wheel_radius_start mcfg vehicle_id) sents in
  axle_ok (min_samples_f s) (samples_slice_f s) (list_radius_f s)
  /\ axle_ok (min_samples_r s) (samples_slice_r s) (list_radius_r s).
Proof.
  cbv zeta. generalize (start_ok mcfg vehicle_id). cbv zeta.
  generalize (calc_wheel_radius_start mcfg vehicle_id) as s.
  induction sents as [|x sents IH]; intros s [Hf Hr].
  - now split.
  - change (run s (x :: sents)) with (run (send s x) sents).
    apply IH. apply (send_ok s x Hf Hr).
Qed.

(** X17. Where a yielded radius comes from: it is the radius the generator
    started with, or the mean, rounded to 3 digits, of the middle half of
    20, 40, 80 or 160 sorted samples, that is of 10 to 80 samples, never
    of an empty list. *)
Theorem wheel_radius_is_midrange_mean (mcfg : config) (vehicle_id : string)
    (sents : list (Q * (Q * Q * Q * Q))) :
  let s0 := calc_wheel_radius_start mcfg vehicle_id in
  let explained (initial radius : Q) :=
    radius = initial
    \/ exists n samples,
         In n [20; 40; 80; 160]
         /\ Z.of_nat (List.length samples) = n
         /\ Z.of_nat (List.length
                        (sliced_samples samples (sample_slice_indices n)))
            = n / 2
         /\ radius
            = round3 (mean c (sliced_samples samples (sample_slice_indices n))) in
  explained (radius_front s0) (radius_front (run s0 sents))
  /\ explained (radius_rear s0) (radius_rear (run s0 sents)).
Proof.
  cbv zeta.
  assert (Hgen : forall s,
    axle_ok (min_samples_f s) (samples_slice_f s) (list_radius_f s) ->
    axle_ok (min_samples_r s) (samples_slice_r s) (list_radius_r s) ->
    forall f0 r0,
    (radius_front s = f0
     \/ exists n samples,
          In n [20; 40; 80; 160]
          /\ Z.of_nat (List.length samples) = n
          /\ Z.of_nat (List.length
                         (sliced_samples samples (sample_slice_indices n)))
             = n / 2
          /\ radius_front s
             = round3 (mean c (sliced_samples samples (sample_slice_indices n)))) ->
    (radius_rear s = r0
     \/ exists n samples,
          In n [20; 40; 80; 160]
          /\ Z.of_nat (List.length samples) = n
          /\ Z.of_nat (List.length
                         (sliced_samples samples (sample_slice_indices n)))
             = n / 2
          /\ radius_rear s
             = round3 (mean c (sliced_samples samples (sample_slice_indices n)))) ->
    (radius_front (run s sents) = f0
     \/ exists n samples,
          In n [20; 40; 80; 160]
          /\ Z.of_nat (List.length samples) = n
          /\ Z.of_nat (List.length
                         (sliced_samples samples (sample_slice_indices n)))
             = n / 2
          /\ radius_front (run s sents)
             = round3 (mean c (sliced_samples samples (sample_slice_indices n))))
    /\ (radius_rear (run s sents) = r0
        \/ exists n samples,
             In n [20; 40; 80; 160]
             /\ Z.of_nat (List.length samples) = n
             /\ Z.of_nat (List.length
                            (sliced_samples samples (sample_slice_indices n)))
                = n / 2
             /\ radius_rear (run s sents)
                = round3 (mean c (sliced_samples samples
                                    (sample_slice_indices n))))).
  { induction sents as [|x sents IH]; intros s Hf Hr f0 r0 Ef Er.
    - now split.
    - change (run s (x :: sents)) with (run (send s x) sents).
      destruct (send_ok s x Hf Hr) as ((Hf' & Hr') & _ & Cf & Cr).
      apply IH; try assumption.
      + destruct Cf as [[-> _] | [Hlen ->]]; [exact Ef | right].
        exists (min_samples_f s), (list_radius_f (send s x)).
        destruct Hf as (Hin & _).
        split; [exact Hin|]. split; [exact Hlen|]. split; [|reflexivity].
        now apply sliced_samples_length.
      + destruct Cr as [[-> _] | [Hlen ->]]; [exact Er | right].
        exists (min_samples_r s), (list_radius_r (send s x)).
        destruct Hr as (Hin & _).
        split; [exact Hin|]. split; [exact Hlen|]. split; [|reflexivity].
        now apply sliced_samples_length. }
  destruct (start_ok mcfg vehicle_id) as [Hf Hr].
  apply Hgen; auto.
Qed.

(** X18. Radii saved for a vehicle are kept when the data source comes back
    with the same vehicle: [update_data] stores radii that are both
    non-zero, the next generator starts from them, and it yields them for
    as long as fewer than 160 values have been sent to it. *)
Theorem saved_radius_is_kept (mcfg : config) (vehicle_id : string)
    (front rear : Q) (sents : list (Q * (Q * Q * Q * Q))) :
  ~ front == 0 -> ~ rear == 0 ->
  (List.length sents < 160)%nat ->
  yielded (run (calc_wheel_radius_start
                  (save_radius mcfg vehicle_id front rear) vehicle_id) sents)
  = (front, rear).
Proof.
  intros Hfz Hrz Hlen.
  unfold save_radius.
  rewrite (proj2 (Qeq_bool_false front 0) Hfz), (proj2 (Qeq_bool_false rear 0) Hrz).
  cbn [negb andb]. unfold calc_wheel_radius_start. cbn [last_vehicle_info].
  rewrite String.eqb_refl.
  cbn [last_wheel_radius_front last_wheel_radius_rear].
  set (s0 := {| radius_front := front |}).
  assert (Hgen : forall s,
    axle_ok (min_samples_f s) (samples_slice_f s) (list_radius_f s) ->
    axle_ok (min_samples_r s) (samples_slice_r s) (list_radius_r s) ->
    min_samples_f s = 160 -> min_samples_r s = 160 ->
    Z.of_nat (List.length (list_radius_f s)) + Z.of_nat (List.length sents) < 160 ->
    Z.of_nat (List.length (list_radius_r s)) + Z.of_nat (List.length sents) < 160 ->
    yielded (run s sents) = yielded s).
  { clear Hlen. induction sents as [|x sents IH]; intros s Hf Hr Mf Mr Lf Lr.
    - reflexivity.
    - change (run s (x :: sents)) with (run (send s x) sents).
      cbn [List.length] in Lf, Lr.
      destruct (send_ok s x Hf Hr) as ((Hf' & Hr') & (Gf & Gr) & Cf & Cr).
      assert (Ef : radius_front (send s x) = radius_front s
                   /\ min_samples_f (send s x) = min_samples_f s)
        by (destruct Cf as [E | [E _]]; [exact E | lia]).
      assert (Er : radius_rear (send s x) = radius_rear s
                   /\ min_samples_r (send s x) = min_samples_r s)
        by (destruct Cr as [E | [E _]]; [exact E | lia]).
      destruct Ef as [Ef Mf']. destruct Er as [Er Mr'].
      rewrite Mf in Mf'. rewrite Mr in Mr'.
      rewrite (IH (send s x) Hf' Hr' Mf' Mr'); [|lia|lia].
      unfold yielded. now rewrite Ef, Er. }
  destruct (start_ok {| last_vehicle_info := vehicle_id;
                        last_wheel_radius_front := front;
                        last_wheel_radius_rear := rear |} vehicle_id) as [Hf Hr].
  unfold calc_wheel_radius_start in Hf, Hr. cbn [last_vehicle_info] in Hf, Hr.
  rewrite String.eqb_refl in Hf, Hr.
  rewrite (Hgen s0); [reflexivity | exact Hf | exact Hr | reflexivity
                      | reflexivity | cbn; lia | cbn; lia].
Qed.

End WheelRadius.

(** ** Update intervals, widget rows, text helpers *)

Section Intervals.

Import DataModule.
Local Open Scope Q_scope.

(** X19. The update intervals of a data module, in seconds: neither is
    shorter than the compatibility minimum, the active one is not
    shorter than the module's active setting nor the idle one than its
    idle setting, and the idle interval is not shorter than the active
    one whenever the idle setting is not below the active setting. *)
Theorem update_intervals_respect_minimum
    (update_interval idle_update_interval minimum_update_interval : Q) :
  let active := active_interval update_interval minimum_update_interval in
  let idle :=
    idle_interval update_interval idle_update_interval minimum_update_interval in
  minimum_update_interval / 1000 <= active
  /\ update_interval / 1000 <= active
  /\ minimum_update_interval / 1000 <= idle
  /\ idle_update_interval / 1000 <= idle
  /\ (update_interval <= idle_update_interval -> active <= idle).
Proof.
  cbv zeta. unfold idle_interval, active_interval.
  set (a := Py.max update_interval minimum_update_interval).
  set (b := Py.max (a / 1000) idle_update_interval).
  set (d := Py.max b minimum_update_interval).
  assert (Ha1 := py_max_ge_l update_interval minimum_update_interval).
  assert (Ha2 := py_max_ge_r update_interval minimum_update_interval).
  assert (Hb1 := py_max_ge_l (a / 1000) idle_update_interval).
  assert (Hb2 := py_max_ge_r (a / 1000) idle_update_interval).
  assert (Hd1 := py_max_ge_l b minimum_update_interval).
  assert (Hd2 := py_max_ge_r b minimum_update_interval).
  fold a in Ha1, Ha2. fold b in Hb1, Hb2, Hd1, Hd2. fold d in Hd1, Hd2.
  assert (Hdiv : forall x y, x <= y -> x / 1000 <= y / 1000).
  { intros x y H. unfold Qdiv. apply Qmult_le_compat_r; [exact H|].
    discriminate. }
  repeat split; try (apply Hdiv; lra).
  intro Hui. apply Hdiv.
  assert (Ha3 : a <= d).
  { unfold a, Py.max at 1.
    destruct (Py.Qltb update_interval minimum_update_interval); lra. }
  exact Ha3.
Qed.

End Intervals.

Section Directions.

Import Text.
Local Open Scope Q_scope.

Ltac qbool :=
  repeat match goal with
  | |- context [Qle_bool ?a ?b] =>
      first [ replace (Qle_bool a b) with true
                by (symmetry; apply Qle_bool_iff; lra)
            | replace (Qle_bool a b) with false
                by (symmetry; apply Qle_bool_false; lra) ]
  | |- context [Py.Qltb ?a ?b] =>
      first [ replace (Py.Qltb a b) with true
                by (symmetry; apply Qltb_lt; lra)
            | replace (Py.Qltb a b) with false
                by (symmetry; apply Qltb_ge; lra) ]
  end.

(** X28. [deg2direction] returns a text for every number: its eight branches
    leave no gap, so that [text] is always bound; the four main
    directions own the bounds of their sectors, North taking every
    number up to 22.5 and from 337.5 on. *)
Theorem deg2direction_covers_all (degrees : Q) :
  (exists text,
     deg2direction degrees = Some text
     /\ In text [" N"; "NE"; " E"; "SE"; " S"; "SW"; " W"; "NW"]%string)
  /\ (degrees <= 225 # 10 \/ 3375 # 10 <= degrees <->
      deg2direction degrees = Some " N"%string)
  /\ (675 # 10 <= degrees <= 1125 # 10 <->
      deg2direction degrees = Some " E"%string)
  /\ (1575 # 10 <= degrees <= 2025 # 10 <->
      deg2direction degrees = Some " S"%string)
  /\ (2475 # 10 <= degrees <= 2925 # 10 <->
      deg2direction degrees = Some " W"%string).
Proof.
  assert (Hcases :
    degrees <= 225 # 10
    \/ (225 # 10 < degrees /\ degrees < 675 # 10)
    \/ (675 # 10 <= degrees /\ degrees <= 1125 # 10)
    \/ (1125 # 10 < degrees /\ degrees < 1575 # 10)
    \/ (1575 # 10 <= degrees /\ degrees <= 2025 # 10)
    \/ (2025 # 10 < degrees /\ degrees < 2475 # 10)
    \/ (2475 # 10 <= degrees /\ degrees <= 2925 # 10)
    \/ (2925 # 10 < degrees /\ degrees < 3375 # 10)
    \/ 3375 # 10 <= degrees).
  { destruct (Qlt_le_dec (225 # 10) degrees); [|now left].
    destruct (Qlt_le_dec degrees (675 # 10)); [right; left; now split|].
    destruct (Qlt_le_dec (1125 # 10) degrees); [|right; right; left; now split].
    destruct (Qlt_le_dec degrees (1575 # 10));
      [right; right; right; left; now split|].
    destruct (Qlt_le_dec (2025 # 10) degrees);
      [|right; right; right; right; left; now split].
    destruct (Qlt_le_dec degrees (2475 # 10));
      [right; right; right; right; right; left; now split|].
    destruct (Qlt_le_dec (2925 # 10) degrees);
      [|right; right; right; right; right; right; left; now split].
    destruct (Qlt_le_dec degrees (3375 # 10));
      [right; right; right; right; right; right; right; left; now split|].
    now repeat right. }
  assert (Hval :
    (degrees <= 225 # 10 \/ 3375 # 10 <= degrees) /\ deg2direction degrees = Some " N"%string
    \/ (225 # 10 < degrees /\ degrees < 675 # 10) /\ deg2direction degrees = Some "NE"%string
    \/ (675 # 10 <= degrees /\ degrees <= 1125 # 10) /\ deg2direction degrees = Some " E"%string
    \/ (1125 # 10 < degrees /\ degrees < 1575 # 10) /\ deg2direction degrees = Some "SE"%string
    \/ (1575 # 10 <= degrees /\ degrees <= 2025 # 10) /\ deg2direction degrees = Some " S"%string
    \/ (2025 # 10 < degrees /\ degrees < 2475 # 10) /\ deg2direction degrees = Some "SW"%string
    \/ (2475 # 10 <= degrees /\ degrees <= 2925 # 10) /\ deg2direction degrees = Some " W"%string
    \/ (2925 # 10 < degrees /\ degrees < 3375 # 10) /\ deg2direction degrees = Some "NW"%string).
  { unfold deg2direction.
    destruct Hcases as [H | [H | [H | [H | [H | [H | [H | [H | H]]]]]]]].
    - left. split; [now left|]. qbool. reflexivity.
    - right; left. split; [exact H|]. qbool. reflexivity.
    - do 2 right; left. split; [exact H|]. qbool. reflexivity.
    - do 3 right; left. split; [exact H|]. qbool. reflexivity.
    - do 4 right; left. split; [exact H|]. qbool. reflexivity.
    - do 5 right; left. split; [exact H|]. qbool. reflexivity.
    - do 6 right; left. split; [exact H|]. qbool. reflexivity.
    - do 7 right. split; [exact H|]. qbool. reflexivity.
    - left. split; [now right|]. qbool. reflexivity. }
  split; [|split; [|split; [|split]]].
  - destruct Hval as [[_ E] | [[_ E] | [[_ E] | [[_ E] | [[_ E] | [[_ E]
      | [[_ E] | [_ E]]]]]]]]; rewrite E; eexists; (split; [reflexivity|]);
      cbn; tauto.
  - split.
    + intro H.
      destruct Hval as [[_ E] | [[H' E] | [[H' E] | [[H' E] | [[H' E] | [[H' E]
        | [[H' E] | [H' E]]]]]]]]; try exact E; exfalso; lra.
    + intro E0.
      destruct Hval as [[H' E] | [[H' E] | [[H' E] | [[H' E] | [[H' E] | [[H' E]
        | [[H' E] | [H' E]]]]]]]]; try exact H'; rewrite E0 in E; discriminate.
  - split.
    + intro H.
      destruct Hval as [[H' E] | [[H' E] | [[H' E] | [[H' E] | [[H' E] | [[H' E]
        | [[H' E] | [H' E]]]]]]]]; try exact E; exfalso; lra.
    + intro E0.
      destruct Hval as [[H' E] | [[H' E] | [[H' E] | [[H' E] | [[H' E] | [[H' E]
        | [[H' E] | [H' E]]]]]]]]; try exact H'; rewrite E0 in E; discriminate.
  - split.
    + intro H.
      destruct Hval as [[H' E] | [[H' E] | [[H' E] | [[H' E] | [[H' E] | [[H' E]
        | [[H' E] | [H' E]]]]]]]]; try exact E; exfalso; lra.
    + intro E0.
      destruct Hval as [[H' E] | [[H' E] | [[H' E] | [[H' E] | [[H' E] | [[H' E]
        | [[H' E] | [H' E]]]]]]]]; try exact H'; rewrite E0 in E; discriminate.
  - split.
    + intro H.
      destruct Hval as [[H' E] | [[H' E] | [[H' E] | [[H' E] | [[H' E] | [[H' E]
        | [[H' E] | [H' E]]]]]]]]; try exact E; exfalso; lra.
    + intro E0.
      destruct Hval as [[H' E] | [[H' E] | [[H' E] | [[H' E] | [[H' E] | [[H' E]
        | [[H' E] | [H' E]]]]]]]]; try exact H'; rewrite E0 in E; discriminate.
Qed.

End Directions.

Section PresetName.

Import Text Relative.

(** X29. The preset name the tray menu shows is the file name without its
    last five characters, cut to its first 16 characters and three dots
    when it is longer than 16: never more than 19 characters. *)
Theorem preset_name_is_short {A : Type} (dot : A) (filename : list A) :
  len (format_preset_name dot filename) <= 19
  /\ forall stem extension,
       filename = stem ++ extension -> len extension = 5 ->
       (len stem <= 16 -> format_preset_name dot filename = stem)
       /\ (16 < len stem ->
           format_preset_name dot filename = firstn 16 stem ++ [dot; dot; dot]).
Proof.
  unfold format_preset_name.
  set (name := Py.slice filename None (Some (-5))).
  split.
  - destruct (Z.ltb_spec 16 (len name)).
    + rewrite len_app, len_slice_upto by lia. unfold len at 2. cbn. lia.
    + lia.
  - intros stem extension -> Hext.
    assert (Hname : name = stem).
    { unfold name, Py.slice, Py.slice_bound. cbv zeta.
      rewrite length_app. unfold len in Hext.
      destruct (Z.ltb_spec (-5) 0); [|lia].
      cbn [skipn Z.to_nat].
      replace (Z.to_nat (Z.max (-5 + Z.of_nat (List.length stem + List.length extension)) 0 - 0))
        with (List.length stem + 0)%nat by lia.
      rewrite firstn_app_2. cbn. apply app_nil_r. }
    rewrite Hname. split; intro H.
    + destruct (Z.ltb_spec 16 (len stem)); [lia | reflexivity].
    + destruct (Z.ltb_spec 16 (len stem)); [|lia].
      f_equal. unfold Py.slice, Py.slice_bound. cbv zeta.
      destruct (Z.ltb_spec 16 0); [lia|]. cbn [skipn Z.to_nat].
      fold (len stem).
      replace (Z.to_nat (Z.min 16 (len stem) - 0)) with 16%nat by lia.
      reflexivity.
Qed.

End PresetName.

Section WidgetRows.

Import Relative RelativeWidget.

Lemma traverse_map {A B : Type} (f : A -> result B) (g : A -> B) (l : list A) :
  (forall x, In x l -> f x = Ok (g x)) -> traverse f l = Ok (map g l).
Proof.
  induction l as [|a l IH]; intro H; [reflexivity|].
  cbn [traverse map]. rewrite (H a (or_introl eq_refl)). cbn [bind].
  rewrite IH by (intros x Hx; apply H; now right). reflexivity.
Qed.

Lemma map_nth_range {A : Type} (l : list A) (d : A) :
  map (fun idx => nth (Z.to_nat idx) l d) (Py.range 0 (len l)) = l.
Proof.
  unfold Py.range, len. rewrite map_map.
  replace (Z.to_nat (Z.of_nat (List.length l) - 0)) with (List.length l) by lia.
  rewrite <- (map_ext (fun k => nth k l d)).
  - clear. induction l as [|a l IH]; [reflexivity|].
    cbn [List.length seq map nth]. f_equal.
    rewrite <- seq_shift, map_map. exact IH.
  - intro k. f_equal. lia.
Qed.

(** X11. The rows of the relative widget and the relative list of the module
    fit: for the same settings of the additional slots the widget has as
    many rows as a non-empty relative list has entries, reading the list
    raises no [IndexError], and row [idx] shows the vehicle of entry
    [idx], or nothing where the entry is the placeholder -1. *)
Theorem widget_rows_follow_relative_list (c : Relative.calc) (cfg : settings)
    (api : snapshot) (total_veh_idx : Z) :
  relative c cfg api <> [] ->
  Z.max (total_vehicles api) 1 <= total_veh_idx ->
  veh_range (additional_players_front cfg) (additional_players_behind cfg)
  = len (relative c cfg api)
  /\ timer_rows
       (veh_range (additional_players_front cfg) (additional_players_behind cfg))
       (relative c cfg api) total_veh_idx
     = Ok (Some (map (fun index => if index =? -1 then None else Some index)
                     (relative c cfg api))).
Proof.
  intros Hne Htotal.
  destruct (relative_vehicles c cfg api) as [_ Hin].
  assert (Hlen : len (relative c cfg api)
                 = 7 + Z.min (Z.max (additional_players_front cfg) 0) 60
                   + Z.min (Z.max (additional_players_behind cfg) 0) 60).
  { revert Hne. unfold relative, max_relative_vehicles.
    set (rel := sorted_reverse _). intro Hne.
    apply create_relative_index_length; [|lia|lia].
    intro E. apply Hne. now rewrite E. }
  assert (Helem : forall i, In i (relative c cfg api) ->
                    i = -1 \/ 0 <= i < Z.max (total_vehicles api) 1).
  { intros i Hi. revert Hi. unfold relative, max_relative_vehicles.
    set (rel := sorted_reverse _) in *. intro Hi.
    apply create_relative_index_elements in Hi.
    destruct Hi as [Hi | Hi]; [right | now left].
    apply Hin in Hi. tauto. }
  assert (Hrange : veh_range (additional_players_front cfg)
                     (additional_players_behind cfg)
                   = len (relative c cfg api)).
  { unfold veh_range. rewrite Hlen. lia. }
  split; [exact Hrange|].
  rewrite Hrange. unfold timer_rows.
  destruct (relative c cfg api) as [|r0 rest] eqn:Erel; [congruence|].
  rewrite <- Erel in *.
  rewrite (traverse_map _
             (fun idx => let index := nth (Z.to_nat idx) (relative c cfg api) (-1) in
                         if index =? -1 then None else Some index)).
  - cbn [bind]. do 2 f_equal.
    rewrite <- (map_nth_range (relative c cfg api) (-1)) at 2.
    now rewrite map_map.
  - intros idx Hidx. apply in_range in Hidx.
    unfold row_source.
    destruct (Z.ltb_spec idx (len (relative c cfg api))); [|lia].
    unfold Py.index. destruct (Z.ltb_spec idx 0); [lia|].
    assert (Hnth : nth_error (relative c cfg api) (Z.to_nat idx)
                   = Some (nth (Z.to_nat idx) (relative c cfg api) (-1))).
    { apply nth_error_nth'. unfold len in *. lia. }
    rewrite Hnth. cbv zeta.
    set (index := nth (Z.to_nat idx) (relative c cfg api) (-1)).
    assert (Hi : In index (relative c cfg api)).
    { apply nth_In. unfold len in *. lia. }
    destruct (Helem index Hi) as [-> | Hr]; [reflexivity|].
    destruct (Z.leb_spec 0 index); [|lia].
    destruct (Z.ltb_spec index total_veh_idx); [|lia].
    destruct (Z.eqb_spec index (-1)); [lia | reflexivity].
Qed.

End WidgetRows.

(** ** Setting files *)

Section SettingFiles.

Import Setting.

Variable dict : Type.
Variable dict_eqb : dict -> dict -> bool.
Variable dumped : dict -> file dict.

Local Abbreviation store := (Setting.store dict).
Local Abbreviation write := (Setting.write dict).
Local Abbreviation saving := (Setting.saving dict dict_eqb dumped).
Local Abbreviation saving_attempts := (Setting.saving_attempts dict dict_eqb dumped).
Local Abbreviation dump_verifies := (Setting.dump_verifies dict dict_eqb dumped).

Lemma string_length_append (a b : string) :
  String.length (a ++ b) = (String.length a + String.length b)%nat.
Proof. induction a as [|ch a IH]; cbn; [reflexivity | now rewrite IH]. Qed.

Lemma backup_path_differs (filepath filename : string) :
  (filepath ++ filename ++ ".bak")%string <> (filepath ++ filename)%string.
Proof.
  intro E. apply (f_equal String.length) in E.
  rewrite !string_length_append in E. cbn in E. lia.
Qed.

Lemma write_same (fs : store) (path : string) (f : file dict) :
  write fs path f path = f.
Proof. unfold Setting.write. now rewrite String.eqb_refl. Qed.

Lemma write_other (fs : store) (path p : string) (f : file dict) :
  p <> path -> write fs path f p = fs p.
Proof.
  intro H. unfold Setting.write.
  now rewrite (proj2 (String.eqb_neq p path) H).
Qed.

Section OneFile.

Variables (filename filepath : string) (dict_user : dict).

Local Abbreviation path := (filepath ++ filename)%string.
Local Abbreviation bak := (filepath ++ filename ++ ".bak")%string.

Lemma verify_after_save (fs : store) :
  verify_json_file dict dict_eqb filename filepath dict_user
    (save_json_file dict dumped filename filepath dict_user fs)
  = dump_verifies dict_user.
Proof.
  unfold verify_json_file, save_json_file. rewrite write_same. reflexivity.
Qed.

Lemma saving_attempts_outcome (attempts : nat) (fs : store) :
  (1 <= attempts)%nat ->
  let '(fs', remaining) := saving_attempts attempts filename filepath dict_user fs in
  fs' path = dumped dict_user
  /\ (forall p, p <> path -> fs' p = fs p)
  /\ remaining = (if dump_verifies dict_user then attempts else O).
Proof.
  revert fs. induction attempts as [|n IH]; intros fs Hn; [lia|].
  cbn [Setting.saving_attempts]. rewrite verify_after_save.
  destruct (dump_verifies dict_user) eqn:Ev.
  - split; [apply write_same|]. split; [|reflexivity].
    intros p Hp. now apply write_other.
  - destruct n as [|n].
    + cbn [Setting.saving_attempts].
      split; [apply write_same|]. split; [|reflexivity].
      intros p Hp. now apply write_other.
    + specialize (IH (save_json_file dict dumped filename filepath dict_user fs)
                     ltac:(lia)).
      destruct (saving_attempts (S n) filename filepath dict_user _) as [fs' remaining].
      destruct IH as (H1 & H2 & H3).
      split; [exact H1|]. split; [|exact H3].
      intros p Hp. rewrite (H2 p Hp). now apply write_other.
Qed.

Lemma saving_outcome (maximum_saving_attempts : Z) (fs : store) :
  let '(fs', saved) :=
    saving maximum_saving_attempts filename filepath dict_user fs in
  fs' bak = Absent
  /\ (forall p, p <> path -> p <> bak -> fs' p = fs p)
  /\ saved = dump_verifies dict_user
  /\ fs' path
     = if dump_verifies dict_user then dumped dict_user
       else match fs path with
            | Absent => match fs bak with
                        | Absent => dumped dict_user
                        | stale => stale
                        end
            | old => old
            end.
Proof.
  unfold Setting.saving.
  set (fs0 := backup_old_json_file dict filename filepath fs).
  assert (H0 : fs0 path = fs path
               /\ fs0 bak = match fs path with Absent => fs bak | old => old end
               /\ forall p, p <> bak -> fs0 p = fs p).
  { unfold fs0, backup_old_json_file, copyfile.
    assert (Hd := backup_path_differs filepath filename).
    destruct (fs path) eqn:E.
    - repeat split; auto.
    - rewrite write_other by congruence. rewrite write_same.
      repeat split; auto. intros p Hp. now apply write_other.
    - rewrite write_other by congruence. rewrite write_same.
      repeat split; auto. intros p Hp. now apply write_other. }
  destruct H0 as (H0p & H0b & H0o).
  assert (Hn : (1 <= Z.to_nat (Z.max maximum_saving_attempts 3))%nat) by lia.
  assert (Ha := saving_attempts_outcome _ fs0 Hn).
  destruct (saving_attempts _ filename filepath dict_user fs0) as [fs1 remaining].
  destruct Ha as (H1p & H1o & Hleft).
  assert (Hd := backup_path_differs filepath filename).
  assert (Hsaved : (0 <? remaining)%nat = dump_verifies dict_user).
  { rewrite Hleft. destruct (dump_verifies dict_user); [|reflexivity].
    apply Nat.ltb_lt. lia. }
  rewrite Hsaved.
  unfold delete_old_json_file.
  split; [apply write_same|]. split; [|split; [reflexivity|]].
  - intros p Hp Hb. rewrite write_other by exact Hb.
    destruct (dump_verifies dict_user).
    + rewrite (H1o p Hp). now apply H0o.
    + unfold restore_old_json_file, copyfile.
      destruct (fs1 bak); [| rewrite write_other by exact Hp
                           | rewrite write_other by exact Hp];
        rewrite (H1o p Hp); now apply H0o.
  - rewrite write_other by congruence.
    destruct (dump_verifies dict_user); [exact H1p|].
    unfold restore_old_json_file, copyfile.
    rewrite (H1o bak Hd), H0b.
    destruct (fs path) eqn:Ep.
    + destruct (fs bak) eqn:Eb; [exact H1p | apply write_same | apply write_same].
    + apply write_same.
    + apply write_same.
Qed.

(** X21. Saving a setting file is all or nothing: whatever the configured
    number of attempts, [__saving] leaves no [.bak] file and touches no
    file but the setting file and its [.bak]; when the dictionary is
    read back from the file equal to itself the file holds it and the
    setting counts as saved; when it is not, after every attempt failed,
    the file that was there before is back (the file is left as written
    only where there was none before, nor a [.bak] from earlier). *)
Theorem saving_is_all_or_nothing (maximum_saving_attempts : Z) (fs : store) :
  let '(fs', saved) :=
    saving maximum_saving_attempts filename filepath dict_user fs in
  fs' bak = Absent
  /\ (forall p, p <> path -> p <> bak -> fs' p = fs p)
  /\ saved = dump_verifies dict_user
  /\ fs' path
     = if dump_verifies dict_user then dumped dict_user
       else match fs path with
            | Absent => match fs bak with
                        | Absent => dumped dict_user
                        | stale => stale
                        end
            | old => old
            end.
Proof. apply saving_outcome. Qed.

(** X22. A setting that was saved loads back: after [__saving] on a
    dictionary that is read back equal to itself, [load_style_json_file]
    and [verify_json_file] find it in the file, and loading leaves the
    files as they are. *)
Theorem saved_setting_loads_back (maximum_saving_attempts : Z) (fs : store)
    (dict_def : dict) :
  dump_verifies dict_user = true ->
  let '(fs', saved) :=
    saving maximum_saving_attempts filename filepath dict_user fs in
  saved = true
  /\ verify_json_file dict dict_eqb filename filepath dict_user fs' = true
  /\ exists loaded,
       load_style_json_file dict dumped filename filepath dict_def fs'
       = (fs', loaded)
       /\ dict_eqb loaded dict_user = true.
Proof.
  intro Hv.
  assert (H := saving_outcome maximum_saving_attempts fs).
  destruct (saving maximum_saving_attempts filename filepath dict_user fs)
    as [fs' saved].
  destruct H as (_ & _ & Hs & Hp). rewrite Hv in Hs, Hp.
  split; [exact Hs|].
  unfold Setting.dump_verifies in Hv.
  unfold verify_json_file, load_style_json_file. rewrite Hp.
  destruct (dumped dict_user) as [| d |]; try discriminate.
  split; [exact Hv|]. now exists d.
Qed.

End OneFile.

End SettingFiles.

(** ** The preset list *)

Section PresetList.

Import Relative Setting.

Variable allowed : list ascii -> bool.

Local Abbreviation stem filename := (Py.slice filename None (Some (-5))).
Local Abbreviation default := (list_ascii_of_string "default").

Lemma preset_order : tuple_order preset_compare.
Proof.
  unfold preset_compare.
  apply (tuple_order_lex (fun a b => Qcompare (fst a) (fst b))).
  - apply tuple_order_Q.
  - apply (tuple_order_string (fun a => string_of_list_ascii (snd a))).
Qed.

(** The tuples [(mtime, name)] of the JSON files of a listing. *)
Lemma raw_cfg_entries (listing : list (list ascii * Q)) (e : Q * list ascii) :
  In e (flat_map (fun entry =>
                    if is_json_name (fst entry)
                    then [(snd entry, stem (fst entry))] else [])
                 listing)
  <-> exists filename mtime,
        In (filename, mtime) listing /\ is_json_name filename = true
        /\ e = (mtime, stem filename).
Proof.
  rewrite in_flat_map. split.
  - intros ([filename mtime] & Hin & He). cbn [fst snd] in He.
    destruct (is_json_name filename) eqn:E; [|destruct He].
    destruct He as [<- | []]. now exists filename, mtime.
  - intros (filename & mtime & Hin & Hj & ->).
    exists (filename, mtime). split; [exact Hin|]. cbn [fst snd].
    rewrite Hj. now left.
Qed.

Lemma filter_strongly_sorted {A : Type} (R : A -> A -> Prop) (f : A -> bool)
    (l : list A) :
  StronglySorted R l -> StronglySorted R (filter f l).
Proof.
  induction 1 as [|a l Hs IH Ha]; cbn; [constructor|].
  destruct (f a); [|exact IH].
  constructor; [exact IH|].
  apply Forall_forall. intros x Hx. apply filter_In in Hx.
  rewrite Forall_forall in Ha. now apply Ha.
Qed.

Lemma preset_leb_mtime (a b : Q * list ascii) :
  leb_of preset_compare a b = true -> (fst a <= fst b)%Q.
Proof.
  unfold leb_of, preset_compare, lex.
  destruct (Qcompare (fst a) (fst b)) eqn:E; cbn; intro H.
  - apply Qeq_alt in E. rewrite E. apply Qle_refl.
  - apply Qlt_alt in E. now apply Qlt_le_weak.
  - discriminate.
Qed.

Lemma preset_list_cases (listing : list (list ascii * Q)) :
  let raw := flat_map (fun entry =>
                         if is_json_name (fst entry)
                         then [(snd entry, stem (fst entry))] else [])
                      listing in
  let kept := filter (fun entry => allowed (snd entry))
                (Py.sorted (fun a b => leb_of preset_compare b a) raw) in
  (kept = [] /\ load_preset_list allowed listing = [default])
  \/ (kept <> [] /\ load_preset_list allowed listing = map snd kept).
Proof.
  cbv zeta. unfold load_preset_list.
  destruct (flat_map _ listing) as [|r0 raw'] eqn:Eraw.
  - left. split; reflexivity.
  - destruct (filter _ (Py.sorted _ (r0 :: raw'))) as [|k0 kept'] eqn:Ek.
    + left. split; reflexivity.
    + right. split; [discriminate | reflexivity].
Qed.

(** X23. [load_preset_list] never returns an empty list, so that taking its
    first element at start-up raises no [IndexError]; each of its names
    is ["default"] or the name, without its last five characters, of a
    listed file that ends in ".json" in any letter case and passes the
    file name check. *)
Theorem preset_list_is_never_empty (listing : list (list ascii * Q)) :
  load_preset_list allowed listing <> []
  /\ forall name, In name (load_preset_list allowed listing) ->
       name = default
       \/ (allowed name = true
           /\ exists filename mtime,
                In (filename, mtime) listing
                /\ is_json_name filename = true
                /\ name = stem filename).
Proof.
  destruct (preset_list_cases listing) as [[_ ->] | [Hne ->]]; cbv zeta.
  - split; [discriminate|]. intros name [<- | []]. now left.
  - split.
    + intro E. apply map_eq_nil in E. contradiction.
    + intros name Hin. right.
      apply in_map_iff in Hin. destruct Hin as (e & <- & He).
      apply filter_In in He. destruct He as [He Ha].
      split; [exact Ha|].
      apply (Permutation_in _ (sorted_perm _ _)) in He.
      apply raw_cfg_entries in He.
      destruct He as (filename & mtime & H1 & H2 & ->).
      now exists filename, mtime.
Qed.

(** X24. The preset loaded at start-up, the first of the list, is the most
    recently modified one: whenever some listed JSON file passes the file
    name check, the first name is that of a listed JSON file modified no
    earlier than any file that passes the check. *)
Theorem newest_preset_comes_first (listing : list (list ascii * Q))
    (filename : list ascii) (mtime : Q) :
  In (filename, mtime) listing ->
  is_json_name filename = true ->
  allowed (stem filename) = true ->
  exists newest newest_mtime,
    In (newest, newest_mtime) listing
    /\ is_json_name newest = true
    /\ allowed (stem newest) = true
    /\ hd [] (load_preset_list allowed listing) = stem newest
    /\ (mtime <= newest_mtime)%Q.
Proof.
  intros Hin Hjson Hallowed.
  destruct (preset_list_cases listing) as [[Hk _] | [Hne ->]]; cbv zeta in *;
    set (leb := fun a b : Q * list ascii => leb_of preset_compare b a) in *;
    assert (Htotal : forall a b, leb a b = true \/ leb b a = true)
      by (intros a b; unfold leb; apply (leb_of_total _ preset_order));
    assert (Htrans : forall a b c,
               leb a b = true -> leb b c = true -> leb a c = true)
      by (intros a b c Hab Hbc; unfold leb in *;
          now apply (leb_of_trans _ preset_order c b a)).
  - exfalso.
    assert (He : In (mtime, stem filename)
                   (filter (fun entry => allowed (snd entry))
                      (Py.sorted leb
                         (flat_map (fun entry =>
                            if is_json_name (fst entry)
                            then [(snd entry, stem (fst entry))] else [])
                            listing)))).
    { apply filter_In. split; [|exact Hallowed].
      apply (Permutation_in _ (Permutation_sym (sorted_perm _ _))).
      apply raw_cfg_entries. now exists filename, mtime. }
    rewrite Hk in He. destruct He.
  - set (raw := flat_map _ listing) in *.
    remember (filter (fun entry => allowed (snd entry)) (Py.sorted leb raw))
      as kept eqn:Ekept.
    assert (Hsorted : StronglySorted (Py.le_of leb) kept).
    { rewrite Ekept. apply filter_strongly_sorted.
      now apply sorted_strongly_sorted. }
    assert (He : In (mtime, stem filename) kept).
    { rewrite Ekept. apply filter_In. split; [|exact Hallowed].
      apply (Permutation_in _ (Permutation_sym (sorted_perm _ _))).
      apply raw_cfg_entries. now exists filename, mtime. }
    destruct kept as [|k0 kept']; [congruence|].
    assert (Hk0 : In k0 (filter (fun entry => allowed (snd entry))
                           (Py.sorted leb raw))).
    { rewrite <- Ekept. now left. }
    apply filter_In in Hk0. destruct Hk0 as [Hk0 Ha0].
    apply (Permutation_in _ (sorted_perm _ _)) in Hk0.
    apply raw_cfg_entries in Hk0.
    destruct Hk0 as (newest & newest_mtime & H1 & H2 & E0).
    exists newest, newest_mtime.
    split; [exact H1|]. split; [exact H2|].
    split; [now rewrite E0 in Ha0|].
    split; [cbn [map hd]; now rewrite E0|].
    destruct He as [He | He].
    + rewrite E0 in He. injection He as <- _. apply Qle_refl.
    + inversion Hsorted as [|? ? _ Hall]; subst.
      rewrite Forall_forall in Hall. specialize (Hall _ He).
      unfold Py.le_of, leb in Hall. apply preset_leb_mtime in Hall.
      exact Hall.
Qed.

End PresetList.

(** ** [copy_setting]: what the copy shares with the original *)

Section CopySetting.

Import Setting.
Local Open Scope nat_scope.

Lemma deref_alloc_old (h : heap) (o : object) (r : nat) :
  r < List.length h -> deref (fst (alloc h o)) r = deref h r.
Proof. intro H. unfold deref, alloc. cbn [fst]. now apply nth_error_app1. Qed.

Lemma deref_alloc_new (h : heap) (o : object) :
  deref (fst (alloc h o)) (snd (alloc h o)) = Some o.
Proof.
  unfold deref, alloc. cbn [fst snd].
  rewrite nth_error_app2 by lia. now rewrite Nat.sub_diag.
Qed.

Lemma deref_valid (h : heap) (r : nat) (o : object) :
  deref h r = Some o -> r < List.length h.
Proof. intro H. apply nth_error_Some. unfold deref in H. congruence. Qed.

Lemma length_update (h : heap) (r : nat) (o : object) :
  List.length (update h r o) = List.length h.
Proof.
  revert r. induction h as [|x h IH]; intros [|r]; cbn; auto.
Qed.

Lemma deref_update_same (h : heap) (r : nat) (o : object) :
  r < List.length h -> deref (update h r o) r = Some o.
Proof.
  revert r. induction h as [|x h IH]; intros r H; [cbn in H; lia|].
  destruct r as [|r]; [reflexivity|].
  cbn. apply IH. cbn in H. lia.
Qed.

Lemma deref_update_other (h : heap) (r r' : nat) (o : object) :
  r' <> r -> deref (update h r o) r' = deref h r'.
Proof.
  revert r r'. induction h as [|x h IH]; intros r r' H.
  - destruct r; reflexivity.
  - destruct r as [|r], r' as [|r']; try reflexivity; [congruence|].
    cbn. apply IH. congruence.
Qed.

Lemma find_assign (items : list (string * value)) (key : string) (v : value) :
  option_map snd (find (fun kv => String.eqb (fst kv) key) (assign items key v))
  = Some v.
Proof.
  induction items as [|[k old] items IH]; cbn.
  - now rewrite String.eqb_refl.
  - destruct (String.eqb k key) eqn:E; cbn; rewrite E; [reflexivity | exact IH].
Qed.

(** What the copy of the items allocates: one new object for each item,
    with the content of the object the item refers to in the heap [h0]
    the copy started from. *)
Lemma copy_items_spec (h0 : heap) (items : list (string * value)) :
  forall h,
  List.length h0 <= List.length h ->
  (forall r, r < List.length h0 -> deref h r = deref h0 r) ->
  sections_of_plain h0 items ->
  exists h' items',
    copy_items h items = Some (h', items')
    /\ List.length h' = List.length h + List.length items
    /\ (forall r, r < List.length h -> deref h' r = deref h r)
    /\ Forall2 (fun kv kv' =>
                  fst kv' = fst kv
                  /\ exists r r',
                       snd kv = Ref r /\ snd kv' = Ref r'
                       /\ List.length h <= r' < List.length h'
                       /\ r < List.length h0
                       /\ deref h' r' = deref h0 r)
               items items'.
Proof.
  induction items as [|[key item] rest IH]; intros h Hle Hbase Hs.
  - exists h, []. cbn. repeat split; auto; constructor.
  - inversion Hs as [|? ? (r & inner & Hitem & Hr) Hrest]; subst.
    cbn [snd] in Hitem. subst item.
    assert (Hr0 := deref_valid _ _ _ Hr).
    cbn [copy_items copy_value]. rewrite (Hbase r Hr0), Hr.
    set (h1 := h ++ [Dict inner]).
    assert (Hold : forall q, q < List.length h -> deref h1 q = deref h q).
    { intros q Hq. unfold h1, deref. now apply nth_error_app1. }
    assert (Hlen1 : List.length h1 = List.length h + 1).
    { unfold h1. rewrite length_app. reflexivity. }
    destruct (IH h1) as (h' & rest' & Ec & Hlen & Hkeep & Hall).
    { lia. }
    { intros q Hq. rewrite Hold by lia. now apply Hbase. }
    { exact Hrest. }
    cbn [alloc]. fold h1. rewrite Ec.
    exists h', ((key, Ref (List.length h)) :: rest').
    split; [reflexivity|]. split; [cbn [List.length]; lia|].
    split.
    + intros q Hq. rewrite Hkeep by lia. now apply Hold.
    + constructor.
      * split; [reflexivity|]. exists r, (List.length h).
        split; [reflexivity|]. split; [reflexivity|]. split; [lia|].
        split; [exact Hr0|].
        rewrite Hkeep by lia. unfold h1, deref.
        rewrite nth_error_app2 by lia. rewrite Nat.sub_diag. cbn.
        symmetry. exact Hr.
      * eapply Forall2_impl; [|exact Hall].
        intros kv kv' (Hk & q & q' & E1 & E2 & Hq' & Hq0 & Hd).
        split; [exact Hk|]. exists q, q'.
        split; [exact E1|]. split; [exact E2|]. split; [lia|].
        split; [exact Hq0 | exact Hd].
Qed.

(** Looking a key up in the copied items finds the copy of what the key
    holds in the original items. *)
Lemma find_copied (key : string) (items items' : list (string * value))
    (P : value -> value -> Prop) :
  Forall2 (fun kv kv' => fst kv' = fst kv /\ P (snd kv) (snd kv')) items items' ->
  match find (fun kv => String.eqb (fst kv) key) items,
        find (fun kv => String.eqb (fst kv) key) items' with
  | Some kv, Some kv' => P (snd kv) (snd kv')
  | None, None => True
  | _, _ => False
  end.
Proof.
  induction 1 as [|kv kv' l l' [Hk Hp] _ IH]; cbn; [exact I|].
  rewrite Hk. destruct (String.eqb (fst kv) key); [exact Hp | exact IH].
Qed.

Lemma get_item_agree (h h2 : heap) (r : nat) (key : string) :
  deref h2 r = deref h r -> get_item h2 r key = get_item h r key.
Proof. intro H. unfold get_item. now rewrite H. Qed.

Lemma get_item_same_object (h h2 : heap) (r r2 : nat) (key : string) :
  deref h2 r2 = deref h r -> get_item h2 r2 key = get_item h r key.
Proof. intro H. unfold get_item. now rewrite H. Qed.

Lemma find_section (h : heap) (items : list (string * value)) (key : string)
    (kv : string * value) :
  sections_of_plain h items ->
  find (fun kv => String.eqb (fst kv) key) items = Some kv ->
  exists r inner, snd kv = Ref r /\ deref h r = Some (Dict inner).
Proof.
  intros Hs Hf. apply find_some in Hf. destruct Hf as [Hin _].
  unfold sections_of_plain in Hs. rewrite Forall_forall in Hs.
  now apply Hs.
Qed.

(** A heap that agrees with [h] on the objects of [h] gives the same
    nested lookups through a dict of dicts of [h]. *)
Lemma get_nested_agree (h h2 : heap) (d : nat) (items : list (string * value)) :
  deref h d = Some (Dict items) -> sections_of_plain h items ->
  (forall r, r < List.length h -> deref h2 r = deref h r) ->
  forall section key, get_nested h2 d section key = get_nested h d section key.
Proof.
  intros Hd Hs Hagree section key. unfold get_nested.
  rewrite (get_item_agree h h2 d section)
    by (apply Hagree; now apply deref_valid in Hd).
  unfold get_item at 1 3. rewrite Hd.
  destruct (find _ items) as [kv|] eqn:Ef; [|reflexivity]. cbn [option_map].
  destruct (find_section h items section kv Hs Ef) as (r & inner & -> & Hr).
  apply get_item_agree. apply Hagree. now apply deref_valid in Hr.
Qed.

(** X25. The copy of a dict of dicts, as the default setting is, shares no
    section with the original: [copy_setting] leaves the objects there
    were as they are, the copy reads like the original, and an
    assignment [copy[section][key] = v] shows in the copy and leaves
    every [original[section][key]] as it was. *)
Theorem copy_setting_isolates_sections (h : heap) (dict_user : nat)
    (items : list (string * value)) :
  deref h dict_user = Some (Dict items) ->
  items <> [] ->
  sections_of_plain h items ->
  exists h' copied,
    copy_setting h dict_user = Some (h', copied)
    /\ (forall r, r < List.length h -> deref h' r = deref h r)
    /\ (forall section key,
          get_nested h' copied section key
          = get_nested h dict_user section key)
    /\ (forall section key v h'',
          set_nested h' copied section key v = Some h'' ->
          get_nested h'' copied section key = Some v
          /\ forall s k,
               get_nested h'' dict_user s k = get_nested h dict_user s k).
Proof.
  intros Hd Hne Hs.
  destruct (copy_items_spec h items h (Nat.le_refl _) (fun r _ => eq_refl) Hs)
    as (h1 & items' & Ec & Hlen & Hkeep & Hall).
  assert (Hfirst : exists key0 item0 rest,
             items = (key0, item0) :: rest /\ is_dict h item0 = true).
  { destruct items as [|[key0 item0] rest]; [congruence|].
    exists key0, item0, rest. split; [reflexivity|].
    inversion Hs as [|? ? (r & inner & E1 & E2) _]; subst.
    cbn [snd] in E1. subst item0. unfold is_dict. now rewrite E2. }
  destruct Hfirst as (key0 & item0 & rest & Eitems & Hdict).
  set (h' := h1 ++ [Dict items']).
  set (copied := List.length h1).
  assert (Hcopy : copy_setting h dict_user = Some (h', copied)).
  { unfold copy_setting. rewrite Hd, Eitems, Hdict, <- Eitems, Ec. reflexivity. }
  assert (Hh' : forall r, r < List.length h1 -> deref h' r = deref h1 r).
  { intros r Hr. unfold h', deref. now apply nth_error_app1. }
  assert (Hcopied : deref h' copied = Some (Dict items')).
  { unfold h', copied, deref. rewrite nth_error_app2 by lia.
    now rewrite Nat.sub_diag. }
  assert (Hold : forall r, r < List.length h -> deref h' r = deref h r).
  { intros r Hr. rewrite Hh' by lia. now apply Hkeep. }
  (* what a section of the copy is *)
  assert (Hsec : forall section,
    match get_item h dict_user section, get_item h' copied section with
    | Some v, Some v' =>
        exists r r', v = Ref r /\ v' = Ref r'
                     /\ List.length h <= r' < List.length h1
                     /\ r < List.length h
                     /\ deref h' r' = deref h r
    | None, None => True
    | _, _ => False
    end).
  { intro section. unfold get_item. rewrite Hd, Hcopied.
    assert (Hf := find_copied section items items'
                    (fun v v' => exists r r', v = Ref r /\ v' = Ref r'
                       /\ List.length h <= r' < List.length h1
                       /\ r < List.length h
                       /\ deref h1 r' = deref h r) Hall).
    destruct (find _ items) as [kv|], (find _ items') as [kv'|];
      cbn [option_map]; try exact Hf.
    destruct Hf as (r & r' & E1 & E2 & Hr' & Hr & Hdr).
    exists r, r'. repeat split; try assumption; try lia.
    rewrite Hh' by lia. exact Hdr. }
  exists h', copied. split; [exact Hcopy|]. split; [exact Hold|]. split.
  - intros section key. unfold get_nested. specialize (Hsec section).
    destruct (get_item h dict_user section) as [v|],
             (get_item h' copied section) as [v'|]; try contradiction;
      [|reflexivity].
    destruct Hsec as (r & r' & -> & -> & _ & _ & Hdr).
    now apply get_item_same_object.
  - intros section key v h'' Hset. unfold set_nested in Hset.
    specialize (Hsec section).
    destruct (get_item h' copied section) as [v'|] eqn:Eg; [|discriminate].
    destruct (get_item h dict_user section) as [v0|]; [|contradiction].
    destruct Hsec as (r & r' & -> & -> & Hr' & Hr & Hdr).
    unfold set_item in Hset.
    destruct (deref h' r') as [[inner|]|] eqn:Er'; try discriminate.
    injection Hset as <-.
    assert (Hlen' : List.length h' = List.length h1 + 1).
    { unfold h'. rewrite length_app. reflexivity. }
    split.
    + unfold get_nested.
      rewrite (get_item_agree h' _ copied section)
        by (apply deref_update_other; unfold copied; lia).
      rewrite Eg. unfold get_item.
      rewrite deref_update_same by lia. apply find_assign.
    + apply (get_nested_agree h _ dict_user items Hd Hs).
      intros q Hq. rewrite deref_update_other by lia. now apply Hold.
Qed.

(** X26. When the first item of a dict is not a dict, [copy_setting] returns
    the shallow copy, whatever the other items are: the copy holds the
    very objects of the original, so that an assignment
    [copy[section][key] = v] to a section that is a dict shows in
    [original[section][key]]. *)
Theorem copy_setting_shares_sections_behind_a_plain_item (h : heap)
    (dict_user : nat) (key0 : string) (first : value)
    (rest : list (string * value)) :
  deref h dict_user = Some (Dict ((key0, first) :: rest)) ->
  is_dict h first = false ->
  exists h' copied,
    copy_setting h dict_user = Some (h', copied)
    /\ copied <> dict_user
    /\ (forall section,
          get_item h' copied section = get_item h dict_user section)
    /\ (forall section r1 inner key v,
          get_item h dict_user section = Some (Ref r1) ->
          deref h r1 = Some (Dict inner) ->
          r1 <> dict_user ->
          exists h'',
            set_nested h' copied section key v = Some h''
            /\ get_nested h'' dict_user section key = Some v).
Proof.
  intros Hd Hfirst.
  set (items := (key0, first) :: rest) in *.
  set (h' := h ++ [Dict items]).
  assert (Hvalid := deref_valid _ _ _ Hd).
  assert (Hold : forall r, r < List.length h -> deref h' r = deref h r).
  { intros r Hr. unfold h', deref. now apply nth_error_app1. }
  assert (Hcopied : deref h' (List.length h) = Some (Dict items)).
  { unfold h', deref. rewrite nth_error_app2 by lia. now rewrite Nat.sub_diag. }
  assert (Hitem : forall section,
             get_item h' (List.length h) section = get_item h dict_user section).
  { intro section. unfold get_item. now rewrite Hcopied, Hd. }
  exists h', (List.length h).
  split; [unfold copy_setting; rewrite Hd; unfold items; now rewrite Hfirst|].
  split; [lia|]. split; [exact Hitem|].
  intros section r1 inner key v Hsec Hr1 Hneq.
  assert (Hv1 := deref_valid _ _ _ Hr1).
  assert (Hlen' : List.length h' = List.length h + 1).
  { unfold h'. rewrite length_app. reflexivity. }
  exists (update h' r1 (Dict (assign inner key v))). split.
  - unfold set_nested. rewrite Hitem, Hsec. unfold set_item.
    now rewrite (Hold r1 Hv1), Hr1.
  - unfold get_nested.
    rewrite (get_item_agree h' _ dict_user section)
      by (apply deref_update_other; congruence).
    rewrite (get_item_agree h h' dict_user section) by now apply Hold.
    rewrite Hsec. unfold get_item.
    rewrite deref_update_same by lia. apply find_assign.
Qed.

Lemma copy_items_plain (items : list (string * value)) (key : string) (n : Z) :
  In (key, Plain n) items -> forall h, copy_items h items = None.
Proof.
  induction items as [|[k item] rest IH]; intros Hin h; [destruct Hin|].
  cbn [copy_items].
  destruct Hin as [E | Hin].
  - injection E as -> ->. reflexivity.
  - destruct (copy_value h item) as [[h1 item']|]; [|reflexivity].
    now rewrite (IH Hin h1).
Qed.

(** X27. When the first item of a dict is a dict, every item is copied: an
    item without a [copy] method, a number or a string say, makes
    [copy_setting] raise. *)
Theorem copy_setting_needs_copyable_items (h : heap) (dict_user r0 : nat)
    (key0 key : string) (inner rest : list (string * value)) (n : Z) :
  deref h dict_user = Some (Dict ((key0, Ref r0) :: rest)) ->
  deref h r0 = Some (Dict inner) ->
  In (key, Plain n) rest ->
  copy_setting h dict_user = None.
Proof.
  intros Hd Hr0 Hin. unfold copy_setting. rewrite Hd.
  unfold is_dict. rewrite Hr0.
  rewrite (copy_items_plain _ key n); [reflexivity | now right].
Qed.

End CopySetting.

(** ** The lap time fields of the fuel calculator *)

Section LapTimeFields.

Import LapTimeInput.

Ltac fields_step K :=
  match goal with
  | |- context [Z.ltb ?a ?b] => destruct (Z.ltb_spec a b); try lia
  | |- context [Z.eqb ?a ?b] => destruct (Z.eqb_spec a b); try lia
  | |- context [?U {| minutes := ?a; seconds := ?b; mseconds := ?c |}] =>
      rewrite (K {| minutes := a; seconds := b; mseconds := c |})
        by (unfold carried; cbn [minutes seconds mseconds]; lia)
  end;
  cbn [and_then minutes seconds mseconds orb].

Ltac fields_unfold :=
  unfold carry_over_body, carry_seconds, carry_mseconds, set_minutes,
    set_seconds, set_mseconds, bound;
  cbn [and_then minutes seconds mseconds orb].

(** A lap time proper is left as it is, whatever the connected slot
    does. *)
Lemma body_keeps_carried (U : fields -> option fields) (w : fields) :
  carried w -> carry_over_body U w = Some w.
Proof.
  destruct w as [m s ms]. unfold carried. cbn [minutes seconds mseconds].
  intro H. fields_unfold. repeat fields_step U. reflexivity.
Qed.

(** With milliseconds in order, one level of nesting is enough. *)
Lemma body_carries_seconds (U : fields -> option fields) (w : fields) :
  (forall x, carried x -> U x = Some x) ->
  in_range w -> 0 <= mseconds w <= 999 ->
  exists w', carry_over_body U w = Some w' /\ carried w'.
Proof.
  intros K. destruct w as [m s ms]. unfold in_range.
  cbn [minutes seconds mseconds]. intros H Hms.
  fields_unfold.
  repeat fields_step K;
    (eexists; split; [reflexivity | unfold carried; cbn; lia]).
Qed.

(** With seconds in order, two levels are enough: the carry of the
    milliseconds can push the seconds out of order once. *)
Lemma body_carries_mseconds (U : fields -> option fields) (w : fields) :
  (forall x, carried x -> U x = Some x) ->
  (forall x, in_range x -> 0 <= mseconds x <= 999 ->
             exists x', U x = Some x' /\ carried x') ->
  in_range w -> 0 <= seconds w <= 59 ->
  exists w', carry_over_body U w = Some w' /\ carried w'.
Proof.
  intros K1 K2. destruct w as [m s ms]. unfold in_range.
  cbn [minutes seconds mseconds]. intros H Hs.
  fields_unfold.
  repeat fields_step K1;
    first [ eexists; split; [reflexivity | unfold carried; cbn; lia]
          | apply K2; unfold in_range; cbn [minutes seconds mseconds]; lia ].
Qed.

Lemma set_minutes_carried (U : fields -> option fields) (v : Z) (w : fields) :
  (forall x, carried x -> U x = Some x) ->
  carried w ->
  exists w', set_minutes U v w = Some w' /\ carried w'.
Proof.
  intros K1. destruct w as [m s ms]. unfold carried.
  cbn [minutes seconds mseconds]. intro H.
  unfold set_minutes, bound. cbn [minutes seconds mseconds].
  repeat fields_step K1;
    (eexists; split; [reflexivity | unfold carried; cbn; lia]).
Qed.

Lemma carry_mseconds_keeps (U : fields -> option fields) (w : fields) :
  carried w -> carry_mseconds U w = Some w.
Proof.
  destruct w as [m s ms]. unfold carried. cbn [minutes seconds mseconds].
  intro H. unfold carry_mseconds. cbn [minutes seconds mseconds].
  repeat fields_step U. reflexivity.
Qed.

(** Three levels are enough for any values the boxes can hold. *)
Lemma body_carries_all (U : fields -> option fields) (w : fields) :
  (forall x, carried x -> U x = Some x) ->
  (forall x, in_range x -> 0 <= mseconds x <= 999 ->
             exists x', U x = Some x' /\ carried x') ->
  (forall x, in_range x -> 0 <= seconds x <= 59 ->
             exists x', U x = Some x' /\ carried x') ->
  in_range w ->
  exists w', carry_over_body U w = Some w' /\ carried w'.
Proof.
  intros K1 K2 K3 H.
  destruct (Z.lt_ge_cases 59 (seconds w)) as [Hhi | Hhi];
    [|destruct (Z.lt_ge_cases (seconds w) 0) as [Hlo | Hlo]].
  - (* seconds = 60 *)
    destruct w as [m s ms]. unfold in_range in H.
    cbn [minutes seconds mseconds] in *.
    unfold carry_over_body, carry_seconds. cbn [minutes seconds mseconds].
    destruct (Z.ltb_spec 59 s); [|lia].
    unfold set_seconds at 1, bound. cbn [minutes seconds mseconds].
    destruct (Z.eqb_spec (Z.max (-1) (Z.min 60 0)) s); [lia|].
    destruct (K3 {| minutes := m; seconds := Z.max (-1) (Z.min 60 0);
                    mseconds := ms |}) as (w1 & -> & C1);
      [unfold in_range; cbn; lia | cbn; lia |].
    cbn [and_then].
    destruct (set_minutes_carried U (minutes w1 + 1) w1 K1 C1) as (w2 & -> & C2).
    cbn [and_then]. exists w2. split; [now apply carry_mseconds_keeps | exact C2].
  - (* seconds = -1 *)
    destruct w as [m s ms]. unfold in_range in H.
    cbn [minutes seconds mseconds] in *.
    unfold carry_over_body, carry_seconds. cbn [minutes seconds mseconds].
    destruct (Z.ltb_spec 59 s); [lia|].
    destruct (Z.ltb_spec s 0); [|lia].
    destruct (Z.ltb_spec 0 m).
    + unfold set_seconds at 1, bound. cbn [minutes seconds mseconds].
      destruct (Z.eqb_spec (Z.max (-1) (Z.min 60 59)) s); [lia|].
      destruct (K3 {| minutes := m; seconds := Z.max (-1) (Z.min 60 59);
                      mseconds := ms |}) as (w1 & -> & C1);
        [unfold in_range; cbn; lia | cbn; lia |].
      cbn [and_then].
      destruct (set_minutes_carried U (minutes w1 - 1) w1 K1 C1) as (w2 & -> & C2).
      cbn [and_then]. exists w2.
      split; [now apply carry_mseconds_keeps | exact C2].
    + unfold set_seconds at 1, bound. cbn [minutes seconds mseconds].
      destruct (Z.eqb_spec (Z.max (-1) (Z.min 60 0)) s); [lia|].
      destruct (K3 {| minutes := m; seconds := Z.max (-1) (Z.min 60 0);
                      mseconds := ms |}) as (w1 & -> & C1);
        [unfold in_range; cbn; lia | cbn; lia |].
      cbn [and_then]. exists w1.
      split; [now apply carry_mseconds_keeps | exact C1].
  - apply body_carries_mseconds; auto; lia.
Qed.

(** X20. The lap time fields come out in order. Whatever values the three
    boxes hold within their ranges when [update_input] runs, the carry
    over ends, nesting through the [valueChanged] signal of the boxes it
    sets no more than four deep, and leaves a lap time proper: seconds
    within 0 to 59, milliseconds within 0 to 999; a lap time proper is
    left as it is. *)
Theorem lap_time_fields_are_carried_over (depth : nat) (w : fields) :
  in_range w -> (4 <= depth)%nat ->
  exists w',
    carry_over_laptime depth w = Some w'
    /\ carried w'
    /\ (carried w -> w' = w).
Proof.
  intros H Hd.
  destruct depth as [|[|[|[|d]]]]; try lia.
  assert (K1 : forall n x, carried x -> carry_over_laptime (S n) x = Some x).
  { intros n x Hx. now apply body_keeps_carried. }
  assert (K2 : forall n x, in_range x -> 0 <= mseconds x <= 999 ->
                 exists x', carry_over_laptime (S (S n)) x = Some x'
                            /\ carried x').
  { intros n x Hx Hms.
    apply (body_carries_seconds (carry_over_laptime (S n)));
      [apply K1 | exact Hx | exact Hms]. }
  assert (K3 : forall n x, in_range x -> 0 <= seconds x <= 59 ->
                 exists x', carry_over_laptime (S (S (S n))) x = Some x'
                            /\ carried x').
  { intros n x Hx Hs.
    apply (body_carries_mseconds (carry_over_laptime (S (S n))));
      [apply K1 | apply K2 | exact Hx | exact Hs]. }
  destruct (body_carries_all (carry_over_laptime (S (S (S d)))) w
              (K1 _) (K2 _) (K3 _) H) as (w' & E & C).
  exists w'. split; [exact E|]. split; [exact C|].
  intro Hw. change (carry_over_laptime (S (S (S (S d)))) w)
              with (carry_over_body (carry_over_laptime (S (S (S d)))) w) in E.
  rewrite (body_keeps_carried _ w Hw) in E. congruence.
Qed.

End LapTimeFields.

(** ** The properties at work on the scenarios *)

Lemma pit_lap_is_not_stored_witness :
  let before := Fuel.run Fuel.telemetry_fuel (Fuel.init_state Fuel.DELTA_DEFAULT 0)
                  [Some (Fuel.reading_at 100 50 1000 150 90 50)] in
  let lap_start := Fuel.tick Fuel.telemetry_fuel before FuelRealtime.pit_start in
  Fuel.lap_boundary before FuelRealtime.pit_start = true
  /\ Fuel.in_pits FuelRealtime.pit_start = true
  /\ Fuel.pit_lap_read
       (Fuel.run Fuel.telemetry_fuel lap_start [Some FuelRealtime.pit_reading])
       Fuel.lap_end = true
  /\ Fuel.lap_completed
       (Fuel.run Fuel.telemetry_fuel lap_start [Some FuelRealtime.pit_reading])
       Fuel.lap_end = false
  /\ Fuel.pit_lap_read
       (Fuel.run Fuel.telemetry_fuel lap_start
          [Some (Fuel.reading_at 200 10 500 210 90 48)])
       Fuel.lap_end = false
  /\ Fuel.lap_completed
       (Fuel.run Fuel.telemetry_fuel lap_start
          [Some (Fuel.reading_at 200 10 500 210 90 48)])
       Fuel.lap_end = true.
Proof.
  intros before lap_start.
  assert (Hb : Fuel.lap_boundary before FuelRealtime.pit_start = true)
    by (vm_compute; reflexivity).
  assert (H1 : Fuel.no_boundary Fuel.telemetry_fuel lap_start
                 [Some FuelRealtime.pit_reading] = true)
    by (vm_compute; reflexivity).
  destruct (pit_lap_is_not_stored Fuel.telemetry_fuel before
              FuelRealtime.pit_start [Some FuelRealtime.pit_reading]
              Fuel.lap_end Hb H1) as [Hiff Hpit].
  assert (Hp : Fuel.pit_lap_read
                 (Fuel.run Fuel.telemetry_fuel lap_start
                    [Some FuelRealtime.pit_reading]) Fuel.lap_end = true).
  { apply Hiff. right. exists FuelRealtime.pit_reading.
    split; [now left | reflexivity]. }
  split; [exact Hb|]. split; [reflexivity|]. split; [exact Hp|].
  split; [exact (proj1 (Hpit Hp))|].
  split; vm_compute; reflexivity.
Defined.

Lemma accepted_curve_survives_restart_witness :
  let s := Fuel.run Fuel.telemetry_fuel (Fuel.init_state Fuel.DELTA_DEFAULT 0)
             FuelRealtime.first_session in
  Fuel.delayed_save s = true
  /\ exists fs' used,
       FuelRealtime.update_pass Fuel.no_number Fuel.spec_validator "deltabest/"
         false "track - car" Fuel.lap_end Fuel.lap_end
         {| FuelRealtime.gen_calc_fuel := Some ("track - car"%string, s);
            FuelRealtime.disk := Fuel.empty_store |}
       = Ok (Some {| FuelRealtime.gen_calc_fuel := None;
                     FuelRealtime.disk := fs' |})
       /\ Fuel.last_row_column (Fuel.delta_list_last s) 1 = Ok used
       /\ FuelRealtime.update_pass Fuel.no_number Fuel.spec_validator
            "deltabest/" true "track - car" Fuel.lap_end Fuel.lap_end
            {| FuelRealtime.gen_calc_fuel := None; FuelRealtime.disk := fs' |}
          = Ok (Some {| FuelRealtime.gen_calc_fuel :=
                          Some ("track - car"%string,
                                Fuel.tick Fuel.telemetry_fuel
                                  (Fuel.tick Fuel.telemetry_fuel
                                     (Fuel.init_state (Fuel.delta_list_last s)
                                        used)
                                     Fuel.lap_end) Fuel.lap_end);
                        FuelRealtime.disk := fs' |}).
Proof.
  intro s.
  assert (H1 : Fuel.delayed_save s = true) by (vm_compute; reflexivity).
  split; [exact H1|].
  destruct (accepted_curve_survives_restart Fuel.no_number Fuel.spec_validator
              "deltabest/" Fuel.empty_store "track - car" "track - car"
              Fuel.DELTA_DEFAULT 0
              FuelRealtime.first_session Fuel.lap_end Fuel.lap_end H1)
    as (fs' & used & Hs & _ & _ & Hu & Hr).
  - vm_compute. discriminate.
  - discriminate.
  - vm_compute. reflexivity.
  - exists fs', used. split; [exact Hs|]. split; [exact Hu | exact Hr].
Defined.

Lemma load_delta_idempotent_witness :
  let repaired :=
    Fuel.write Fuel.damaged_store
      (Fuel.path_of "deltabest/" "track - car" "fuel")
      (Fuel.Rows Fuel.ten_rows) in
  Fuel.load_delta Fuel.no_number Fuel.spec_validator Fuel.damaged_store
    "deltabest/" "track - car" "fuel"
  = Ok (repaired,
        (Fuel.numeric Fuel.ten_rows, Fuel.Num (18 # 10)%Q, Fuel.Num 90%Q))
  /\ Fuel.damaged_store (Fuel.path_of "deltabest/" "track - car" "fuel")
     <> Fuel.Rows Fuel.ten_rows
  /\ Fuel.load_delta Fuel.no_number Fuel.spec_validator repaired
       "deltabest/" "track - car" "fuel"
     = Ok (repaired,
           (Fuel.numeric Fuel.ten_rows, Fuel.Num (18 # 10)%Q, Fuel.Num 90%Q)).
Proof.
  intro repaired.
  assert (H1 : Fuel.load_delta Fuel.no_number Fuel.spec_validator
                 Fuel.damaged_store "deltabest/" "track - car" "fuel"
               = Ok (repaired,
                     (Fuel.numeric Fuel.ten_rows, Fuel.Num (18 # 10)%Q,
                      Fuel.Num 90%Q))) by reflexivity.
  split; [exact H1|]. split; [vm_compute; discriminate|].
  apply (load_delta_idempotent Fuel.no_number Fuel.spec_validator "deltabest/"
           "track - car" Fuel.damaged_store repaired
           (Fuel.numeric Fuel.ten_rows) Fuel.ten_rows _ _ H1).
  - reflexivity.
  - intros rows l Hr Hv. vm_compute in Hr. injection Hr as <-.
    vm_compute in Hv. injection Hv as <-. reflexivity.
Defined.

(** Without the condition on the list the second load can differ: a line
    of quoted fields that the validator lets through is written back
    bare when the first load repairs the file, and the second load,
    which finds an unquoted field that spells no number, returns the
    default dataset. *)
Example text_row_is_lost_on_reload :
  exists fs1 lastlist used_last laptime_last,
    Fuel.load_delta Fuel.no_number Fuel.spec_validator Fuel.texted_store
      "deltabest/" "track - car" "fuel"
    = Ok (fs1, (lastlist, used_last, laptime_last))
    /\ In [Fuel.Text "x"; Fuel.Text "y"; Fuel.Text "z"] lastlist
    /\ Fuel.load_delta Fuel.no_number Fuel.spec_validator fs1
         "deltabest/" "track - car" "fuel"
       = Ok (fs1, (Fuel.numeric Fuel.DELTA_DEFAULT, Fuel.Num 0%Q, Fuel.Num 0%Q)).
Proof.
  do 4 eexists. split; [reflexivity|]. split; [right; left; reflexivity|].
  reflexivity.
Qed.

Lemma lap_enters_history_once_witness :
  exists updated,
    FuelRealtime.update_history (Some 3%nat) FuelRealtime.empty_history
      FuelRealtime.after_first_lap = Ok updated
    /\ FuelRealtime.update_history (Some 3%nat) updated
         FuelRealtime.after_first_lap = Ok updated.
Proof.
  destruct (lap_enters_history_once (Some 3%nat) FuelRealtime.empty_history
              FuelRealtime.after_first_lap) as (updated & H1 & H2 & _).
  - discriminate.
  - discriminate.
  - exists updated. split; [exact H1 | exact H2].
Defined.

Lemma relative_index_is_cyclic_window_witness :
  [(10%Q, 2); (5%Q, 0); (0%Q, 1)] <> []
  /\ forall i, 0 <= i < 7 + 0 + 0 ->
       nth (Z.to_nat i)
           (Relative.create_relative_index [(10%Q, 2); (5%Q, 0); (0%Q, 1)] 0
              (7 + 0 + 0) 0 0) (-1)
       = nth (Z.to_nat ((1 - 3 - 0 + i) mod 7)) [2; 0; 1; -1; -1; -1; -1] (-1).
Proof.
  assert (H1 : [(10%Q, 2); (5%Q, 0); (0%Q, 1)] <> []) by discriminate.
  split; [exact H1|].
  exact (relative_index_is_cyclic_window [(10%Q, 2); (5%Q, 0); (0%Q, 1)] 0 0 0
           H1 (Z.le_refl 0) (Z.le_refl 0)).
Defined.

Lemma player_sits_on_centre_row_witness :
  nth (Z.to_nat (3 + Z.min (Z.max 0 0) 60))
      (Relative.relative Relative.spec_calc (Relative.small_settings false)
         Relative.six_cars) (-1)
  = 4.
Proof.
  apply (player_sits_on_centre_row Relative.spec_calc
           (Relative.small_settings false) Relative.six_cars).
  - vm_compute. split; [discriminate | reflexivity].
  - right. right. reflexivity.
Defined.

Lemma relative_rows_are_distinct_witness :
  nth (Z.to_nat 0)
      (Relative.relative Relative.spec_calc (Relative.small_settings false)
         RelativeWidget.two_cars) (-1)
  = nth (Z.to_nat 1)
      (Relative.relative Relative.spec_calc (Relative.small_settings false)
         RelativeWidget.two_cars) (-1)
  /\ nth (Z.to_nat 0)
         (Relative.relative Relative.spec_calc (Relative.small_settings false)
            RelativeWidget.two_cars) (-1)
     = -1.
Proof.
  assert (H : nth (Z.to_nat 0)
                (Relative.relative Relative.spec_calc
                   (Relative.small_settings false) RelativeWidget.two_cars) (-1)
              = nth (Z.to_nat 1)
                  (Relative.relative Relative.spec_calc
                     (Relative.small_settings false) RelativeWidget.two_cars) (-1))
    by (vm_compute; reflexivity).
  split; [exact H|].
  apply (relative_rows_are_distinct Relative.spec_calc
           (Relative.small_settings false) RelativeWidget.two_cars 0 1).
  - lia.
  - vm_compute. reflexivity.
  - exact H.
Defined.

Lemma reference_places_shape_witness :
  Relative.len (Relative.create_reference_place 1 6 6 4) = Z.min 6 4
  /\ StronglySorted Z.lt (Relative.create_reference_place 1 6 6 4).
Proof.
  destruct (reference_places_shape 1 6 6 4) as (H1 & H2 & _).
  - lia.
  - lia.
  - split; [exact H1 | exact H2].
Defined.

Lemma six_cars_ranked : Relative.ranked Relative.six_cars 6.
Proof.
  intros k Hk.
  assert (E : k = 1 \/ k = 2 \/ k = 3 \/ k = 4 \/ k = 5 \/ k = 6) by lia.
  destruct E as [-> | [-> | [-> | [-> | [-> | ->]]]]];
    [exists 1 | exists 3 | exists 0 | exists 2 | exists 5 | exists 4];
    (split; [lia | reflexivity]).
Defined.

Lemma standings_follow_places_witness :
  exists body,
    Relative.standings Relative.spec_calc (Relative.small_settings false)
      Relative.six_cars = Ok (body ++ [-1])
    /\ map (Relative.place Relative.six_cars) body
       = Relative.create_reference_place 1 6 6 4.
Proof.
  destruct (standings_follow_places Relative.spec_calc
              (Relative.small_settings false) Relative.six_cars)
    as (body & H1 & H2 & _).
  - vm_compute. discriminate.
  - exact six_cars_ranked.
  - reflexivity.
  - exists body. split; [exact H1 | exact H2].
Defined.

Lemma classes_indexed_by_vehicle_witness :
  exists class_pos_list place_index_list is_multi_class,
    Relative.create_class_position Relative.spec_calc Relative.six_cars 6
    = Ok (class_pos_list, place_index_list, is_multi_class)
    /\ map Relative.cp_index class_pos_list = Py.range 0 6.
Proof.
  destruct (classes_indexed_by_vehicle Relative.spec_calc Relative.six_cars 6)
    as (cl & pil & m & H1 & H2 & _).
  - lia.
  - exists cl, pil, m. split; [exact H1 | exact H2].
Defined.

Lemma class_neighbours_are_linked_witness :
  exists a b post,
    Relative.create_position_in_class Relative.spec_calc
      (Py.sorted (Relative.leb_of Relative.vehicle_compare)
         (Relative.get_vehicle_class_data Relative.six_cars 6))
    = Ok ([] ++ a :: b :: post)
    /\ Relative.cp_class a = Relative.cp_class b
    /\ Relative.cp_behind a = Relative.cp_index b
    /\ Relative.cp_ahead b = Relative.cp_index a.
Proof.
  do 3 eexists.
  assert (E : Relative.create_position_in_class Relative.spec_calc
                (Py.sorted (Relative.leb_of Relative.vehicle_compare)
                   (Relative.get_vehicle_class_data Relative.six_cars 6))
              = Ok ([] ++ _ :: _ :: _)) by (vm_compute; reflexivity).
  split; [exact E|].
  destruct (class_neighbours_are_linked _ _ _ _ _ _ E) as [Hsame _].
  split; [reflexivity|].
  destruct (Hsame eq_refl) as (_ & H2 & H3 & _).
  split; [exact H2 | exact H3].
Defined.

Lemma saved_radius_is_kept_witness :
  Wheels.yielded
    (Wheels.run Wheels.sample_calc
       (Wheels.calc_wheel_radius_start
          (Wheels.save_radius Wheels.saved_config "car" (33 # 100) (34 # 100))
          "car")
       [Wheels.cruising])
  = ((33 # 100)%Q, (34 # 100)%Q).
Proof.
  apply (saved_radius_is_kept Wheels.sample_calc Wheels.saved_config "car"
           (33 # 100) (34 # 100) [Wheels.cruising]).
  - intro H. vm_compute in H. discriminate.
  - intro H. vm_compute in H. discriminate.
  - cbn. lia.
Defined.

Lemma widget_rows_follow_relative_list_witness :
  RelativeWidget.veh_range 0 0
  = Relative.len (Relative.relative Relative.spec_calc
                    (Relative.small_settings false) Relative.six_cars)
  /\ RelativeWidget.timer_rows (RelativeWidget.veh_range 0 0)
       (Relative.relative Relative.spec_calc (Relative.small_settings false)
          Relative.six_cars) 6
     = Ok (Some (map (fun index => if index =? -1 then None else Some index)
                     (Relative.relative Relative.spec_calc
                        (Relative.small_settings false) Relative.six_cars))).
Proof.
  apply (widget_rows_follow_relative_list Relative.spec_calc
           (Relative.small_settings false) Relative.six_cars 6).
  - vm_compute. discriminate.
  - vm_compute. discriminate.
Defined.

Lemma saved_setting_loads_back_witness :
  Setting.dump_verifies Z Z.eqb Setting.Json 7 = true
  /\ snd (Setting.saving Z Z.eqb Setting.Json 0 "default.json" "settings/" 7
            (fun _ => Setting.Absent)) = true.
Proof.
  assert (H : Setting.dump_verifies Z Z.eqb Setting.Json 7 = true)
    by reflexivity.
  split; [exact H|].
  assert (W := saved_setting_loads_back Z Z.eqb Setting.Json "default.json"
                 "settings/" 7 0 (fun _ => Setting.Absent) 0 H).
  destruct (Setting.saving Z Z.eqb Setting.Json 0 "default.json" "settings/" 7
              (fun _ => Setting.Absent)) as [fs' saved].
  destruct W as (Hs & _). exact Hs.
Defined.

Lemma newest_preset_comes_first_witness :
  exists newest newest_mtime,
    In (newest, newest_mtime) Setting.preset_files
    /\ hd [] (Setting.load_preset_list (fun _ => true) Setting.preset_files)
       = Py.slice newest None (Some (-5))
    /\ (1 <= newest_mtime)%Q.
Proof.
  destruct (newest_preset_comes_first (fun _ => true) Setting.preset_files
              (list_ascii_of_string "old.json") 1%Q)
    as (newest & newest_mtime & H1 & _ & _ & H4 & H5).
  - now left.
  - reflexivity.
  - reflexivity.
  - exists newest, newest_mtime. split; [exact H1|]. split; [exact H4 | exact H5].
Defined.

Lemma copy_setting_isolates_sections_witness :
  exists h' copied,
    Setting.copy_setting Setting.sectioned_heap 1 = Some (h', copied)
    /\ forall key,
         Setting.get_nested h' copied "fuel" key
         = Setting.get_nested Setting.sectioned_heap 1 "fuel" key.
Proof.
  destruct (Setting.copy_setting Setting.sectioned_heap 1) as [[h0 c0]|] eqn:E0;
    [|discriminate E0].
  destruct (copy_setting_isolates_sections Setting.sectioned_heap 1
              [("fuel"%string, Setting.Ref 0)])
    as (h' & copied & H1 & _ & H3 & _).
  - reflexivity.
  - discriminate.
  - constructor; [|constructor].
    exists 0%nat, [("show_fuel"%string, Setting.Plain 1)]. split; reflexivity.
  - rewrite E0 in H1. injection H1 as <- <-.
    exists h0, c0. split; [reflexivity|]. intro key. apply H3.
Defined.

Lemma copy_setting_shares_sections_behind_a_plain_item_witness :
  exists h' copied h'',
    Setting.copy_setting Setting.plain_first_heap 1 = Some (h', copied)
    /\ Setting.set_nested h' copied "fuel" "show_fuel" (Setting.Plain 0)
       = Some h''
    /\ Setting.get_nested h'' 1 "fuel" "show_fuel" = Some (Setting.Plain 0).
Proof.
  destruct (copy_setting_shares_sections_behind_a_plain_item
              Setting.plain_first_heap 1 "version" (Setting.Plain 2)
              [("fuel"%string, Setting.Ref 0)])
    as (h' & copied & H1 & _ & _ & H4).
  - reflexivity.
  - reflexivity.
  - destruct (H4 "fuel"%string 0%nat [("show_fuel"%string, Setting.Plain 1)]
                "show_fuel"%string (Setting.Plain 0))
      as (h'' & H5 & H6).
    + reflexivity.
    + reflexivity.
    + discriminate.
    + exists h', copied, h''. split; [exact H1|]. split; [exact H5 | exact H6].
Defined.

Lemma copy_setting_needs_copyable_items_witness :
  Setting.copy_setting Setting.plain_second_heap 1 = None.
Proof.
  apply (copy_setting_needs_copyable_items Setting.plain_second_heap 1 0
           "fuel" "version" [("show_fuel"%string, Setting.Plain 1)]
           [("version"%string, Setting.Plain 2)] 2).
  - reflexivity.
  - reflexivity.
  - now left.
Defined.

Lemma lap_time_fields_are_carried_over_witness :
  exists w',
    LapTimeInput.carry_over_laptime 4
      {| LapTimeInput.minutes := 5; LapTimeInput.seconds := 60;
         LapTimeInput.mseconds := -1 |} = Some w'
    /\ LapTimeInput.carried w'.
Proof.
  destruct (lap_time_fields_are_carried_over 4
              {| LapTimeInput.minutes := 5; LapTimeInput.seconds := 60;
                 LapTimeInput.mseconds := -1 |})
    as (w' & H1 & H2 & _).
  - unfold LapTimeInput.in_range. cbn. lia.
  - lia.
  - exists w'. split; [exact H1 | exact H2].
Defined.

Lemma joining_lap_is_not_stored_witness :
  Fuel.lap_completed
    (Fuel.run Fuel.telemetry_fuel (Fuel.init_state Fuel.DELTA_DEFAULT 0)
       [Some (Fuel.reading_at 100 50 1000 150 90 50)])
    (Fuel.reading_at 200 0 0 200 90 49)
  = false.
Proof.
  apply (joining_lap_is_not_stored Fuel.telemetry_fuel Fuel.DELTA_DEFAULT 0
           [Some (Fuel.reading_at 100 50 1000 150 90 50)]
           (Fuel.reading_at 200 0 0 200 90 49)).
  vm_compute. reflexivity.
Defined.
